(* ===== verification/_CoqProject ===== *)
-Q . S2P
Prelude.v
Quantities.v
Kube.v
Api.v
GoHeap.v
DeepCopy.v
Duration.v
Resource.v
Qos.v
BoostPod.v
Namespaced.v
Metrics.v
Client.v
ConcreteServer.v
Boost.v
BoostServer.v
Validation.v
PodWebhook.v
Manager.v
Sections.v
Interleaving.v
Concurrency.v
ManagerTick.v
ManagerLoop.v
BoostController.v
Locks.v
Operator.v
Linearizability.v
ConcurrentOperator.v
Lifecycle.v
Config.v
FeatureGates.v
GlobalController.v
ConcreteCluster.v
GlobalDistribution.v
Setup.v
Startup.v
