(* ===== verification/Prelude.v ===== *)
(** * Kube Startup CPU Boost: a verification development

    The operator raises the CPU resources of pods while they start and gives
    the original resources back later, in place.  This library models its Go
    code (src/, module github.com/google/kube-startup-cpu-boost) and proves
    it correct.

    ** The program

    A user creates a StartupCPUBoost in a namespace, or a cluster-wide
    GlobalStartupCPUBoost whose template is copied into namespaces.  The
    validating webhooks check both.  The boost controller watches boosts and
    pods: its event filter registers, updates and deletes boosts in the boost
    manager, its pod handler passes pods on to it.  When a pod is created,
    the mutating webhook asks the manager for a boost that matches the pod,
    raises the CPU resources of its containers by the boost's resource
    policies and records the original ones in an annotation.  The manager
    tracks the pod with the boost.  When the duration policy of the boost is
    over, seen from a pod event or from the periodic check of the manager,
    the boost reverts the pod through the API server and the controller
    updates the status of the boost.

    ** Files

    Data and libraries:
    - Prelude (this file): errors, machine integers, the outcome of code that
      may panic, the state monad [M] with its notation, Go maps, iteration
      orders of [range], the program logic [wp], [eventually].
    - Quantities: resource.Quantity and inf.Dec as classes with laws.
    - Kube: the core/v1 data.  Api: api/v1alpha1, its objects as values.
    - GoHeap: a heap, pointers and slices over it, and a small logic of
      footprints.  DeepCopy: the structs of api/v1alpha1 with their pointers
      and the copy functions of zz_generated.deepcopy.go.
    - Metrics: internal/metrics.  Client: the API client for pods.
    - ConcreteServer, ConcreteCluster: an instance of every interface, used by
      the witnesses only.

    Policies and pods:
    - Duration: internal/boost/duration.  Resource: internal/boost/resource.
    - Qos: internal/webhook/qos.go.  BoostPod: internal/boost/pod/pod.go.

    Boosts and the manager (internal/boost):
    - Namespaced: util.go.
    - Boost: startupcpuboost.go, each method a computation over a store of
      boosts and pods ([GoState]) because both are shared by pointers.
      BoostServer: the same seen from the pods stored by the API server.
    - Manager: manager.go without the check, a transition system [mgr_step]
      over [managerImpl].  ManagerTick: validateTimePolicyBoosts as
      interleaving goroutines over bounded channels.  ManagerLoop: Start.
    - Sections: the calls of the manager as sequences of atomic sections.
      Interleaving: a program logic for them under interference ([rely],
      [safe]) and what each call promises, in terms of the sections it has
      run ([did], [call_post]).  Concurrency: any
      number of calls at once, a transition system [cstep].
      Linearizability: [cstep] refines a registry of configurations that
      handles one call after the other.
    - Locks: the same methods as sequences of lock operations and accesses to
      shared fields, under every interleaving.

    Webhooks (internal/webhook): Validation, PodWebhook.

    Controllers (internal/controller):
    - BoostController: boost_controller.go and boost_pod_handler.go.
    - Operator: the watches, the manager and its loop put together.
      ConcurrentOperator: the watches with the concurrent manager.
    - Lifecycle: a pod from the webhook over the check or a pod event to its
      reversion at the API server.
    - GlobalController: globalboost_controller.go; GlobalDistribution: its
      correctness.

    Start (internal/config, internal/util, cmd/main.go): Config, FeatureGates,
    Setup (the init functions, SetupWithManager and what else is registered
    with the libraries), Startup.

    ** Conventions

    Definitions keep the names of the source; where a name is taken, the
    receiver is put in front ([Manager_UpsertPod], [impl_Matches]).  An error
    is its message.  A pointer that may be nil is an option; a pointer whose
    sharing matters is an index into a store.  A Go map is a [GoMap] (nil or a
    finite map), and every [range] over a map takes its order from an
    argument, so theorems hold for every order.  Readings of the clock and
    answers of the API server are arguments, too.  A method that holds a lock
    is one step; Locks shows that the locks are taken in one order and protect
    the fields that such steps change.  A call of the manager also calls
    methods of boosts, which have locks of their own: [mgr_step] takes it as
    one step, [cstep] section by section, and [run_body] relates the two.
    int64 and int32 arithmetic goes through [int64] and [int32].

    Code outside src/ is a class of operations; what its documentation
    promises is a class of laws, required only by the theorems that need it:
    [QuantityLaws], [AnnotationJSONLaws], [PodClientLaws], [PodClientBasics],
    [PodServer], [MetricVecLaws], [ConditionLaws], [BoostClientLaws],
    [SemanticLaws], [FinalizerLaws], [GlobalClientLaws], [FreshReads],
    [MemoryLaws], [RuntimeLaws].  Three of them say more than holds at every
    time, and their comments say so: [AnnotationJSONLaws] is about annotations
    whose time is in the years 0 to 9999 and whose container names are valid
    UTF-8, which the clock and the API server guarantee; [FreshReads] and the
    second law of [BoostClientLaws] are about an informer cache that has caught
    up; [PodServer] is about a server that accepts the reversion of an
    up-to-date copy.  Between components, [PodBoosts] with
    [PodBoostsLaws] is what the webhook asks of the manager and
    [manager_boosts_laws] discharges it.

    ** What is proved

    - The life of a pod: a pod whose time is over is stored with its original
      resources when the next check ends, under every scheduling of the check
      and any interference that leaves the pod alone; a pod that meets the
      condition of its boost is restored by the handling of the event.
    - Pods: the webhook boosts exactly the containers that qualify, never lowers
      their CPU, keeps the QoS class, and a successful reversion restores the
      stored pod, for the update and for the patch method.
    - Policies: values, rounding and bounds of both resource policies, the
      window of the fixed duration.  computePodQOS computes the Kubernetes
      classes for every iteration order.
    - Boosts: tracking, statistics and reversion on every branch, with what
      the API server stores afterwards.
    - The manager: the registry invariant in every reachable state, placement
      and adoption of pods, recovery after a restart.  The same with the
      sections of concurrent calls interleaved with each other and with the
      check: the registry is consistent whenever no writer holds the lock, no
      section panics, every call does what it does as one step up to the
      interference it meets (a registration offers the boost every orphan of
      its namespace and every listed pod with its label), and readers see the
      registry as it was when they took the lock.  So concurrent calls are
      linearizable.  The goroutines of a check never panic, never deadlock and always end; each expired pod is
      processed exactly once; under every scheduling the time of every expired
      pod comes.  Start keeps its flag, its ticker and these invariants in
      composition with all other calls.
    - Locks: no interleaving of calls deadlocks, and the locks protect every
      field of the manager and of a boost but three.
    - The operator: after any interleaving of events and checks the registry
      refines the boosts of the API server, its boosts are well formed, the
      gauge counts them, and no event of an admitted object whose selector
      converts makes it panic; reconciliation converges.  The refinement also holds when boost events,
      pod events, admission requests, reconciliations and checks interleave
      section by section.
    - Global boosts: one run without faults distributes the template, a second
      one changes nothing, boosts of users are never touched whatever fails,
      the finalizer goes once the deletion of every listed child was accepted,
      and the watches miss no change.
    - Deep copies: every generated DeepCopy returns an object that reads the
      same and shares no memory with the original.
    - The start: nothing the program registers is refused, the documented
      metrics are exported and every type it handles is known to the scheme;
      what every environment configures, a round trip of the configuration,
      feature gates for every order of the metrics; an operator that reports
      ready is set up as configured and leads, one whose calls succeed becomes
      ready once it leads, and a standby never does.
    - Flaws: a reversion that the API server refuses once is lost, an admitted
      boost can crash the controller, a transient error deletes a child, the
      child of another global boost keeps a global boost out of a namespace, a
      child with finalizers outlives its global boost, three fields are read
      without a lock, and a pod that is reverted while its
      boost is updated can be tracked again.

    ** Bounds

    No definition uses fuel: loops over lists and maps are structural.  The
    check and the start-up are transition systems whose termination is proved
    with a measure ([tick_weight], [remaining], [weight]).  Channels hold as many
    elements as the code gives them, and the number of workers is a parameter
    that is [DefaultMaxGoroutines] in reachable states.

    ** Not modelled

    Logging, contexts and deadlines; internal/mock (generated, for tests);
    the informers, work queues and the webhook server of controller-runtime,
    which hand events and requests to the modelled code in any order; the
    rotation of certificates beyond its configuration; interface declarations
    and constructors that only store their arguments.  A method of a boost
    holds the lock of the boost and is one section, the call of the API server
    in it included.  The life of a pod is about [mgr_step], where a call is one
    step.  The API objects that
    controllers handle are values there, and the stores of [GoState] hold the
    pods and boosts that are shared; DeepCopy shows that the copies the code
    takes justify this. *)

From Stdlib Require Export QArith.QArith_base QArith.Qreduction QArith.Qring QArith.Qcanon QArith.Qround.
From Stdlib Require Export ZArith Lia Field Strings.Ascii Strings.String.
From stdpp Require Export prelude gmap strings list sorting fin_maps.

#[global] Open Scope Z_scope.

(** ** Errors

    A Go [error] value is its message.  A function of type [(T, error)]
    whose [T] is meaningless when the error is set returns a sum; a
    function of type [error] returns an [option error], [None] standing
    for [nil]. *)

Abbreviation error := string (only parsing).

Declare Scope go_scope.
Delimit Scope go_scope with go.
Notation "'nil_err'" := (@None error) (only parsing) : go_scope.
Abbreviation result A := (string + A)%type (only parsing).

#[global] Open Scope go_scope.

(** ** Machine integers

    [int64] and [int32] values are kept as [Z]; every operation of the
    source that can leave the range goes through the wrap-around. *)

Definition wrap (w z : Z) : Z := (z + 2 ^ (w - 1)) mod 2 ^ w - 2 ^ (w - 1).
Definition int64 (z : Z) : Z := wrap 64 z.
Definition int32 (z : Z) : Z := wrap 32 z.
Definition in_int64 (z : Z) : Prop := - 2 ^ 63 ≤ z < 2 ^ 63.
Definition in_int32 (z : Z) : Prop := - 2 ^ 31 ≤ z < 2 ^ 31.

Lemma wrap_id w z : 0 < w → - 2 ^ (w - 1) ≤ z < 2 ^ (w - 1) → wrap w z = z.
Proof.
  intros Hw Hz. unfold wrap.
  assert (2 ^ w = 2 * 2 ^ (w - 1)) as ->.
  { rewrite <-Z.pow_succ_r by lia. f_equal; lia. }
  rewrite Z.mod_small; lia.
Qed.

Lemma wrap_range w z : 0 < w → - 2 ^ (w - 1) ≤ wrap w z < 2 ^ (w - 1).
Proof.
  intros Hw. unfold wrap.
  assert (2 ^ w = 2 * 2 ^ (w - 1)) as ->.
  { rewrite <-Z.pow_succ_r by lia. f_equal; lia. }
  assert (0 < 2 ^ (w - 1)) by (apply Z.pow_pos_nonneg; lia).
  pose proof (Z.mod_pos_bound (z + 2 ^ (w - 1)) (2 * 2 ^ (w - 1))). lia.
Qed.

Lemma int64_id z : in_int64 z → int64 z = z.
Proof. intros Hz. apply wrap_id; [lia|exact Hz]. Qed.

Lemma int64_range z : in_int64 (int64 z).
Proof. apply (wrap_range 64); lia. Qed.

Lemma int32_id z : in_int32 z → int32 z = z.
Proof. intros Hz. apply wrap_id; [lia|exact Hz]. Qed.

(** ** Panics

    A computation either finishes with a value or panics. *)

Inductive outcome (A : Type) : Type :=
  | Done (a : A)
  | Panic (msg : string).
Arguments Done {A} _.
Arguments Panic {A} _.

#[global] Instance outcome_ret : MRet outcome := λ A a, Done a.
#[global] Instance outcome_bind : MBind outcome := λ A B f m,
  match m with Done a => f a | Panic msg => Panic msg end.
#[global] Instance outcome_fmap : FMap outcome := λ A B f m,
  match m with Done a => Done (f a) | Panic msg => Panic msg end.

(** ** State and panics: the monad of the stateful code *)

Definition M (S A : Type) : Type := S → outcome (A * S).

Definition ret {S A} (a : A) : M S A := λ s, Done (a, s).
Definition bind {S A B} (m : M S A) (f : A → M S B) : M S B := λ s,
  match m s with Done (a, s') => f a s' | Panic msg => Panic msg end.

Notation "'let!' x ':=' m 'in' k" := (bind m (λ x, k))
  (at level 10, x pattern, m at level 200, k at level 200) : go_scope.
Notation "'do!' m 'in' k" := (bind m (λ _ : unit, k))
  (at level 10, m at level 200, k at level 200) : go_scope.

Definition get {S} : M S S := λ s, Done (s, s).
Definition gets {S A} (f : S → A) : M S A := λ s, Done (f s, s).
Definition modify {S} (f : S → S) : M S unit := λ s, Done (tt, f s).
Definition panic {S A} (msg : string) : M S A := λ _, Panic msg.

Lemma bind_Done {S A B} (m : M S A) (f : A → M S B) s a s' :
  m s = Done (a, s') → bind m f s = f a s'.
Proof. intros H. unfold bind. by rewrite H. Qed.

Lemma bind_inv {S A B} (m : M S A) (f : A → M S B) s r :
  bind m f s = Done r → ∃ a s', m s = Done (a, s') ∧ f a s' = Done r.
Proof. unfold bind. destruct (m s) as [[a s']|]; [|done]. eauto. Qed.

(** ** Weakest preconditions

    [wp m Q s]: run in [s], [m] does not panic and its result and final
    state satisfy [Q]. *)

Definition wp {S A} (m : M S A) (Q : A → S → Prop) (s : S) : Prop :=
  match m s with Done (a, s') => Q a s' | Panic _ => False end.

Section wp.
Context {S : Type}.

Lemma wp_elim {A} (m : M S A) Q s : wp m Q s → ∃ a s', m s = Done (a, s') ∧ Q a s'.
Proof. unfold wp. destruct (m s) as [[a s']|]; [eauto|done]. Qed.

Lemma wp_ret {A} (a : A) (Q : A → S → Prop) s : Q a s → wp (ret a) Q s.
Proof. done. Qed.

Lemma wp_bind {A B} (m : M S A) (f : A → M S B) Q s :
  wp m (λ a, wp (f a) Q) s → wp (bind m f) Q s.
Proof. unfold wp, bind. destruct (m s) as [[a s']|]; done. Qed.

Lemma wp_mono {A} (m : M S A) (P Q : A → S → Prop) s :
  wp m P s → (∀ a s', P a s' → Q a s') → wp m Q s.
Proof. unfold wp. destruct (m s) as [[a s']|]; eauto. Qed.

Lemma wp_and {A} (m : M S A) (P Q : A → S → Prop) s :
  wp m P s → wp m Q s → wp m (λ a s', P a s' ∧ Q a s') s.
Proof. unfold wp. destruct (m s) as [[a s']|]; done. Qed.

Lemma wp_Done {A} (m : M S A) (Q : A → S → Prop) s a s' : m s = Done (a, s') → wp m Q s → Q a s'.
Proof. unfold wp. by intros ->. Qed.
End wp.

(** Use a specification of the computation at hand. *)
Tactic Notation "wp_use" uconstr(spec) := eapply wp_mono; [apply spec; try done|cbn beta].

(** ** Results of concrete runs *)

Definition result_state {A S} (o : outcome (A * S)) (d : S) : S :=
  match o with Done (_, s) => s | Panic _ => d end.

Definition succeeds {S} (o : outcome (option error * S)) : bool :=
  match o with Done (None, _) => true | _ => false end.

Lemma succeeds_result {S} (o : outcome (option error * S)) d :
  succeeds o = true → o = Done (None, result_state o d).
Proof. by destruct o as [[[]]|]. Qed.

Definition fails_with {S} (e : error) (o : outcome (option error * S)) : bool :=
  match o with Done (Some e', _) => String.eqb e e' | _ => false end.

Lemma fails_result {S} e (o : outcome (option error * S)) d :
  fails_with e o = true → o = Done (Some e, result_state o d).
Proof. destruct o as [[[]]|]; try done. by intros <-%String.eqb_eq. Qed.

Definition returns {A S} `{EqDecision A} (a : A) (o : outcome (A * S)) : bool :=
  match o with Done (a', _) => bool_decide (a' = a) | Panic _ => false end.

Lemma returns_result {A S} `{EqDecision A} (a : A) (o : outcome (A * S)) d :
  returns a o = true → o = Done (a, result_state o d).
Proof. destruct o as [[a' s]|]; [|done]. cbn. by intros ->%bool_decide_eq_true_1. Qed.

(** ** Go maps with string keys

    [None] is the nil map.  Reading and deleting work on a nil map,
    assigning to an entry of a nil map panics. *)

Abbreviation GoMap V := (option (gmap string V)).

Definition gm_map {V} (m : GoMap V) : gmap string V := default ∅ m.
Definition gm_get {V} (m : GoMap V) (k : string) : option V := gm_map m !! k.
Definition gm_len {V} (m : GoMap V) : nat := size (gm_map m).
Definition gm_set {V} (m : GoMap V) (k : string) (v : V) : outcome (GoMap V) :=
  match m with
  | Some m => Done (Some (<[k := v]> m))
  | None => Panic "assignment to entry in nil map"
  end.
Definition gm_delete {V} (m : GoMap V) (k : string) : GoMap V :=
  delete k <$> m.
(** [if m == nil { m = map[string]V{} }] *)
Definition gm_make_if_nil {V} (m : GoMap V) : GoMap V :=
  Some (gm_map m).

#[global] Arguments gm_map : simpl never.
#[global] Arguments gm_get : simpl never.
#[global] Arguments gm_len : simpl never.
#[global] Arguments gm_delete : simpl never.

Lemma gm_set_make {V} (m : GoMap V) k v :
  gm_set (gm_make_if_nil m) k v = Done (Some (<[k := v]> (gm_map m))).
Proof. done. Qed.

Lemma gm_set_present {V} (m : GoMap V) k v w :
  gm_get m k = Some w → gm_set m k v = Done (Some (<[k := v]> (gm_map m))).
Proof. destruct m as [m|]; [done|]. unfold gm_get, gm_map. cbn. by rewrite lookup_empty. Qed.

Lemma gm_get_delete {V} (m : GoMap V) k k' :
  gm_get (gm_delete m k) k' = if decide (k = k') then None else gm_get m k'.
Proof.
  destruct m as [m|]; unfold gm_get, gm_map, gm_delete; cbn.
  - by rewrite lookup_delete.
  - rewrite lookup_empty. by case_decide.
Qed.

Lemma gm_get_insert {V} (m : gmap string V) k v : gm_get (Some (<[k := v]> m)) k = Some v.
Proof. apply lookup_insert_eq. Qed.

Lemma gm_map_delete {V} (m : GoMap V) k : gm_map (gm_delete m k) = delete k (gm_map m).
Proof. destruct m as [m|]; unfold gm_map; cbn; [done|]. by rewrite delete_empty. Qed.

(** ** Ranging over a map

    The iteration order of a Go map is unspecified and changes from one
    [range] to the next.  Every [range] of the model takes the order it
    uses as an argument: any function that permutes the entries. *)

Record RangeOrder : Type := {
  range_entries : ∀ A : Type, list (string * A) → list (string * A);
  range_entries_perm : ∀ A (l : list (string * A)), range_entries A l ≡ₚ l
}.

Definition go_range {A} (σ : RangeOrder) (m : gmap string A) : list (string * A) :=
  range_entries σ A (map_to_list m).

Definition range_values {A} (σ : RangeOrder) (m : gmap string A) : list A :=
  snd <$> go_range σ m.

Section range.
Context {A : Type} (σ : RangeOrder).
Implicit Types m : gmap string A.

Lemma go_range_perm m : go_range σ m ≡ₚ map_to_list m.
Proof. apply range_entries_perm. Qed.

Lemma elem_of_go_range m k x : (k, x) ∈ go_range σ m ↔ m !! k = Some x.
Proof. by rewrite go_range_perm, elem_of_map_to_list. Qed.

Lemma elem_of_range_values m x : x ∈ range_values σ m ↔ ∃ k, m !! k = Some x.
Proof.
  unfold range_values. rewrite list_elem_of_fmap. split.
  - intros ([k y] & -> & Hin). exists k. by apply elem_of_go_range.
  - intros (k & Hk). exists (k, x). by rewrite elem_of_go_range.
Qed.

Lemma NoDup_go_range_keys m : NoDup (go_range σ m).*1.
Proof. rewrite go_range_perm. apply NoDup_fst_map_to_list. Qed.

Lemma NoDup_go_range m : NoDup (go_range σ m).
Proof. rewrite go_range_perm. apply NoDup_map_to_list. Qed.

Lemma length_go_range m : length (go_range σ m) = size m.
Proof. rewrite go_range_perm. apply length_map_to_list. Qed.

Lemma go_range_empty : go_range σ (∅ : gmap string A) = [].
Proof. apply Permutation_nil_r. by rewrite go_range_perm, map_to_list_empty. Qed.
End range.

(** Two orders for evaluation: the one of [map_to_list] and its reverse. *)
Definition order_fwd : RangeOrder :=
  {| range_entries := λ A l, l; range_entries_perm := λ A l, Permutation_refl l |}.
Definition order_rev : RangeOrder :=
  {| range_entries := λ A l, rev l;
     range_entries_perm := λ A l, Permutation_sym (Permutation_rev l) |}.

(** ** Sums over lists of naturals *)

Definition sum_nat {A} (f : A → nat) (l : list A) : nat := sum_list (f <$> l).

Lemma sum_nat_cons {A} (f : A → nat) x l : sum_nat f (x :: l) = (f x + sum_nat f l)%nat.
Proof. done. Qed.

Lemma sum_nat_app {A} (f : A → nat) l k : sum_nat f (l ++ k) = (sum_nat f l + sum_nat f k)%nat.
Proof. induction l as [|x l IH]; [done|]. cbn [app]. rewrite !sum_nat_cons, IH. lia. Qed.

Lemma sum_nat_perm {A} (f : A → nat) l k : l ≡ₚ k → sum_nat f l = sum_nat f k.
Proof. induction 1; unfold sum_nat in *; cbn in *; lia. Qed.

Lemma list_split_at {A} (l : list A) i x :
  l !! i = Some x → ∃ l1 l2, l = l1 ++ x :: l2 ∧ ∀ y, <[i := y]> l = l1 ++ y :: l2.
Proof.
  intros Hi. destruct (list_elem_of_split_length _ _ _ Hi) as (l1 & l2 & -> & ->).
  exists l1, l2. split; [done|]. intros y. rewrite insert_app_r_alt by lia. by rewrite Nat.sub_diag.
Qed.

Lemma sum_nat_insert {A} (f : A → nat) (l : list A) i x y :
  l !! i = Some x → (sum_nat f (<[i := y]> l) + f x = sum_nat f l + f y)%nat.
Proof.
  intros Hi. destruct (list_split_at _ _ _ Hi) as (l1 & l2 & -> & ->).
  rewrite !sum_nat_app, !sum_nat_cons. lia.
Qed.

Lemma sum_nat_ext {A} (f g : A → nat) l :
  (∀ x, x ∈ l → f x = g x) → sum_nat f l = sum_nat g l.
Proof.
  induction l as [|x l IH]; intros Hfg; [done|].
  rewrite !sum_nat_cons, IH, (Hfg x); set_solver.
Qed.

(** ** Automation *)

Create HintDb go discriminated.
Create Rewrite HintDb go.
#[export] Hint Resolve int64_id int32_id int64_range : go.
#[export] Hint Rewrite @gm_get_delete @gm_map_delete @gm_set_make : go.

(** Reduce the monadic plumbing of a computation applied to a state,
    leaving the calls it makes. *)
Ltac go_unfold := unfold bind, ret, gets, get, modify; cbn beta match.
Ltac go_unfold_in H := unfold bind, ret, gets, get, modify in H; cbn beta match in H.

(** Split every [match] of the goal and clean up. *)
Ltac go_cases := repeat (case_match || case_decide); simplify_eq/=; try done.

Lemma find_ext_in {A} (f g : A → bool) l : (∀ x, x ∈ l → f x = g x) → find f l = find g l.
Proof.
  induction l as [|x l IH]; intros Hfg; [done|]. cbn. rewrite Hfg by left. destruct (g x); [done|].
  apply IH. intros y Hy. apply Hfg. by right.
Qed.

(** ** Liveness *)

(** Under every choice of steps, a state with [P] is reached. *)
Inductive eventually {S} (R : S → S → Prop) (P : S → Prop) (x : S) : Prop :=
  | eventually_now : P x → eventually R P x
  | eventually_later : (∃ y, R x y) → (∀ y, R x y → eventually R P y) → eventually R P x.

Lemma eventually_acc {S} (R : S → S → Prop) (I P : S → Prop) x :
  Acc (λ y x, R x y) x → I x → (∀ x y, I x → R x y → I y) →
  (∀ x, I x → P x ∨ ∃ y, R x y) → eventually R P x.
Proof.
  intros Hacc Hx Hpres Hprog. revert Hx. induction Hacc as [x _ IH]. intros Hx.
  destruct (Hprog x Hx) as [HP|Hstep]; [by apply eventually_now|].
  apply eventually_later; [done|]. intros y Hy. apply IH; [done|]. by eapply Hpres.
Qed.
