(* ===== verification/Quantities.v ===== *)
(** * Resource quantities and resource lists

    [resource.Quantity] of apimachinery and [inf.Dec] of gopkg.in/inf.v0
    are libraries: the model takes their operations as a class and what
    their documentation promises as a class of laws over the rational
    value of a decimal.  [ResourceList] and [ResourceRequirements] are the
    core/v1 data the program reads and writes. *)

From S2P Require Import Prelude.

(** ** The operations the program calls *)

Class QuantityLib : Type := {
  Quantity : Type;
  Dec : Type;
  Format : Type;
  AsDec : Quantity → Dec;
  QFormat : Quantity → Format;
  NewDec : Z → Z → Dec;                    (* unscaled, scale *)
  DecMul : Dec → Dec → Dec;
  DecRoundCeil : Dec → Z → Dec;            (* Round(x, scale, inf.RoundCeil) *)
  NewDecimalQuantity : Dec → Format → Quantity;
  QIsZero : Quantity → bool;
  QCmp : Quantity → Quantity → Z;
  QAdd : Quantity → Quantity → Quantity;
  QString : Quantity → string;
  ParseQuantity : string → result Quantity;
  MustParse : string → Quantity;
  QuantityZero : Quantity                  (* resource.Quantity{Format: DecimalSI} *)
}.

(** [10 ^ -s] as a rational, and rounding up to a multiple of it. *)
Definition dec_unit (s : Z) : Qc := Q2Qc (Qmake 1 (Z.to_pos (10 ^ s))).
Definition ceil_to (s : Z) (x : Qc) : Qc :=
  Q2Qc (inject_Z (Qceiling (this (x / dec_unit s)%Qc))) * dec_unit s.

Lemma dec_unit_pos s : (0 < dec_unit s)%Qc.
Proof. unfold dec_unit, Qclt. cbn [this Q2Qc]. rewrite !Qred_correct. by unfold Qlt; cbn. Qed.

Lemma ceil_to_ge s x : (x ≤ ceil_to s x)%Qc.
Proof.
  pose proof (dec_unit_pos s) as Hu.
  replace x with (x / dec_unit s * dec_unit s)%Qc at 1.
  2:{ field. by apply Qclt_not_eq in Hu. }
  unfold ceil_to. apply Qcmult_le_compat_r; [|by apply Qclt_le_weak].
  unfold Qcle. cbn [this Q2Qc]. rewrite Qred_correct. apply Qle_ceiling.
Qed.

Lemma ceil_to_lt s x : (ceil_to s x < x + dec_unit s)%Qc.
Proof.
  pose proof (dec_unit_pos s) as Hu.
  replace (x + dec_unit s)%Qc with ((x / dec_unit s + 1) * dec_unit s)%Qc.
  2:{ field. by apply Qclt_not_eq in Hu. }
  unfold ceil_to. apply Qcmult_lt_compat_r; [done|].
  unfold Qclt. cbn [this Qcplus Q2Qc]. rewrite !Qred_correct.
  set (y := this (x / dec_unit s)%Qc).
  pose proof (Qceiling_lt y) as Hlt. unfold Z.sub in Hlt. rewrite inject_Z_plus in Hlt.
  apply (Qplus_lt_l _ _ 1) in Hlt. eapply Qle_lt_trans; [|exact Hlt].
  apply Qle_lteq. right. change (inject_Z (- (1))) with (- (1))%Q. ring.
Qed.

Definition cmp_Z (c : comparison) : Z :=
  match c with Lt => -1 | Eq => 0 | Gt => 1 end.

(** ** What the libraries document *)

Class QuantityLaws `{QuantityLib} : Type := {
  dval : Dec → Qc;
  NewDec_val u s : 0 ≤ s → dval (NewDec u s) = (Q2Qc (inject_Z u) * dec_unit s)%Qc;
  DecMul_val x y : dval (DecMul x y) = (dval x * dval y)%Qc;
  DecRoundCeil_val x s : 0 ≤ s → dval (DecRoundCeil x s) = ceil_to s (dval x);
  NewDecimalQuantity_val d f : dval (AsDec (NewDecimalQuantity d f)) = dval d;
  QIsZero_val q : QIsZero q = bool_decide (dval (AsDec q) = 0%Qc);
  QCmp_val p q : QCmp p q = cmp_Z (dval (AsDec p) ?= dval (AsDec q))%Qc;
  QAdd_val p q : dval (AsDec (QAdd p q)) = (dval (AsDec p) + dval (AsDec q))%Qc;
  (** a quantity that was parsed prints to a string that parses back to
      the same value *)
  QString_parses s q : ParseQuantity s = inr q →
    ∃ q', ParseQuantity (QString q) = inr q' ∧ dval (AsDec q') = dval (AsDec q);
  MustParse_zero : dval (AsDec (MustParse "0")) = 0%Qc;
  QuantityZero_val : dval (AsDec QuantityZero) = 0%Qc
}.

Definition qval `{QuantityLaws} (q : Quantity) : Qc := dval (AsDec q).

(** The quantity was decoded from the API. *)
Definition from_api `{QuantityLib} (q : Quantity) : Prop :=
  ∃ s, ParseQuantity s = inr q.

(** ** Resource lists *)

Definition ResourceCPU : string := "cpu".
Definition ResourceMemory : string := "memory".
#[global] Arguments ResourceCPU : simpl never.
#[global] Arguments ResourceMemory : simpl never.

Section resources.
Context `{QuantityLib}.

Definition ResourceList : Type := GoMap Quantity.

Record ResourceRequirements : Type := {
  Limits : GoMap Quantity;
  Requests : GoMap Quantity
}.

(** [ResourceList.Cpu()]: the entry, or a zero quantity. *)
Definition rl_Cpu (rl : GoMap Quantity) : Quantity :=
  default QuantityZero (gm_get rl ResourceCPU).
End resources.

(** ** Equality up to the value of the quantities *)

Section values.
Context `{QuantityLaws}.

#[global] Instance quantity_equiv : Equiv Quantity := λ p q, qval p = qval q.
#[global] Instance quantity_equivalence : Equivalence (≡@{Quantity}).
Proof.
  unfold equiv, quantity_equiv. split; [by intros p|by intros p q|].
  intros p q r Hpq Hqr. by etrans.
Qed.

Lemma quantity_equiv_val p q : p ≡ q ↔ qval p = qval q.
Proof. done. Qed.

#[global] Instance qval_proper : Proper ((≡) ==> (=)) qval.
Proof. by intros p q. Qed.

#[global] Instance QIsZero_proper : Proper ((≡) ==> (=)) QIsZero.
Proof. intros p q Hpq. rewrite !QIsZero_val. unfold equiv, quantity_equiv, qval in Hpq. by rewrite Hpq. Qed.

#[global] Instance QCmp_proper : Proper ((≡) ==> (≡) ==> (=)) QCmp.
Proof.
  intros p q Hpq p' q' Hpq'. rewrite !QCmp_val.
  unfold equiv, quantity_equiv, qval in *. by rewrite Hpq, Hpq'.
Qed.

#[global] Instance QAdd_proper : Proper ((≡) ==> (≡) ==> (≡)) QAdd.
Proof.
  intros p q Hpq p' q' Hpq'. unfold equiv, quantity_equiv, qval in *.
  by rewrite !QAdd_val, Hpq, Hpq'.
Qed.

Lemma QCmp_eq p q : QCmp p q = 0 ↔ qval p = qval q.
Proof.
  rewrite QCmp_val. unfold qval. rewrite Qceq_alt.
  by destruct (_ ?= _)%Qc.
Qed.

Lemma QCmp_lt p q : QCmp p q < 0 ↔ (qval p < qval q)%Qc.
Proof.
  rewrite QCmp_val. unfold qval. rewrite Qclt_alt.
  by destruct (_ ?= _)%Qc.
Qed.

Lemma QCmp_gt p q : QCmp p q = 1 ↔ (qval q < qval p)%Qc.
Proof.
  rewrite QCmp_val. unfold qval. rewrite Qclt_alt.
  destruct (dval (AsDec p) ?= dval (AsDec q))%Qc eqn:E; cbn.
  - apply Qceq_alt in E. rewrite E. split; [done|]. intros Hc.
    by apply Qclt_alt, Qclt_not_eq in Hc.
  - split; [done|]. intros Hc. apply Qclt_alt in E, Hc.
    by destruct (Qclt_not_le _ _ E (Qclt_le_weak _ _ Hc)).
  - split; [intros _|done]. by apply Qclt_alt, Qcgt_alt.
Qed.

(** Lists that read the same: a nil map is an empty map, and quantities
    count by value. *)
Definition rl_equiv : relation (GoMap Quantity) := λ a b, ∀ k, gm_get a k ≡ gm_get b k.

#[global] Instance rl_equivalence : Equivalence rl_equiv.
Proof.
  split; [by intros a k|by intros a b Hab k; symmetry|].
  intros a b c Hab Hbc k. by rewrite (Hab k).
Qed.

#[global] Instance rr_equiv : Equiv ResourceRequirements := λ r r',
  rl_equiv (Limits r) (Limits r') ∧ rl_equiv (Requests r) (Requests r').
#[global] Instance rr_equivalence : Equivalence (≡@{ResourceRequirements}).
Proof.
  unfold equiv, rr_equiv. split; [done|by intros r r' []|].
  intros r r' r'' [Hl Hr] [Hl' Hr']. split; by etrans.
Qed.
End values.

(** ** A concrete library

    Decimals are rationals, a quantity carries its value and whether it is
    printed with decimal suffixes, and the printed form is a letter
    followed by the bits of the encoded fraction. *)

Module ConcreteQuantity.
Fixpoint bits_of (p : positive) : string :=
  match p with
  | xH => ""
  | xO p => String "0"%char (bits_of p)
  | xI p => String "1"%char (bits_of p)
  end.

Fixpoint of_bits (s : string) : positive :=
  match s with
  | EmptyString => xH
  | String c s => if Ascii.eqb c "1"%char then xI (of_bits s) else xO (of_bits s)
  end.

Lemma of_bits_of p : of_bits (bits_of p) = p.
Proof. induction p as [p IH|p IH|]; cbn; rewrite ?IH; done. Qed.

Definition print (q : Qc * bool) : string :=
  String "q"%char (bits_of (encode (Qnum (this q.1), Qden (this q.1), q.2))).

Definition parse (s : string) : result (Qc * bool) :=
  match s with
  | String _ s' =>
      match decode (of_bits s') : option (Z * positive * bool) with
      | Some (n, d, b) => inr (Q2Qc (Qmake n d), b)
      | None => inl "unable to parse quantity"
      end
  | EmptyString => inl "empty string"
  end.

Lemma parse_print q : parse (print q) = inr q.
Proof.
  destruct q as [x b]. unfold parse, print. cbn. rewrite of_bits_of, decode_encode.
  do 2 f_equal. destruct x as [[n d] Hx]. apply Qc_is_canon. cbn. apply Qred_correct.
Qed.

#[local] Instance lib : QuantityLib := {|
  Quantity := Qc * bool;
  Dec := Qc;
  Format := bool;
  AsDec := fst;
  QFormat := snd;
  NewDec := λ u s, (Q2Qc (inject_Z u) * dec_unit s)%Qc;
  DecMul := Qcmult;
  DecRoundCeil := λ x s, ceil_to s x;
  NewDecimalQuantity := λ d f, (d, f);
  QIsZero := λ q, bool_decide (q.1 = 0%Qc);
  QCmp := λ p q, cmp_Z (p.1 ?= q.1)%Qc;
  QAdd := λ p q, ((p.1 + q.1)%Qc, p.2);
  QString := print;
  ParseQuantity := parse;
  MustParse := λ s, if decide (s = "0") then (0%Qc, true)
                    else match parse s with inr q => q | inl _ => (0%Qc, true) end;
  QuantityZero := (0%Qc, true)
|}.

#[local] Instance laws : QuantityLaws.
Proof.
  refine {| dval := λ x : @Dec lib, (x : Qc) |}; try done.
  intros s q _. exists q. split; [apply parse_print|done].
Defined.

(** [milli n] is the quantity written [<n>m]. *)
Definition milli (n : Z) : @Quantity lib := (Q2Qc (Qmake n 1000), true).

Lemma milli_from_api n : @from_api lib (milli n).
Proof. exists (print (milli n)). apply parse_print. Qed.
End ConcreteQuantity.
