(* ===== verification/Kube.v ===== *)
(** * Kubernetes objects

    The core/v1 and meta/v1 data the program handles, restricted to the
    fields it reads or writes, and the label-selector library as a class.
    Times are nanoseconds since an epoch. *)

From S2P Require Import Prelude Quantities.

(** ** Pods *)

Definition PodScheduled : string := "PodScheduled".
Definition ConditionTrue : string := "True".
Definition ConditionFalse : string := "False".
Definition RestartContainer : string := "RestartContainer".

Record PodCondition : Type := {
  pc_Type : string;
  pc_Status : string;
  pc_LastProbeTime : Z;
  pc_LastTransitionTime : Z;
  pc_Reason : string;
  pc_Message : string
}.

(** A condition as the kubelet reports it without further explanation. *)
Definition plain_condition (ty status : string) (transition : Z) : PodCondition := {|
  pc_Type := ty; pc_Status := status; pc_LastProbeTime := 0; pc_LastTransitionTime := transition;
  pc_Reason := ""; pc_Message := ""
|}.

Record ContainerResizePolicy : Type := {
  crp_ResourceName : string;
  crp_RestartPolicy : string
}.

#[global] Instance PodCondition_eq_dec : EqDecision PodCondition.
Proof. solve_decision. Defined.

Section pods.
Context `{QuantityLib}.

Record Container : Type := {
  c_Name : string;
  c_Resources : ResourceRequirements;
  c_ResizePolicy : list ContainerResizePolicy
}.

Record Pod : Type := {
  pod_Name : string;
  pod_Namespace : string;
  pod_Labels : GoMap string;
  pod_Annotations : GoMap string;
  pod_Containers : list Container;
  pod_InitContainers : list Container;
  pod_Resources : option ResourceRequirements;
  pod_Conditions : list PodCondition
}.

(** Field assignments. *)
Definition c_set_Resources (c : Container) (r : ResourceRequirements) : Container :=
  {| c_Name := c_Name c; c_Resources := r; c_ResizePolicy := c_ResizePolicy c |}.

Definition pod_set_Containers (p : Pod) (cs : list Container) : Pod :=
  {| pod_Name := pod_Name p; pod_Namespace := pod_Namespace p;
     pod_Labels := pod_Labels p; pod_Annotations := pod_Annotations p;
     pod_Containers := cs; pod_InitContainers := pod_InitContainers p;
     pod_Resources := pod_Resources p; pod_Conditions := pod_Conditions p |}.

Definition pod_set_Meta (p : Pod) (labels annotations : GoMap string) : Pod :=
  {| pod_Name := pod_Name p; pod_Namespace := pod_Namespace p;
     pod_Labels := labels; pod_Annotations := annotations;
     pod_Containers := pod_Containers p; pod_InitContainers := pod_InitContainers p;
     pod_Resources := pod_Resources p; pod_Conditions := pod_Conditions p |}.
End pods.

(** ** Pods with the same JSON form

    A pod that goes through its JSON encoding loses the difference between
    nil and empty maps and between representations of one quantity. *)

Section equivalence.
Context `{QuantityLaws}.

#[global] Instance container_equiv : Equiv Container := λ c c',
  c_Name c = c_Name c' ∧ c_Resources c ≡ c_Resources c' ∧
  c_ResizePolicy c = c_ResizePolicy c'.
#[global] Instance container_equivalence : Equivalence (≡@{Container}).
Proof.
  unfold equiv, container_equiv. split; [done|by intros c c' (? & ? & ?)|].
  intros c c' c'' (? & ? & ?) (? & ? & ?). split_and!; by etrans.
Qed.

#[global] Instance c_Name_proper : Proper ((≡) ==> (=)) c_Name.
Proof. by intros c c' (? & _). Qed.

#[global] Instance c_Resources_proper : Proper ((≡) ==> (≡)) c_Resources.
Proof. by intros c c' (_ & ? & _). Qed.

Record pod_equivalent (p p' : Pod) : Prop := {
  pe_Name : pod_Name p = pod_Name p';
  pe_Namespace : pod_Namespace p = pod_Namespace p';
  pe_Labels : gm_map (pod_Labels p) = gm_map (pod_Labels p');
  pe_Annotations : gm_map (pod_Annotations p) = gm_map (pod_Annotations p');
  pe_Containers : pod_Containers p ≡ pod_Containers p';
  pe_InitContainers : pod_InitContainers p ≡ pod_InitContainers p';
  pe_Resources : pod_Resources p ≡ pod_Resources p';
  pe_Conditions : pod_Conditions p = pod_Conditions p'
}.

#[global] Instance pod_equiv : Equiv Pod := pod_equivalent.
#[global] Instance pod_equivalence : Equivalence (≡@{Pod}).
Proof.
  split.
  - by split.
  - intros p p' []. by split.
  - intros p p' p'' [] []. split; by etrans.
Qed.

#[global] Instance pod_Containers_proper : Proper ((≡) ==> (≡)) pod_Containers.
Proof. by intros p p' []. Qed.

#[global] Instance pod_set_Containers_proper :
  Proper ((≡) ==> (≡) ==> (≡)) pod_set_Containers.
Proof. intros p p' [] cs cs' Hcs. by split. Qed.

Lemma pod_set_Containers_id (p : Pod) : pod_set_Containers p (pod_Containers p) = p.
Proof. by destruct p. Qed.
End equivalence.

(** ** QoS classes *)

Inductive PodQOSClass : Type :=
  | PodQOSGuaranteed
  | PodQOSBurstable
  | PodQOSBestEffort.

#[global] Instance PodQOSClass_eq_dec : EqDecision PodQOSClass.
Proof. solve_decision. Defined.

(** ** Label selectors

    [metav1.LabelSelectorAsSelector] turns the API form into a matcher or
    fails; [Matches] applies it to a label set. *)

Class SelectorLib : Type := {
  LabelSelector : Type;
  Selector : Type;
  LabelSelectorAsSelector : LabelSelector → result Selector;
  SelMatches : Selector → GoMap string → bool
}.

(** A library with selectors that require one label to have one of some
    values; without values the selector is refused. *)
Module ConcreteSelector.
#[local] Instance lib : SelectorLib := {|
  LabelSelector := string * list string;
  Selector := string * list string;
  LabelSelectorAsSelector := λ ls,
    match ls.2 with
    | [] => inl "for 'in', 'notin' operators, values set can't be empty"
    | _ => inr ls
    end;
  SelMatches := λ s labels,
    match gm_get labels s.1 with
    | Some v => bool_decide (v ∈ s.2)
    | None => false
    end
|}.
End ConcreteSelector.
