(* ===== verification/Api.v ===== *)
(** * The API types of group autoscaling.x-k8s.io/v1alpha1

    The structs of api/v1alpha1, with pointers that may be nil as options
    and the object metadata the controllers use. *)

From S2P Require Import Prelude Quantities Kube.

Module v1alpha1.

Definition FixedDurationPolicyUnitSec : string := "Seconds".
Definition FixedDurationPolicyUnitMin : string := "Minutes".
Definition ContainerPolicyWildcard : string := "*".
Definition ManagedByGlobalBoostLabel : string := "autoscaling.x-k8s.io/managed-by-global".
Definition GlobalBoostChildPrefix : string := "global-".
Definition GlobalBoostFinalizer : string := "autoscaling.x-k8s.io/global-boost-cleanup".

Record FixedDurationPolicy : Type := {
  fdp_Unit : string;
  fdp_Value : Z
}.

Record PodConditionDurationPolicy : Type := {
  pcdp_Type : string;
  pcdp_Status : string
}.

Record DurationPolicy : Type := {
  dp_Fixed : option FixedDurationPolicy;
  dp_PodCondition : option PodConditionDurationPolicy
}.

Record PercentageIncrease : Type := { pi_Value : Z }.

(** Object metadata of the group's resources. *)
Record ObjectMeta : Type := {
  om_Name : string;
  om_Namespace : string;
  om_UID : string;
  om_Labels : GoMap string;
  om_Annotations : GoMap string;
  om_Finalizers : list string;
  om_DeletionTimestamp : option Z
}.

(** [metav1.Condition], without the generation and the transition time
    that [meta.SetStatusCondition] fills in. *)
Record Condition : Type := {
  cond_Type : string;
  cond_Status : string;
  cond_Reason : string;
  cond_Message : string
}.

#[global] Instance Condition_eq_dec : EqDecision Condition.
Proof. solve_decision. Defined.

Record StartupCPUBoostStatus : Type := {
  bs_ActiveContainerBoosts : Z;
  bs_TotalContainerBoosts : Z;
  bs_Conditions : list Condition
}.

#[global] Instance StartupCPUBoostStatus_eq_dec : EqDecision StartupCPUBoostStatus.
Proof. solve_decision. Defined.

Record GlobalStartupCPUBoostStatus : Type := {
  gs_NamespaceCount : Z;
  gs_ActiveNamespaces : list string;
  gs_SkippedNamespaces : list string;
  gs_Conditions : list Condition
}.

#[global] Instance GlobalStartupCPUBoostStatus_eq_dec :
  EqDecision GlobalStartupCPUBoostStatus.
Proof. solve_decision. Defined.

Section types.
Context `{QuantityLib} `{SelectorLib}.

Record FixedResources : Type := {
  fr_Requests : Quantity;
  fr_Limits : Quantity
}.

Record ContainerPolicy : Type := {
  cp_ContainerName : string;
  cp_PercentageIncrease : option PercentageIncrease;
  cp_FixedResources : option FixedResources
}.

Record ResourcePolicy : Type := {
  rp_ContainerPolicies : list ContainerPolicy
}.

Record StartupCPUBoostSpec : Type := {
  spec_ResourcePolicy : ResourcePolicy;
  spec_DurationPolicy : DurationPolicy
}.

Record StartupCPUBoost : Type := {
  b_Meta : ObjectMeta;
  b_Selector : LabelSelector;
  b_Spec : StartupCPUBoostSpec;
  b_Status : StartupCPUBoostStatus
}.

Record GlobalStartupCPUBoostTemplate : Type := {
  tmpl_Selector : LabelSelector;
  tmpl_Spec : StartupCPUBoostSpec
}.

Record GlobalStartupCPUBoostSpec : Type := {
  gspec_NamespaceSelector : LabelSelector;
  gspec_Template : GlobalStartupCPUBoostTemplate
}.

Record GlobalStartupCPUBoost : Type := {
  gb_Meta : ObjectMeta;
  gb_Spec : GlobalStartupCPUBoostSpec;
  gb_Status : GlobalStartupCPUBoostStatus
}.
End types.

End v1alpha1.
