(* ===== verification/GoHeap.v ===== *)
(** * Pointers, slices and deep copies

    A heap of cells, the pointers and slices of Go over it, and a small
    logic of footprints: an assertion speaks about the cells reachable from
    a value, and a computation copies if what it returns reads the same and
    is reachable through new cells only. *)

From S2P Require Import Prelude.

Definition Addr : Type := nat.
Abbreviation Heap C := (gmap nat C).

(** Values of type [T] fill one cell. *)
Class Stored (C T : Type) : Type := {
  cell : T → C;
  uncell : C → option T;
  uncell_cell x : uncell (cell x) = Some x
}.

Section operations.
Context {C : Type}.

(** [*p] *)
Definition load {T} `{!Stored C T} (p : Addr) : M (Heap C) T := λ h,
  match h !! p ≫= uncell with
  | Some x => Done (x, h)
  | None => Panic "invalid memory address or nil pointer dereference"
  end.

(** [new] with the contents the object gets before anyone can see it *)
Definition new {T} `{!Stored C T} (x : T) : M (Heap C) Addr := λ h,
  let p := fresh (dom h) in Done (p, <[p := cell x]> h).

(** The code for a pointer: nil stays nil. *)
Definition copy_ptr {T} `{!Stored C T} (copy : T → M (Heap C) T) (p : option Addr) :
    M (Heap C) (option Addr) :=
  match p with
  | None => ret None
  | Some p =>
      let! x := load p in
      let! x := copy x in
      let! q := new x in
      ret (Some q)
  end.

Fixpoint copy_all {T} (copy : T → M (Heap C) T) (l : list T) : M (Heap C) (list T) :=
  match l with
  | [] => ret []
  | x :: l =>
      let! x := copy x in
      let! l := copy_all copy l in
      ret (x :: l)
  end.

(** The code for a slice, a pointer to its array: nil stays nil. *)
Definition copy_slice {T} `{!Stored C (list T)} (copy : T → M (Heap C) T) (s : option Addr) :
    M (Heap C) (option Addr) := copy_ptr (copy_all copy) s.
End operations.

(** ** Assertions *)

Section assertions.
Context {C : Type}.

(** Of the cells reachable from something, in a heap. *)
Definition Assn : Type := gset nat → Heap C → Prop.
Implicit Types (P Q : Assn) (F : gset nat) (h : Heap C).

Definition pure (φ : Prop) : Assn := λ F h, φ ∧ F = ∅.
Definition both P Q : Assn := λ F h, ∃ F1 F2, P F1 h ∧ Q F2 h ∧ F = F1 ∪ F2.

(** An assertion speaks about its footprint only. *)
Record local P : Prop := {
  local_dom F h : P F h → F ⊆ dom h;
  local_frame F h h' : P F h → (∀ a, a ∈ F → h' !! a = h !! a) → P F h'
}.

Lemma local_mono P F h h' : local P → P F h → h ⊆ h' → P F h'.
Proof.
  intros HP HF Hsub. eapply local_frame; [done..|]. intros a Ha%(local_dom _ HP _ _ HF).
  apply elem_of_dom in Ha as [x Hx]. by rewrite Hx, (lookup_weaken _ _ _ _ Hx Hsub).
Qed.

Lemma local_pure φ : local (pure φ).
Proof. split; [by intros F h [_ ->]; set_solver|by intros F h h' [? ->]]. Qed.

Lemma local_both P Q : local P → local Q → local (both P Q).
Proof.
  intros HP HQ. split.
  - intros F h (F1 & F2 & H1%(local_dom _ HP) & H2%(local_dom _ HQ) & ->). set_solver.
  - intros F h h' (F1 & F2 & H1 & H2 & ->) Hsame. exists F1, F2. split_and!; [..|done].
    + eapply local_frame; [done..|]. set_solver.
    + eapply local_frame; [done..|]. set_solver.
Qed.

(** ** Values behind pointers *)

(** [R x v]: the value [x] with its pointers reads as [v]. *)
Definition at_addr {T} `{!Stored C T} (p : Addr) (K : T → Assn) : Assn := λ F h,
  ∃ x F', h !! p = Some (cell x) ∧ K x F' h ∧ F = {[p]} ∪ F'.

Definition ptr {T V} `{!Stored C T} (R : T → V → Assn) (p : option Addr) (v : option V) : Assn :=
  match p, v with
  | None, None => pure True
  | Some p, Some v => at_addr p (λ x, R x v)
  | _, _ => pure False
  end.

Fixpoint all {T V} (R : T → V → Assn) (l : list T) (vs : list V) : Assn :=
  match l, vs with
  | [], [] => pure True
  | x :: l, v :: vs => both (R x v) (all R l vs)
  | _, _ => pure False
  end.

(** A nil slice reads as the empty list. *)
Definition slice {T V} `{!Stored C (list T)} (R : T → V → Assn) (s : option Addr) (vs : list V) : Assn :=
  match s with
  | None => pure (vs = [])
  | Some p => at_addr p (λ l, all R l vs)
  end.

Definition plain {T} (x v : T) : Assn := pure (x = v).

Lemma local_at {T} `{!Stored C T} p (K : T → Assn) : (∀ x, local (K x)) → local (at_addr p K).
Proof.
  intros HK. split.
  - intros F h (x & F' & Hp & HF & ->). apply (local_dom _ (HK x)) in HF.
    apply elem_of_dom_2 in Hp. set_solver.
  - intros F h h' (x & F' & Hp & HF & ->) Hsame. exists x, F'. split_and!; [|..|done].
    + rewrite Hsame; [done|set_solver].
    + eapply local_frame; [apply HK|done|]. set_solver.
Qed.

Lemma local_ptr {T V} `{!Stored C T} (R : T → V → Assn) p v :
  (∀ x v, local (R x v)) → local (ptr R p v).
Proof. intros HR. destruct p, v; try apply local_pure. by apply local_at. Qed.

Lemma local_all {T V} (R : T → V → Assn) l vs : (∀ x v, local (R x v)) → local (all R l vs).
Proof.
  intros HR. revert vs. induction l as [|x l IH]; intros [|v vs]; try apply local_pure.
  by apply local_both.
Qed.

Lemma local_slice {T V} `{!Stored C (list T)} (R : T → V → Assn) s vs :
  (∀ x v, local (R x v)) → local (slice R s vs).
Proof. intros HR. destruct s; [|apply local_pure]. apply local_at. intros l. by apply local_all. Qed.

(** ** Computations that copy *)

(** From a heap with [P], [c] runs, keeps every cell there is and returns
    something that satisfies [Q] through new cells only. *)
Definition copies {A} P (c : M (Heap C) A) (Q : A → Assn) : Prop :=
  ∀ F h, P F h → ∃ r F' h', c h = Done (r, h') ∧ h ⊆ h' ∧ Q r F' h' ∧ F' ## dom h.

Definition is_copy {T V} (R : T → V → Assn) (copy : T → M (Heap C) T) : Prop :=
  ∀ x v, copies (R x v) (copy x) (λ x', R x' v).

Lemma copies_mono {A} P P' (c : M (Heap C) A) (Q Q' : A → Assn) :
  copies P c Q → (∀ F h, P' F h → P F h) → (∀ r F h, Q r F h → Q' r F h) → copies P' c Q'.
Proof. intros Hc HP HQ F h (r & F' & h' & ? & ? & ? & ?)%HP%Hc. exists r, F', h'. auto. Qed.

Lemma copies_post {A} P (c : M (Heap C) A) (Q Q' : A → Assn) :
  copies P c Q → (∀ r F h, Q r F h → Q' r F h) → copies P c Q'.
Proof. intros Hc HQ. by eapply copies_mono. Qed.

Lemma copies_bind {A B} P1 P2 (c : M (Heap C) A) (k : A → M (Heap C) B) (Q1 : A → Assn) (Q2 : A → B → Assn) :
  copies P1 c Q1 → (∀ a, copies P2 (k a) (Q2 a)) → local P2 → (∀ a, local (Q1 a)) →
  copies (both P1 P2) (bind c k) (λ r F h, ∃ a, both (Q1 a) (Q2 a r) F h).
Proof.
  intros Hc Hk HP2 HQ1 F h (F1 & F2 & H1 & H2 & ->).
  destruct (Hc _ _ H1) as (a & F1' & h1 & Hrun & Hsub & HQ & Hfr).
  destruct (Hk a F2 h1) as (r & F2' & h2 & Hrun2 & Hsub2 & HQ2 & Hfr2); [by eapply local_mono|].
  exists r, (F1' ∪ F2'), h2. split_and!.
  - by rewrite (bind_Done _ _ _ _ _ Hrun).
  - by etrans.
  - exists a, F1', F2'. split_and!; [by eapply local_mono|done|done].
  - apply subseteq_dom in Hsub. set_solver.
Qed.

Lemma copies_ret {A} φ (x : A) : copies (pure φ) (ret x) (λ r, pure (φ ∧ r = x)).
Proof. intros F h [Hφ ->]. exists x, ∅, h. split_and!; [done|done|done|set_solver]. Qed.

(** The step of a struct: one of its parts, then the others. *)
Lemma copies_field {T V B} (R : T → V → Assn) copy x v P (k : T → M (Heap C) B) (Q : T → B → Assn) :
  is_copy R copy → (∀ x v, local (R x v)) → local P → (∀ a, copies P (k a) (Q a)) →
  copies (both (R x v) P) (bind (copy x) k) (λ r F h, ∃ a, both (R a v) (Q a r) F h).
Proof. intros Hc HR HP Hk. by apply copies_bind. Qed.

Lemma copies_fmap {A B} P (c : M (Heap C) A) (f : A → B) (Q : A → Assn) :
  copies P c Q → copies P (let! a := c in ret (f a)) (λ r F h, ∃ a, r = f a ∧ Q a F h).
Proof.
  intros Hc F h (a & F' & h' & Hrun & Hsub & HQ & Hfr)%Hc. exists (f a), F', h'.
  split_and!; eauto. by rewrite (bind_Done _ _ _ _ _ Hrun).
Qed.

Lemma copy_plain {T} : is_copy (plain (T := T)) ret.
Proof. intros x v F h [-> ->]. exists v, ∅, h. split_and!; [done|done|done|set_solver]. Qed.

Lemma copy_ptr_at {T} `{!Stored C T} p (K : T → Assn) (c : T → M (Heap C) T) :
  (∀ x, copies (K x) (c x) K) → (∀ x, local (K x)) →
  copies (at_addr p K) (copy_ptr c (Some p)) (λ r F h, ∃ q, r = Some q ∧ at_addr q K F h).
Proof.
  intros Hc HK F h (x & F0 & Hp & HF & ->). cbn. unfold load, bind at 1. rewrite Hp. cbn. rewrite uncell_cell.
  destruct (Hc x _ _ HF) as (y & F' & h' & Hrun & Hsub & Hy & Hfr). rewrite (bind_Done _ _ _ _ _ Hrun).
  assert (fresh (dom h') ∉ dom h') as Hq by apply is_fresh. unfold bind, new, ret. set (q := fresh (dom h')) in *.
  exists (Some q), ({[q]} ∪ F'), (<[q := cell y]> h'). split_and!; [done|..].
  - etrans; [done|]. apply insert_subseteq. by apply not_elem_of_dom.
  - exists q. split; [done|]. exists y, F'. split_and!; [apply lookup_insert_eq| |done].
    eapply local_mono; [apply HK|done|]. apply insert_subseteq. by apply not_elem_of_dom.
  - apply subseteq_dom in Hsub. set_solver.
Qed.

Lemma copy_ptr_ok {T V} `{!Stored C T} (R : T → V → Assn) c :
  is_copy R c → (∀ x v, local (R x v)) → is_copy (ptr R) (copy_ptr c).
Proof.
  intros Hc HR [p|] [v|] F h HF; [|by destruct HF..|].
  - destruct (copy_ptr_at p (λ x, R x v) c (λ x, Hc x v) (λ x, HR x v) F h HF)
      as (r & F' & h' & Hrun & Hsub & (q & -> & Hq) & Hfr). by exists (Some q), F', h'.
  - destruct HF as [_ ->]. exists None, ∅, h. split_and!; [done|done|done|set_solver].
Qed.

Lemma copy_all_ok {T V} (R : T → V → Assn) c :
  is_copy R c → (∀ x v, local (R x v)) → is_copy (all R) (copy_all c).
Proof.
  intros Hc HR l. induction l as [|x l IH]; intros [|v vs]; cbn [copy_all all]; try by intros ? ? [? ?].
  - intros F h [_ ->]. exists [], ∅, h. split_and!; [done|done|done|set_solver].
  - eapply copies_mono; [|done|]; [eapply copies_bind|].
    + apply (Hc x v).
    + intros a. apply copies_fmap, (IH vs).
    + by apply local_all.
    + intros a. apply HR.
    + intros r F h (a & F1 & F2 & H1 & (l' & -> & H2) & ->). by exists F1, F2.
Qed.

Lemma copy_slice_ok {T V} `{!Stored C (list T)} (R : T → V → Assn) c :
  is_copy R c → (∀ x v, local (R x v)) → is_copy (slice R) (copy_slice c).
Proof.
  intros Hc HR [p|] vs; cbn [slice].
  - eapply copies_mono; [apply (copy_ptr_at p (λ l, all R l vs))|done|].
    + intros l. by apply copy_all_ok.
    + intros l. by apply local_all.
    + by intros r F h (q & -> & Hq).
  - intros F h [-> ->]. exists None, ∅, h. split_and!; [done|done|done|set_solver].
Qed.

(** What a caller of a deep copy relies on: it returns; nothing that was
    there changes; the copy reads as the original does; and whatever is done
    to the cells of the one, the other still reads the same. *)
Definition deep_copy {T V} (R : T → V → Assn) (copy : T → M (Heap C) T) : Prop :=
  ∀ x v F h, R x v F h →
  ∃ x' F' h', copy x h = Done (x', h') ∧ h ⊆ h' ∧ R x' v F' h' ∧ F' ## F ∧
    (∀ h2, (∀ a, a ∉ F' → h2 !! a = h' !! a) → R x v F h2) ∧
    (∀ h2, (∀ a, a ∉ F → h2 !! a = h' !! a) → R x' v F' h2).

Lemma is_copy_deep {T V} (R : T → V → Assn) c :
  is_copy R c → (∀ x v, local (R x v)) → deep_copy R c.
Proof.
  intros Hc HR x v F h HF. destruct (Hc x v F h HF) as (x' & F' & h' & Hrun & Hsub & HF' & Hfr).
  exists x', F', h'. assert (F' ## F) as Hdis by (apply (local_dom _ (HR x v)) in HF; set_solver).
  split_and!; try done.
  - intros h2 Hsame. eapply local_frame; [apply HR|by eapply (local_mono (R x v)); [apply HR|..]|]. set_solver.
  - intros h2 Hsame. eapply local_frame; [apply HR|done|]. set_solver.
Qed.

(** A copy function for a struct gives one for pointers to it. *)
Lemma deep_copy_ptr {T V} `{!Stored C T} (R : T → V → Assn) c :
  is_copy R c → (∀ x v, local (R x v)) → deep_copy (ptr R) (copy_ptr c).
Proof. intros Hc HR. apply is_copy_deep; [by apply copy_ptr_ok|]. intros. by apply local_ptr. Qed.
End assertions.

Create HintDb footprint discriminated.
#[export] Hint Resolve local_pure local_both local_ptr local_slice local_all : footprint.
#[export] Hint Resolve copy_plain copy_ptr_ok copy_slice_ok : footprint.
#[export] Hint Extern 0 (local (plain _ _)) => apply local_pure : footprint.
