(* ===== verification/DeepCopy.v ===== *)
(** * Deep copies (api/v1alpha1/zz_generated.deepcopy.go)

    The structs of the API with their pointers and slices, and the copy
    functions generated for them.  The rest of the development handles API
    objects as the values of Api and copies them freely; the theorem of this
    file justifies that for the places where the code calls DeepCopy: the
    copy reads as the same value and shares no memory with the original.
    Library types come with their own copy functions, an interface with
    laws. *)

From S2P Require Import Prelude Quantities Kube Api GoHeap.

(** [metav1.TypeMeta] *)
Record TypeMeta : Type := { tm_Kind : string; tm_APIVersion : string }.

(** How the library types look in memory, and what their own cells hold. *)
Class MemoryTypes : Type := {
  LibCell : Type;
  mem_Quantity : Type;
  mem_LabelSelector : Type;
  mem_ObjectMeta : Type;
  mem_ListMeta : Type;
  ListMeta : Type;
  mem_Condition : Type
}.

Module memory.
Section types.
Context `{MemoryTypes}.

Record FixedResources : Type := { fr_Requests : mem_Quantity; fr_Limits : mem_Quantity }.

Record ContainerPolicy : Type := {
  cp_ContainerName : string;
  cp_PercentageIncrease : option Addr;
  cp_FixedResources : option Addr
}.

Record ResourcePolicy : Type := { rp_ContainerPolicies : option Addr }.
Record DurationPolicy : Type := { dp_Fixed : option Addr; dp_PodCondition : option Addr }.

Record StartupCPUBoostSpec : Type := {
  spec_ResourcePolicy : ResourcePolicy;
  spec_DurationPolicy : DurationPolicy
}.

Record StartupCPUBoostStatus : Type := {
  bs_ActiveContainerBoosts : Z;
  bs_TotalContainerBoosts : Z;
  bs_Conditions : option Addr
}.

Record StartupCPUBoost : Type := {
  b_TypeMeta : TypeMeta;
  b_Meta : mem_ObjectMeta;
  b_Selector : mem_LabelSelector;
  b_Spec : StartupCPUBoostSpec;
  b_Status : StartupCPUBoostStatus
}.

Record StartupCPUBoostList : Type := {
  bl_TypeMeta : TypeMeta;
  bl_Meta : mem_ListMeta;
  bl_Items : option Addr
}.

Record GlobalStartupCPUBoostTemplate : Type := {
  tmpl_Selector : mem_LabelSelector;
  tmpl_Spec : StartupCPUBoostSpec
}.

Record GlobalStartupCPUBoostSpec : Type := {
  gspec_NamespaceSelector : mem_LabelSelector;
  gspec_Template : GlobalStartupCPUBoostTemplate
}.

Record GlobalStartupCPUBoostStatus : Type := {
  gs_NamespaceCount : Z;
  gs_ActiveNamespaces : option Addr;
  gs_SkippedNamespaces : option Addr;
  gs_Conditions : option Addr
}.

Record GlobalStartupCPUBoost : Type := {
  gb_TypeMeta : TypeMeta;
  gb_Meta : mem_ObjectMeta;
  gb_Spec : GlobalStartupCPUBoostSpec;
  gb_Status : GlobalStartupCPUBoostStatus
}.

Record GlobalStartupCPUBoostList : Type := {
  gl_TypeMeta : TypeMeta;
  gl_Meta : mem_ListMeta;
  gl_Items : option Addr
}.

(** What a cell can hold: a struct behind a pointer, the array of a slice,
    or data of a library. *)
Inductive Cell : Type :=
  | CPercentageIncrease (x : v1alpha1.PercentageIncrease)
  | CFixedDurationPolicy (x : v1alpha1.FixedDurationPolicy)
  | CPodConditionDurationPolicy (x : v1alpha1.PodConditionDurationPolicy)
  | CFixedResources (x : FixedResources)
  | CContainerPolicy (x : ContainerPolicy)
  | CResourcePolicy (x : ResourcePolicy)
  | CDurationPolicy (x : DurationPolicy)
  | CStartupCPUBoostSpec (x : StartupCPUBoostSpec)
  | CStartupCPUBoostStatus (x : StartupCPUBoostStatus)
  | CStartupCPUBoost (x : StartupCPUBoost)
  | CStartupCPUBoostList (x : StartupCPUBoostList)
  | CTemplate (x : GlobalStartupCPUBoostTemplate)
  | CGlobalStartupCPUBoostSpec (x : GlobalStartupCPUBoostSpec)
  | CGlobalStartupCPUBoostStatus (x : GlobalStartupCPUBoostStatus)
  | CGlobalStartupCPUBoost (x : GlobalStartupCPUBoost)
  | CGlobalStartupCPUBoostList (x : GlobalStartupCPUBoostList)
  | CContainerPolicies (l : list ContainerPolicy)
  | CConditions (l : list mem_Condition)
  | CStrings (l : list string)
  | CBoosts (l : list StartupCPUBoost)
  | CGlobals (l : list GlobalStartupCPUBoost)
  | CLib (x : LibCell).
End types.

(** Every constructor of [Cell] makes a type storable. *)
Ltac stored_as c :=
  unshelve refine {| cell := c; uncell := _ |};
  [intros []; match goal with
     | y : ?A |- option ?A => exact (Some y)
     | |- option _ => exact None
     end
  |intros; reflexivity].

Section stored.
Context `{MemoryTypes}.
#[global] Instance stored_PercentageIncrease : Stored Cell v1alpha1.PercentageIncrease.
Proof. stored_as CPercentageIncrease. Defined.
#[global] Instance stored_FixedDurationPolicy : Stored Cell v1alpha1.FixedDurationPolicy.
Proof. stored_as CFixedDurationPolicy. Defined.
#[global] Instance stored_PodConditionDurationPolicy : Stored Cell v1alpha1.PodConditionDurationPolicy.
Proof. stored_as CPodConditionDurationPolicy. Defined.
#[global] Instance stored_FixedResources : Stored Cell FixedResources.
Proof. stored_as CFixedResources. Defined.
#[global] Instance stored_ContainerPolicy : Stored Cell ContainerPolicy.
Proof. stored_as CContainerPolicy. Defined.
#[global] Instance stored_ResourcePolicy : Stored Cell ResourcePolicy.
Proof. stored_as CResourcePolicy. Defined.
#[global] Instance stored_DurationPolicy : Stored Cell DurationPolicy.
Proof. stored_as CDurationPolicy. Defined.
#[global] Instance stored_StartupCPUBoostSpec : Stored Cell StartupCPUBoostSpec.
Proof. stored_as CStartupCPUBoostSpec. Defined.
#[global] Instance stored_StartupCPUBoostStatus : Stored Cell StartupCPUBoostStatus.
Proof. stored_as CStartupCPUBoostStatus. Defined.
#[global] Instance stored_StartupCPUBoost : Stored Cell StartupCPUBoost.
Proof. stored_as CStartupCPUBoost. Defined.
#[global] Instance stored_StartupCPUBoostList : Stored Cell StartupCPUBoostList.
Proof. stored_as CStartupCPUBoostList. Defined.
#[global] Instance stored_Template : Stored Cell GlobalStartupCPUBoostTemplate.
Proof. stored_as CTemplate. Defined.
#[global] Instance stored_GlobalStartupCPUBoostSpec : Stored Cell GlobalStartupCPUBoostSpec.
Proof. stored_as CGlobalStartupCPUBoostSpec. Defined.
#[global] Instance stored_GlobalStartupCPUBoostStatus : Stored Cell GlobalStartupCPUBoostStatus.
Proof. stored_as CGlobalStartupCPUBoostStatus. Defined.
#[global] Instance stored_GlobalStartupCPUBoost : Stored Cell GlobalStartupCPUBoost.
Proof. stored_as CGlobalStartupCPUBoost. Defined.
#[global] Instance stored_GlobalStartupCPUBoostList : Stored Cell GlobalStartupCPUBoostList.
Proof. stored_as CGlobalStartupCPUBoostList. Defined.
#[global] Instance stored_ContainerPolicies : Stored Cell (list ContainerPolicy).
Proof. stored_as CContainerPolicies. Defined.
#[global] Instance stored_Conditions : Stored Cell (list mem_Condition).
Proof. stored_as CConditions. Defined.
#[global] Instance stored_Strings : Stored Cell (list string).
Proof. stored_as CStrings. Defined.
#[global] Instance stored_Boosts : Stored Cell (list StartupCPUBoost).
Proof. stored_as CBoosts. Defined.
#[global] Instance stored_Globals : Stored Cell (list GlobalStartupCPUBoost).
Proof. stored_as CGlobals. Defined.
#[global] Instance stored_Lib : Stored Cell LibCell.
Proof. stored_as CLib. Defined.
End stored.
End memory.

(** The copy functions of the libraries. *)
Class MemoryLib `{MemoryTypes} : Type := {
  Quantity_DeepCopy : mem_Quantity → M (Heap memory.Cell) mem_Quantity;
  LabelSelector_DeepCopyInto : mem_LabelSelector → M (Heap memory.Cell) mem_LabelSelector;
  ObjectMeta_DeepCopyInto : mem_ObjectMeta → M (Heap memory.Cell) mem_ObjectMeta;
  ListMeta_DeepCopyInto : mem_ListMeta → M (Heap memory.Cell) mem_ListMeta;
  Condition_DeepCopyInto : mem_Condition → M (Heap memory.Cell) mem_Condition
}.

(** ** The generated functions

    [DeepCopyInto] returns the struct it writes to [*out], whose fields are
    those of [*in] except for the ones it replaces. *)

Module deepcopy.
Import memory.
Section functions.
Context `{MemoryLib}.
Abbreviation HM := (M (Heap Cell)).

Definition PercentageIncrease_DeepCopyInto (in_ : v1alpha1.PercentageIncrease) :
  HM v1alpha1.PercentageIncrease := ret in_.
Definition PercentageIncrease_DeepCopy : option Addr → HM (option Addr) :=
  copy_ptr PercentageIncrease_DeepCopyInto.

Definition FixedDurationPolicy_DeepCopyInto (in_ : v1alpha1.FixedDurationPolicy) :
  HM v1alpha1.FixedDurationPolicy := ret in_.
Definition FixedDurationPolicy_DeepCopy : option Addr → HM (option Addr) :=
  copy_ptr FixedDurationPolicy_DeepCopyInto.

Definition PodConditionDurationPolicy_DeepCopyInto (in_ : v1alpha1.PodConditionDurationPolicy) :
  HM v1alpha1.PodConditionDurationPolicy := ret in_.
Definition PodConditionDurationPolicy_DeepCopy : option Addr → HM (option Addr) :=
  copy_ptr PodConditionDurationPolicy_DeepCopyInto.

Definition FixedResources_DeepCopyInto (in_ : FixedResources) : HM FixedResources :=
  let! requests := Quantity_DeepCopy (fr_Requests in_) in
  let! limits := Quantity_DeepCopy (fr_Limits in_) in
  ret {| fr_Requests := requests; fr_Limits := limits |}.
Definition FixedResources_DeepCopy : option Addr → HM (option Addr) :=
  copy_ptr FixedResources_DeepCopyInto.

(** [**out = **in] for the percentage, a call for the fixed resources *)
Definition ContainerPolicy_DeepCopyInto (in_ : ContainerPolicy) : HM ContainerPolicy :=
  let! percentageIncrease :=
    copy_ptr (ret (A := v1alpha1.PercentageIncrease)) (cp_PercentageIncrease in_) in
  let! fixedResources := copy_ptr FixedResources_DeepCopyInto (cp_FixedResources in_) in
  ret {| cp_ContainerName := cp_ContainerName in_; cp_PercentageIncrease := percentageIncrease;
         cp_FixedResources := fixedResources |}.
Definition ContainerPolicy_DeepCopy : option Addr → HM (option Addr) :=
  copy_ptr ContainerPolicy_DeepCopyInto.

Definition ResourcePolicy_DeepCopyInto (in_ : ResourcePolicy) : HM ResourcePolicy :=
  let! containerPolicies := copy_slice ContainerPolicy_DeepCopyInto (rp_ContainerPolicies in_) in
  ret {| rp_ContainerPolicies := containerPolicies |}.
Definition ResourcePolicy_DeepCopy : option Addr → HM (option Addr) :=
  copy_ptr ResourcePolicy_DeepCopyInto.

Definition DurationPolicy_DeepCopyInto (in_ : DurationPolicy) : HM DurationPolicy :=
  let! fixed := copy_ptr (ret (A := v1alpha1.FixedDurationPolicy)) (dp_Fixed in_) in
  let! podCondition := copy_ptr (ret (A := v1alpha1.PodConditionDurationPolicy)) (dp_PodCondition in_) in
  ret {| dp_Fixed := fixed; dp_PodCondition := podCondition |}.
Definition DurationPolicy_DeepCopy : option Addr → HM (option Addr) :=
  copy_ptr DurationPolicy_DeepCopyInto.

Definition StartupCPUBoostSpec_DeepCopyInto (in_ : StartupCPUBoostSpec) : HM StartupCPUBoostSpec :=
  let! resourcePolicy := ResourcePolicy_DeepCopyInto (spec_ResourcePolicy in_) in
  let! durationPolicy := DurationPolicy_DeepCopyInto (spec_DurationPolicy in_) in
  ret {| spec_ResourcePolicy := resourcePolicy; spec_DurationPolicy := durationPolicy |}.
Definition StartupCPUBoostSpec_DeepCopy : option Addr → HM (option Addr) :=
  copy_ptr StartupCPUBoostSpec_DeepCopyInto.

Definition StartupCPUBoostStatus_DeepCopyInto (in_ : StartupCPUBoostStatus) : HM StartupCPUBoostStatus :=
  let! conditions := copy_slice Condition_DeepCopyInto (bs_Conditions in_) in
  ret {| bs_ActiveContainerBoosts := bs_ActiveContainerBoosts in_;
         bs_TotalContainerBoosts := bs_TotalContainerBoosts in_; bs_Conditions := conditions |}.
Definition StartupCPUBoostStatus_DeepCopy : option Addr → HM (option Addr) :=
  copy_ptr StartupCPUBoostStatus_DeepCopyInto.

Definition StartupCPUBoost_DeepCopyInto (in_ : StartupCPUBoost) : HM StartupCPUBoost :=
  let! meta := ObjectMeta_DeepCopyInto (b_Meta in_) in
  let! selector := LabelSelector_DeepCopyInto (b_Selector in_) in
  let! spec := StartupCPUBoostSpec_DeepCopyInto (b_Spec in_) in
  let! status := StartupCPUBoostStatus_DeepCopyInto (b_Status in_) in
  ret {| b_TypeMeta := b_TypeMeta in_; b_Meta := meta; b_Selector := selector; b_Spec := spec;
         b_Status := status |}.
Definition StartupCPUBoost_DeepCopy : option Addr → HM (option Addr) :=
  copy_ptr StartupCPUBoost_DeepCopyInto.
(** A nil pointer gives a nil interface. *)
Definition StartupCPUBoost_DeepCopyObject : option Addr → HM (option Addr) := StartupCPUBoost_DeepCopy.

Definition StartupCPUBoostList_DeepCopyInto (in_ : StartupCPUBoostList) : HM StartupCPUBoostList :=
  let! meta := ListMeta_DeepCopyInto (bl_Meta in_) in
  let! items := copy_slice StartupCPUBoost_DeepCopyInto (bl_Items in_) in
  ret {| bl_TypeMeta := bl_TypeMeta in_; bl_Meta := meta; bl_Items := items |}.
Definition StartupCPUBoostList_DeepCopy : option Addr → HM (option Addr) :=
  copy_ptr StartupCPUBoostList_DeepCopyInto.
Definition StartupCPUBoostList_DeepCopyObject : option Addr → HM (option Addr) :=
  StartupCPUBoostList_DeepCopy.

Definition GlobalStartupCPUBoostTemplate_DeepCopyInto (in_ : GlobalStartupCPUBoostTemplate) :
    HM GlobalStartupCPUBoostTemplate :=
  let! selector := LabelSelector_DeepCopyInto (tmpl_Selector in_) in
  let! spec := StartupCPUBoostSpec_DeepCopyInto (tmpl_Spec in_) in
  ret {| tmpl_Selector := selector; tmpl_Spec := spec |}.
Definition GlobalStartupCPUBoostTemplate_DeepCopy : option Addr → HM (option Addr) :=
  copy_ptr GlobalStartupCPUBoostTemplate_DeepCopyInto.

Definition GlobalStartupCPUBoostSpec_DeepCopyInto (in_ : GlobalStartupCPUBoostSpec) :
    HM GlobalStartupCPUBoostSpec :=
  let! namespaceSelector := LabelSelector_DeepCopyInto (gspec_NamespaceSelector in_) in
  let! template := GlobalStartupCPUBoostTemplate_DeepCopyInto (gspec_Template in_) in
  ret {| gspec_NamespaceSelector := namespaceSelector; gspec_Template := template |}.
Definition GlobalStartupCPUBoostSpec_DeepCopy : option Addr → HM (option Addr) :=
  copy_ptr GlobalStartupCPUBoostSpec_DeepCopyInto.

(** The strings are copied with [copy]. *)
Definition GlobalStartupCPUBoostStatus_DeepCopyInto (in_ : GlobalStartupCPUBoostStatus) :
    HM GlobalStartupCPUBoostStatus :=
  let! activeNamespaces := copy_slice (ret (A := string)) (gs_ActiveNamespaces in_) in
  let! skippedNamespaces := copy_slice (ret (A := string)) (gs_SkippedNamespaces in_) in
  let! conditions := copy_slice Condition_DeepCopyInto (gs_Conditions in_) in
  ret {| gs_NamespaceCount := gs_NamespaceCount in_; gs_ActiveNamespaces := activeNamespaces;
         gs_SkippedNamespaces := skippedNamespaces; gs_Conditions := conditions |}.
Definition GlobalStartupCPUBoostStatus_DeepCopy : option Addr → HM (option Addr) :=
  copy_ptr GlobalStartupCPUBoostStatus_DeepCopyInto.

Definition GlobalStartupCPUBoost_DeepCopyInto (in_ : GlobalStartupCPUBoost) : HM GlobalStartupCPUBoost :=
  let! meta := ObjectMeta_DeepCopyInto (gb_Meta in_) in
  let! spec := GlobalStartupCPUBoostSpec_DeepCopyInto (gb_Spec in_) in
  let! status := GlobalStartupCPUBoostStatus_DeepCopyInto (gb_Status in_) in
  ret {| gb_TypeMeta := gb_TypeMeta in_; gb_Meta := meta; gb_Spec := spec; gb_Status := status |}.
Definition GlobalStartupCPUBoost_DeepCopy : option Addr → HM (option Addr) :=
  copy_ptr GlobalStartupCPUBoost_DeepCopyInto.
Definition GlobalStartupCPUBoost_DeepCopyObject : option Addr → HM (option Addr) :=
  GlobalStartupCPUBoost_DeepCopy.

Definition GlobalStartupCPUBoostList_DeepCopyInto (in_ : GlobalStartupCPUBoostList) :
    HM GlobalStartupCPUBoostList :=
  let! meta := ListMeta_DeepCopyInto (gl_Meta in_) in
  let! items := copy_slice GlobalStartupCPUBoost_DeepCopyInto (gl_Items in_) in
  ret {| gl_TypeMeta := gl_TypeMeta in_; gl_Meta := meta; gl_Items := items |}.
Definition GlobalStartupCPUBoostList_DeepCopy : option Addr → HM (option Addr) :=
  copy_ptr GlobalStartupCPUBoostList_DeepCopyInto.
Definition GlobalStartupCPUBoostList_DeepCopyObject : option Addr → HM (option Addr) :=
  GlobalStartupCPUBoostList_DeepCopy.
End functions.
End deepcopy.

(** ** What the structs read as *)

(** What the documentation of the library types promises: their copies are
    deep copies. *)
Class MemoryLaws `{QuantityLib} `{SelectorLib} `{MemoryLib} : Type := {
  rep_Quantity : mem_Quantity → Quantity → Assn (C := memory.Cell);
  rep_LabelSelector : mem_LabelSelector → LabelSelector → Assn (C := memory.Cell);
  rep_ObjectMeta : mem_ObjectMeta → v1alpha1.ObjectMeta → Assn (C := memory.Cell);
  rep_ListMeta : mem_ListMeta → ListMeta → Assn (C := memory.Cell);
  rep_Condition : mem_Condition → v1alpha1.Condition → Assn (C := memory.Cell);
  local_Quantity x v : local (rep_Quantity x v);
  local_LabelSelector x v : local (rep_LabelSelector x v);
  local_ObjectMeta x v : local (rep_ObjectMeta x v);
  local_ListMeta x v : local (rep_ListMeta x v);
  local_Condition x v : local (rep_Condition x v);
  copy_Quantity : is_copy rep_Quantity Quantity_DeepCopy;
  copy_LabelSelector : is_copy rep_LabelSelector LabelSelector_DeepCopyInto;
  copy_ObjectMeta : is_copy rep_ObjectMeta ObjectMeta_DeepCopyInto;
  copy_ListMeta : is_copy rep_ListMeta ListMeta_DeepCopyInto;
  copy_Condition : is_copy rep_Condition Condition_DeepCopyInto
}.

#[export] Hint Resolve local_Quantity local_LabelSelector local_ObjectMeta local_ListMeta
  local_Condition : footprint.
#[export] Hint Resolve copy_Quantity copy_LabelSelector copy_ObjectMeta copy_ListMeta
  copy_Condition : footprint.

Section representation.
Context `{MemoryLaws}.
Import memory.
Abbreviation Assn := (Assn (C := Cell)).

Definition rep_FixedResources (x : FixedResources) (v : v1alpha1.FixedResources) : Assn :=
  both (rep_Quantity (fr_Requests x) (v1alpha1.fr_Requests v))
    (both (rep_Quantity (fr_Limits x) (v1alpha1.fr_Limits v)) (pure True)).

Definition rep_ContainerPolicy (x : ContainerPolicy) (v : v1alpha1.ContainerPolicy) : Assn :=
  both (ptr plain (cp_PercentageIncrease x) (v1alpha1.cp_PercentageIncrease v))
    (both (ptr rep_FixedResources (cp_FixedResources x) (v1alpha1.cp_FixedResources v))
      (pure (cp_ContainerName x = v1alpha1.cp_ContainerName v))).

Definition rep_ResourcePolicy (x : ResourcePolicy) (v : v1alpha1.ResourcePolicy) : Assn :=
  both (slice rep_ContainerPolicy (rp_ContainerPolicies x) (v1alpha1.rp_ContainerPolicies v)) (pure True).

Definition rep_DurationPolicy (x : DurationPolicy) (v : v1alpha1.DurationPolicy) : Assn :=
  both (ptr plain (dp_Fixed x) (v1alpha1.dp_Fixed v))
    (both (ptr plain (dp_PodCondition x) (v1alpha1.dp_PodCondition v)) (pure True)).

Definition rep_Spec (x : StartupCPUBoostSpec) (v : v1alpha1.StartupCPUBoostSpec) : Assn :=
  both (rep_ResourcePolicy (spec_ResourcePolicy x) (v1alpha1.spec_ResourcePolicy v))
    (both (rep_DurationPolicy (spec_DurationPolicy x) (v1alpha1.spec_DurationPolicy v)) (pure True)).

Definition rep_Status (x : StartupCPUBoostStatus) (v : v1alpha1.StartupCPUBoostStatus) : Assn :=
  both (slice rep_Condition (bs_Conditions x) (v1alpha1.bs_Conditions v))
    (pure (bs_ActiveContainerBoosts x = v1alpha1.bs_ActiveContainerBoosts v ∧
           bs_TotalContainerBoosts x = v1alpha1.bs_TotalContainerBoosts v)).

(** Objects read as their type metadata and the value of Api. *)
Definition rep_Boost (x : StartupCPUBoost) (v : TypeMeta * v1alpha1.StartupCPUBoost) : Assn :=
  both (rep_ObjectMeta (b_Meta x) (v1alpha1.b_Meta v.2))
    (both (rep_LabelSelector (b_Selector x) (v1alpha1.b_Selector v.2))
      (both (rep_Spec (b_Spec x) (v1alpha1.b_Spec v.2))
        (both (rep_Status (b_Status x) (v1alpha1.b_Status v.2)) (pure (b_TypeMeta x = v.1))))).

Definition rep_BoostList (x : StartupCPUBoostList)
    (v : TypeMeta * ListMeta * list (TypeMeta * v1alpha1.StartupCPUBoost)) : Assn :=
  both (rep_ListMeta (bl_Meta x) v.1.2)
    (both (slice rep_Boost (bl_Items x) v.2) (pure (bl_TypeMeta x = v.1.1))).

Definition rep_Template (x : GlobalStartupCPUBoostTemplate) (v : v1alpha1.GlobalStartupCPUBoostTemplate) : Assn :=
  both (rep_LabelSelector (tmpl_Selector x) (v1alpha1.tmpl_Selector v))
    (both (rep_Spec (tmpl_Spec x) (v1alpha1.tmpl_Spec v)) (pure True)).

Definition rep_GlobalSpec (x : GlobalStartupCPUBoostSpec) (v : v1alpha1.GlobalStartupCPUBoostSpec) : Assn :=
  both (rep_LabelSelector (gspec_NamespaceSelector x) (v1alpha1.gspec_NamespaceSelector v))
    (both (rep_Template (gspec_Template x) (v1alpha1.gspec_Template v)) (pure True)).

Definition rep_GlobalStatus (x : GlobalStartupCPUBoostStatus) (v : v1alpha1.GlobalStartupCPUBoostStatus) : Assn :=
  both (slice plain (gs_ActiveNamespaces x) (v1alpha1.gs_ActiveNamespaces v))
    (both (slice plain (gs_SkippedNamespaces x) (v1alpha1.gs_SkippedNamespaces v))
      (both (slice rep_Condition (gs_Conditions x) (v1alpha1.gs_Conditions v))
        (pure (gs_NamespaceCount x = v1alpha1.gs_NamespaceCount v)))).

Definition rep_Global (x : GlobalStartupCPUBoost) (v : TypeMeta * v1alpha1.GlobalStartupCPUBoost) : Assn :=
  both (rep_ObjectMeta (gb_Meta x) (v1alpha1.gb_Meta v.2))
    (both (rep_GlobalSpec (gb_Spec x) (v1alpha1.gb_Spec v.2))
      (both (rep_GlobalStatus (gb_Status x) (v1alpha1.gb_Status v.2)) (pure (gb_TypeMeta x = v.1)))).

Definition rep_GlobalList (x : GlobalStartupCPUBoostList)
    (v : TypeMeta * ListMeta * list (TypeMeta * v1alpha1.GlobalStartupCPUBoost)) : Assn :=
  both (rep_ListMeta (gl_Meta x) v.1.2)
    (both (slice rep_Global (gl_Items x) v.2) (pure (gl_TypeMeta x = v.1.1))).
End representation.

(** ** Every generated function copies *)

(** A struct: its parts one after the other, then the fields that are kept. *)
Tactic Notation "copy_struct" reference(f) reference(rep) :=
  intros x v; unfold f, rep; eapply copies_post;
  [repeat (eapply copies_field; [solve [auto with footprint]|intros; solve [auto with footprint]
          |solve [auto 10 with footprint]|intros ?]);
   apply copies_ret
  |intros r F h Hq; cbn beta in Hq;
   repeat (destruct Hq as (? & ? & ? & ? & Hq & ->)); destruct Hq as [[? ->] ->];
   repeat (eexists _, _; split; [eassumption|split; [|reflexivity]]); by split].
Tactic Notation "local_struct" reference(rep) := intros x v; unfold rep; auto 10 with footprint.

Section copying.
Context `{MemoryLaws}.
Import memory deepcopy.

Lemma local_FixedResources : ∀ x v, local (rep_FixedResources x v).
Proof. local_struct rep_FixedResources. Qed.
Local Hint Resolve local_FixedResources : footprint.
Lemma copy_FixedResources : is_copy rep_FixedResources FixedResources_DeepCopyInto.
Proof. copy_struct FixedResources_DeepCopyInto rep_FixedResources. Qed.
Local Hint Resolve copy_FixedResources : footprint.

Lemma local_ContainerPolicy : ∀ x v, local (rep_ContainerPolicy x v).
Proof. local_struct rep_ContainerPolicy. Qed.
Local Hint Resolve local_ContainerPolicy : footprint.
Lemma copy_ContainerPolicy : is_copy rep_ContainerPolicy ContainerPolicy_DeepCopyInto.
Proof. copy_struct ContainerPolicy_DeepCopyInto rep_ContainerPolicy. Qed.
Local Hint Resolve copy_ContainerPolicy : footprint.

Lemma local_ResourcePolicy : ∀ x v, local (rep_ResourcePolicy x v).
Proof. local_struct rep_ResourcePolicy. Qed.
Local Hint Resolve local_ResourcePolicy : footprint.
Lemma copy_ResourcePolicy : is_copy rep_ResourcePolicy ResourcePolicy_DeepCopyInto.
Proof. copy_struct ResourcePolicy_DeepCopyInto rep_ResourcePolicy. Qed.
Local Hint Resolve copy_ResourcePolicy : footprint.

Lemma local_DurationPolicy : ∀ x v, local (rep_DurationPolicy x v).
Proof. local_struct rep_DurationPolicy. Qed.
Local Hint Resolve local_DurationPolicy : footprint.
Lemma copy_DurationPolicy : is_copy rep_DurationPolicy DurationPolicy_DeepCopyInto.
Proof. copy_struct DurationPolicy_DeepCopyInto rep_DurationPolicy. Qed.
Local Hint Resolve copy_DurationPolicy : footprint.

Lemma local_Spec : ∀ x v, local (rep_Spec x v).
Proof. local_struct rep_Spec. Qed.
Local Hint Resolve local_Spec : footprint.
Lemma copy_Spec : is_copy rep_Spec StartupCPUBoostSpec_DeepCopyInto.
Proof. copy_struct StartupCPUBoostSpec_DeepCopyInto rep_Spec. Qed.
Local Hint Resolve copy_Spec : footprint.

Lemma local_Status : ∀ x v, local (rep_Status x v).
Proof. local_struct rep_Status. Qed.
Local Hint Resolve local_Status : footprint.
Lemma copy_Status : is_copy rep_Status StartupCPUBoostStatus_DeepCopyInto.
Proof. copy_struct StartupCPUBoostStatus_DeepCopyInto rep_Status. Qed.
Local Hint Resolve copy_Status : footprint.

Lemma local_Boost : ∀ x v, local (rep_Boost x v).
Proof. local_struct rep_Boost. Qed.
Local Hint Resolve local_Boost : footprint.
Lemma copy_Boost : is_copy rep_Boost StartupCPUBoost_DeepCopyInto.
Proof. copy_struct StartupCPUBoost_DeepCopyInto rep_Boost. Qed.
Local Hint Resolve copy_Boost : footprint.

Lemma local_BoostList : ∀ x v, local (rep_BoostList x v).
Proof. local_struct rep_BoostList. Qed.
Local Hint Resolve local_BoostList : footprint.
Lemma copy_BoostList : is_copy rep_BoostList StartupCPUBoostList_DeepCopyInto.
Proof. copy_struct StartupCPUBoostList_DeepCopyInto rep_BoostList. Qed.
Local Hint Resolve copy_BoostList : footprint.

Lemma local_Template : ∀ x v, local (rep_Template x v).
Proof. local_struct rep_Template. Qed.
Local Hint Resolve local_Template : footprint.
Lemma copy_Template : is_copy rep_Template GlobalStartupCPUBoostTemplate_DeepCopyInto.
Proof. copy_struct GlobalStartupCPUBoostTemplate_DeepCopyInto rep_Template. Qed.
Local Hint Resolve copy_Template : footprint.

Lemma local_GlobalSpec : ∀ x v, local (rep_GlobalSpec x v).
Proof. local_struct rep_GlobalSpec. Qed.
Local Hint Resolve local_GlobalSpec : footprint.
Lemma copy_GlobalSpec : is_copy rep_GlobalSpec GlobalStartupCPUBoostSpec_DeepCopyInto.
Proof. copy_struct GlobalStartupCPUBoostSpec_DeepCopyInto rep_GlobalSpec. Qed.
Local Hint Resolve copy_GlobalSpec : footprint.

Lemma local_GlobalStatus : ∀ x v, local (rep_GlobalStatus x v).
Proof. local_struct rep_GlobalStatus. Qed.
Local Hint Resolve local_GlobalStatus : footprint.
Lemma copy_GlobalStatus : is_copy rep_GlobalStatus GlobalStartupCPUBoostStatus_DeepCopyInto.
Proof. copy_struct GlobalStartupCPUBoostStatus_DeepCopyInto rep_GlobalStatus. Qed.
Local Hint Resolve copy_GlobalStatus : footprint.

Lemma local_Global : ∀ x v, local (rep_Global x v).
Proof. local_struct rep_Global. Qed.
Local Hint Resolve local_Global : footprint.
Lemma copy_Global : is_copy rep_Global GlobalStartupCPUBoost_DeepCopyInto.
Proof. copy_struct GlobalStartupCPUBoost_DeepCopyInto rep_Global. Qed.
Local Hint Resolve copy_Global : footprint.

Lemma local_GlobalList : ∀ x v, local (rep_GlobalList x v).
Proof. local_struct rep_GlobalList. Qed.
Local Hint Resolve local_GlobalList : footprint.
Lemma copy_GlobalList : is_copy rep_GlobalList GlobalStartupCPUBoostList_DeepCopyInto.
Proof. copy_struct GlobalStartupCPUBoostList_DeepCopyInto rep_GlobalList. Qed.
Local Hint Resolve copy_GlobalList : footprint.

(** C28: every generated DeepCopy and DeepCopyObject, called on nil or on a
    pointer to an object that reads as some value, returns without a panic,
    leaves every existing cell as it is, and returns a pointer to an object
    that reads as the same value and shares no cell with the original:
    whatever is then written to the cells of the one, the other still reads
    as before. *)
Theorem deep_copies_independent :
  (deep_copy (ptr (plain (T := v1alpha1.PercentageIncrease))) PercentageIncrease_DeepCopy ∧
   deep_copy (ptr (plain (T := v1alpha1.FixedDurationPolicy))) FixedDurationPolicy_DeepCopy ∧
   deep_copy (ptr (plain (T := v1alpha1.PodConditionDurationPolicy))) PodConditionDurationPolicy_DeepCopy ∧
   deep_copy (ptr rep_FixedResources) FixedResources_DeepCopy ∧
   deep_copy (ptr rep_ContainerPolicy) ContainerPolicy_DeepCopy ∧
   deep_copy (ptr rep_ResourcePolicy) ResourcePolicy_DeepCopy ∧
   deep_copy (ptr rep_DurationPolicy) DurationPolicy_DeepCopy ∧
   deep_copy (ptr rep_Spec) StartupCPUBoostSpec_DeepCopy ∧
   deep_copy (ptr rep_Status) StartupCPUBoostStatus_DeepCopy ∧
   deep_copy (ptr rep_Template) GlobalStartupCPUBoostTemplate_DeepCopy ∧
   deep_copy (ptr rep_GlobalSpec) GlobalStartupCPUBoostSpec_DeepCopy ∧
   deep_copy (ptr rep_GlobalStatus) GlobalStartupCPUBoostStatus_DeepCopy) ∧
  (deep_copy (ptr rep_Boost) StartupCPUBoost_DeepCopy ∧
   deep_copy (ptr rep_Boost) StartupCPUBoost_DeepCopyObject ∧
   deep_copy (ptr rep_BoostList) StartupCPUBoostList_DeepCopy ∧
   deep_copy (ptr rep_BoostList) StartupCPUBoostList_DeepCopyObject ∧
   deep_copy (ptr rep_Global) GlobalStartupCPUBoost_DeepCopy ∧
   deep_copy (ptr rep_Global) GlobalStartupCPUBoost_DeepCopyObject ∧
   deep_copy (ptr rep_GlobalList) GlobalStartupCPUBoostList_DeepCopy ∧
   deep_copy (ptr rep_GlobalList) GlobalStartupCPUBoostList_DeepCopyObject).
Proof. split_and!; apply deep_copy_ptr; auto with footprint. Qed.
End copying.

(** ** Library types that keep the laws

    A label selector is a pointer to a cell with its value, every other
    library type is kept in place. *)

Module ConcreteMemory.
Import memory deepcopy.
#[local] Open Scope nat_scope.
#[local] Existing Instances ConcreteQuantity.lib ConcreteSelector.lib.

#[local] Instance types : MemoryTypes := {|
  LibCell := LabelSelector;
  mem_Quantity := Quantity;
  mem_LabelSelector := option Addr;
  mem_ObjectMeta := v1alpha1.ObjectMeta;
  mem_ListMeta := unit;
  ListMeta := unit;
  mem_Condition := v1alpha1.Condition
|}.

#[local] Instance lib : MemoryLib := {|
  Quantity_DeepCopy := ret;
  LabelSelector_DeepCopyInto := copy_ptr (ret (A := LibCell));
  ObjectMeta_DeepCopyInto := ret;
  ListMeta_DeepCopyInto := ret;
  Condition_DeepCopyInto := ret
|}.

#[local] Instance laws : MemoryLaws.
Proof.
  refine {|
    rep_Quantity := plain;
    rep_LabelSelector x v := ptr (plain (T := LibCell)) x (Some v);
    rep_ObjectMeta := plain;
    rep_ListMeta := plain;
    rep_Condition := plain
  |}; try (intros; solve [auto with footprint]).
  intros x v. apply (copy_ptr_ok (plain (T := LibCell)) ret); auto with footprint.
Defined.

(** A boost at address 0; its selector, its container policies, the fixed
    resources of the second of them and its duration policy have cells of
    their own. *)
Definition meta : v1alpha1.ObjectMeta := {|
  v1alpha1.om_Name := "boost"; v1alpha1.om_Namespace := "demo"; v1alpha1.om_UID := "";
  v1alpha1.om_Labels := None; v1alpha1.om_Annotations := None; v1alpha1.om_Finalizers := [];
  v1alpha1.om_DeletionTimestamp := None |}.
Definition type_meta : TypeMeta := {| tm_Kind := "StartupCPUBoost"; tm_APIVersion := "v1alpha1" |}.
Definition seconds : v1alpha1.FixedDurationPolicy :=
  {| v1alpha1.fdp_Unit := "Seconds"; v1alpha1.fdp_Value := 60%Z |}.
Definition selector : LabelSelector := ("app", ["web"]).

Definition boost : StartupCPUBoost := {|
  b_TypeMeta := type_meta;
  b_Meta := meta;
  b_Selector := Some 1;
  b_Spec := {| spec_ResourcePolicy := {| rp_ContainerPolicies := Some 2 |};
               spec_DurationPolicy := {| dp_Fixed := Some 4; dp_PodCondition := None |} |};
  b_Status := {| bs_ActiveContainerBoosts := 1%Z; bs_TotalContainerBoosts := 2%Z; bs_Conditions := None |}
|}.

Definition heap : Heap Cell := {[
  0 := CStartupCPUBoost boost;
  1 := CLib selector;
  2 := CContainerPolicies
    [{| cp_ContainerName := "app"; cp_PercentageIncrease := None; cp_FixedResources := None |};
     {| cp_ContainerName := "db"; cp_PercentageIncrease := None; cp_FixedResources := Some 3 |}];
  3 := CFixedResources {| fr_Requests := QuantityZero; fr_Limits := QuantityZero |};
  4 := CFixedDurationPolicy seconds
]}.

(** The value it reads as. *)
Definition value : v1alpha1.StartupCPUBoost := {|
  v1alpha1.b_Meta := meta;
  v1alpha1.b_Selector := selector;
  v1alpha1.b_Spec := {|
    v1alpha1.spec_ResourcePolicy := {| v1alpha1.rp_ContainerPolicies :=
      [{| v1alpha1.cp_ContainerName := "app"; v1alpha1.cp_PercentageIncrease := None;
          v1alpha1.cp_FixedResources := None |};
       {| v1alpha1.cp_ContainerName := "db"; v1alpha1.cp_PercentageIncrease := None;
          v1alpha1.cp_FixedResources := Some {| v1alpha1.fr_Requests := QuantityZero;
                                                 v1alpha1.fr_Limits := QuantityZero |} |}] |};
    v1alpha1.spec_DurationPolicy :=
      {| v1alpha1.dp_Fixed := Some seconds; v1alpha1.dp_PodCondition := None |} |};
  v1alpha1.b_Status := {| v1alpha1.bs_ActiveContainerBoosts := 1%Z;
    v1alpha1.bs_TotalContainerBoosts := 2%Z; v1alpha1.bs_Conditions := [] |}
|}.

Lemma boost_reads : ∃ F, ptr rep_Boost (Some 0) (Some (type_meta, value)) F heap.
Proof. eexists. repeat (eexists; try reflexivity). Defined.

(** The copy is at a new address and reads as the same boost. *)
Lemma deep_copies_independent_witness : ∃ q F h',
  StartupCPUBoost_DeepCopy (Some 0) heap = Done (Some q, h') ∧ q ≠ 0 ∧
  ptr rep_Boost (Some q) (Some (type_meta, value)) F h'.
Proof.
  destruct boost_reads as [F HF].
  destruct deep_copies_independent as (_ & Hcopy & _).
  destruct (Hcopy _ _ _ _ HF) as ([q|] & F' & h' & Hrun & _ & HF' & Hdis & _); [|by destruct HF'].
  exists q, F', h'. split_and!; [done| |done]. intros ->.
  destruct HF as (? & ? & _ & _ & ->), HF' as (? & ? & _ & _ & ->). set_solver.
Defined.
End ConcreteMemory.
