(* ===== verification/Duration.v ===== *)
(** * Boost duration policies (internal/boost/duration)

    The two implementations of the [Policy] interface.  The instant that
    [timeFunc] returns is an argument of [Valid]; durations are int64
    nanoseconds. *)

From S2P Require Import Prelude Quantities Kube Api.

Module duration.

Definition FixedDurationPolicyName : string := "FixedDuration".
Definition PodConditionPolicyName : string := "PodCondition".

Definition Second : Z := 1000000000.
Definition Minute : Z := 60 * Second.

Record FixedDurationPolicy : Type := NewFixedDurationPolicy { fixed_duration : Z }.

Record PodConditionPolicy : Type := NewPodConditionPolicy {
  cond_condition : string;
  cond_status : string
}.

(** The interface: one constructor per implementation. *)
Inductive Policy : Type :=
  | PolicyFixed (p : FixedDurationPolicy)
  | PolicyPodCondition (p : PodConditionPolicy).

Definition Name (p : Policy) : string :=
  match p with
  | PolicyFixed _ => FixedDurationPolicyName
  | PolicyPodCondition _ => PodConditionPolicyName
  end.

(** [fixedPolicyToDuration] of the boost package: the unit defaults to
    seconds and the product is an int64 product. *)
Definition fixedPolicyToDuration (policy : v1alpha1.FixedDurationPolicy) : Z :=
  if decide (v1alpha1.fdp_Unit policy = v1alpha1.FixedDurationPolicyUnitMin)
  then int64 (v1alpha1.fdp_Value policy * Minute)
  else int64 (v1alpha1.fdp_Value policy * Second).

Section policies.
Context `{QuantityLib}.

(** The loop of [FixedDurationPolicy.Valid]: the first PodScheduled=True
    condition decides. *)
Fixpoint fixed_valid_loop (d now : Z) (conditions : list PodCondition) : bool :=
  match conditions with
  | [] => true
  | c :: cs =>
      if decide (pc_Type c = PodScheduled ∧ pc_Status c = ConditionTrue)
      then bool_decide (now < pc_LastTransitionTime c + d)
      else fixed_valid_loop d now cs
  end.

Definition FixedDurationPolicy_Valid (p : FixedDurationPolicy) (now : Z) (pod : Pod) : bool :=
  fixed_valid_loop (fixed_duration p) now (pod_Conditions pod).

(** The loop of [PodConditionPolicy.Valid]. *)
Fixpoint condition_valid_loop (p : PodConditionPolicy) (conditions : list PodCondition) : bool :=
  match conditions with
  | [] => true
  | c :: cs =>
      if decide (pc_Type c ≠ cond_condition p) then condition_valid_loop p cs
      else if decide (pc_Status c = cond_status p) then false
      else condition_valid_loop p cs
  end.

Definition PodConditionPolicy_Valid (p : PodConditionPolicy) (pod : Pod) : bool :=
  condition_valid_loop p (pod_Conditions pod).

Definition Valid (p : Policy) (now : Z) (pod : Pod) : bool :=
  match p with
  | PolicyFixed p => FixedDurationPolicy_Valid p now pod
  | PolicyPodCondition p => PodConditionPolicy_Valid p pod
  end.

(** ** Specifications *)

(** The instant the pod was scheduled, as the status reports it. *)
Definition scheduled_at (pod : Pod) : option Z :=
  pc_LastTransitionTime <$>
    head (filter (λ c, pc_Type c = PodScheduled ∧ pc_Status c = ConditionTrue)
            (pod_Conditions pod)).

Definition has_condition (pod : Pod) (ty status : string) : Prop :=
  ∃ c, c ∈ pod_Conditions pod ∧ pc_Type c = ty ∧ pc_Status c = status.

Lemma fixed_valid_scheduled p now pod :
  FixedDurationPolicy_Valid p now pod =
    match scheduled_at pod with
    | Some t => bool_decide (now < t + fixed_duration p)
    | None => true
    end.
Proof.
  unfold FixedDurationPolicy_Valid, scheduled_at.
  induction (pod_Conditions pod) as [|c cs IH]; [done|]. cbn [fixed_valid_loop].
  rewrite filter_cons. by case_decide.
Qed.

Lemma condition_valid_false p pod :
  PodConditionPolicy_Valid p pod = false ↔
  has_condition pod (cond_condition p) (cond_status p).
Proof.
  unfold PodConditionPolicy_Valid, has_condition.
  induction (pod_Conditions pod) as [|c cs IH]; cbn.
  - set_solver.
  - setoid_rewrite elem_of_cons. repeat case_decide; naive_solver.
Qed.

Lemma fixed_valid_antitone p now now' pod :
  now ≤ now' → FixedDurationPolicy_Valid p now' pod = true →
  FixedDurationPolicy_Valid p now pod = true.
Proof.
  rewrite !fixed_valid_scheduled. destruct (scheduled_at pod); [|done].
  rewrite !bool_decide_eq_true. lia.
Qed.
End policies.

(** The largest values whose duration fits an int64. *)
Definition max_minutes : Z := 153722867.
Definition max_seconds : Z := 9223372036.

Definition unit_length (u : string) : Z :=
  if decide (u = v1alpha1.FixedDurationPolicyUnitMin) then Minute else Second.
Definition max_value (u : string) : Z :=
  if decide (u = v1alpha1.FixedDurationPolicyUnitMin) then max_minutes else max_seconds.

Lemma fixedPolicyToDuration_exact p :
  0 ≤ v1alpha1.fdp_Value p ≤ max_value (v1alpha1.fdp_Unit p) →
  fixedPolicyToDuration p = v1alpha1.fdp_Value p * unit_length (v1alpha1.fdp_Unit p).
Proof.
  unfold fixedPolicyToDuration, max_value, unit_length, max_minutes, max_seconds, Minute, Second.
  intros Hv. case_decide; apply int64_id; unfold in_int64; lia.
Qed.

(** ** Properties *)

Section properties.
Context `{QuantityLib}.

(** C24: a fixed duration policy built from the API form keeps a pod
    boosted exactly until [value] units after the pod was scheduled, as
    long as the value is within the range an int64 number of nanoseconds
    can hold. *)
Theorem fixed_policy_window fp pod t now :
  0 ≤ v1alpha1.fdp_Value fp ≤ max_value (v1alpha1.fdp_Unit fp) →
  scheduled_at pod = Some t →
  Valid (PolicyFixed (NewFixedDurationPolicy (fixedPolicyToDuration fp))) now pod = true ↔
    now < t + v1alpha1.fdp_Value fp * unit_length (v1alpha1.fdp_Unit fp).
Proof.
  intros Hv Ht. cbn [Valid]. rewrite fixed_valid_scheduled, Ht. cbn.
  by rewrite bool_decide_eq_true, fixedPolicyToDuration_exact.
Qed.

(** Beyond that range the int64 product wraps: a policy of 153722868
    minutes, which the API accepts, has a negative duration, and a pod is
    out of its boost window at the very instant it is scheduled. *)
Theorem fixed_policy_overflow pod t :
  let fp := {| v1alpha1.fdp_Unit := v1alpha1.FixedDurationPolicyUnitMin;
               v1alpha1.fdp_Value := max_minutes + 1 |} in
  scheduled_at pod = Some t →
  fixedPolicyToDuration fp < 0 ∧
  Valid (PolicyFixed (NewFixedDurationPolicy (fixedPolicyToDuration fp))) t pod = false.
Proof.
  intros fp Ht.
  assert (fixedPolicyToDuration fp < 0) as Hneg by (by vm_compute).
  split; [done|]. cbn [Valid]. rewrite fixed_valid_scheduled, Ht. cbn.
  apply bool_decide_eq_false. lia.
Qed.

(** The pod condition policy stops being valid exactly when the pod
    reports a condition of the configured type with the configured
    status. *)
Theorem pod_condition_policy_spec condition status now pod :
  Valid (PolicyPodCondition (NewPodConditionPolicy condition status)) now pod = false ↔
  has_condition pod condition status.
Proof. apply condition_valid_false. Qed.

(** While the pod's conditions do not change, a policy that is no
    longer valid stays so. *)
Lemma policy_expiry_permanent p pod pod' now now' :
  now ≤ now' → pod_Conditions pod' = pod_Conditions pod →
  Valid p now pod = false → Valid p now' pod' = false.
Proof.
  intros Hle Hpod. destruct p as [p|p]; cbn; unfold FixedDurationPolicy_Valid,
    PodConditionPolicy_Valid; rewrite Hpod; [|done].
  intros Hf. apply not_true_iff_false. intros Ht. apply not_true_iff_false in Hf.
  apply Hf. by apply (fixed_valid_antitone _ _ _ _ Hle).
Qed.
End properties.

(** ** Witnesses *)

Module witness.
#[local] Existing Instance ConcreteQuantity.lib.

Definition a_pod : Pod := {|
  pod_Name := "web-1"; pod_Namespace := "demo"; pod_Labels := None;
  pod_Annotations := None; pod_Containers := []; pod_InitContainers := [];
  pod_Resources := None;
  pod_Conditions :=
    [ plain_condition "Initialized" "True" 7;
      plain_condition "PodScheduled" "False" 50;
      plain_condition "PodScheduled" "True" 100;
      plain_condition "Ready" "True" 900 ]
|}.

Definition two_minutes : v1alpha1.FixedDurationPolicy :=
  {| v1alpha1.fdp_Unit := "Minutes"; v1alpha1.fdp_Value := 2 |}.

Example fixed_policy_window_witness :
  Valid (PolicyFixed (NewFixedDurationPolicy (fixedPolicyToDuration two_minutes)))
    120000000099 a_pod = true.
Proof.
  apply (fixed_policy_window two_minutes a_pod 100); [vm_compute; split; congruence|done|].
  vm_compute. done.
Defined.

Example fixed_policy_overflow_witness :
  Valid (PolicyFixed (NewFixedDurationPolicy (fixedPolicyToDuration
    {| v1alpha1.fdp_Unit := "Minutes"; v1alpha1.fdp_Value := 153722868 |}))) 100 a_pod = false.
Proof. apply (fixed_policy_overflow a_pod 100). reflexivity. Defined.
End witness.

End duration.
