(* ===== verification/Resource.v ===== *)
(** * Resource policies (internal/boost/resource)

    The two implementations of [ContainerPolicy]: both copy the resources
    of a container and update the CPU entry of the copy's request and
    limit maps in place, when there is one. *)

From S2P Require Import Prelude Quantities Kube.

Module resource.

Section policies.
Context `{QuantityLib}.

Record PercentageContainerPolicy : Type := NewPercentageContainerPolicy {
  percentage : Z
}.

Record FixedPolicy : Type := NewFixedPolicy {
  cpuRequests : Quantity;
  cpuLimits : Quantity
}.

(** The interface: one constructor per implementation. *)
Inductive ContainerPolicy : Type :=
  | PolicyPercentage (p : PercentageContainerPolicy)
  | PolicyFixed (p : FixedPolicy).

(** ** Percentage increase *)

Definition increaseQuantity (quantity : Quantity) (incPerc : Z) : Quantity :=
  let quantityDec := AsDec quantity in
  let decPerc := NewDec (int64 (100 + incPerc)) 2 in
  let decResult := DecMul quantityDec decPerc in
  let decRoundedResult := DecRoundCeil decResult 2 in
  NewDecimalQuantity decRoundedResult (QFormat quantity).

Definition increaseResource (p : PercentageContainerPolicy) (resource : string)
    (resources : GoMap Quantity) : outcome (GoMap Quantity) :=
  match gm_get resources resource with
  | Some quantity => gm_set resources resource (increaseQuantity quantity (percentage p))
  | None => Done resources
  end.

Definition PercentageContainerPolicy_NewResources (p : PercentageContainerPolicy)
    (container : Container) : outcome ResourceRequirements :=
  let result := c_Resources container in
  requests ← increaseResource p ResourceCPU (Requests result);
  limits ← increaseResource p ResourceCPU (Limits result);
  Done {| Limits := limits; Requests := requests |}.

(** ** Fixed target *)

Definition setResource (resource : string) (resources : GoMap Quantity)
    (target : Quantity) : outcome (GoMap Quantity) :=
  if QIsZero target then Done resources
  else match gm_get resources resource with
  | None => Done resources
  | Some current =>
      if decide (QCmp target current < 0) then Done resources
      else gm_set resources resource target
  end.

Definition FixedPolicy_NewResources (p : FixedPolicy)
    (container : Container) : outcome ResourceRequirements :=
  let result := c_Resources container in
  requests ← setResource ResourceCPU (Requests result) (cpuRequests p);
  limits ← setResource ResourceCPU (Limits result) (cpuLimits p);
  Done {| Limits := limits; Requests := requests |}.

Definition NewResources (p : ContainerPolicy) (container : Container) :
    outcome ResourceRequirements :=
  match p with
  | PolicyPercentage p => PercentageContainerPolicy_NewResources p container
  | PolicyFixed p => FixedPolicy_NewResources p container
  end.

(** ** The update as a function of the CPU entry

    Both policies apply a function to the CPU entry of each map. *)

Definition cpu_alter (f : Quantity → Quantity) (rl : GoMap Quantity) : GoMap Quantity :=
  alter f ResourceCPU <$> rl.

Definition fixed_target (target current : Quantity) : Quantity :=
  if QIsZero target then current
  else if decide (QCmp target current < 0) then current else target.

Definition request_update (p : ContainerPolicy) (q : Quantity) : Quantity :=
  match p with
  | PolicyPercentage p => increaseQuantity q (percentage p)
  | PolicyFixed p => fixed_target (cpuRequests p) q
  end.

Definition limit_update (p : ContainerPolicy) (q : Quantity) : Quantity :=
  match p with
  | PolicyPercentage p => increaseQuantity q (percentage p)
  | PolicyFixed p => fixed_target (cpuLimits p) q
  end.

Lemma cpu_alter_present f rl q :
  gm_get rl ResourceCPU = Some q →
  cpu_alter f rl = Some (<[ResourceCPU := f q]> (gm_map rl)).
Proof.
  destruct rl as [rl|]; unfold gm_get, gm_map; cbn; [|by rewrite lookup_empty].
  intros Hq. f_equal. apply map_eq. intros k. rewrite lookup_alter, lookup_insert.
  case_decide; [subst; by rewrite Hq|done].
Qed.

Lemma cpu_alter_absent f rl : gm_get rl ResourceCPU = None → cpu_alter f rl = rl.
Proof.
  destruct rl as [rl|]; unfold gm_get, gm_map; cbn; [|done].
  intros Hq. f_equal. apply map_eq. intros k. rewrite lookup_alter.
  case_decide; [subst; by rewrite Hq|done].
Qed.

Lemma cpu_alter_same f rl q :
  gm_get rl ResourceCPU = Some q → f q = q → cpu_alter f rl = rl.
Proof.
  intros Hq Hf. rewrite (cpu_alter_present _ _ _ Hq), Hf.
  destruct rl as [rl|]; unfold gm_get, gm_map in *; cbn in *; [|by rewrite lookup_empty in Hq].
  by rewrite insert_id.
Qed.

Lemma gm_get_cpu_alter f rl k :
  gm_get (cpu_alter f rl) k =
    if decide (k = ResourceCPU) then f <$> gm_get rl ResourceCPU else gm_get rl k.
Proof.
  destruct rl as [rl|]; unfold gm_get, gm_map; cbn.
  - rewrite lookup_alter. repeat case_decide; congruence.
  - rewrite !lookup_empty. by case_decide.
Qed.

Lemma increaseResource_spec p rl :
  increaseResource p ResourceCPU rl =
    Done (cpu_alter (λ q, increaseQuantity q (percentage p)) rl).
Proof.
  unfold increaseResource. destruct (gm_get rl ResourceCPU) as [q|] eqn:E.
  - by rewrite (gm_set_present _ _ _ _ E), (cpu_alter_present _ _ _ E).
  - by rewrite cpu_alter_absent.
Qed.

Lemma setResource_spec rl target :
  setResource ResourceCPU rl target = Done (cpu_alter (fixed_target target) rl).
Proof.
  unfold setResource. destruct (gm_get rl ResourceCPU) as [q|] eqn:E.
  - destruct (QIsZero target) eqn:Ez.
    { rewrite (cpu_alter_same _ _ q); unfold fixed_target; by rewrite ?Ez. }
    case_decide as Hc.
    { rewrite (cpu_alter_same _ _ q); unfold fixed_target; rewrite ?Ez; by try case_decide. }
    rewrite (gm_set_present _ _ _ _ E), (cpu_alter_present _ _ _ E).
    unfold fixed_target. rewrite Ez. by case_decide.
  - rewrite cpu_alter_absent by done. by destruct (QIsZero target).
Qed.

(** Neither policy panics, and both leave everything but the CPU entries
    alone. *)
Lemma NewResources_spec p c :
  NewResources p c =
    Done {| Limits := cpu_alter (limit_update p) (Limits (c_Resources c));
            Requests := cpu_alter (request_update p) (Requests (c_Resources c)) |}.
Proof.
  destruct p as [p|p]; unfold NewResources, PercentageContainerPolicy_NewResources,
    FixedPolicy_NewResources; [rewrite !increaseResource_spec|rewrite !setResource_spec];
    reflexivity.
Qed.
End policies.

(** ** Values *)

Section values.
Context `{QuantityLaws}.

(** The value an increase by [p] percent asks for. *)
Definition percent_of (v : Qc) (p : Z) : Qc :=
  (v * Q2Qc (Qmake (100 + p) 100))%Qc.

Lemma dec_percent n : (Q2Qc (inject_Z n) * dec_unit 2)%Qc = Q2Qc (Qmake n 100).
Proof.
  apply Qc_is_canon. unfold dec_unit. cbn [this Qcmult Q2Qc].
  rewrite !Qred_correct. unfold Qeq, inject_Z; cbn. lia.
Qed.

Lemma increaseQuantity_val q p :
  in_int64 (100 + p) → qval (increaseQuantity q p) = ceil_to 2 (percent_of (qval q) p).
Proof.
  intros Hp. unfold qval, increaseQuantity, percent_of.
  rewrite NewDecimalQuantity_val, DecRoundCeil_val, DecMul_val, NewDec_val by lia.
  by rewrite int64_id, dec_percent.
Qed.

Lemma percent_of_ge v p : (0 ≤ v)%Qc → 0 ≤ p → (v ≤ percent_of v p)%Qc.
Proof.
  intros Hv Hp. unfold percent_of. rewrite <-(Qcmult_1_r v) at 1.
  rewrite !(Qcmult_comm v). apply Qcmult_le_compat_r; [|done].
  unfold Qcle. cbn [this Q2Qc]. rewrite !Qred_correct. unfold Qle; cbn. lia.
Qed.

Lemma fixed_target_ge target current : (qval current ≤ qval (fixed_target target current))%Qc.
Proof.
  unfold fixed_target. destruct (QIsZero target); [apply Qcle_refl|].
  case_decide as Hc; [apply Qcle_refl|]. rewrite QCmp_lt in Hc. by apply Qcnot_lt_le.
Qed.

Lemma fixed_target_val target current :
  qval (fixed_target target current) =
    if decide (qval target = 0%Qc ∨ (qval target < qval current)%Qc)
    then qval current else qval target.
Proof.
  unfold fixed_target. rewrite QIsZero_val. fold (qval target).
  case_bool_decide; [rewrite decide_True; [done|by left]|].
  case_decide as Hc; rewrite QCmp_lt in Hc; case_decide; naive_solver.
Qed.

(** The percentages for which the int64 sum [100 + p] is exact. *)
Definition policy_ok (p : ContainerPolicy) : Prop :=
  match p with
  | PolicyPercentage p => 0 ≤ percentage p < 2 ^ 63 - 100
  | PolicyFixed _ => True
  end.

Lemma policy_update_ge p q :
  policy_ok p → (0 ≤ qval q)%Qc →
  (qval q ≤ qval (request_update p q))%Qc ∧ (qval q ≤ qval (limit_update p q))%Qc.
Proof.
  intros Hp Hq. destruct p as [p|p]; cbn in *.
  - rewrite increaseQuantity_val by (unfold in_int64; lia).
    split; (eapply Qcle_trans; [|apply ceil_to_ge]); apply percent_of_ge; lia || done.
  - split; apply fixed_target_ge.
Qed.
End values.

(** ** Properties *)

Section properties.
Context `{QuantityLaws}.

(** C23: the increased quantity is the requested percentage of the
    original one, rounded up to a whole number of hundredths: it is a
    multiple of 0.01, not below the exact product, and less than 0.01
    above it.  The percentage is one whose sum with 100 is an int64. *)
Theorem percentage_increase_value q p :
  0 ≤ p < 2 ^ 63 - 100 →
  let exact := percent_of (qval q) p in
  let r := qval (increaseQuantity q p) in
  (exact ≤ r)%Qc ∧ (r < exact + dec_unit 2)%Qc ∧ ∃ k : Z, r = Q2Qc (Qmake k 100).
Proof.
  intros Hp exact r. subst r. rewrite increaseQuantity_val by (unfold in_int64; lia).
  split; [apply ceil_to_ge|]. split; [apply ceil_to_lt|].
  eexists. unfold ceil_to. apply dec_percent.
Qed.

(** C22: a policy returns for every container, without panicking, and
    only ever raises: it changes no entry but CPU, adds and removes no
    entry, and the CPU request and limit it returns are at least the
    ones of the container, provided these are not negative and the
    percentage of a percentage policy is not negative and its sum with 100
    an int64 ([policy_ok]). *)
Theorem new_resources_never_lower p c :
  policy_ok p →
  (∀ q, gm_get (Requests (c_Resources c)) ResourceCPU = Some q → 0 ≤ qval q)%Qc →
  (∀ q, gm_get (Limits (c_Resources c)) ResourceCPU = Some q → 0 ≤ qval q)%Qc →
  ∃ r, NewResources p c = Done r ∧
    (∀ k, k ≠ ResourceCPU →
       gm_get (Requests r) k = gm_get (Requests (c_Resources c)) k ∧
       gm_get (Limits r) k = gm_get (Limits (c_Resources c)) k) ∧
    option_Forall2 (λ old new, (qval old ≤ qval new)%Qc)
      (gm_get (Requests (c_Resources c)) ResourceCPU) (gm_get (Requests r) ResourceCPU) ∧
    option_Forall2 (λ old new, (qval old ≤ qval new)%Qc)
      (gm_get (Limits (c_Resources c)) ResourceCPU) (gm_get (Limits r) ResourceCPU).
Proof.
  intros Hp Hreq Hlim. eexists. split; [apply NewResources_spec|]. cbn [Requests Limits request_update limit_update].
  setoid_rewrite gm_get_cpu_alter. split_and!.
  - intros k Hk. by rewrite !decide_False.
  - rewrite decide_True by done. destruct (gm_get (Requests _) _) as [q|]; constructor.
    by apply policy_update_ge, Hreq.
  - rewrite decide_True by done. destruct (gm_get (Limits _) _) as [q|]; constructor.
    by apply policy_update_ge, Hlim.
Qed.

(** A fixed policy sets the CPU request of a container to the
    policy's value when that is neither zero nor below the current one,
    and leaves it as it is otherwise; likewise for the limit. *)
Theorem fixed_policy_target p c q :
  gm_get (Requests (c_Resources c)) ResourceCPU = Some q →
  ∃ r q', NewResources (PolicyFixed p) c = Done r ∧
    gm_get (Requests r) ResourceCPU = Some q' ∧
    qval q' = (if decide (qval (cpuRequests p) = 0%Qc ∨ (qval (cpuRequests p) < qval q)%Qc)
               then qval q else qval (cpuRequests p)) ∧
    ∀ l, gm_get (Limits (c_Resources c)) ResourceCPU = Some l →
      ∃ l', gm_get (Limits r) ResourceCPU = Some l' ∧
        qval l' = (if decide (qval (cpuLimits p) = 0%Qc ∨ (qval (cpuLimits p) < qval l)%Qc)
                   then qval l else qval (cpuLimits p)).
Proof.
  intros Hq. eexists _, (fixed_target (cpuRequests p) q).
  split; [apply NewResources_spec|]. cbn [Requests Limits request_update limit_update]. setoid_rewrite gm_get_cpu_alter.
  setoid_rewrite (decide_True _ _ (eq_refl ResourceCPU)). rewrite Hq. split_and!; [done| |].
  - apply fixed_target_val.
  - intros l ->. eexists. split; [done|]. apply fixed_target_val.
Qed.
End properties.

(** ** Witnesses *)

Module witness.
#[local] Existing Instances ConcreteQuantity.lib ConcreteQuantity.laws.
Import ConcreteQuantity.

Definition a_container : Container := {|
  c_Name := "app";
  c_Resources := {|
    Limits := Some {[ ResourceCPU := milli 1500 ]};
    Requests := Some {[ ResourceCPU := milli 333; ResourceMemory := milli 1000000 ]} |};
  c_ResizePolicy := []
|}.

(** 333m increased by 50 percent is 499.5m, rounded up to 500m. *)
Example increase_50 : increaseQuantity (milli 333) 50 = milli 500.
Proof. apply injective_projections; [by apply Qc_is_canon|done]. Qed.

Example percentage_increase_value_witness :
  (percent_of (qval (milli 333)) 50 ≤ qval (increaseQuantity (milli 333) 50))%Qc.
Proof. apply (percentage_increase_value (milli 333) 50). split; [lia|reflexivity]. Defined.

Example new_resources_never_lower_witness :
  ∃ r, NewResources (PolicyPercentage (NewPercentageContainerPolicy 50)) a_container = Done r ∧
    gm_get (Requests r) ResourceMemory = Some (milli 1000000).
Proof.
  destruct (new_resources_never_lower (PolicyPercentage (NewPercentageContainerPolicy 50))
    a_container) as (r & Hr & Hother & _).
  - cbn. lia.
  - intros q Hq. vm_compute in Hq. injection Hq as <-. vm_compute. congruence.
  - intros q Hq. vm_compute in Hq. injection Hq as <-. vm_compute. congruence.
  - exists r. split; [exact Hr|]. apply (Hother ResourceMemory). done.
Defined.

Example fixed_policy_target_witness :
  ∃ r q', NewResources (PolicyFixed (NewFixedPolicy (milli 2000) (milli 1000))) a_container = Done r ∧
    gm_get (Requests r) ResourceCPU = Some q' ∧ qval q' = Q2Qc 2.
Proof.
  destruct (fixed_policy_target (NewFixedPolicy (milli 2000) (milli 1000)) a_container
    (milli 333)) as (r & q' & Hr & Hq' & Hv & _); [reflexivity|].
  exists r, q'. split; [exact Hr|]. split; [exact Hq'|]. rewrite Hv.
  apply Qc_is_canon. vm_compute. reflexivity.
Defined.
End witness.
End resource.
