(* ===== verification/Qos.v ===== *)
(** * Quality-of-service classes (internal/webhook/qos.go)

    [computePodQOS] sums the positive CPU and memory requests and limits of
    a pod's containers in two maps and classifies the pod.  Every [range]
    over a resource list takes its own iteration order, the [n]-th one
    executed taking [σ n]. *)

From S2P Require Import Prelude Quantities Kube.

Section qos.
Context `{QuantityLib}.
Implicit Types (pod : Pod) (rl : GoMap Quantity) (acc requests limits : gmap string Quantity).

Definition supportedQoSComputeResources : list string := [ResourceCPU; ResourceMemory].

Definition isSupportedQoSComputeResource (name : string) : bool :=
  bool_decide (name ∈ supportedQoSComputeResources).

Definition zeroQuantity : Quantity := MustParse "0".

(** [if _, exists := list[name]; !exists { list[name] = delta } else
    { delta.Add(list[name]); list[name] = delta }] *)
Definition add_quantity (acc : gmap string Quantity) (name : string) (quantity : Quantity) :
    gmap string Quantity :=
  match acc !! name with
  | None => <[name := quantity]> acc
  | Some cur => <[name := QAdd quantity cur]> acc
  end.

Definition processResourceList (σ : RangeOrder) acc rl : gmap string Quantity :=
  foldl (λ acc '(name, quantity),
    if negb (isSupportedQoSComputeResource name) then acc
    else if decide (QCmp quantity zeroQuantity = 1) then add_quantity acc name quantity
    else acc) acc (go_range σ (gm_map rl)).

Definition getQOSResources (σ : RangeOrder) rl : gset string :=
  foldl (λ qosResources '(name, quantity),
    if negb (isSupportedQoSComputeResource name) then qosResources
    else if decide (QCmp quantity zeroQuantity = 1) then {[name]} ∪ qosResources
    else qosResources) ∅ (go_range σ (gm_map rl)).

(** [HasAll(memory, cpu)] *)
Definition has_memory_and_cpu (s : gset string) : bool :=
  bool_decide (ResourceMemory ∈ s) && bool_decide (ResourceCPU ∈ s).

(** The limits loop of the container branch: the sums and the set
    [qosLimitsFound]. *)
Definition process_limits (σ : RangeOrder) limits rl : gmap string Quantity * gset string :=
  foldl (λ '(limits, found) '(name, quantity),
    if negb (isSupportedQoSComputeResource name) then (limits, found)
    else if decide (QCmp quantity zeroQuantity = 1)
         then (add_quantity limits name quantity, {[name]} ∪ found)
         else (limits, found)) (limits, ∅) (go_range σ (gm_map rl)).

(** The body of the loop over the containers, the [n]-th and [n+1]-th
    ranges of the call. *)
Fixpoint qos_containers (σ : nat → RangeOrder) (n : nat) (cs : list Container)
    (requests limits : gmap string Quantity) (isGuaranteed : bool) :
    gmap string Quantity * gmap string Quantity * bool :=
  match cs with
  | [] => (requests, limits, isGuaranteed)
  | c :: cs =>
      let requests := processResourceList (σ n) requests (Requests (c_Resources c)) in
      let '(limits, qosLimitsFound) :=
        process_limits (σ (S n)) limits (Limits (c_Resources c)) in
      let isGuaranteed :=
        if negb (has_memory_and_cpu qosLimitsFound) then false else isGuaranteed in
      qos_containers σ (S (S n)) cs requests limits isGuaranteed
  end.

(** The branch for pod-level resources. *)
Definition qos_pod_level (σ : nat → RangeOrder) (r : ResourceRequirements) :
    gmap string Quantity * gmap string Quantity * bool :=
  let requests :=
    if decide (0 < gm_len (Requests r))%nat
    then processResourceList (σ 0%nat) ∅ (Requests r) else ∅ in
  if decide (0 < gm_len (Limits r))%nat
  then
    let limits := processResourceList (σ 1%nat) ∅ (Limits r) in
    let qosLimitResources := getQOSResources (σ 2%nat) (Limits r) in
    (requests, limits, if negb (has_memory_and_cpu qosLimitResources) then false else true)
  else (requests, ∅, true).

(** The loop that compares the sums, with its [break]. *)
Definition requests_match (σ : RangeOrder) requests limits : bool :=
  forallb (λ '(name, req),
    match limits !! name with
    | Some lim => bool_decide (QCmp lim req = 0)
    | None => false
    end) (go_range σ requests).

(** From the sums to the class. *)
Definition qos_classify (σ : RangeOrder) requests limits (isGuaranteed : bool) : PodQOSClass :=
  if decide (size requests = 0%nat ∧ size limits = 0%nat) then PodQOSBestEffort
  else
    let isGuaranteed := if isGuaranteed then requests_match σ requests limits else false in
    if isGuaranteed && bool_decide (size requests = size limits) then PodQOSGuaranteed
    else PodQOSBurstable.

Definition computePodQOS (σ : nat → RangeOrder) pod (podLevelResourcesEnabled : bool) :
    PodQOSClass :=
  let allContainers := pod_Containers pod ++ pod_InitContainers pod in
  let '(requests, limits, isGuaranteed) :=
    match podLevelResourcesEnabled, pod_Resources pod with
    | true, Some r => qos_pod_level σ r
    | _, _ => qos_containers σ 0 allContainers ∅ ∅ true
    end in
  qos_classify (σ (2 * length allContainers + 3)%nat) requests limits isGuaranteed.
End qos.

(** ** The sums *)

Section sums.
Context `{QuantityLaws}.
Implicit Types (rl : GoMap Quantity) (acc requests limits : gmap string Quantity).

(** What a resource list contributes to the sum of resource [k]. *)
Definition pos_val rl (k : string) : Qc :=
  match gm_get rl k with
  | Some q => if decide (0 < qval q)%Qc then qval q else 0%Qc
  | None => 0%Qc
  end.

Definition Qc_sum (l : list Qc) : Qc := foldr Qcplus 0%Qc l.

(** The map holds the positive sums [T] of the supported resources. *)
Definition sums acc (T : string → Qc) : Prop :=
  ∀ k, match acc !! k with
       | Some q => k ∈ supportedQoSComputeResources ∧ qval q = T k ∧ (0 < T k)%Qc
       | None => k ∈ supportedQoSComputeResources → T k = 0%Qc
       end.

Lemma zeroQuantity_val : qval zeroQuantity = 0%Qc.
Proof. apply MustParse_zero. Qed.

Lemma Qc_pos_add a b : (0 < a)%Qc → (0 < b)%Qc → (0 < a + b)%Qc.
Proof.
  intros Ha Hb. apply Qclt_trans with a; [done|].
  rewrite <-(Qcplus_0_r a) at 1. unfold Qclt in *. cbn [this Qcplus Q2Qc] in *.
  rewrite !Qred_correct in *. by apply Qplus_lt_r.
Qed.

Lemma pos_val_nonneg rl k : (0 ≤ pos_val rl k)%Qc.
Proof.
  unfold pos_val. repeat case_match; try apply Qcle_refl. by apply Qclt_le_weak.
Qed.

(** One entry of a resource list. *)
Definition entry_step acc (e : string * Quantity) : gmap string Quantity :=
  let '(name, quantity) := e in
  if negb (isSupportedQoSComputeResource name) then acc
  else if decide (QCmp quantity zeroQuantity = 1) then add_quantity acc name quantity
  else acc.

Definition counts (e : string * Quantity) : Prop :=
  e.1 ∈ supportedQoSComputeResources ∧ (0 < qval e.2)%Qc.

Lemma entry_step_counts acc e :
  counts e → entry_step acc e = add_quantity acc e.1 e.2.
Proof.
  destruct e as [k q]. intros [Hk Hq]. cbn in *. unfold isSupportedQoSComputeResource.
  rewrite bool_decide_eq_true_2 by done. cbn. rewrite decide_True; [done|].
  by rewrite QCmp_gt, zeroQuantity_val.
Qed.

Lemma entry_step_skips acc e : ¬ counts e → entry_step acc e = acc.
Proof.
  destruct e as [k q]. intros Hn. unfold entry_step, isSupportedQoSComputeResource.
  case_bool_decide; [|done]. cbn. rewrite decide_False; [done|].
  rewrite QCmp_gt, zeroQuantity_val. unfold counts in Hn. naive_solver.
Qed.

#[local] Instance counts_dec e : Decision (counts e).
Proof. unfold counts. apply _. Defined.

Lemma lookup_entry_step acc e k :
  entry_step acc e !! k =
    if decide (e.1 = k ∧ counts e)
    then Some (match acc !! k with None => e.2 | Some c => QAdd e.2 c end)
    else acc !! k.
Proof.
  destruct (decide (counts e)) as [Hc|Hc].
  - rewrite entry_step_counts by done. unfold add_quantity.
    destruct (decide (e.1 = k)) as [<-|Hne].
    + rewrite decide_True by done. by destruct (acc !! e.1); rewrite lookup_insert_eq.
    + rewrite decide_False by tauto. by destruct (acc !! e.1); rewrite lookup_insert_ne.
  - rewrite entry_step_skips by done. by rewrite decide_False by tauto.
Qed.

Lemma lookup_entries l acc k :
  NoDup l.*1 →
  foldl entry_step acc l !! k =
    match list_find (λ e, e.1 = k ∧ counts e) l with
    | Some (_, e) => Some (match acc !! k with None => e.2 | Some c => QAdd e.2 c end)
    | None => acc !! k
    end.
Proof.
  revert acc. induction l as [|e l IH]; intros acc Hnd; [done|].
  apply NoDup_cons in Hnd as [Hnotin Hnd]. cbn [foldl list_find]. rewrite IH by done.
  rewrite lookup_entry_step. destruct (decide (e.1 = k ∧ counts e)) as [[<- He]|Hne].
  - destruct (list_find _ l) as [[i e']|] eqn:E; [|done].
    apply list_find_Some in E as (Hi & [Heq _] & _).
    destruct Hnotin. rewrite <-Heq. apply list_elem_of_fmap_2.
    by apply list_elem_of_lookup_2 with i.
  - by destruct (list_find _ l) as [[i e']|].
Qed.

Lemma processResourceList_step σ acc rl :
  processResourceList σ acc rl = foldl entry_step acc (go_range σ (gm_map rl)).
Proof.
  unfold processResourceList. generalize (go_range σ (gm_map rl)). intros l. revert acc.
  induction l as [|[k q] l IH]; intros acc; [done|]. cbn [foldl]. by rewrite IH.
Qed.

(** The sum per resource, whatever the iteration order. *)
Lemma lookup_processResourceList σ acc rl k :
  processResourceList σ acc rl !! k =
    match gm_get rl k with
    | Some q => if decide (counts (k, q))
                then Some (match acc !! k with None => q | Some c => QAdd q c end)
                else acc !! k
    | None => acc !! k
    end.
Proof.
  rewrite processResourceList_step, lookup_entries by apply NoDup_go_range_keys.
  destruct (list_find _ _) as [[i e]|] eqn:E.
  - apply list_find_Some in E as (Hi & [<- Hc] & _). destruct e as [k q]. cbn in *.
    apply list_elem_of_lookup_2, elem_of_go_range in Hi. unfold gm_get. rewrite Hi.
    by rewrite decide_True.
  - apply list_find_None in E. destruct (gm_get rl k) as [q|] eqn:Eq; [|done].
    rewrite decide_False; [done|]. intros Hc. rewrite Forall_forall in E.
    apply (E (k, q)); [by apply elem_of_go_range|done].
Qed.

Lemma processResourceList_order σ σ' acc rl :
  processResourceList σ acc rl = processResourceList σ' acc rl.
Proof. apply map_eq. intros k. by rewrite !lookup_processResourceList. Qed.

Lemma processResourceList_sums σ acc rl T :
  sums acc T → sums (processResourceList σ acc rl) (λ k, (pos_val rl k + T k)%Qc).
Proof.
  intros Hs k. specialize (Hs k). rewrite lookup_processResourceList. unfold pos_val.
  destruct (gm_get rl k) as [q|]; [|by rewrite Qcplus_0_l].
  destruct (decide (counts (k, q))) as [[Hk Hq]|Hn]; cbn in *.
  - rewrite decide_True by done. destruct (acc !! k) as [c|].
    + destruct Hs as (_ & Hc & HT). split_and!; [done| |by apply Qc_pos_add].
      unfold qval in *. by rewrite QAdd_val, Hc.
    + rewrite Hs by done. split_and!; [done|by rewrite Qcplus_0_r|by rewrite Qcplus_0_r].
  - unfold counts in Hn. cbn in Hn. destruct (decide (0 < qval q)%Qc).
    + destruct (acc !! k); [naive_solver|]. intros Hk. by destruct Hn.
    + by rewrite Qcplus_0_l.
Qed.

Lemma getQOSResources_fold l found k :
  k ∈ foldl (λ s '(name, quantity),
    if negb (isSupportedQoSComputeResource name) then s
    else if decide (QCmp quantity zeroQuantity = 1) then {[name]} ∪ s else s)
    (found : gset string) l ↔ k ∈ found ∨ ∃ q, (k, q) ∈ l ∧ counts (k, q).
Proof.
  revert found. induction l as [|[k' q'] l IH]; intros found; cbn [foldl].
  - split; [by left|]. intros [?|(q & Hq & _)]; [done|]. by apply not_elem_of_nil in Hq.
  - rewrite IH. setoid_rewrite elem_of_cons. unfold isSupportedQoSComputeResource.
    rewrite (decide_ext (QCmp q' zeroQuantity = 1) (0 < qval q')%Qc)
      by (by rewrite QCmp_gt, zeroQuantity_val).
    case_bool_decide as Hk'; cbn; [case_decide as Hq'|]; unfold counts in *; cbn.
    + rewrite elem_of_union, elem_of_singleton. naive_solver.
    + naive_solver.
    + naive_solver.
Qed.

Lemma elem_of_getQOSResources σ rl k :
  k ∈ getQOSResources σ rl ↔ k ∈ supportedQoSComputeResources ∧ (0 < pos_val rl k)%Qc.
Proof.
  unfold getQOSResources. rewrite getQOSResources_fold. setoid_rewrite elem_of_go_range.
  fold (gm_get rl k). unfold pos_val, counts. cbn [fst snd]. split.
  - intros [[]%not_elem_of_empty|(q & -> & Hk & Hq)]. by rewrite decide_True.
  - intros [Hk Hp]. destruct (gm_get rl k) as [q|]; [|by apply Qclt_not_eq in Hp].
    right. exists q. case_decide; [done|]. by apply Qclt_not_eq in Hp.
Qed.

Lemma process_limits_spec σ limits rl :
  process_limits σ limits rl = (processResourceList σ limits rl, getQOSResources σ rl).
Proof.
  unfold process_limits, processResourceList, getQOSResources.
  generalize (go_range σ (gm_map rl)) as l. generalize (∅ : gset string) as s.
  intros s l. revert limits s. induction l as [|[k q] l IH]; intros limits s; [done|].
  cbn [foldl]. destruct (negb _); [apply IH|]. case_decide; apply IH.
Qed.

Lemma Forall_supported (P : string → Prop) :
  Forall P supportedQoSComputeResources ↔ P ResourceCPU ∧ P ResourceMemory.
Proof. unfold supportedQoSComputeResources. rewrite !Forall_cons. naive_solver. Qed.

(** Both supported resources have a positive entry. *)
Definition all_positive rl : Prop :=
  Forall (λ k, (0 < pos_val rl k)%Qc) supportedQoSComputeResources.

Lemma has_memory_and_cpu_spec σ rl :
  has_memory_and_cpu (getQOSResources σ rl) = bool_decide (all_positive rl).
Proof.
  unfold has_memory_and_cpu, all_positive. rewrite <-bool_decide_and.
  apply bool_decide_ext. rewrite !elem_of_getQOSResources, Forall_supported.
  unfold supportedQoSComputeResources. set_solver.
Qed.

(** ** The reference classification *)

Definition total (sel : ResourceRequirements → GoMap Quantity)
    (rs : list ResourceRequirements) (k : string) : Qc :=
  Qc_sum ((λ r, pos_val (sel r) k) <$> rs).

Lemma total_cons sel r rs k : total sel (r :: rs) k = (pos_val (sel r) k + total sel rs k)%Qc.
Proof. done. Qed.

Definition no_resources (rs : list ResourceRequirements) : Prop :=
  Forall (λ k, total Requests rs k = 0%Qc ∧ total Limits rs k = 0%Qc)
    supportedQoSComputeResources.

Definition fully_limited (rs : list ResourceRequirements) : Prop :=
  Forall (λ r, all_positive (Limits r)) rs.

Definition balanced (rs : list ResourceRequirements) : Prop :=
  Forall (λ k, total Requests rs k = total Limits rs k) supportedQoSComputeResources.

Definition qos_spec (rs : list ResourceRequirements) : PodQOSClass :=
  if bool_decide (no_resources rs) then PodQOSBestEffort
  else if bool_decide (fully_limited rs) && bool_decide (balanced rs) then PodQOSGuaranteed
  else PodQOSBurstable.

(** The resource requirements that determine the class. *)
Definition qos_sources (pod : Pod) (podLevelResourcesEnabled : bool) :
    list ResourceRequirements :=
  match podLevelResourcesEnabled, pod_Resources pod with
  | true, Some r => [r]
  | _, _ => c_Resources <$> (pod_Containers pod ++ pod_InitContainers pod)
  end.

Lemma sums_size_zero acc T :
  sums acc T → size acc = 0%nat ↔ Forall (λ k, T k = 0%Qc) supportedQoSComputeResources.
Proof.
  intros Hs. rewrite map_size_empty_iff, Forall_forall. split.
  - intros -> k. specialize (Hs k). by rewrite lookup_empty in Hs.
  - intros HT. apply map_eq. intros k. rewrite lookup_empty. specialize (Hs k).
    destruct (acc !! k) as [q|]; [|done]. destruct Hs as (Hk & _ & Hpos).
    rewrite HT in Hpos by done. by apply Qclt_not_eq in Hpos.
Qed.

Lemma requests_match_spec σ requests limits :
  requests_match σ requests limits = true ↔
  ∀ k q, requests !! k = Some q → ∃ l, limits !! k = Some l ∧ qval l = qval q.
Proof.
  unfold requests_match. rewrite forallb_forall. setoid_rewrite <-list_elem_of_In. split.
  - intros Hall k q Hk. specialize (Hall (k, q)). cbn in Hall.
    rewrite elem_of_go_range in Hall. specialize (Hall Hk).
    destruct (limits !! k) as [l|]; [|done]. apply bool_decide_eq_true in Hall.
    exists l. split; [done|]. by apply QCmp_eq.
  - intros Hall [k q] Hin%elem_of_go_range. destruct (Hall k q Hin) as (l & -> & Hl).
    apply bool_decide_eq_true. by apply QCmp_eq.
Qed.

Lemma balanced_maps σ requests limits TR TL :
  sums requests TR → sums limits TL →
  requests_match σ requests limits = true ∧ size requests = size limits ↔
  Forall (λ k, TR k = TL k) supportedQoSComputeResources.
Proof.
  intros HR HL. rewrite requests_match_spec, Forall_forall. split.
  - intros [Hm Hsize] k Hk.
    assert (dom requests = dom limits) as Hdom.
    { apply set_subseteq_size_eq; [|by rewrite !size_dom, Hsize].
      intros k' [q Hq]%elem_of_dom. apply elem_of_dom. destruct (Hm k' q Hq) as (l & -> & _).
      by eexists. }
    assert (is_Some (requests !! k) ↔ is_Some (limits !! k)) as Hiff
      by (by rewrite <-!elem_of_dom, Hdom).
    specialize (Hm k). specialize (HR k). specialize (HL k).
    destruct (requests !! k) as [q|].
    + destruct (Hm q) as (l & Hl & Hval); [done|]. rewrite Hl in HL.
      destruct HR as (_ & <- & _), HL as (_ & <- & _). done.
    + destruct (limits !! k) as [l|]; [|by rewrite HR, HL].
      destruct (proj2 Hiff) as [? ?]; [by eexists|done].
  - intros Heq. assert (∀ k q, requests !! k = Some q →
      ∃ l, limits !! k = Some l ∧ qval l = qval q) as Hm.
    { intros k q Hk. specialize (HR k). specialize (HL k). rewrite Hk in HR.
      destruct HR as (Hsup & HTR & Hpos). rewrite Heq in HTR, Hpos by done.
      destruct (limits !! k) as [l|].
      - exists l. split; [done|]. destruct HL as (_ & -> & _). done.
      - rewrite HL in Hpos by done. by apply Qclt_not_eq in Hpos. }
    split; [done|]. rewrite <-!size_dom. f_equal. apply set_eq. intros k.
    rewrite !elem_of_dom. split.
    + intros [q Hq]. destruct (Hm k q Hq) as (l & -> & _). by eexists.
    + intros [l Hl]. specialize (HR k). specialize (HL k). rewrite Hl in HL.
      destruct HL as (Hsup & _ & Hpos). destruct (requests !! k); [by eexists|].
      rewrite <-Heq, HR in Hpos by done. by apply Qclt_not_eq in Hpos.
Qed.

Lemma sums_empty : sums ∅ (λ _, 0%Qc).
Proof. intros k. by rewrite lookup_empty. Qed.

Lemma sums_ext acc T T' : (∀ k, T k = T' k) → sums acc T → sums acc T'.
Proof. intros Heq Hs k. specialize (Hs k). by rewrite <-!Heq. Qed.

Lemma qos_classify_spec σ requests limits g rs :
  sums requests (total Requests rs) → sums limits (total Limits rs) →
  g = bool_decide (fully_limited rs) ∨ (balanced rs → no_resources rs) →
  qos_classify σ requests limits g = qos_spec rs.
Proof.
  intros HR HL Hg. unfold qos_classify, qos_spec.
  pose proof (balanced_maps σ _ _ _ _ HR HL) as Hbal. fold (balanced rs) in Hbal.
  assert (size requests = 0%nat ∧ size limits = 0%nat ↔ no_resources rs) as Hzero.
  { rewrite (sums_size_zero _ _ HR), (sums_size_zero _ _ HL). unfold no_resources.
    by rewrite <-Forall_and. }
  destruct (bool_decide_reflect (no_resources rs)) as [Hno|Hno];
    [by rewrite decide_True by (by apply Hzero)|].
  rewrite decide_False by (by rewrite Hzero).
  assert (requests_match σ requests limits && bool_decide (size requests = size limits)
    = bool_decide (balanced rs)) as Hrm.
  { apply eq_true_iff_eq. by rewrite andb_true_iff, !bool_decide_eq_true. }
  destruct Hg as [->|Hg].
  - destruct (bool_decide (fully_limited rs)); cbn; [by rewrite Hrm|done].
  - rewrite (bool_decide_eq_false_2 (balanced rs)) in * by tauto.
    rewrite andb_false_r. destruct g; [by rewrite Hrm|done].
Qed.

Lemma qos_containers_spec σ n cs requests limits g TR TL r l g' :
  sums requests TR → sums limits TL →
  qos_containers σ n cs requests limits g = (r, l, g') →
  sums r (λ k, total Requests (c_Resources <$> cs) k + TR k)%Qc ∧
  sums l (λ k, total Limits (c_Resources <$> cs) k + TL k)%Qc ∧
  g' = bool_decide (fully_limited (c_Resources <$> cs)) && g.
Proof.
  revert n requests limits g TR TL.
  induction cs as [|c cs IH]; intros n requests limits g TR TL HR HL Hq.
  - cbn in Hq. injection Hq as <- <- <-.
    split_and!; [eapply sums_ext; [|exact HR]|eapply sums_ext; [|exact HL]|done];
      intros k; cbn; ring.
  - cbn [qos_containers] in Hq. rewrite process_limits_spec, has_memory_and_cpu_spec in Hq.
    eapply IH in Hq as (Hr & Hl & ->); [|by apply processResourceList_sums..].
    split_and!; [eapply sums_ext; [|exact Hr]|eapply sums_ext; [|exact Hl]|];
      [intros k; rewrite fmap_cons, total_cons; ring..|].
    unfold fully_limited. rewrite fmap_cons.
    rewrite (bool_decide_ext _ _ (Forall_cons _ _ _)), bool_decide_and.
    by destruct (bool_decide (all_positive _)), (bool_decide _), g.
Qed.

Lemma gm_len_zero {V} (m : GoMap V) : ¬ (0 < gm_len m)%nat → gm_map m = ∅.
Proof. intros Hz. apply map_size_empty_inv. unfold gm_len in Hz. lia. Qed.

Lemma total_single sel r k : total sel [r] k = pos_val (sel r) k.
Proof. unfold total. cbn. ring. Qed.

Lemma pos_val_empty rl k : gm_map rl = ∅ → pos_val rl k = 0%Qc.
Proof. intros Hrl. unfold pos_val, gm_get. by rewrite Hrl, lookup_empty. Qed.

Lemma processResourceList_single σ sel r :
  sums (processResourceList σ ∅ (sel r)) (total sel [r]).
Proof.
  eapply sums_ext; [|by apply processResourceList_sums, sums_empty].
  intros k. rewrite total_single. ring.
Qed.

Lemma sums_single_empty sel r : gm_map (sel r) = ∅ → sums ∅ (total sel [r]).
Proof.
  intros He. eapply sums_ext; [|apply sums_empty]. intros k.
  by rewrite total_single, pos_val_empty.
Qed.

Lemma qos_pod_level_spec σ σ' r rq l g :
  qos_pod_level σ r = (rq, l, g) → qos_classify σ' rq l g = qos_spec [r].
Proof.
  unfold qos_pod_level. intros Hq.
  assert (sums rq (total Requests [r])) as HR.
  { case_decide; simplify_eq; case_decide as Hz; simplify_eq;
      try apply processResourceList_single; by apply sums_single_empty, gm_len_zero. }
  destruct (decide (0 < gm_len (Limits r))%nat) as [Hl|Hl]; simplify_eq.
  - rewrite has_memory_and_cpu_spec. apply qos_classify_spec;
      [done|apply processResourceList_single|left].
    unfold fully_limited. rewrite (bool_decide_ext _ _ (Forall_singleton _ _)).
    by destruct (bool_decide _).
  - apply gm_len_zero in Hl. apply qos_classify_spec; [done|by apply sums_single_empty|].
    right. intros Hbal. eapply Forall_impl; [exact Hbal|]. cbn beta. intros k ->.
    by rewrite total_single, pos_val_empty.
Qed.

Lemma computePodQOS_spec σ pod enabled :
  computePodQOS σ pod enabled = qos_spec (qos_sources pod enabled).
Proof.
  unfold computePodQOS, qos_sources.
  assert (∀ σ', (let '(requests, limits, isGuaranteed) :=
    qos_containers σ 0 (pod_Containers pod ++ pod_InitContainers pod) ∅ ∅ true in
    qos_classify σ' requests limits isGuaranteed) =
    qos_spec (c_Resources <$> (pod_Containers pod ++ pod_InitContainers pod))) as Hcs.
  { intros σ'. destruct (qos_containers _ _ _ _ _ _) as [[r l] g] eqn:E.
    eapply qos_containers_spec in E as (Hr & Hl & ->); [|apply sums_empty..].
    apply qos_classify_spec; [eapply sums_ext; [|exact Hr]|eapply sums_ext; [|exact Hl]|];
      [intros k; cbn; ring..|]. left. by rewrite andb_true_r. }
  destruct enabled; [|apply Hcs]. destruct (pod_Resources pod) as [r|]; [|apply Hcs].
  destruct (qos_pod_level σ r) as [[rq l] g] eqn:E. by eapply qos_pod_level_spec.
Qed.
End sums.

(** ** Properties *)

Section properties.
Context `{QuantityLaws}.

Lemma Qc_sum_nonneg {A} (f : A → Qc) l :
  (∀ x, 0 ≤ f x)%Qc → (0 ≤ Qc_sum (f <$> l))%Qc.
Proof.
  intros Hf. induction l as [|x l IH]; [apply Qcle_refl|]. cbn.
  rewrite <-(Qcplus_0_l 0). by apply Qcplus_le_compat.
Qed.

Lemma Qc_sum_zero {A} (f : A → Qc) l :
  (∀ x, 0 ≤ f x)%Qc → Qc_sum (f <$> l) = 0%Qc ↔ Forall (λ x, f x = 0%Qc) l.
Proof.
  intros Hf. induction l as [|x l IH]; [done|]. rewrite Forall_cons, <-IH. cbn.
  fold (Qc_sum (f <$> l)). pose proof (Qc_sum_nonneg f l Hf) as Hs. specialize (Hf x).
  split; [|by intros [-> ->]; rewrite Qcplus_0_l].
  intros Heq. assert (f x = 0%Qc) as Hx.
  { apply Qcle_antisym; [|done]. rewrite <-Heq, <-(Qcplus_0_r (f x)) at 1.
    by apply Qcplus_le_compat; [apply Qcle_refl|]. }
  by rewrite Hx, Qcplus_0_l in Heq.
Qed.

Lemma no_resources_spec rs :
  no_resources rs ↔ Forall (λ r, Forall (λ k,
    pos_val (Requests r) k = 0%Qc ∧ pos_val (Limits r) k = 0%Qc)
    supportedQoSComputeResources) rs.
Proof.
  unfold no_resources, total. rewrite Forall_supported.
  rewrite !Qc_sum_zero by (intros; apply pos_val_nonneg).
  rewrite !Forall_forall. setoid_rewrite Forall_supported. naive_solver.
Qed.

Lemma fully_limited_no_resources rs :
  fully_limited rs → no_resources rs → rs = [].
Proof.
  rewrite no_resources_spec. destruct rs as [|r rs]; [done|].
  unfold fully_limited, all_positive. rewrite !Forall_cons, !Forall_supported.
  intros [[Hcpu _] _] [[[_ Hz] _] _]. rewrite Hz in Hcpu. by apply Qclt_not_eq in Hcpu.
Qed.

(** C21: whatever order the resource maps are iterated in, and with or
    without pod-level resources, the computed class is the one
    Kubernetes defines: best-effort when no source has a positive CPU or
    memory request or limit; guaranteed when there is a source, every
    source limits both resources and the summed requests equal the
    summed limits; burstable in every other case. *)
Theorem compute_pod_qos_classes σ pod enabled :
  let rs := qos_sources pod enabled in
  let best_effort := ∀ r k, r ∈ rs → k ∈ supportedQoSComputeResources →
    pos_val (Requests r) k = 0%Qc ∧ pos_val (Limits r) k = 0%Qc in
  let guaranteed := rs ≠ [] ∧ (∀ r, r ∈ rs → all_positive (Limits r)) ∧
    ∀ k, k ∈ supportedQoSComputeResources → total Requests rs k = total Limits rs k in
  (computePodQOS σ pod enabled = PodQOSBestEffort ↔ best_effort) ∧
  (computePodQOS σ pod enabled = PodQOSGuaranteed ↔ guaranteed) ∧
  (computePodQOS σ pod enabled = PodQOSBurstable ↔ ¬ best_effort ∧ ¬ guaranteed).
Proof.
  intros rs be gu.
  assert (no_resources rs ↔ be) as Hbe.
  { rewrite no_resources_spec. unfold be. rewrite Forall_forall.
    setoid_rewrite Forall_forall. naive_solver. }
  assert (fully_limited rs ∧ balanced rs ↔ rs = [] ∨ gu) as Hgu.
  { unfold gu, fully_limited, balanced. rewrite !Forall_forall. split.
    - intros [? ?]. destruct (decide (rs = [])) as [|]; tauto.
    - intros [Hnil|]; [|tauto]. rewrite Hnil. split; [by intros ? ?%not_elem_of_nil|done]. }
  assert (¬ (be ∧ gu)) as Hexcl.
  { intros [Hb Hg]. pose proof Hg as [Hne _]. apply Hne, fully_limited_no_resources.
    - apply Hgu. by right.
    - by apply Hbe. }
  assert (rs = [] → be) as Hnil.
  { intros Hrs r k Hr. rewrite Hrs in Hr. by apply not_elem_of_nil in Hr. }
  rewrite computePodQOS_spec. fold rs. unfold qos_spec. rewrite <-bool_decide_and.
  repeat case_bool_decide; split_and!; split; try done; tauto.
Qed.
End properties.
