(* ===== verification/BoostPod.v ===== *)
(** * Boosted pods (internal/boost/pod)

    The annotation in which the webhook stores the original CPU resources
    of a pod, the functions that restore them, and the two merge patches
    the boost sends to the API server.  Functions that change a pod through
    its pointer return the pod as they leave it, also when they fail half
    way. *)

From S2P Require Import Prelude Quantities Kube.

Definition BoostLabelKey : string := "autoscaling.x-k8s.io/startup-cpu-boost".
Definition BoostAnnotationKey : string := "autoscaling.x-k8s.io/startup-cpu-boost".
Definition EmptyPatchString : string := "{}".

Record BoostPodAnnotation : Type := {
  BoostTimestamp : Z;
  InitCPURequests : GoMap string;
  InitCPULimits : GoMap string
}.

(** [time.Now()] is the argument. *)
Definition NewBoostAnnotation (now : Z) : BoostPodAnnotation :=
  {| BoostTimestamp := now; InitCPURequests := Some ∅; InitCPULimits := Some ∅ |}.

(** ** Encodings

    The JSON form of the annotation, which the code stores as a string, and
    the JSON form of a pod and the merge patches of
    github.com/evanphx/json-patch, bytes the code does not look into. *)

Class AnnotationJSON : Type := {
  annotation_Marshal : BoostPodAnnotation → result string;
  annotation_Unmarshal : string → result BoostPodAnnotation
}.

(** Two annotations record the same original resources. *)
Definition same_resources (a b : BoostPodAnnotation) : Prop :=
  gm_map (InitCPURequests a) = gm_map (InitCPURequests b) ∧
  gm_map (InitCPULimits a) = gm_map (InitCPULimits b).

(** Empty maps are omitted and come back as nil maps, the wall clock
    loses its monotonic part: the maps survive as maps.  encoding/json
    refuses times outside the years 0 to 9999 and replaces invalid UTF-8;
    the annotations of the program have the time of the clock and the names
    of containers, which the API server restricts to DNS labels. *)
Class AnnotationJSONLaws `{AnnotationJSON} : Prop := {
  annotation_marshals a : ∃ s, annotation_Marshal a = inr s;
  annotation_roundtrip a s : annotation_Marshal a = inr s →
    ∃ a', annotation_Unmarshal s = inr a' ∧ same_resources a' a
}.

Class PatchLib `{QuantityLib} : Type := {
  Bytes : Type;
  bytes_of_string : string → Bytes;
  pod_Marshal : Pod → result Bytes;
  CreateMergePatch : Bytes → Bytes → result Bytes
}.

Section annotation.
Context `{QuantityLib} `{AnnotationJSON}.

(** [json.Marshal] failing makes [ToJSON] panic. *)
Definition ToJSON (a : BoostPodAnnotation) : outcome string :=
  match annotation_Marshal a with
  | inr s => Done s
  | inl err => Panic ("failed to marshall to JSON: " +:+ err)
  end.

Definition BoostAnnotationFromPod (pod : Pod) : result BoostPodAnnotation :=
  match gm_get (pod_Annotations pod) BoostAnnotationKey with
  | None => inl "boost annotation not found"
  | Some data => annotation_Unmarshal data
  end.

(** The block of [revertBoostResources] that restores one map of a
    container from one map of the annotation. *)
Definition revert_entry (what : string) (initial : GoMap string) (name : string)
    (rl : GoMap Quantity) : outcome (option error * GoMap Quantity) :=
  match gm_get initial name with
  | None => Done (None, rl)
  | Some s =>
      match ParseQuantity s with
      | inr q => rl' ← gm_set (gm_make_if_nil rl) ResourceCPU q; Done (None, rl')
      | inl err => Done (Some ("failed to parse CPU " +:+ what +:+ ": " +:+ err), rl)
      end
  end.

Definition revert_container (a : BoostPodAnnotation) (c : Container) :
    outcome (option error * Container) :=
  '(err, requests) ← revert_entry "request" (InitCPURequests a) (c_Name c)
                       (Requests (c_Resources c));
  let c := c_set_Resources c {| Limits := Limits (c_Resources c); Requests := requests |} in
  match err with
  | Some err => Done (Some err, c)
  | None =>
      '(err, limits) ← revert_entry "limit" (InitCPULimits a) (c_Name c)
                         (Limits (c_Resources c));
      Done (err, c_set_Resources c {| Limits := limits; Requests := requests |})
  end.

(** The loop over the containers, which returns at the first error. *)
Fixpoint revert_containers (a : BoostPodAnnotation) (cs : list Container) :
    outcome (option error * list Container) :=
  match cs with
  | [] => Done (None, [])
  | c :: cs =>
      '(err, c') ← revert_container a c;
      match err with
      | Some err => Done (Some err, c' :: cs)
      | None => '(err, cs') ← revert_containers a cs; Done (err, c' :: cs')
      end
  end.

Definition revertBoostResources (pod : Pod) : outcome (option error * Pod) :=
  match BoostAnnotationFromPod pod with
  | inl err => Done (Some ("failed to get boost annotation from pod: " +:+ err), pod)
  | inr annotation =>
      '(err, cs) ← revert_containers annotation (pod_Containers pod);
      Done (err, pod_set_Containers pod cs)
  end.

Definition revertBoostLabels (pod : Pod) : outcome (option error * Pod) :=
  Done (None, pod_set_Meta pod (gm_delete (pod_Labels pod) BoostLabelKey)
                (gm_delete (pod_Annotations pod) BoostAnnotationKey)).

Definition RevertResourceBoost (pod : Pod) : outcome (option error * Pod) :=
  '(err, pod) ← revertBoostResources pod;
  match err with
  | Some err => Done (Some err, pod)
  | None => revertBoostLabels pod
  end.

(** ** Patches *)

Context `{!PatchLib}.

Definition buildPodPatch (pod : Pod) (mutatePodFunc : Pod → outcome (option error * Pod)) :
    outcome (result Bytes * Pod) :=
  match pod_Marshal pod with
  | inl err => Done (inl err, pod)
  | inr podJSON =>
      '(err, pod) ← mutatePodFunc pod;
      match err with
      | Some err => Done (inl err, pod)
      | None =>
          match pod_Marshal pod with
          | inl err => Done (inl err, pod)
          | inr updatedPodJSON => Done (CreateMergePatch podJSON updatedPodJSON, pod)
          end
      end
  end.

(** The implementations of [client.Patch] of this package. *)
Inductive RevertPatch : Type :=
  | revertBoostLabelsPatch
  | revertBoostResourcesPatch.

(** [Data(obj)]; [obj] is the pod it points to, [None] when it is an
    object of another type. *)
Definition Data (p : RevertPatch) (obj : option Pod) :
    outcome (result Bytes * option Pod) :=
  match p, obj with
  | revertBoostLabelsPatch, None =>
      Done (inl "revertBoostLabelsPatch applies only on *corev1.Pod objects", None)
  | revertBoostResourcesPatch, None =>
      Done (inl "revertBoostResourcesPatch applies only on *corev1.Pod objects", None)
  | revertBoostLabelsPatch, Some pod =>
      '(patch, pod) ← buildPodPatch pod revertBoostLabels;
      Done (patch, Some pod)
  | revertBoostResourcesPatch, Some pod =>
      '(patch, pod) ← buildPodPatch pod revertBoostResources;
      match patch with
      | inl _ => Done (inr (bytes_of_string EmptyPatchString), Some pod)
      | inr patchData => Done (inr patchData, Some pod)
      end
  end.

(** ** The restored containers

    [restored a c] holds when the annotation parses for [c]; then
    [restore a c] is the container with its original CPU resources. *)

Definition restore_map (initial : GoMap string) (name : string) (rl : GoMap Quantity) :
    GoMap Quantity :=
  match gm_get initial name with
  | None => rl
  | Some s => match ParseQuantity s with
              | inr q => Some (<[ResourceCPU := q]> (gm_map rl))
              | inl _ => rl
              end
  end.

Definition restore (a : BoostPodAnnotation) (c : Container) : Container :=
  c_set_Resources c
    {| Limits := restore_map (InitCPULimits a) (c_Name c) (Limits (c_Resources c));
       Requests := restore_map (InitCPURequests a) (c_Name c) (Requests (c_Resources c)) |}.

Definition parses (initial : GoMap string) (name : string) : Prop :=
  ∀ s, gm_get initial name = Some s → ∃ q, ParseQuantity s = inr q.

Definition restorable (a : BoostPodAnnotation) (c : Container) : Prop :=
  parses (InitCPURequests a) (c_Name c) ∧ parses (InitCPULimits a) (c_Name c).

Lemma revert_entry_ok what initial name rl :
  parses initial name →
  revert_entry what initial name rl = Done (None, restore_map initial name rl).
Proof.
  unfold revert_entry, restore_map, parses. intros Hp.
  destruct (gm_get initial name) as [s|]; [|done].
  destruct (Hp s) as (q & ->); done.
Qed.

(** Whatever the annotation holds, an entry is restored or left alone. *)
Lemma revert_entry_total what initial name rl :
  ∃ err, revert_entry what initial name rl = Done (err, restore_map initial name rl) ∧
    (err = None ↔ parses initial name).
Proof.
  unfold revert_entry, restore_map, parses. destruct (gm_get initial name) as [s|].
  - destruct (ParseQuantity s) as [e|q] eqn:Es; eexists; (split; [reflexivity|]).
    + split; [done|]. intros Hp. destruct (Hp s) as (q & Hq); [done|]. congruence.
    + split; [|done]. intros _ s' [= <-]. by exists q.
  - exists None. split; [done|]. split; [by intros _ ?|done].
Qed.

Lemma revert_container_total a c :
  ∃ err c', revert_container a c = Done (err, c') ∧ (err = None ↔ restorable a c) ∧
    (err = None → c' = restore a c).
Proof.
  unfold revert_container, restorable, restore.
  destruct (revert_entry_total "request" (InitCPURequests a) (c_Name c)
    (Requests (c_Resources c))) as (e1 & -> & He1).
  cbn -[revert_entry]. destruct e1 as [e1|].
  - eexists _, _. split; [reflexivity|]. split; [|done]. split; [done|]. tauto.
  - destruct (revert_entry_total "limit" (InitCPULimits a) (c_Name c)
      (Limits (c_Resources c))) as (e2 & He & He2).
    cbn in He. rewrite He. eexists _, _. split; [reflexivity|]. split; [tauto|]. by intros ->.
Qed.

Lemma revert_containers_total a cs :
  ∃ err cs', revert_containers a cs = Done (err, cs') ∧
    (err = None ↔ Forall (restorable a) cs) ∧
    (err = None → cs' = restore a <$> cs).
Proof.
  induction cs as [|c cs (err & cs' & Hcs & Herr & Hok)]; cbn.
  - eexists _, _. split; [reflexivity|]. split; [|done]. by split; [constructor|].
  - destruct (revert_container_total a c) as (e & c' & -> & He & Hc'). cbn.
    destruct e as [e|].
    + eexists _, _. split; [reflexivity|]. split; [|done]. rewrite Forall_cons, <-He. naive_solver.
    + rewrite Hcs. cbn. eexists _, _. split; [reflexivity|].
      rewrite Forall_cons, <-He, <-Herr. split; [naive_solver|].
      intros Hnone. by rewrite Hc', Hok.
Qed.

(** The whole effect of [revertBoostResources] on a pod. *)
Lemma revertBoostResources_total pod :
  ∃ err cs, revertBoostResources pod = Done (err, pod_set_Containers pod cs) ∧
    (err = None ↔ ∃ a, BoostAnnotationFromPod pod = inr a ∧
                      Forall (restorable a) (pod_Containers pod)) ∧
    ∀ a, BoostAnnotationFromPod pod = inr a → err = None →
      cs = restore a <$> pod_Containers pod.
Proof.
  unfold revertBoostResources. destruct (BoostAnnotationFromPod pod) as [e|a].
  - eexists _, (pod_Containers pod). split; [by destruct pod|]. split; [|done].
    split; [done|]. by intros (? & ? & _).
  - destruct (revert_containers_total a (pod_Containers pod)) as (err & cs & -> & Herr & Hok).
    eexists _, _. split; [reflexivity|]. split.
    + rewrite Herr. split; [by eexists|]. by intros (? & [= <-] & ?).
    + by intros ? [= <-].
Qed.

Lemma RevertResourceBoost_total pod :
  ∃ err pod', RevertResourceBoost pod = Done (err, pod') ∧
    pod_Name pod' = pod_Name pod ∧ pod_Namespace pod' = pod_Namespace pod ∧
    (err = None ↔ ∃ a, BoostAnnotationFromPod pod = inr a ∧
                      Forall (restorable a) (pod_Containers pod)).
Proof.
  destruct (revertBoostResources_total pod) as (err & cs & Hr & Herr & _).
  unfold RevertResourceBoost. rewrite Hr. cbn. destruct err; eexists _, _;
    (split; [reflexivity|]); done.
Qed.

Lemma gm_get_restore_map initial name rl k :
  parses initial name →
  gm_get (restore_map initial name rl) k =
    match gm_get initial name with
    | Some s => if decide (k = ResourceCPU)
                then match ParseQuantity s with inr q => Some q | inl _ => None end
                else gm_get rl k
    | None => gm_get rl k
    end.
Proof.
  unfold restore_map, parses. intros Hp. destruct (gm_get initial name) as [s|]; [|done].
  destruct (Hp s) as (q & ->); [done|]. unfold gm_get. unfold gm_map at 1. cbn. rewrite lookup_insert.
  repeat case_decide; congruence.
Qed.

(** Building a patch leaves the mutated pod behind the pointer, whether
    or not a patch comes out. *)
Lemma buildPodPatch_mutates pod f err pod' :
  f pod = Done (err, pod') →
  ∃ r pod'', buildPodPatch pod f = Done (r, pod'') ∧ (pod'' = pod ∨ pod'' = pod').
Proof.
  intros Hf. unfold buildPodPatch. destruct (pod_Marshal pod) as [e|j].
  { eexists _, _. split; [reflexivity|]. by left. }
  rewrite Hf. cbn. destruct err as [err|]; [eexists _, _; (split; [reflexivity|]); by right|].
  destruct (pod_Marshal pod') as [e|j']; eexists _, _; (split; [reflexivity|]); by right.
Qed.
End annotation.

(** ** Properties *)

Section properties.
Context `{QuantityLib} `{AnnotationJSON} `{!PatchLib}.

(** Restoring a pod never panics and changes nothing but its
    containers.  It succeeds exactly when the pod carries an annotation
    that decodes and whose entries for the pod's containers parse; then
    every container keeps its name, its resize policy and its entries
    other than CPU, and its CPU request and limit are the recorded ones
    where the annotation has one and unchanged where it has none. *)
Theorem revert_boost_resources_spec pod :
  ∃ err cs, revertBoostResources pod = Done (err, pod_set_Containers pod cs) ∧
    (err = None ↔ ∃ a, BoostAnnotationFromPod pod = inr a ∧
                      Forall (restorable a) (pod_Containers pod)) ∧
    ∀ a, err = None → BoostAnnotationFromPod pod = inr a →
      Forall2 (λ c c',
        c_Name c' = c_Name c ∧ c_ResizePolicy c' = c_ResizePolicy c ∧
        (∀ k, k ≠ ResourceCPU →
           gm_get (Requests (c_Resources c')) k = gm_get (Requests (c_Resources c)) k ∧
           gm_get (Limits (c_Resources c')) k = gm_get (Limits (c_Resources c)) k) ∧
        match gm_get (InitCPURequests a) (c_Name c) with
        | Some s => ∃ q, ParseQuantity s = inr q ∧
                         gm_get (Requests (c_Resources c')) ResourceCPU = Some q
        | None => Requests (c_Resources c') = Requests (c_Resources c)
        end ∧
        match gm_get (InitCPULimits a) (c_Name c) with
        | Some s => ∃ q, ParseQuantity s = inr q ∧
                         gm_get (Limits (c_Resources c')) ResourceCPU = Some q
        | None => Limits (c_Resources c') = Limits (c_Resources c)
        end) (pod_Containers pod) cs.
Proof.
  destruct (revertBoostResources_total pod) as (err & cs & Hr & Herr & Hcs).
  exists err, cs. split; [done|]. split; [done|]. intros a Hnone Ha.
  rewrite (Hcs a Ha Hnone). apply Herr in Hnone as (a' & Ha' & Hall).
  rewrite Ha in Ha'. injection Ha' as <-. apply Forall2_fmap_r, Forall_Forall2_diag.
  eapply Forall_impl; [exact Hall|]. intros c [Hreq Hlim].
  cbn. split_and!; [done|done| | |].
  - intros k Hk. rewrite !gm_get_restore_map by done.
    destruct (gm_get (InitCPURequests a) _), (gm_get (InitCPULimits a) _);
      by rewrite ?decide_False.
  - unfold restore_map, parses in *.
    destruct (gm_get (InitCPURequests a) _) as [s|]; [|done].
    destruct (Hreq s) as (q & ->); [done|].
    exists q. split; [done|apply gm_get_insert].
  - unfold restore_map, parses in *.
    destruct (gm_get (InitCPULimits a) _) as [s|]; [|done].
    destruct (Hlim s) as (q & ->); [done|].
    exists q. split; [done|apply gm_get_insert].
Qed.

(** When the resources of a pod cannot be restored, because the
    annotation is missing, does not decode or holds a quantity that does
    not parse, the resources patch does not fail: it is the empty patch
    that leaves the object on the server as it is. *)
Theorem resources_patch_unrestorable pod :
  ¬ (∃ a, BoostAnnotationFromPod pod = inr a ∧ Forall (restorable a) (pod_Containers pod)) →
  ∃ pod', Data revertBoostResourcesPatch (Some pod) = Done (inr (bytes_of_string EmptyPatchString), Some pod').
Proof.
  intros Hno. destruct (revertBoostResources_total pod) as (err & cs & Hr & Herr & _).
  destruct err as [err|]; [|naive_solver]. cbn. unfold buildPodPatch.
  destruct (pod_Marshal pod); [|rewrite Hr]; cbn; by eexists.
Qed.
End properties.

(** ** A concrete encoding, and witnesses *)

Module ConcreteJSON.
Import ConcreteQuantity.

Definition enc (a : BoostPodAnnotation) : string :=
  String "{"%char (bits_of (encode (BoostTimestamp a,
    map_to_list (gm_map (InitCPURequests a)), map_to_list (gm_map (InitCPULimits a))))).

Definition dec (s : string) : result BoostPodAnnotation :=
  match s with
  | String _ s' =>
      match decode (of_bits s') : option (Z * list (string * string) * list (string * string)) with
      | Some (t, r, l) =>
          inr {| BoostTimestamp := t; InitCPURequests := Some (list_to_map r);
                 InitCPULimits := Some (list_to_map l) |}
      | None => inl "invalid character"
      end
  | EmptyString => inl "unexpected end of JSON input"
  end.

#[local] Instance json : AnnotationJSON :=
  {| annotation_Marshal := λ a, inr (enc a); annotation_Unmarshal := dec |}.

#[local] Instance json_laws : AnnotationJSONLaws.
Proof.
  split; [by intros a; eexists|]. intros a s [= <-]. unfold annotation_Unmarshal. cbn.
  rewrite of_bits_of, decode_encode. eexists. split; [reflexivity|].
  by split; cbn; unfold gm_map at 1; cbn; rewrite list_to_map_to_list.
Qed.

(** Pods as JSON documents and merge patches between them, for
    evaluation: the patch is the new document. *)
#[local] Instance patches : @PatchLib ConcreteQuantity.lib :=
  {| Bytes := string; bytes_of_string := id;
     pod_Marshal := λ p, inr (pod_Name p); CreateMergePatch := λ a b, inr b |}.
End ConcreteJSON.

Module witness.
#[local] Existing Instances ConcreteQuantity.lib ConcreteJSON.json ConcreteJSON.patches.

Definition plain_pod : Pod := {|
  pod_Name := "web-1"; pod_Namespace := "demo"; pod_Labels := None;
  pod_Annotations := None; pod_Containers := []; pod_InitContainers := [];
  pod_Resources := None; pod_Conditions := []
|}.

Example resources_patch_unrestorable_witness :
  ∃ pod', Data revertBoostResourcesPatch (Some plain_pod) = Done (inr (bytes_of_string EmptyPatchString), Some pod').
Proof.
  apply (resources_patch_unrestorable plain_pod). intros (a & Ha & _). vm_compute in Ha.
  discriminate Ha.
Defined.
End witness.
