(* ===== verification/Namespaced.v ===== *)
(** * Namespaced collections (internal/boost/util.go)

    [namespacedObjects] is a map of maps, namespace first; the inner map of
    a namespace is created by the first [Put] and kept when it becomes
    empty. *)

From S2P Require Import Prelude.

Definition namespacedObjects (T : Type) : Type := gmap string (gmap string T).

Section namespaced.
Context {T : Type}.
Implicit Types o : gmap string (gmap string T).

Definition newNamespacedObjects : namespacedObjects T := ∅.

Definition Put (name namespace : string) (object : T) o : gmap string (gmap string T) :=
  match o !! namespace with
  | None => <[namespace := <[name := object]> ∅]> o
  | Some namespaceObjects => <[namespace := <[name := object]> namespaceObjects]> o
  end.

Definition Get (name namespace : string) o : option T :=
  match o !! namespace with
  | None => None
  | Some namespaceObjects => namespaceObjects !! name
  end.

Definition List (σ : RangeOrder) (namespace : string) o : list T :=
  match o !! namespace with
  | None => []
  | Some namespaceObjects => range_values σ namespaceObjects
  end.

(** The outer range uses [σ], the inner range of namespace [ns] uses
    [τ ns]. *)
Definition ListAll (σ : RangeOrder) (τ : string → RangeOrder) o : list T :=
  '(ns, namespaceObjects) ← go_range σ o; range_values (τ ns) namespaceObjects.

Definition Delete (name namespace : string) o : gmap string (gmap string T) :=
  match o !! namespace with
  | None => o
  | Some namespaceObjects => <[namespace := delete name namespaceObjects]> o
  end.

Lemma Get_Put name ns x o name' ns' :
  Get name' ns' (Put name ns x o) =
    if decide (ns = ns' ∧ name = name') then Some x else Get name' ns' o.
Proof.
  unfold Get, Put. destruct (decide (ns = ns')) as [<-|Hne].
  - destruct (o !! ns) as [m|]; rewrite lookup_insert_eq, lookup_insert;
      repeat case_decide; try done; try tauto.
  - rewrite (decide_False (P := ns = ns' ∧ _)) by tauto.
    destruct (o !! ns) as [m|]; by rewrite lookup_insert_ne.
Qed.

Lemma Get_Delete name ns o name' ns' :
  Get name' ns' (Delete name ns o) =
    if decide (ns = ns' ∧ name = name') then None else Get name' ns' o.
Proof.
  unfold Get, Delete. destruct (decide (ns = ns')) as [<-|Hne].
  - destruct (o !! ns) as [m|] eqn:E.
    + rewrite lookup_insert_eq, lookup_delete. repeat case_decide; try done; tauto.
    + rewrite E. by case_decide.
  - rewrite decide_False by tauto. destruct (o !! ns) as [m|]; [|done].
    by rewrite lookup_insert_ne.
Qed.

Lemma Get_new name ns : Get name ns newNamespacedObjects = None.
Proof. reflexivity. Qed.

Lemma elem_of_List σ ns o x : x ∈ List σ ns o ↔ ∃ name, Get name ns o = Some x.
Proof.
  unfold List, Get. destruct (o !! ns) as [m|].
  - apply elem_of_range_values.
  - split; [by intros ?%not_elem_of_nil|by intros (? & ?)].
Qed.

Lemma elem_of_ListAll σ τ o x : x ∈ ListAll σ τ o ↔ ∃ name ns, Get name ns o = Some x.
Proof.
  unfold ListAll, Get. rewrite list_elem_of_bind. split.
  - intros ([ns m] & Hx & Hin%elem_of_go_range).
    apply elem_of_range_values in Hx as (name & Hname). exists name, ns. by rewrite Hin.
  - intros (name & ns & Hx). destruct (o !! ns) as [m|] eqn:E; [|done].
    exists (ns, m). rewrite elem_of_range_values, elem_of_go_range. by split; [exists name|].
Qed.

(** Objects stored under one key only are listed once. *)
Lemma NoDup_ListAll σ τ o :
  (∀ n ns n' ns' x, Get n ns o = Some x → Get n' ns' o = Some x → n = n' ∧ ns = ns') →
  NoDup (ListAll σ τ o).
Proof.
  intros Hkey.
  assert (∀ ns m k x, (ns, m) ∈ go_range σ o → m !! k = Some x → Get k ns o = Some x) as Hget.
  { intros ns m k x Hm%elem_of_go_range Hk. unfold Get. by rewrite Hm. }
  unfold ListAll. apply NoDup_bind.
  - intros [ns1 m1] [ns2 m2] x Hm1 Hm2 (k1 & Hk1)%elem_of_range_values (k2 & Hk2)%elem_of_range_values.
    destruct (Hkey k1 ns1 k2 ns2 x) as [_ <-]; [by eapply Hget..|].
    apply elem_of_go_range in Hm1, Hm2. congruence.
  - intros [ns m] Hm. unfold range_values. apply NoDup_fmap_2_strong; [|apply NoDup_go_range].
    intros [k1 x1] [k2 x2] Hk1%elem_of_go_range Hk2%elem_of_go_range Hx. cbn in Hx. subst x2. f_equal.
    by destruct (Hkey k1 ns k2 ns x1) as [<- _]; [eapply Hget..|].
  - apply NoDup_go_range.
Qed.

(** ** The flat map a collection stands for *)

Definition represents o (f : gmap (string * string) T) : Prop :=
  ∀ name ns, Get name ns o = f !! (ns, name).

Lemma List_represents σ ns o f :
  represents o f →
  List σ ns o ≡ₚ (filter (λ e : string * string * T, e.1.1 = ns) (map_to_list f)).*2.
Proof.
  intros Hr.
  assert (List σ ns o = ((λ e : string * T, ((ns, e.1), e.2)) <$>
    match o !! ns with Some m => go_range σ m | None => [] end).*2) as ->.
  { unfold List, range_values. rewrite <-list_fmap_compose. by destruct (o !! ns). }
  apply fmap_Permutation, NoDup_Permutation.
  - apply NoDup_fmap_2; [intros [] [] ?; cbn in *; congruence|].
    destruct (o !! ns); [apply NoDup_go_range|constructor].
  - apply NoDup_filter, NoDup_map_to_list.
  - intros [[ns' name] x]. rewrite list_elem_of_fmap, list_elem_of_filter, elem_of_map_to_list.
    rewrite <-Hr. unfold Get. cbn. split.
    + intros ([name' x'] & [= -> -> ->] & Hin). split; [done|].
      destruct (o !! ns) as [m|]; [by apply elem_of_go_range in Hin|by apply not_elem_of_nil in Hin].
    + intros [-> Hx]. exists (name, x). split; [done|].
      destruct (o !! ns) as [m|]; [by apply elem_of_go_range|done].
Qed.

Lemma ListAll_represents σ τ o f :
  represents o f → ListAll σ τ o ≡ₚ (map_to_list f).*2.
Proof.
  intros Hr.
  assert (ListAll σ τ o = ('(ns, m) ← go_range σ o;
    (λ e : string * T, ((ns, e.1), e.2)) <$> go_range (τ ns) m).*2) as ->.
  { unfold ListAll, range_values. induction (go_range σ o) as [|[ns m] l IH]; [done|].
    rewrite !bind_cons, fmap_app, <-IH. f_equal. by rewrite <-list_fmap_compose. }
  apply fmap_Permutation, NoDup_Permutation.
  - apply NoDup_bind.
    + intros [ns1 m1] [ns2 m2] [k x] H1%elem_of_go_range H2%elem_of_go_range.
      rewrite !list_elem_of_fmap. intros (e1 & [= -> _] & _) (e2 & [= -> _] & _). congruence.
    + intros [ns m] _. apply NoDup_fmap_2; [intros [] [] ?; cbn in *; congruence|].
      apply NoDup_go_range.
    + apply NoDup_go_range.
  - apply NoDup_map_to_list.
  - intros [[ns name] x]. rewrite list_elem_of_bind, elem_of_map_to_list, <-Hr. unfold Get. split.
    + intros ([ns' m] & Hin & Ho%elem_of_go_range).
      apply list_elem_of_fmap in Hin as ([name' x'] & [= -> -> ->] & Hm%elem_of_go_range).
      by rewrite Ho.
    + intros Hx. destruct (o !! ns) as [m|] eqn:E; [|done].
      exists (ns, m). rewrite elem_of_go_range. split; [|done].
      apply list_elem_of_fmap. exists (name, x). by rewrite elem_of_go_range.
Qed.

(** ** Properties *)

(** The map of maps behaves as one flat map from (namespace, name) to
    objects: each operation corresponds to the flat one, and [List] and
    [ListAll] return each object of the namespace, respectively of the
    collection, exactly once, in an order that depends on the iteration. *)
Theorem namespaced_objects_refine_flat_map o f :
  represents o f →
  represents newNamespacedObjects ∅ ∧
  (∀ name ns, Get name ns o = f !! (ns, name)) ∧
  (∀ name ns x, represents (Put name ns x o) (<[(ns, name) := x]> f)) ∧
  (∀ name ns, represents (Delete name ns o) (delete (ns, name) f)) ∧
  (∀ σ ns, List σ ns o ≡ₚ (filter (λ e : string * string * T, e.1.1 = ns) (map_to_list f)).*2) ∧
  (∀ σ τ, ListAll σ τ o ≡ₚ (map_to_list f).*2).
Proof.
  intros Hr. split_and!; [by intros name ns; rewrite Get_new, lookup_empty|done| | | |].
  - intros name ns x name' ns'. rewrite Get_Put, lookup_insert, Hr.
    repeat case_decide; naive_solver.
  - intros name ns name' ns'. rewrite Get_Delete, lookup_delete, Hr.
    repeat case_decide; naive_solver.
  - intros σ ns. by apply List_represents.
  - intros σ τ. by apply ListAll_represents.
Qed.
End namespaced.

#[export] Hint Rewrite @Get_Put @Get_Delete @Get_new : go.

Module witness.
Definition a_collection : gmap string (gmap string nat) :=
  Put "b2" "prod" 3%nat (Put "b1" "demo" 2%nat (Put "b1" "prod" 1%nat newNamespacedObjects)).
Definition a_flat : gmap (string * string) nat :=
  {[ ("prod", "b2") := 3%nat; ("demo", "b1") := 2%nat; ("prod", "b1") := 1%nat ]}.

Example namespaced_objects_refine_flat_map_witness :
  Get "b2" "prod" a_collection = Some 3%nat ∧
  ListAll order_rev (λ _, order_fwd) a_collection ≡ₚ (map_to_list a_flat).*2.
Proof.
  destruct (namespaced_objects_refine_flat_map a_collection a_flat) as (_ & HGet & _ & _ & _ & HAll).
  - intros name ns. unfold a_collection, a_flat. rewrite !Get_Put, Get_new.
    rewrite !lookup_insert. unfold singletonM, map_singleton. rewrite lookup_insert.
    repeat case_decide; naive_solver.
  - split; [rewrite HGet; reflexivity|apply HAll].
Defined.
End witness.
