(* ===== verification/Metrics.v ===== *)
(** * Metrics (internal/metrics)

    The three metric vectors of the operator.  The Prometheus client is a
    library: a vector is a collection of numbers by label values, with the
    operations the program calls and their documented effect.  The counts
    are integers far below the precision of a float64 and are kept as [Z]. *)

From S2P Require Import Prelude.

(** [prometheus.GaugeOpts] and [prometheus.CounterOpts] *)
Record VecOpts : Type := { vo_Subsystem : string; vo_Name : string; vo_Help : string }.

Class MetricVecLib : Type := {
  Vec : Type;
  (* NewGaugeVec and NewCounterVec, with the names of the labels *)
  vec_new : VecOpts → list string → Vec;
  (* GetMetricWith, and the samples that the collector it returns emits *)
  vec_samples : Vec → list string → result (list Z);
  vec_inc : list string → Vec → Vec;
  vec_dec : list string → Vec → Vec;
  vec_set : list string → Z → Vec → Vec;
  vec_add : list string → Z → Vec → Vec;
  vec_reset : Vec → Vec;
  vec_delete : list string → Vec → Vec
}.

(** [collect] calls a function on every sample; both readers add the
    samples up and read zero when there is no such metric. *)
Definition collect {S} (samples : list Z) (do_ : Z → S → S) (s : S) : S := foldl (λ s x, do_ x s) s samples.

Definition counterVecValue `{MetricVecLib} (vec : Vec) (labels : list string) : Z :=
  match vec_samples vec labels with
  | inl _ => 0
  | inr samples => collect samples (λ x value, value + x) 0
  end.

Definition gaugeVecValue `{MetricVecLib} (vec : Vec) (labels : list string) : Z :=
  match vec_samples vec labels with
  | inl _ => 0
  | inr samples => collect samples (λ x value, value + x) 0
  end.

(** Gauges and counters are read alike. *)
Class MetricVecLaws `{MetricVecLib} : Prop := {
  vec_new_value o names l : gaugeVecValue (vec_new o names) l = 0;
  vec_inc_value l l' v : gaugeVecValue (vec_inc l v) l' = gaugeVecValue v l' + if decide (l = l') then 1 else 0;
  vec_dec_value l l' v : gaugeVecValue (vec_dec l v) l' = gaugeVecValue v l' - if decide (l = l') then 1 else 0;
  vec_set_value l l' x v : gaugeVecValue (vec_set l x v) l' = if decide (l = l') then x else gaugeVecValue v l';
  vec_add_value l l' x v : gaugeVecValue (vec_add l x v) l' = gaugeVecValue v l' + if decide (l = l') then x else 0;
  vec_reset_value l v : gaugeVecValue (vec_reset v) l = 0;
  vec_delete_value l l' v : gaugeVecValue (vec_delete l v) l' = if decide (l = l') then 0 else gaugeVecValue v l'
}.

Section metrics.
Context `{MetricVecLib}.

Record Metrics : Type := {
  boostConfigurations : Vec;
  boostContainersTotal : Vec;
  boostContainersActive : Vec
}.

Implicit Types m : Metrics.

Definition KubeStartupCPUBoostSubsystem : string := "boost".

(** [init] of the package *)
Definition metrics_init : Metrics := {|
  boostConfigurations := vec_new
    {| vo_Subsystem := KubeStartupCPUBoostSubsystem; vo_Name := "configurations";
       vo_Help := "Number of registered Kube Startup CPU Boost configurations" |} ["namespace"];
  boostContainersTotal := vec_new
    {| vo_Subsystem := KubeStartupCPUBoostSubsystem; vo_Name := "containers_total";
       vo_Help := "Number of a containers which CPU resources were increased" |} ["namespace"; "boost"];
  boostContainersActive := vec_new
    {| vo_Subsystem := KubeStartupCPUBoostSubsystem; vo_Name := "containers_active";
       vo_Help := "Number of a containers which CPU resources and not yet reverted to their original values" |}
    ["namespace"; "boost"]
|}.

Definition NewBoostConfiguration (namespace : string) m : Metrics :=
  {| boostConfigurations := vec_inc [namespace] (boostConfigurations m);
     boostContainersTotal := boostContainersTotal m;
     boostContainersActive := boostContainersActive m |}.

Definition DeleteBoostConfiguration (namespace : string) m : Metrics :=
  {| boostConfigurations := vec_dec [namespace] (boostConfigurations m);
     boostContainersTotal := boostContainersTotal m;
     boostContainersActive := boostContainersActive m |}.

Definition SetBoostContainersActive (namespace boost : string) (value : Z) m : Metrics :=
  {| boostConfigurations := boostConfigurations m;
     boostContainersTotal := boostContainersTotal m;
     boostContainersActive := vec_set [namespace; boost] value (boostContainersActive m) |}.

Definition AddBoostContainersTotal (namespace boost : string) (value : Z) m : Metrics :=
  {| boostConfigurations := boostConfigurations m;
     boostContainersTotal := vec_add [namespace; boost] value (boostContainersTotal m);
     boostContainersActive := boostContainersActive m |}.

Definition ClearSystemMetrics m : Metrics :=
  {| boostConfigurations := vec_reset (boostConfigurations m);
     boostContainersTotal := boostContainersTotal m;
     boostContainersActive := boostContainersActive m |}.

Definition ClearBoostMetrics (namespace boost : string) m : Metrics :=
  {| boostConfigurations := boostConfigurations m;
     boostContainersTotal := vec_delete [namespace; boost] (boostContainersTotal m);
     boostContainersActive := vec_delete [namespace; boost] (boostContainersActive m) |}.

Definition BoostConfigurations (namespace : string) m : Z :=
  gaugeVecValue (boostConfigurations m) [namespace].

Definition BoostContainersTotal (namespace boost : string) m : Z :=
  counterVecValue (boostContainersTotal m) [namespace; boost].

Definition BoostContainersActive (namespace boost : string) m : Z :=
  gaugeVecValue (boostContainersActive m) [namespace; boost].
End metrics.

(** A library whose vectors are finite maps, absent labels reading zero. *)
Module ConcreteVec.
#[local] Instance lib : MetricVecLib := {|
  Vec := gmap (list string) Z;
  vec_new := λ _ _, ∅;
  vec_samples := λ v l, inr [default 0 (v !! l)];
  vec_inc := λ l v, <[l := default 0 (v !! l) + 1]> v;
  vec_dec := λ l v, <[l := default 0 (v !! l) - 1]> v;
  vec_set := λ l x v, <[l := x]> v;
  vec_add := λ l x v, <[l := default 0 (v !! l) + x]> v;
  vec_reset := λ _, ∅;
  vec_delete := λ l v, delete l v
|}.

#[local] Instance laws : MetricVecLaws.
Proof.
  split; intros; unfold gaugeVecValue; cbn; rewrite ?lookup_insert, ?lookup_delete, ?lookup_empty;
    try done; case_decide; subst; cbn; lia || done.
Qed.
End ConcreteVec.
