(* ===== verification/Client.v ===== *)
(** * The API client, as the boosts and the manager use it

    [client.Client] of controller-runtime talks to the API server: an
    interface over an abstract world.  [client_Patch] gets the [Data]
    method of the patch, which it calls on the object; it returns the error
    and the object as the call leaves it. *)

From S2P Require Import Prelude Quantities Kube BoostPod.

Class PodClient `{QuantityLib} `{!PatchLib} : Type := {
  World : Type;
  client_Patch : World → option string →
    (option Pod → outcome (result Bytes * option Pod)) → Pod →
    outcome (option error * Pod * World);
  client_Update : World → Pod → option error * Pod * World;
  (* List(InNamespace(ns), MatchingLabels{key: value}) *)
  client_ListPods : World → string → string → string → result (list Pod)
}.

(** Two states of one object. *)
Definition same_key `{QuantityLib} (pod pod' : Pod) : Prop :=
  pod_Name pod' = pod_Name pod ∧ pod_Namespace pod' = pod_Namespace pod.

(** What the documentation of the client, of the API server and of JSON
    merge patches (RFC 7396) promises.  Objects that were encoded and
    decoded are equivalent, not equal: nil maps and empty maps encode alike. *)
Class PodClientLaws `{QuantityLaws} `{!PatchLib} `{!PodClient} : Type := {
  (** the pods the server stores, by namespace and name *)
  w_pods : World → gmap (string * string) Pod;
  MergePatch : Bytes → Pod → Pod;
  (** pods are JSON objects, and two JSON objects have a merge patch *)
  pod_marshals a : ∃ j, pod_Marshal a = inr j;
  merge_creates a b ja jb :
    pod_Marshal a = inr ja → pod_Marshal b = inr jb → ∃ p, CreateMergePatch ja jb = inr p;
  merge_create a b c ja jb p :
    pod_Marshal a = inr ja → pod_Marshal b = inr jb → CreateMergePatch ja jb = inr p →
    c ≡ a → MergePatch p c ≡ b;
  merge_same a ja p c :
    pod_Marshal a = inr ja → CreateMergePatch ja ja = inr p → MergePatch p c ≡ c;
  (** a patch that succeeds was applied to the stored pod, and the object
      is what the server stores now; the resize subresource takes the
      containers only *)
  patch_ok w sub data obj obj' w' :
    client_Patch w sub data obj = Done (None, obj', w') →
    ∃ p obj1 srv, data (Some obj) = Done (inr p, Some obj1) ∧
      w_pods w !! (pod_Namespace obj, pod_Name obj) = Some srv ∧
      obj' ≡ (match sub with
              | Some _ => pod_set_Containers srv (pod_Containers (MergePatch p srv))
              | None => MergePatch p srv
              end) ∧
      w_pods w' = <[(pod_Namespace obj, pod_Name obj) := obj']> (w_pods w);
  (** a patch that fails leaves the object as [Data] left it *)
  patch_err w sub data obj e obj' w' :
    client_Patch w sub data obj = Done (Some e, obj', w') →
    obj' = obj ∨ ∃ r, data (Some obj) = Done (r, Some obj');
  update_ok w obj obj' w' :
    client_Update w obj = (None, obj', w') →
    obj' ≡ obj ∧
    w_pods w' = <[(pod_Namespace obj, pod_Name obj) := obj']> (w_pods w)
}.

(** A call returns, and the identity of an object does not change in it;
    [Data] panicking is the only way for a patch to panic. *)
Class PodClientBasics `{PodClient} : Prop := {
  patch_total w sub data obj r obj1 :
    data (Some obj) = Done (r, Some obj1) →
    ∃ e obj' w', client_Patch w sub data obj = Done (e, obj', w');
  patch_key w sub data obj e obj' w' :
    client_Patch w sub data obj = Done (e, obj', w') →
    (∀ r obj1, data (Some obj) = Done (r, Some obj1) → same_key obj obj1) →
    same_key obj obj';
  update_key w obj e obj' w' :
    client_Update w obj = (e, obj', w') → same_key obj obj'
}.

(** A server that serves reversions: while it is [accepting], it accepts the
    calls with which the reversion of an up-to-date copy of a stored pod is
    sent, the resize patch, the patch of the labels and the update of the
    legacy mode.  It may refuse any other call.  Whatever its state, a call
    concerns no other pod than its object. *)
Class PodServer `{PodClientLaws} `{!AnnotationJSON} : Type := {
  accepting : World → Prop;
  accepting_resize w obj p obj1 srv :
    accepting w → w_pods w !! (pod_Namespace obj, pod_Name obj) = Some srv → srv ≡ obj →
    Data revertBoostResourcesPatch (Some obj) = Done (inr p, Some obj1) →
    ∃ obj' w', client_Patch w (Some "resize") (Data revertBoostResourcesPatch) obj = Done (None, obj', w');
  accepting_labels w obj p obj1 srv :
    accepting w → w_pods w !! (pod_Namespace obj, pod_Name obj) = Some srv → srv ≡ obj →
    Data revertBoostLabelsPatch (Some obj) = Done (inr p, Some obj1) →
    ∃ obj' w', client_Patch w None (Data revertBoostLabelsPatch) obj = Done (None, obj', w');
  accepting_Update w pod obj srv :
    accepting w → w_pods w !! (pod_Namespace pod, pod_Name pod) = Some srv → srv ≡ pod →
    RevertResourceBoost pod = Done (None, obj) →
    ∃ obj' w', client_Update w obj = (None, obj', w');
  patch_elsewhere w sub data obj e obj' w' :
    client_Patch w sub data obj = Done (e, obj', w') →
    (accepting w → accepting w') ∧
    ∀ k, k ≠ (pod_Namespace obj, pod_Name obj) → w_pods w' !! k = w_pods w !! k;
  update_elsewhere w obj e obj' w' :
    client_Update w obj = (e, obj', w') →
    (accepting w → accepting w') ∧
    ∀ k, k ≠ (pod_Namespace obj, pod_Name obj) → w_pods w' !! k = w_pods w !! k
}.
