(* ===== verification/ConcreteServer.v ===== *)
(** * A concrete API server

    An instance of every library interface of the development, for the
    witnesses: a store of pods whose calls are refused when the world says
    so.  A pod is its own JSON document and a merge patch is the pair of
    documents it leads from and to. *)

From S2P Require Import Prelude Quantities Kube BoostPod Metrics Client.

#[local] Existing Instances ConcreteQuantity.lib ConcreteQuantity.laws.

#[global] Instance rr_eq_dec : EqDecision (@ResourceRequirements ConcreteQuantity.lib).
Proof.
  pose proof (_ : EqDecision (Qc * bool)). intros r r'.
  refine (cast_if_and (decide (@Limits ConcreteQuantity.lib r = Limits r'))
                      (decide (Requests r = Requests r'))); destruct r, r'; cbn in *; congruence.
Defined.
#[global] Instance crp_eq_dec : EqDecision ContainerResizePolicy.
Proof. solve_decision. Defined.
#[global] Instance container_eq_dec : EqDecision (@Container ConcreteQuantity.lib).
Proof. solve_decision. Defined.
#[global] Instance pod_eq_dec : EqDecision (@Pod ConcreteQuantity.lib).
Proof. solve_decision. Defined.

Inductive Json : Type :=
  | Str (s : string)
  | Doc (p : Pod)
  | Diff (p p' : Pod).

#[local] Instance json_patches : PatchLib := {|
  Bytes := Json;
  bytes_of_string := Str;
  pod_Marshal := λ p, inr (Doc p);
  CreateMergePatch := λ a b,
    match a, b with
    | Doc p, Doc p' => inr (Diff p p')
    | _, _ => inl "invalid JSON document"
    end
|}.

Definition merge (j : Json) (p : Pod) : Pod :=
  match j with
  | Diff a b => if decide (a = b) then p else b
  | _ => p
  end.

(** [refusals] says of the coming calls whether the server refuses them;
    afterwards it refuses none. *)
Record Server : Type := {
  stored : gmap (string * string) Pod;
  refusals : list bool
}.

Definition refused (w : Server) : bool := default false (head (refusals w)).
Definition rest (w : Server) (pods : gmap (string * string) Pod) : Server :=
  {| stored := pods; refusals := tail (refusals w) |}.

Definition patched (sub : option string) (j : Json) (srv : Pod) : Pod :=
  match sub with
  | Some _ => pod_set_Containers srv (pod_Containers (merge j srv))
  | None => merge j srv
  end.

Definition server_Patch (w : Server) (sub : option string)
    (data : option Pod → outcome (result Json * option Pod)) (obj : Pod) :
    outcome (option error * Pod * Server) :=
  match data (Some obj) with
  | Panic msg => Panic msg
  | Done (_, None) => Done (Some "object lost", obj, w)
  | Done (inl err, Some obj1) => Done (Some err, obj1, w)
  | Done (inr p, Some obj1) =>
      if refused w then Done (Some "conflict", obj1, rest w (stored w)) else
      match stored w !! (pod_Namespace obj, pod_Name obj) with
      | None => Done (Some "not found", obj1, rest w (stored w))
      | Some srv =>
          let pod' := patched sub p srv in
          if decide (pod_Name pod' = pod_Name obj ∧ pod_Namespace pod' = pod_Namespace obj)
          then Done (None, pod', rest w (<[(pod_Namespace obj, pod_Name obj) := pod']> (stored w)))
          else Done (Some "invalid", obj1, rest w (stored w))
      end
  end.

Definition server_Update (w : Server) (obj : Pod) : option error * Pod * Server :=
  if refused w then (Some "conflict", obj, rest w (stored w))
  else (None, obj, rest w (<[(pod_Namespace obj, pod_Name obj) := obj]> (stored w))).

Definition server_List (w : Server) (ns k v : string) : result (list Pod) :=
  inr (filter (λ p, pod_Namespace p = ns ∧ gm_get (pod_Labels p) k = Some v)
         (map_to_list (stored w)).*2).

#[local] Instance server : PodClient := {|
  World := Server;
  client_Patch := server_Patch;
  client_Update := server_Update;
  client_ListPods := server_List
|}.

#[local] Instance server_basics : PodClientBasics.
Proof.
  split.
  - intros w sub data obj r obj1 Hd. cbn. unfold server_Patch. rewrite Hd.
    destruct r as [e|p]; [eauto|]. destruct (refused w); [eauto|].
    destruct (stored w !! _) as [srv|]; [|eauto]. cbn zeta. case_decide; eauto.
  - intros w sub data obj e obj' w'. cbn. unfold server_Patch.
    destruct (data (Some obj)) as [[[err|p] [obj1|]]|] eqn:Hd; try done; try by (intros [= <- <- <-]; intros).
    + intros [= <- <- <-] Hn. by eapply Hn.
    + intros Hp Hn. specialize (Hn _ _ eq_refl).
      destruct (refused w); [by injection Hp as <- <- <-|].
      destruct (stored w !! _) as [srv|]; [|by injection Hp as <- <- <-].
      cbn zeta in Hp. case_decide; by injection Hp as <- <- <-.
  - intros w obj e obj' w'. cbn. unfold server_Update.
    destruct (refused w); by intros [= <- <- <-].
Qed.

#[local] Instance server_laws : PodClientLaws.
Proof.
  refine {| w_pods := stored : @World _ _ server → _; MergePatch := merge : @Bytes _ json_patches → _ |}.
  - intros a. by exists (Doc a).
  - intros a b ja jb [= <-] [= <-]. by exists (Diff a b).
  - intros a b c ja jb p [= <-] [= <-] [= <-] Hc. cbn. by case_decide; subst.
  - intros a ja p c [= <-] [= <-]. cbn. by case_decide.
  - intros w sub data obj obj' w'. cbn. unfold server_Patch.
    destruct (data (Some obj)) as [[[err|p] [obj1|]]|] eqn:Hd; try done.
    destruct (refused w); [done|]. destruct (stored w !! _) as [srv|] eqn:Hs; [|done].
    cbn zeta. case_decide; [|done]. intros [= <- <-].
    exists p, obj1, srv. by destruct sub.
  - intros w sub data obj e obj' w'. cbn. unfold server_Patch.
    destruct (data (Some obj)) as [[[err|p] [obj1|]]|] eqn:Hd; try done.
    + intros [= <- <- <-]. eauto.
    + intros [= <- <- <-]. eauto.
    + destruct (refused w); [intros [= <- <- <-]; eauto|].
      destruct (stored w !! _) as [srv|] eqn:Hs; [|intros [= <- <- <-]; eauto].
      cbn zeta. case_decide; [done|]. intros [= <- <- <-]. eauto.
    + intros [= <- <- <-]. eauto.
  - intros w obj obj' w'. cbn. unfold server_Update. destruct (refused w); [done|].
    by intros [= <- <-].
Defined.

(** Once it has no refusals left it accepts every call. *)
#[local] Instance server_serves : @PodServer _ _ _ _ server_laws ConcreteJSON.json.
Proof.
  refine {| accepting := (λ w, refusals w = []) : @World _ _ server → Prop |}.
  - intros w obj p obj1 srv Hacc Hs Heq Hd. cbn -[Data] in *. unfold server_Patch, refused. rewrite Hd, Hacc. cbn.
    rewrite Hs. unfold patched. cbn. rewrite decide_True; [eauto|]. by destruct Heq.
  - intros w obj p obj1 srv Hacc Hs Heq Hd. cbn -[Data] in *. unfold server_Patch, refused. rewrite Hd, Hacc. cbn.
    rewrite Hs. unfold patched. cbn in Hd. injection Hd as <- <-. cbn [merge].
    rewrite decide_True; [eauto|]. destruct Heq. by case_decide.
  - intros w pod obj srv Hacc Hs Heq Hr. cbn in *. unfold server_Update, refused. rewrite Hacc. cbn. eauto.
  - intros w sub data obj e obj' w' Hp. cbn in *. unfold server_Patch in Hp.
    assert (∀ pods, (refusals w = [] → refusals (rest w pods) = [])) as Hr by (by cbn; intros pods ->).
    destruct (data (Some obj)) as [[[err|p] [obj1|]]|]; try done; try by injection Hp as <- <- <-.
    destruct (refused w); [by injection Hp as <- <- <-; auto|].
    destruct (stored w !! _) as [srv|]; [|by injection Hp as <- <- <-; auto].
    cbn zeta in Hp. case_decide; injection Hp as <- <- <-; [|by auto].
    split; [by auto|]. intros k Hk. by apply lookup_insert_ne.
  - intros w obj e obj' w' Hu. cbn in *. unfold server_Update in Hu.
    destruct (refused w); simplify_eq/=; (split; [by intros ->|]); [done|].
    intros k Hk. by apply lookup_insert_ne.
Defined.
