(* ===== verification/Boost.v ===== *)
(** * A startup CPU boost (internal/boost/startupcpuboost.go)

    The implementation behind the [StartupCPUBoost] interface.  Boosts and
    pods are shared through pointers: the manager keeps a boost in two
    collections, a boost keeps pods that informers and patches change in
    place.  The state therefore has a store of pods and a store of boosts,
    and the methods are computations over it.  A method runs under the
    boost's lock, so it is one atomic step. *)

From stdpp Require Import functions.
From S2P Require Import Prelude Quantities Kube Api Duration Resource BoostPod Metrics Client ConcreteServer.

(** ** Data *)

Definition PodRef : Type := nat.
Definition BoostRef : Type := nat.
#[global] Instance PodRef_eq_dec : EqDecision PodRef := _ : EqDecision nat.
#[global] Instance BoostRef_eq_dec : EqDecision BoostRef := _ : EqDecision nat.

Definition ResizeSubResourceName : string := "resize".

Inductive StartupCPUBoostStatsEventType : Type :=
  | StartupCPUBoostStatsPodCreateEvent
  | StartupCPUBoostStatsPodUpdateEvent
  | StartupCPUBoostStatsPodDeleteEvent.

Record StartupCPUBoostStats : Type := {
  ActiveContainerBoosts : Z;
  TotalContainerBoosts : Z
}.

Section boost.
Context `{QuantityLib} `{SelectorLib} `{AnnotationJSON} `{!PatchLib} `{MetricVecLib} `{!PodClient}.

Record StartupCPUBoostImpl : Type := {
  b_name : string;
  b_namespace : string;
  b_selector : Selector;
  b_durationPolicies : gmap string duration.Policy;
  b_resourcePolicies : gmap string resource.ContainerPolicy;
  b_pods : gmap string PodRef;
  b_stats : StartupCPUBoostStats;
  b_legacyRevertMode : bool
}.

(** ** The state *)

Record GoState : Type := {
  s_pods : PodRef → Pod;
  s_nextPod : PodRef;
  s_boosts : BoostRef → StartupCPUBoostImpl;
  s_nextBoost : BoostRef;
  s_metrics : Metrics;
  s_world : World
}.

Definition set_pod (p : PodRef) (v : Pod) (s : GoState) : GoState :=
  {| s_pods := <[p := v]> (s_pods s); s_nextPod := s_nextPod s; s_boosts := s_boosts s;
     s_nextBoost := s_nextBoost s; s_metrics := s_metrics s; s_world := s_world s |}.

Definition set_boost (b : BoostRef) (v : StartupCPUBoostImpl) (s : GoState) : GoState :=
  {| s_pods := s_pods s; s_nextPod := s_nextPod s; s_boosts := <[b := v]> (s_boosts s);
     s_nextBoost := s_nextBoost s; s_metrics := s_metrics s; s_world := s_world s |}.

Definition set_metrics (m : Metrics) (s : GoState) : GoState :=
  {| s_pods := s_pods s; s_nextPod := s_nextPod s; s_boosts := s_boosts s;
     s_nextBoost := s_nextBoost s; s_metrics := m; s_world := s_world s |}.

Definition set_world (w : World) (s : GoState) : GoState :=
  {| s_pods := s_pods s; s_nextPod := s_nextPod s; s_boosts := s_boosts s;
     s_nextBoost := s_nextBoost s; s_metrics := s_metrics s; s_world := w |}.

(** A new object behind a new pointer. *)
Definition new_pod (v : Pod) (s : GoState) : GoState :=
  {| s_pods := <[s_nextPod s := v]> (s_pods s); s_nextPod := S (s_nextPod s);
     s_boosts := s_boosts s; s_nextBoost := s_nextBoost s;
     s_metrics := s_metrics s; s_world := s_world s |}.

Definition new_boost (v : StartupCPUBoostImpl) (s : GoState) : GoState :=
  {| s_pods := s_pods s; s_nextPod := s_nextPod s;
     s_boosts := <[s_nextBoost s := v]> (s_boosts s); s_nextBoost := S (s_nextBoost s);
     s_metrics := s_metrics s; s_world := s_world s |}.

Abbreviation G := (M GoState).

Definition deref_pod (p : PodRef) : G Pod := gets (λ s, s_pods s p).
Definition deref_boost (b : BoostRef) : G StartupCPUBoostImpl := gets (λ s, s_boosts s b).

(** Field assignments of a boost. *)
Definition b_set_pods (b : StartupCPUBoostImpl) (pods : gmap string PodRef) : StartupCPUBoostImpl :=
  {| b_name := b_name b; b_namespace := b_namespace b; b_selector := b_selector b;
     b_durationPolicies := b_durationPolicies b; b_resourcePolicies := b_resourcePolicies b;
     b_pods := pods; b_stats := b_stats b; b_legacyRevertMode := b_legacyRevertMode b |}.

Definition b_set_stats (b : StartupCPUBoostImpl) (stats : StartupCPUBoostStats) : StartupCPUBoostImpl :=
  {| b_name := b_name b; b_namespace := b_namespace b; b_selector := b_selector b;
     b_durationPolicies := b_durationPolicies b; b_resourcePolicies := b_resourcePolicies b;
     b_pods := b_pods b; b_stats := stats; b_legacyRevertMode := b_legacyRevertMode b |}.

Definition b_set_spec (b : StartupCPUBoostImpl) (sel : Selector)
    (rp : gmap string resource.ContainerPolicy) (dp : gmap string duration.Policy) :
    StartupCPUBoostImpl :=
  {| b_name := b_name b; b_namespace := b_namespace b; b_selector := sel;
     b_durationPolicies := dp; b_resourcePolicies := rp;
     b_pods := b_pods b; b_stats := b_stats b; b_legacyRevertMode := b_legacyRevertMode b |}.

(** ** From the API spec *)

(** [errors.Join]: nil when there is no error. *)
Definition errors_Join (errs : list error) : option error :=
  match errs with
  | [] => None
  | _ => Some (String.concat "
" errs)
  end.

Definition mapDurationPolicy (policiesSpec : v1alpha1.DurationPolicy) :
    gmap string duration.Policy :=
  let policies : gmap string duration.Policy := ∅ in
  let policies :=
    match v1alpha1.dp_Fixed policiesSpec with
    | Some fixedPolicy =>
        let d := duration.fixedPolicyToDuration fixedPolicy in
        <[duration.FixedDurationPolicyName :=
            duration.PolicyFixed (duration.NewFixedDurationPolicy d)]> policies
    | None => policies
    end in
  match v1alpha1.dp_PodCondition policiesSpec with
  | Some condPolicy =>
      <[duration.PodConditionPolicyName :=
          duration.PolicyPodCondition (duration.NewPodConditionPolicy
            (v1alpha1.pcdp_Type condPolicy) (v1alpha1.pcdp_Status condPolicy))]> policies
  | None => policies
  end.

(** The policy of one entry and the number of policies it sets. *)
Definition entry_policy (policySpec : v1alpha1.ContainerPolicy) :
    option resource.ContainerPolicy * nat :=
  let '(policy, cnt) :=
    match v1alpha1.cp_FixedResources policySpec with
    | Some fr => (Some (resource.PolicyFixed (resource.NewFixedPolicy
                    (v1alpha1.fr_Requests fr) (v1alpha1.fr_Limits fr))), 1%nat)
    | None => (None, 0%nat)
    end in
  match v1alpha1.cp_PercentageIncrease policySpec with
  | Some pi => (Some (resource.PolicyPercentage
                  (resource.NewPercentageContainerPolicy (v1alpha1.pi_Value pi))), S cnt)
  | None => (policy, cnt)
  end.

Definition policy_count_error (name : string) : error :=
  "invalid number of resource policies fo container " +:+ name +:+ "; must be one".

Fixpoint mapResourcePolicy_loop (specs : list v1alpha1.ContainerPolicy)
    (policies : gmap string resource.ContainerPolicy) (errs : list error) :
    gmap string resource.ContainerPolicy * list error :=
  match specs with
  | [] => (policies, errs)
  | policySpec :: specs =>
      match entry_policy policySpec with
      | (Some policy, 1%nat) =>
          mapResourcePolicy_loop specs
            (<[v1alpha1.cp_ContainerName policySpec := policy]> policies) errs
      | _ =>
          mapResourcePolicy_loop specs policies
            (errs ++ [policy_count_error (v1alpha1.cp_ContainerName policySpec)])
      end
  end.

Definition mapResourcePolicy (spec : v1alpha1.ResourcePolicy) :
    result (gmap string resource.ContainerPolicy) :=
  let '(policies, errs) := mapResourcePolicy_loop (v1alpha1.rp_ContainerPolicies spec) ∅ [] in
  match errors_Join errs with
  | Some err => inl err
  | None => inr policies
  end.

Definition NewStartupCPUBoost (boost : v1alpha1.StartupCPUBoost) (legacyRevertMode : bool) :
    G (result BoostRef) := λ s,
  match LabelSelectorAsSelector (v1alpha1.b_Selector boost) with
  | inl err => Done (inl err, s)
  | inr selector =>
      match mapResourcePolicy (v1alpha1.spec_ResourcePolicy (v1alpha1.b_Spec boost)) with
      | inl err => Done (inl err, s)
      | inr resourcePolicies =>
          Done (inr (s_nextBoost s), new_boost {|
            b_name := v1alpha1.om_Name (v1alpha1.b_Meta boost);
            b_namespace := v1alpha1.om_Namespace (v1alpha1.b_Meta boost);
            b_selector := selector;
            b_durationPolicies :=
              mapDurationPolicy (v1alpha1.spec_DurationPolicy (v1alpha1.b_Spec boost));
            b_resourcePolicies := resourcePolicies;
            b_pods := ∅;
            b_stats := {| ActiveContainerBoosts := 0; TotalContainerBoosts := 0 |};
            b_legacyRevertMode := legacyRevertMode |} s)
      end
  end.

(** ** Methods *)

Definition Name (b : BoostRef) : G string := gets (λ s, b_name (s_boosts s b)).
Definition Namespace (b : BoostRef) : G string := gets (λ s, b_namespace (s_boosts s b)).

Definition impl_ResourcePolicy (b : StartupCPUBoostImpl) (containerName : string) :
    option resource.ContainerPolicy :=
  match b_resourcePolicies b !! containerName with
  | Some policy => Some policy
  | None => b_resourcePolicies b !! v1alpha1.ContainerPolicyWildcard
  end.

Definition ResourcePolicy (b : BoostRef) (containerName : string) :
    G (option resource.ContainerPolicy) :=
  gets (λ s, impl_ResourcePolicy (s_boosts s b) containerName).

Definition DurationPolicies (b : BoostRef) : G (gmap string duration.Policy) :=
  gets (λ s, b_durationPolicies (s_boosts s b)).

Definition BoostPod (b : BoostRef) (name : string) : G (option PodRef) :=
  gets (λ s, b_pods (s_boosts s b) !! name).

Definition impl_Matches (b : StartupCPUBoostImpl) (pod : Pod) : bool :=
  SelMatches (b_selector b) (pod_Labels pod).

Definition Matches (b : BoostRef) (p : PodRef) : G bool :=
  gets (λ s, impl_Matches (s_boosts s b) (s_pods s p)).

Definition Stats (b : BoostRef) : G StartupCPUBoostStats :=
  gets (λ s, b_stats (s_boosts s b)).

Definition UpdateFromSpec (b : BoostRef) (boost : v1alpha1.StartupCPUBoost) :
    G (option error) := λ s,
  match LabelSelectorAsSelector (v1alpha1.b_Selector boost) with
  | inl err => Done (Some err, s)
  | inr selector =>
      match mapResourcePolicy (v1alpha1.spec_ResourcePolicy (v1alpha1.b_Spec boost)) with
      | inl err => Done (Some err, s)
      | inr resourcePolicies =>
          Done (None, set_boost b (b_set_spec (s_boosts s b) selector resourcePolicies
            (mapDurationPolicy (v1alpha1.spec_DurationPolicy (v1alpha1.b_Spec boost)))) s)
      end
  end.

(** [boostContainersLen]: the number of CPU requests the annotation of
    the pod records, zero when there is no annotation to read. *)
Definition boostContainersLen (pod : Pod) : nat :=
  match BoostAnnotationFromPod pod with
  | inr annot => gm_len (InitCPURequests annot)
  | inl _ => 0
  end.

(** The containers the tracked pods of a boost have boosted. *)
Definition active_count (s : GoState) (pods : gmap string PodRef) : nat :=
  sum_nat (λ p, boostContainersLen (s_pods s p)) (map_to_list pods).*2.

Definition updateStats (σ : RangeOrder) (b : BoostRef)
    (e : StartupCPUBoostStatsEventType) (p : PodRef) : G unit := λ s,
  let impl := s_boosts s b in
  let activeCnt := Z.of_nat (sum_nat (λ p, boostContainersLen (s_pods s p))
                               (range_values σ (b_pods impl))) in
  let stats := {| ActiveContainerBoosts := activeCnt;
                  TotalContainerBoosts := TotalContainerBoosts (b_stats impl) |} in
  let m := SetBoostContainersActive (b_namespace impl) (b_name impl) activeCnt (s_metrics s) in
  match e with
  | StartupCPUBoostStatsPodCreateEvent =>
      let len := Z.of_nat (boostContainersLen (s_pods s p)) in
      let stats := {| ActiveContainerBoosts := activeCnt;
                      TotalContainerBoosts := TotalContainerBoosts (b_stats impl) + len |} in
      let m := AddBoostContainersTotal (b_namespace impl) (b_name impl) len m in
      Done (tt, set_metrics m (set_boost b (b_set_stats impl stats) s))
  | _ => Done (tt, set_metrics m (set_boost b (b_set_stats impl stats) s))
  end.

(** [b.client.Patch] and [b.client.Update] on the pod behind a pointer. *)
Definition go_Patch (sub : option string) (patch : RevertPatch) (p : PodRef) :
    G (option error) := λ s,
  match client_Patch (s_world s) sub (Data patch) (s_pods s p) with
  | Done (err, pod', w') => Done (err, set_pod p pod' (set_world w' s))
  | Panic msg => Panic msg
  end.

Definition go_Update (p : PodRef) : G (option error) := λ s,
  let '(err, pod', w') := client_Update (s_world s) (s_pods s p) in
  Done (err, set_pod p pod' (set_world w' s)).

Definition updateBoostPod (p : PodRef) : G (option error) :=
  let! err := go_Patch (Some ResizeSubResourceName) revertBoostResourcesPatch p in
  match err with
  | Some err => ret (Some err)
  | None =>
      let! err := go_Patch None revertBoostLabelsPatch p in
      match err with
      | Some err => ret (Some err)
      | None => ret None
      end
  end.

Definition go_RevertResourceBoost (p : PodRef) : G (option error) := λ s,
  match RevertResourceBoost (s_pods s p) with
  | Done (err, pod') => Done (err, set_pod p pod' s)
  | Panic msg => Panic msg
  end.

Definition updateBoostPodLegacy (p : PodRef) : G (option error) :=
  let! err := go_RevertResourceBoost p in
  match err with
  | Some err => ret (Some ("failed to update pod spec: " +:+ err))
  | None => go_Update p
  end.

Definition remove_pod (b : BoostRef) (p : PodRef) : G unit :=
  modify (λ s, let impl := s_boosts s b in
    set_boost b (b_set_pods impl (delete (pod_Name (s_pods s p)) (b_pods impl))) s).

Definition revertResources (σ : RangeOrder) (b : BoostRef) (p : PodRef) : G (option error) :=
  let! impl := deref_boost b in
  let! err := (if b_legacyRevertMode impl then updateBoostPodLegacy p else updateBoostPod p) in
  match err with
  | Some err => ret (Some err)
  | None =>
      do! remove_pod b p in
      do! updateStats σ b StartupCPUBoostStatsPodDeleteEvent p in
      ret None
  end.

Definition RevertResources (σ : RangeOrder) (b : BoostRef) (p : PodRef) : G (option error) :=
  revertResources σ b p.

Definition insert_pod (b : BoostRef) (p : PodRef) : G unit :=
  modify (λ s, let impl := s_boosts s b in
    set_boost b (b_set_pods impl (<[pod_Name (s_pods s p) := p]> (b_pods impl))) s).

(** [now] is what the duration policy's clock returns. *)
Definition validatePolicyOnPod (now : Z) (p : duration.Policy) (pod : Pod) : bool := duration.Valid p now pod.

Definition UpsertPod (σ σ' : RangeOrder) (now : Z) (b : BoostRef) (p : PodRef) :
    G (option error) :=
  let! pod := deref_pod p in
  let! existing := BoostPod b (pod_Name pod) in
  do! insert_pod b p in
  do! updateStats σ b
        (match existing with
         | Some _ => StartupCPUBoostStatsPodUpdateEvent
         | None => StartupCPUBoostStatsPodCreateEvent
         end) p in
  let! policies := DurationPolicies b in
  match policies !! duration.PodConditionPolicyName with
  | None => ret None
  | Some condPolicy =>
      let! pod := deref_pod p in
      if validatePolicyOnPod now condPolicy pod then ret None
      else
        let! err := revertResources σ' b p in
        match err with
        | Some err => ret (Some ("pod resources reversion failed: " +:+ err))
        | None => ret None
        end
  end.

Definition DeletePod (σ : RangeOrder) (b : BoostRef) (p : PodRef) : G (option error) :=
  do! remove_pod b p in
  do! updateStats σ b StartupCPUBoostStatsPodDeleteEvent p in
  ret None.

(** [now name] is the instant at which the pod tracked as [name] is
    validated. *)
Definition ValidatePolicy (σ : RangeOrder) (now : string → Z) (b : BoostRef) (name : string) :
    G (list PodRef) :=
  let! impl := deref_boost b in
  match b_durationPolicies impl !! name with
  | None => ret []
  | Some policy =>
      gets (λ s, (filter (λ e : string * PodRef,
        validatePolicyOnPod (now e.1) policy (s_pods s e.2) = false)
        (go_range σ (b_pods impl))).*2)
  end.

(** ** Lemmas on the store *)

Lemma s_boosts_set_boost b v s b' :
  s_boosts (set_boost b v s) b' = if decide (b = b') then v else s_boosts s b'.
Proof. cbn. unfold insert, fn_insert. repeat case_decide; congruence. Qed.

Lemma s_boosts_set_boost_eq b v s : s_boosts (set_boost b v s) b = v.
Proof. by rewrite s_boosts_set_boost, decide_True. Qed.

Lemma s_pods_set_pod p v s p' :
  s_pods (set_pod p v s) p' = if decide (p = p') then v else s_pods s p'.
Proof. cbn. unfold insert, fn_insert. repeat case_decide; congruence. Qed.

Lemma s_pods_set_pod_eq p v s : s_pods (set_pod p v s) p = v.
Proof. by rewrite s_pods_set_pod, decide_True. Qed.

(** ** Statistics *)

Definition stats_state (b : BoostRef) (e : StartupCPUBoostStatsEventType) (p : PodRef)
    (s : GoState) : GoState :=
  let impl := s_boosts s b in
  let activeCnt := Z.of_nat (active_count s (b_pods impl)) in
  let added := match e with
               | StartupCPUBoostStatsPodCreateEvent => Z.of_nat (boostContainersLen (s_pods s p))
               | _ => 0
               end in
  let m := SetBoostContainersActive (b_namespace impl) (b_name impl) activeCnt (s_metrics s) in
  set_metrics
    (match e with
     | StartupCPUBoostStatsPodCreateEvent =>
         AddBoostContainersTotal (b_namespace impl) (b_name impl) added m
     | _ => m
     end)
    (set_boost b (b_set_stats impl {| ActiveContainerBoosts := activeCnt;
       TotalContainerBoosts := TotalContainerBoosts (b_stats impl) + added |}) s).

(** The order in which the pods are summed does not matter. *)
Lemma updateStats_spec σ b e p s : updateStats σ b e p s = Done (tt, stats_state b e p s).
Proof.
  unfold updateStats, stats_state, active_count, range_values.
  rewrite (sum_nat_perm _ _ _ (fmap_Permutation snd _ _ (go_range_perm σ (b_pods (s_boosts s b))))).
  destruct e; rewrite ?Z.add_0_r; done.
Qed.

Lemma stats_state_pods b e p s : s_pods (stats_state b e p s) = s_pods s.
Proof. done. Qed.

Lemma stats_state_world b e p s : s_world (stats_state b e p s) = s_world s.
Proof. done. Qed.

Lemma stats_state_boost b e p s b' :
  s_boosts (stats_state b e p s) b' =
    if decide (b = b')
    then b_set_stats (s_boosts s b) {|
           ActiveContainerBoosts := Z.of_nat (active_count s (b_pods (s_boosts s b)));
           TotalContainerBoosts := TotalContainerBoosts (b_stats (s_boosts s b)) +
             match e with
             | StartupCPUBoostStatsPodCreateEvent => Z.of_nat (boostContainersLen (s_pods s p))
             | _ => 0
             end |}
    else s_boosts s b'.
Proof. apply s_boosts_set_boost. Qed.

(** ** The part of a reversion that talks to the API server *)

Definition release (b : BoostRef) (p : PodRef) : G (option error) :=
  let! impl := deref_boost b in
  if b_legacyRevertMode impl then updateBoostPodLegacy p else updateBoostPod p.

Lemma revertResources_release σ b p s :
  revertResources σ b p s =
    match release b p s with
    | Done (None, s') => 
        let s1 := set_boost b (b_set_pods (s_boosts s' b)
                    (delete (pod_Name (s_pods s' p)) (b_pods (s_boosts s' b)))) s' in
        Done (None, stats_state b StartupCPUBoostStatsPodDeleteEvent p s1)
    | r => r
    end.
Proof.
  unfold revertResources, release, deref_boost, remove_pod. go_unfold.
  destruct (b_legacyRevertMode (s_boosts s b)).
  - destruct (updateBoostPodLegacy p s) as [[[e|] s']|]; [done| |done]. by rewrite updateStats_spec.
  - destruct (updateBoostPod p s) as [[[e|] s']|]; [done| |done]. by rewrite updateStats_spec.
Qed.

(** The pod behind [p] and the world are all a reversion changes before
    the boost's own state; the pod keeps its name. *)
Record touches_pod (p : PodRef) (s s' : GoState) : Prop := {
  touches_boosts : s_boosts s' = s_boosts s;
  touches_metrics : s_metrics s' = s_metrics s;
  touches_nextPod : s_nextPod s' = s_nextPod s;
  touches_nextBoost : s_nextBoost s' = s_nextBoost s;
  touches_other p' : p' ≠ p → s_pods s' p' = s_pods s p';
  touches_key : same_key (s_pods s p) (s_pods s' p)
}.

Lemma touches_name p s s' :
  touches_pod p s s' → pod_Name (s_pods s' p) = pod_Name (s_pods s p).
Proof. by intros [? ? ? ? ? []]. Qed.

Lemma touches_pod_refl p s : touches_pod p s s.
Proof. by split. Qed.

Lemma touches_pod_trans p s s' s'' :
  touches_pod p s s' → touches_pod p s' s'' → touches_pod p s s''.
Proof.
  intros [? ? ? ? Ho [? ?]] [? ? ? ? Ho' [? ?]]; split; try congruence.
  - intros p' Hp'. rewrite Ho' by done. by apply Ho.
  - split; congruence.
Qed.

Lemma touches_set p pod' w' s :
  same_key (s_pods s p) pod' → touches_pod p s (set_pod p pod' (set_world w' s)).
Proof.
  intros Hn. split; try done.
  - intros p' Hp'. by rewrite s_pods_set_pod, decide_False.
  - by rewrite s_pods_set_pod_eq.
Qed.

Lemma Data_total patch pod :
  ∃ r pod', Data patch (Some pod) = Done (r, Some pod') ∧ same_key pod pod'.
Proof.
  destruct patch; cbn.
  - destruct (buildPodPatch_mutates pod revertBoostLabels _ _ eq_refl) as (r & pod' & -> & Hp).
    eexists _, _. split; [reflexivity|]. by destruct Hp as [->| ->].
  - destruct (revertBoostResources_total pod) as (err & cs & Hr & _).
    destruct (buildPodPatch_mutates pod revertBoostResources _ _ Hr) as (r & pod' & -> & Hp).
    destruct r; eexists _, _; (split; [reflexivity|]); by destruct Hp as [->| ->].
Qed.
End boost.

Section lemmas.
Context `{QuantityLib} `{SelectorLib} `{AnnotationJSON} `{!PatchLib} `{MetricVecLib} `{!PodClient}.
Context `{!PodClientBasics}.

Lemma go_Patch_touches sub patch p s err s' :
  go_Patch sub patch p s = Done (err, s') → touches_pod p s s'.
Proof.
  unfold go_Patch. destruct (client_Patch _ _ _ _) as [[[e pod'] w']|] eqn:E; [|done].
  intros [= <- <-]. apply touches_set. eapply patch_key; [exact E|].
  intros r obj1 Hd. destruct (Data_total patch (s_pods s p)) as (r' & pod1 & Hd' & Hn).
  rewrite Hd in Hd'. by injection Hd' as -> ->.
Qed.

Lemma go_Update_touches p s err s' :
  go_Update p s = Done (err, s') → touches_pod p s s'.
Proof.
  unfold go_Update. destruct (client_Update _ _) as [[e pod'] w'] eqn:E.
  intros [= <- <-]. apply touches_set. by eapply update_key.
Qed.

Lemma go_RevertResourceBoost_touches p s err s' :
  go_RevertResourceBoost p s = Done (err, s') → touches_pod p s s'.
Proof.
  unfold go_RevertResourceBoost.
  destruct (RevertResourceBoost_total (s_pods s p)) as (e & pod' & -> & Hn & Hns & _).
  intros [= <- <-]. destruct s. by apply (touches_set p pod').
Qed.

Lemma release_touches b p s err s' :
  release b p s = Done (err, s') → touches_pod p s s'.
Proof.
  unfold release, deref_boost. go_unfold. destruct (b_legacyRevertMode _); intros Hr.
  - apply bind_inv in Hr as (e & s1 & Hs1 & Hr). apply go_RevertResourceBoost_touches in Hs1.
    destruct e; [by injection Hr as <- <-|]. apply go_Update_touches in Hr.
    by eapply touches_pod_trans.
  - apply bind_inv in Hr as (e & s1 & Hs1 & Hr). apply go_Patch_touches in Hs1.
    destruct e; [by injection Hr as <- <-|].
    apply bind_inv in Hr as (e & s2 & Hs2 & Hr). apply go_Patch_touches in Hs2.
    destruct e; injection Hr as <- <-; by eapply touches_pod_trans.
Qed.

Lemma go_Patch_total sub patch p s : ∃ err s', go_Patch sub patch p s = Done (err, s').
Proof.
  unfold go_Patch. destruct (Data_total patch (s_pods s p)) as (r & pod1 & Hd & _).
  destruct (patch_total (s_world s) sub (Data patch) _ _ _ Hd) as (e & obj' & w' & ->). eauto.
Qed.

Lemma release_total b p s : ∃ err s', release b p s = Done (err, s') ∧ touches_pod p s s'.
Proof.
  enough (∃ err s', release b p s = Done (err, s')) as (err & s' & Hr)
    by (eauto using release_touches).
  unfold release, deref_boost. go_unfold. destruct (b_legacyRevertMode _).
  - unfold updateBoostPodLegacy, go_RevertResourceBoost. go_unfold.
    destruct (RevertResourceBoost_total (s_pods s p)) as (e & pod' & -> & _).
    destruct e; [eauto|]. unfold go_Update. destruct (client_Update _ _) as [[? ?] ?]. eauto.
  - unfold updateBoostPod. go_unfold.
    destruct (go_Patch_total (Some ResizeSubResourceName) revertBoostResourcesPatch p s)
      as (e & s1 & ->). destruct e; [eauto|].
    destruct (go_Patch_total None revertBoostLabelsPatch p s1) as (e & s2 & ->).
    destruct e; eauto.
Qed.

(** ** The methods as state transformers *)

(** Everything of a boost but the tracked pods and the statistics. *)
Definition same_identity (i i' : StartupCPUBoostImpl) : Prop :=
  b_name i' = b_name i ∧ b_namespace i' = b_namespace i ∧ b_selector i' = b_selector i ∧
  b_durationPolicies i' = b_durationPolicies i ∧
  b_resourcePolicies i' = b_resourcePolicies i ∧
  b_legacyRevertMode i' = b_legacyRevertMode i.

(** The effect of a method on boost [b]: the other boosts are untouched,
    [b] keeps its identity, tracks [pods] and has counted [added] more
    boosted containers. *)
Record boost_effect (b : BoostRef) (pods : gmap string PodRef) (added : Z)
    (s s' : GoState) : Prop := {
  effect_other b' : b' ≠ b → s_boosts s' b' = s_boosts s b';
  effect_identity : same_identity (s_boosts s b) (s_boosts s' b);
  effect_pods : b_pods (s_boosts s' b) = pods;
  effect_total : TotalContainerBoosts (b_stats (s_boosts s' b)) =
                 TotalContainerBoosts (b_stats (s_boosts s b)) + added
}.

Definition stats_exact (s : GoState) (b : BoostRef) : Prop :=
  ActiveContainerBoosts (b_stats (s_boosts s b)) =
    Z.of_nat (active_count s (b_pods (s_boosts s b))).

Lemma stats_state_exact b e p s : stats_exact (stats_state b e p s) b.
Proof. unfold stats_exact. by rewrite stats_state_boost, decide_True. Qed.

(** Changing the tracked pods of [b] and recomputing its statistics. *)
Lemma track_effect b e p pods s :
  let s' := stats_state b e p (set_boost b (b_set_pods (s_boosts s b) pods) s) in
  boost_effect b pods
    (match e with
     | StartupCPUBoostStatsPodCreateEvent => Z.of_nat (boostContainersLen (s_pods s p))
     | _ => 0
     end) s s' ∧ stats_exact s' b ∧ s_pods s' = s_pods s ∧ s_world s' = s_world s.
Proof.
  split; [|split; [apply stats_state_exact|done]]. split.
  - intros b' Hb'. by rewrite stats_state_boost, decide_False, s_boosts_set_boost, decide_False.
  - rewrite stats_state_boost, decide_True, s_boosts_set_boost_eq by done. done.
  - by rewrite stats_state_boost, decide_True, s_boosts_set_boost_eq by done.
  - rewrite stats_state_boost, decide_True, s_boosts_set_boost_eq by done. by destruct e.
Qed.

Lemma boost_effect_trans b pods added pods' added' s s' s'' :
  boost_effect b pods added s s' → boost_effect b pods' added' s' s'' →
  boost_effect b pods' (added + added') s s''.
Proof.
  intros [Ho Hi Hp Ht] [Ho' Hi' Hp' Ht']. split.
  - intros b' Hb'. by rewrite Ho', Ho.
  - unfold same_identity in *. naive_solver congruence.
  - done.
  - rewrite Ht', Ht. lia.
Qed.

Lemma touches_effect p b s s' :
  touches_pod p s s' → boost_effect b (b_pods (s_boosts s b)) 0 s s'.
Proof. intros [Hb _ _ _ _ _]. split; try by rewrite Hb. rewrite Hb. lia. Qed.

Lemma revertResources_cases σ b p s :
  ∃ err s', revertResources σ b p s = Done (err, s') ∧
    match err with
    | Some _ => touches_pod p s s'
    | None =>
        boost_effect b (delete (pod_Name (s_pods s p)) (b_pods (s_boosts s b))) 0 s s' ∧
        stats_exact s' b ∧ (∀ p', p' ≠ p → s_pods s' p' = s_pods s p')
    end.
Proof.
  rewrite revertResources_release.
  destruct (release_total b p s) as (err & s1 & -> & Ht).
  destruct err as [e|]; [eauto|]. eexists _, _. split; [reflexivity|].
  destruct (track_effect b StartupCPUBoostStatsPodDeleteEvent p
    (delete (pod_Name (s_pods s1 p)) (b_pods (s_boosts s1 b))) s1) as (He & Hx & Hp & _).
  cbn zeta in *. split_and!; [|done|].
  - rewrite (touches_name _ _ _ Ht), (touches_boosts _ _ _ Ht) in He.
    rewrite (touches_name _ _ _ Ht), (touches_boosts _ _ _ Ht).
    eapply (boost_effect_trans _ _ 0 _ 0); [by eapply touches_effect|done].
  - intros p' Hp'. rewrite Hp. by apply (touches_other _ _ _ Ht).
Qed.

(** The pod condition policy of the boost is over for the pod. *)
Definition condition_met (now : Z) (i : StartupCPUBoostImpl) (pod : Pod) : bool :=
  match b_durationPolicies i !! duration.PodConditionPolicyName with
  | Some pol => negb (duration.Valid pol now pod)
  | None => false
  end.

Lemma UpsertPod_eq σ σ' now b p s :
  UpsertPod σ σ' now b p s =
    let i := s_boosts s b in
    let name := pod_Name (s_pods s p) in
    let e := match b_pods i !! name with
             | Some _ => StartupCPUBoostStatsPodUpdateEvent
             | None => StartupCPUBoostStatsPodCreateEvent
             end in
    let s2 := stats_state b e p (set_boost b (b_set_pods i (<[name := p]> (b_pods i))) s) in
    if condition_met now i (s_pods s p)
    then match revertResources σ' b p s2 with
         | Done (Some err, s') => Done (Some ("pod resources reversion failed: " +:+ err), s')
         | r => r
         end
    else Done (None, s2).
Proof.
  unfold UpsertPod, deref_pod, BoostPod, insert_pod, DurationPolicies, condition_met. go_unfold.
  rewrite updateStats_spec. rewrite stats_state_boost, decide_True, s_boosts_set_boost_eq by done.
  cbn [b_durationPolicies b_set_stats b_set_pods].
  destruct (b_durationPolicies (s_boosts s b) !! _) as [pol|]; [|done].
  cbn beta. rewrite stats_state_pods. cbn [s_pods set_boost].
  unfold validatePolicyOnPod. destruct (duration.Valid _ _ _); [done|]. cbn [negb].
  by destruct (revertResources _ _ _ _) as [[[e'|] s']|].
Qed.

Lemma UpsertPod_cases σ σ' now b p s :
  let i := s_boosts s b in
  let name := pod_Name (s_pods s p) in
  let added := match b_pods i !! name with
               | Some _ => 0
               | None => Z.of_nat (boostContainersLen (s_pods s p))
               end in
  ∃ err s', UpsertPod σ σ' now b p s = Done (err, s') ∧
    (∀ p', p' ≠ p → s_pods s' p' = s_pods s p') ∧
    match condition_met now i (s_pods s p), err with
    | false, _ => err = None ∧ boost_effect b (<[name := p]> (b_pods i)) added s s' ∧
                  stats_exact s' b ∧ s_pods s' = s_pods s ∧ s_world s' = s_world s
    | true, None => boost_effect b (delete name (b_pods i)) added s s' ∧ stats_exact s' b
    | true, Some _ => boost_effect b (<[name := p]> (b_pods i)) added s s'
    end.
Proof.
  intros i name added. rewrite UpsertPod_eq. cbn zeta. fold i name.
  set (e := match b_pods i !! name with Some _ => _ | None => _ end).
  set (s2 := stats_state b e p _).
  destruct (track_effect b e p (<[name := p]> (b_pods i)) s) as (He & Hx & Hp & Hw).
  fold i in He, Hx, Hp, Hw. cbn zeta in He, Hx, Hp, Hw. fold s2 in He, Hx, Hp, Hw.
  replace (match e with StartupCPUBoostStatsPodCreateEvent => _ | _ => _ end) with added in He
    by (unfold added, e; by destruct (b_pods i !! name)).
  destruct (condition_met now i (s_pods s p)).
  - destruct (revertResources_cases σ' b p s2) as (err & s' & -> & Hr).
    destruct err as [err|]; eexists _, s'; (split; [reflexivity|]).
    + split; [intros p' Hp'; rewrite (touches_other _ _ _ Hr) by done; by rewrite Hp|].
      apply (touches_effect _ b) in Hr. rewrite (effect_pods _ _ _ _ _ He) in Hr.
      rewrite <-(Z.add_0_r added). by eapply boost_effect_trans.
    + destruct Hr as (Hr & Hx' & Ho). split; [intros p' Hp'; rewrite Ho by done; by rewrite Hp|].
      split; [|done]. rewrite (effect_pods _ _ _ _ _ He), Hp, delete_insert_eq in Hr.
      rewrite <-(Z.add_0_r added). by eapply boost_effect_trans.
  - eexists _, s2. split; [reflexivity|]. split; [intros p' _; by rewrite Hp|]. done.
Qed.

Lemma DeletePod_cases σ b p s :
  ∃ s', DeletePod σ b p s = Done (None, s') ∧ s_pods s' = s_pods s ∧ s_world s' = s_world s ∧
    boost_effect b (delete (pod_Name (s_pods s p)) (b_pods (s_boosts s b))) 0 s s' ∧
    stats_exact s' b.
Proof.
  unfold DeletePod, remove_pod. go_unfold. rewrite updateStats_spec.
  eexists. split; [reflexivity|].
  destruct (track_effect b StartupCPUBoostStatsPodDeleteEvent p
    (delete (pod_Name (s_pods s p)) (b_pods (s_boosts s b))) s) as (He & Hx & Hp & Hw). done.
Qed.

Lemma ValidatePolicy_spec σ now b name s :
  ∃ l, ValidatePolicy σ now b name s = Done (l, s) ∧
    ∀ p, p ∈ l ↔ ∃ pol n, b_durationPolicies (s_boosts s b) !! name = Some pol ∧
                 b_pods (s_boosts s b) !! n = Some p ∧
                 duration.Valid pol (now n) (s_pods s p) = false.
Proof.
  unfold ValidatePolicy, deref_boost. go_unfold.
  destruct (b_durationPolicies (s_boosts s b) !! name) as [pol|]; eexists; (split; [reflexivity|]).
  - intros p. rewrite list_elem_of_fmap. split.
    + intros ([n p'] & -> & Hin). apply list_elem_of_filter in Hin as [Hv Hin%elem_of_go_range].
      eauto.
    + intros (pol' & n & [= <-] & Hn & Hv). exists (n, p). split; [done|].
      rewrite list_elem_of_filter, elem_of_go_range. done.
  - intros p. split; [by intros ?%not_elem_of_nil|]. by intros (? & ? & ? & _).
Qed.

(** ** What no method touches

    The allocation counters, the identity of the pods and the gauge of
    registered boosts. *)
Record frame (s s' : GoState) : Prop := {
  frame_nextPod : s_nextPod s' = s_nextPod s;
  frame_nextBoost : s_nextBoost s' = s_nextBoost s;
  frame_gauge : boostConfigurations (s_metrics s') = boostConfigurations (s_metrics s);
  frame_key p : same_key (s_pods s p) (s_pods s' p)
}.

#[global] Instance frame_preorder : PreOrder frame.
Proof.
  split; [by intros s|]. intros s s' s'' [? ? ? Hk] [? ? ? Hk']. split; try congruence.
  intros p. destruct (Hk p), (Hk' p). split; congruence.
Qed.

Lemma stats_state_frame b e p v s : frame s (stats_state b e p (set_boost b v s)).
Proof. split; [done|done| |done]. by destruct e. Qed.

Lemma touches_frame p s s' : touches_pod p s s' → frame s s'.
Proof.
  intros [_ Hm ? ? Ho Hk]. split; [done|done|by rewrite Hm|]. intros p'.
  destruct (decide (p' = p)) as [->|Hp]; [done|]. by rewrite Ho.
Qed.

Lemma revertResources_frame σ b p s err s' :
  revertResources σ b p s = Done (err, s') → frame s s'.
Proof.
  rewrite revertResources_release. destruct (release_total b p s) as (e & s1 & -> & Ht).
  apply touches_frame in Ht. destruct e; intros [= <- <-]; [done|].
  etrans; [exact Ht|apply stats_state_frame].
Qed.

Lemma UpsertPod_frame σ σ' now b p s err s' :
  UpsertPod σ σ' now b p s = Done (err, s') → frame s s'.
Proof.
  rewrite UpsertPod_eq. cbn zeta. set (s2 := stats_state _ _ _ _).
  assert (frame s s2) as Hs2 by apply stats_state_frame.
  destruct (condition_met _ _ _); [|by intros [= <- <-]].
  destruct (revertResources σ' b p s2) as [[e s3]|] eqn:Hr; [|done].
  apply revertResources_frame in Hr.
  destruct e; intros [= <- <-]; by etrans.
Qed.

Lemma DeletePod_frame σ b p s err s' :
  DeletePod σ b p s = Done (err, s') → frame s s'.
Proof.
  unfold DeletePod, remove_pod. go_unfold. rewrite updateStats_spec. intros [= <- <-].
  apply stats_state_frame.
Qed.
End lemmas.

(** ** Properties *)

Section properties.
Context `{QuantityLib} `{SelectorLib} `{AnnotationJSON} `{!PatchLib} `{MetricVecLib} `{!PodClient}.
Context `{!PodClientBasics}.

(** An upsert of a pod that is not tracked adds the containers its
    annotation records to the total, an upsert of a tracked pod adds
    nothing; and whenever the call succeeds the active count is the number
    of boosted containers of the pods tracked at that point. *)
Theorem upsert_pod_statistics σ σ' now b p s :
  ∃ err s', UpsertPod σ σ' now b p s = Done (err, s') ∧
  TotalContainerBoosts (b_stats (s_boosts s' b)) =
    TotalContainerBoosts (b_stats (s_boosts s b)) +
    (match b_pods (s_boosts s b) !! pod_Name (s_pods s p) with
     | Some _ => 0
     | None => Z.of_nat (boostContainersLen (s_pods s p))
     end) ∧
  (err = None → ActiveContainerBoosts (b_stats (s_boosts s' b)) =
     Z.of_nat (active_count s' (b_pods (s_boosts s' b)))).
Proof.
  destruct (UpsertPod_cases σ σ' now b p s) as (err & s' & Hu & _ & Hc).
  exists err, s'. split; [done|]. destruct (condition_met _ _ _), err as [e|];
    repeat match goal with Hx : _ ∧ _ |- _ => destruct Hx end; try done;
    match goal with He : boost_effect _ _ _ _ _ |- _ => destruct He end; done.
Qed.

(** [RevertResources] always returns.  On success the pod is not
    tracked any more and the active count is exact; on failure the boost,
    its tracked pods and its statistics are exactly as before, so the pod
    is tried again. *)
Theorem revert_resources_tracking σ b p s :
  ∃ err s', RevertResources σ b p s = Done (err, s') ∧
    match err with
    | None =>
        b_pods (s_boosts s' b) = delete (pod_Name (s_pods s p)) (b_pods (s_boosts s b)) ∧
        ActiveContainerBoosts (b_stats (s_boosts s' b)) =
          Z.of_nat (active_count s' (b_pods (s_boosts s' b))) ∧
        (∀ b', b' ≠ b → s_boosts s' b' = s_boosts s b')
    | Some _ => s_boosts s' = s_boosts s ∧ s_metrics s' = s_metrics s
    end.
Proof.
  unfold RevertResources.
  destruct (revertResources_cases σ b p s) as (err & s' & -> & Hc). exists err, s'.
  split; [done|]. destruct err.
  - by destruct Hc.
  - destruct Hc as ([? ? ? ?] & ? & ?). done.
Qed.

(** [ValidatePolicy] changes nothing and returns exactly the tracked
    pods for which the named policy is no longer valid; none when the boost
    has no such policy. *)
Theorem validate_policy_violated σ now b name s :
  ∃ l, ValidatePolicy σ now b name s = Done (l, s) ∧
    ∀ p, p ∈ l ↔ ∃ pol n, b_durationPolicies (s_boosts s b) !! name = Some pol ∧
                 b_pods (s_boosts s b) !! n = Some p ∧
                 duration.Valid pol (now n) (s_pods s p) = false.
Proof. apply ValidatePolicy_spec. Qed.

(** A container gets the policy of its own name, the wildcard policy
    when there is none of its own, and no policy when there is neither. *)
Theorem resource_policy_precedence i name :
  (∀ pol, b_resourcePolicies i !! name = Some pol → impl_ResourcePolicy i name = Some pol) ∧
  (b_resourcePolicies i !! name = None →
     impl_ResourcePolicy i name = b_resourcePolicies i !! v1alpha1.ContainerPolicyWildcard) ∧
  (impl_ResourcePolicy i name = None ↔
     b_resourcePolicies i !! name = None ∧
     b_resourcePolicies i !! v1alpha1.ContainerPolicyWildcard = None).
Proof.
  unfold impl_ResourcePolicy. destruct (b_resourcePolicies i !! name) as [pol|]; naive_solver.
Qed.
End properties.

(** ** Witnesses *)

Module witness.
#[local] Existing Instances ConcreteQuantity.lib ConcreteQuantity.laws ConcreteSelector.lib
  ConcreteJSON.json ConcreteVec.lib json_patches server server_basics.
Import ConcreteQuantity.

(** A pod whose container asks for 2 CPUs and asked for one before it was
    boosted. *)
Definition annotation : BoostPodAnnotation :=
  {| BoostTimestamp := 0; InitCPURequests := Some {["app" := QString (milli 1000)]};
     InitCPULimits := Some ∅ |}.

Definition boosted_pod : Pod := {|
  pod_Name := "web-1"; pod_Namespace := "demo";
  pod_Labels := Some {[BoostLabelKey := "boost"]};
  pod_Annotations := Some {[BoostAnnotationKey := ConcreteJSON.enc annotation]};
  pod_Containers := [{| c_Name := "app"; c_ResizePolicy := [];
    c_Resources := {| Limits := None; Requests := Some {[ResourceCPU := milli 2000]} |} |}];
  pod_InitContainers := []; pod_Resources := None; pod_Conditions := []
|}.

Definition a_boost : StartupCPUBoostImpl := {|
  b_name := "boost"; b_namespace := "demo"; b_selector := ("app", ["web"]);
  b_durationPolicies := ∅; b_resourcePolicies := ∅; b_pods := {["web-1" := 0%nat]};
  b_stats := {| ActiveContainerBoosts := 1; TotalContainerBoosts := 1 |};
  b_legacyRevertMode := false
|}.

Definition state_with (refusals : list bool) : GoState := {|
  s_pods := λ _, boosted_pod; s_nextPod := 1%nat; s_boosts := λ _, a_boost; s_nextBoost := 1%nat;
  s_metrics := {| boostConfigurations := ∅; boostContainersTotal := ∅; boostContainersActive := ∅ |};
  s_world := {| stored := {[("demo", "web-1") := boosted_pod]}; refusals := refusals |}
|}.

(** The same boost with a condition policy that the pod meets. *)
Definition ready_pod : Pod := {|
  pod_Name := "web-1"; pod_Namespace := "demo"; pod_Labels := pod_Labels boosted_pod;
  pod_Annotations := pod_Annotations boosted_pod; pod_Containers := pod_Containers boosted_pod;
  pod_InitContainers := []; pod_Resources := None;
  pod_Conditions := [plain_condition "Ready" ConditionTrue 5]
|}.

Definition ready_boost : StartupCPUBoostImpl := {|
  b_name := "boost"; b_namespace := "demo"; b_selector := ("app", ["web"]);
  b_durationPolicies := {[duration.PodConditionPolicyName :=
    duration.PolicyPodCondition (duration.NewPodConditionPolicy "Ready" ConditionTrue)]};
  b_resourcePolicies := ∅; b_pods := ∅;
  b_stats := {| ActiveContainerBoosts := 0; TotalContainerBoosts := 0 |};
  b_legacyRevertMode := false
|}.

Definition ready_state : GoState := set_boost 0%nat ready_boost (set_pod 0%nat ready_pod (state_with [])).

Example upsert_pod_statistics_witness :
  ∃ err s', UpsertPod order_fwd order_fwd 10 0%nat 0%nat ready_state = Done (err, s') ∧
    TotalContainerBoosts (b_stats (s_boosts s' 0%nat)) = 1.
Proof.
  destruct (upsert_pod_statistics order_fwd order_fwd 10 0%nat 0%nat ready_state)
    as (err & s' & Hu & Ht & _).
  exists err, s'. split; [exact Hu|]. rewrite Ht. vm_compute; reflexivity.
Defined.

Example revert_resources_tracking_witness :
  ∃ err s', RevertResources order_fwd 0%nat 0%nat (state_with []) = Done (err, s') ∧
    (err = None → b_pods (s_boosts s' 0%nat) = ∅).
Proof.
  destruct (revert_resources_tracking order_fwd 0%nat 0%nat (state_with [])) as (err & s' & Hr & Hc).
  exists err, s'. split; [exact Hr|]. intros ->. destruct Hc as (Hp & _).
  rewrite Hp. vm_compute; reflexivity.
Defined.
End witness.
