(* ===== verification/BoostServer.v ===== *)
(** * Reversion seen from the API server

    What the pod stored by the API server looks like after a boost has
    reverted it, for both update methods, and what happens when a
    reversion is repeated after the server refused the first attempt. *)

From S2P Require Import Prelude Quantities Kube Api Duration Resource BoostPod Metrics Client Boost ConcreteServer.

Section server.
Context `{QuantityLaws} `{SelectorLib} `{AnnotationJSON} `{!PatchLib} `{MetricVecLib} `{!PodClient}.
Context `{!PodClientBasics} `{!PodClientLaws}.

(** The pod without the label and the annotation of a boost. *)
Definition unlabelled (pod : Pod) : Pod :=
  pod_set_Meta pod (gm_delete (pod_Labels pod) BoostLabelKey)
    (gm_delete (pod_Annotations pod) BoostAnnotationKey).

(** The pod with the CPU resources the annotation [a] records. *)
Definition restored (a : BoostPodAnnotation) (pod : Pod) : Pod :=
  pod_set_Containers pod (restore a <$> pod_Containers pod).

Definition key (pod : Pod) : string * string := (pod_Namespace pod, pod_Name pod).

(** The annotation of the pod can be used to restore it. *)
Definition revertible (pod : Pod) (a : BoostPodAnnotation) : Prop :=
  BoostAnnotationFromPod pod = inr a ∧ Forall (restorable a) (pod_Containers pod).

Lemma revertBoostResources_ok pod a :
  revertible pod a → revertBoostResources pod = Done (None, restored a pod).
Proof.
  intros [Ha Hall]. destruct (revertBoostResources_total pod) as (err & cs & Hr & Herr & Hcs).
  assert (err = None) as -> by (apply Herr; eauto). by rewrite Hr, (Hcs a).
Qed.

Lemma restore_map_idem initial name rl :
  restore_map initial name (restore_map initial name rl) = restore_map initial name rl.
Proof.
  unfold restore_map. destruct (gm_get initial name) as [s|]; [|done].
  destruct (ParseQuantity s) as [e|q]; [done|]. f_equal. apply insert_insert_eq.
Qed.

Lemma restore_idem a c : restore a (restore a c) = restore a c.
Proof. unfold restore, c_set_Resources. cbn. by rewrite !restore_map_idem. Qed.

Lemma restored_idem a pod : restored a (restored a pod) = restored a pod.
Proof.
  unfold restored, pod_set_Containers. cbn. f_equal. rewrite <-list_fmap_compose.
  apply list_fmap_ext. intros _ c _. apply restore_idem.
Qed.

Lemma revertible_restored a pod : revertible pod a → revertible (restored a pod) a.
Proof. intros [Ha Hall]. split; [done|]. by apply Forall_fmap. Qed.

#[global] Instance restore_map_proper initial name :
  Proper (rl_equiv ==> rl_equiv) (restore_map initial name).
Proof.
  intros rl rl' Hrl k. unfold restore_map. destruct (gm_get initial name) as [s|]; [|apply Hrl].
  destruct (ParseQuantity s) as [e|q]; [apply Hrl|]. specialize (Hrl k).
  unfold gm_get, gm_map in *. cbn. rewrite !lookup_insert. by case_decide.
Qed.

#[global] Instance restore_proper a : Proper ((≡) ==> (≡)) (restore a).
Proof.
  intros c c' (Hn & [Hl Hr] & Hp). unfold restore. rewrite Hn.
  split_and!; [done| |done]. by split; apply restore_map_proper.
Qed.

#[global] Instance restored_proper a : Proper ((≡) ==> (≡)) (restored a).
Proof.
  intros pod pod' Hpod. apply pod_set_Containers_proper; [done|].
  apply (list_fmap_proper _ _ (restore_proper a)). by apply pe_Containers.
Qed.

#[global] Instance unlabelled_proper : Proper ((≡) ==> (≡)) unlabelled.
Proof. intros pod pod' []. split; cbn; rewrite ?gm_map_delete; congruence. Qed.

Lemma key_proper pod pod' : pod ≡ pod' → key pod = key pod'.
Proof. intros []. unfold key. congruence. Qed.

(** The bytes the two patches consist of. *)
Lemma resources_patch_ok pod a :
  revertible pod a →
  ∃ j j' p, pod_Marshal pod = inr j ∧ pod_Marshal (restored a pod) = inr j' ∧
    CreateMergePatch j j' = inr p ∧
    Data revertBoostResourcesPatch (Some pod) = Done (inr p, Some (restored a pod)).
Proof.
  intros Hrev. destruct (pod_marshals pod) as (j & Hj).
  destruct (pod_marshals (restored a pod)) as (j' & Hj').
  destruct (merge_creates _ _ _ _ Hj Hj') as (p & Hp). exists j, j', p. split_and!; try done.
  cbn. unfold buildPodPatch. rewrite Hj, (revertBoostResources_ok _ a) by done. cbn.
  by rewrite Hj', Hp.
Qed.

Lemma labels_patch_ok pod :
  ∃ j j' p, pod_Marshal pod = inr j ∧ pod_Marshal (unlabelled pod) = inr j' ∧
    CreateMergePatch j j' = inr p ∧
    Data revertBoostLabelsPatch (Some pod) = Done (inr p, Some (unlabelled pod)).
Proof.
  destruct (pod_marshals pod) as (j & Hj). destruct (pod_marshals (unlabelled pod)) as (j' & Hj').
  destruct (merge_creates _ _ _ _ Hj Hj') as (p & Hp). exists j, j', p. split_and!; try done.
  cbn. unfold buildPodPatch. rewrite Hj. cbn. fold (unlabelled pod). by rewrite Hj', Hp.
Qed.

(** A successful patch call on a copy [pod] of what the server stores. *)
Lemma go_Patch_resources p s s' a srv :
  let pod := s_pods s p in
  revertible pod a → w_pods (s_world s) !! key pod = Some srv → srv ≡ pod →
  go_Patch (Some ResizeSubResourceName) revertBoostResourcesPatch p s = Done (None, s') →
  s_pods s' p ≡ restored a pod ∧
  w_pods (s_world s') = <[key pod := s_pods s' p]> (w_pods (s_world s)).
Proof.
  intros pod Hrev Hsrv Heq. unfold go_Patch.
  destruct (client_Patch _ _ _ _) as [[[e pod'] w']|] eqn:E; [|done]. intros [= -> <-].
  apply patch_ok in E as (b & obj1 & srv' & Hd & Hs & Hpod' & Hw). unfold key, pod in *.
  rewrite Hsrv in Hs. injection Hs as <-.
  destruct (resources_patch_ok _ _ Hrev) as (j & j' & b' & Hj & Hj' & Hb & Hd').
  rewrite Hd in Hd'. injection Hd' as -> ->.
  rewrite s_pods_set_pod_eq. split; [|done].
  by rewrite Hpod', (merge_create _ _ _ _ _ _ Hj Hj' Hb Heq), Heq.
Qed.

Lemma go_Patch_labels p s s' srv :
  let pod := s_pods s p in
  w_pods (s_world s) !! key pod = Some srv → srv ≡ pod →
  go_Patch None revertBoostLabelsPatch p s = Done (None, s') →
  s_pods s' p ≡ unlabelled pod ∧
  w_pods (s_world s') = <[key pod := s_pods s' p]> (w_pods (s_world s)).
Proof.
  intros pod Hsrv Heq. unfold go_Patch.
  destruct (client_Patch _ _ _ _) as [[[e pod'] w']|] eqn:E; [|done]. intros [= -> <-].
  apply patch_ok in E as (b & obj1 & srv' & Hd & Hs & Hpod' & Hw). unfold key, pod in *.
  rewrite Hsrv in Hs. injection Hs as <-.
  destruct (labels_patch_ok (s_pods s p)) as (j & j' & b' & Hj & Hj' & Hb & Hd').
  rewrite Hd in Hd'. injection Hd' as -> ->.
  rewrite s_pods_set_pod_eq. split; [|done].
  by rewrite Hpod', (merge_create _ _ _ _ _ _ Hj Hj' Hb Heq).
Qed.

(** The server stores [pod'] for the key of [pod] and is otherwise
    unchanged. *)
Definition stores (pod pod' : Pod) (w w' : World) : Prop :=
  ∃ stored, stored ≡ pod' ∧ w_pods w' = <[key pod := stored]> (w_pods w).

Lemma updateBoostPod_ok p s s' a srv :
  let pod := s_pods s p in
  revertible pod a → w_pods (s_world s) !! key pod = Some srv → srv ≡ pod →
  updateBoostPod p s = Done (None, s') →
  stores pod (unlabelled (restored a pod)) (s_world s) (s_world s').
Proof.
  intros pod Hrev Hsrv Heq Hu. apply bind_inv in Hu as (e & s1 & Hp1 & Hu).
  destruct e as [e|]; [done|]. apply bind_inv in Hu as (e & s2 & Hp2 & Hu).
  destruct e as [e|]; [done|]. injection Hu as <-.
  destruct (go_Patch_resources _ _ _ _ _ Hrev Hsrv Heq Hp1) as [Hpod Hw].
  assert (key (s_pods s1 p) = key pod) as Hkey by (by rewrite (key_proper _ _ Hpod)).
  apply (go_Patch_labels _ _ _ (s_pods s1 p)) in Hp2 as [Hpod2 Hw2]; [|by rewrite Hkey, Hw, lookup_insert_eq|done].
  exists (s_pods s2 p). split; [by rewrite Hpod2, Hpod|].
  by rewrite Hw2, Hw, Hkey, insert_insert_eq.
Qed.

Lemma updateBoostPodLegacy_ok p s s' a :
  let pod := s_pods s p in
  revertible pod a → updateBoostPodLegacy p s = Done (None, s') →
  stores pod (unlabelled (restored a pod)) (s_world s) (s_world s').
Proof.
  intros pod Hrev. unfold updateBoostPodLegacy, go_RevertResourceBoost, RevertResourceBoost. go_unfold.
  unfold pod in *. rewrite (revertBoostResources_ok _ _ Hrev). cbn [mbind outcome_bind].
  unfold revertBoostLabels, go_Update. rewrite s_pods_set_pod_eq.
  fold (unlabelled (restored a (s_pods s p))).
  destruct (client_Update _ _) as [[e pod'] w'] eqn:E. intros [= -> <-].
  apply update_ok in E as [Hpod Hw]. by exists pod'.
Qed.

Lemma revertResources_stores σ b p s s' a srv :
  let pod := s_pods s p in
  revertible pod a →
  w_pods (s_world s) !! key pod = Some srv → srv ≡ pod →
  revertResources σ b p s = Done (None, s') →
  stores pod (unlabelled (restored a pod)) (s_world s) (s_world s') ∧
  b_pods (s_boosts s' b) !! pod_Name pod = None.
Proof.
  intros pod Hrev Hsrv Heq Hr. split.
  - rewrite revertResources_release in Hr. unfold release, deref_boost in Hr. go_unfold_in Hr.
    destruct (b_legacyRevertMode _).
    + destruct (updateBoostPodLegacy p s) as [[[e|] s1]|] eqn:E; try done.
      injection Hr as <-. by apply (updateBoostPodLegacy_ok p s s1).
    + destruct (updateBoostPod p s) as [[[e|] s1]|] eqn:E; try done.
      injection Hr as <-. by apply (updateBoostPod_ok p s s1 _ srv).
  - destruct (revertResources_cases σ b p s) as (err & s1 & Hr1 & Hc).
    rewrite Hr in Hr1. injection Hr1 as <- <-. destruct Hc as (He & _).
    rewrite (effect_pods _ _ _ _ _ He). apply lookup_delete_eq.
Qed.

(** When the boost has an up-to-date copy of a boosted pod, whose
    annotation is usable, and [RevertResources] reports success, then the
    pod stored by the API server has its original CPU requests and limits
    back and neither the label nor the annotation of the boost, and the
    boost does not track the pod any more; this holds for the update and
    for the patch method alike, and no other stored pod changes. *)
Theorem revert_restores_stored_pod σ b p s s' a srv :
  let pod := s_pods s p in
  revertible pod a →
  w_pods (s_world s) !! key pod = Some srv → srv ≡ pod →
  RevertResources σ b p s = Done (None, s') →
  stores pod (unlabelled (restored a pod)) (s_world s) (s_world s') ∧
  b_pods (s_boosts s' b) !! pod_Name pod = None.
Proof. apply revertResources_stores. Qed.

(** An upsert that succeeds for a pod whose condition is met has reverted it
    on the server. *)
Lemma upsert_stores σ σ' now b p s s' a srv :
  let pod := s_pods s p in
  condition_met now (s_boosts s b) pod = true →
  revertible pod a → w_pods (s_world s) !! key pod = Some srv → srv ≡ pod →
  UpsertPod σ σ' now b p s = Done (None, s') →
  stores pod (unlabelled (restored a pod)) (s_world s) (s_world s').
Proof.
  intros pod Hc Hrev Hsrv Heq. rewrite UpsertPod_eq. cbn zeta. unfold pod in *. rewrite Hc.
  set (e := match b_pods _ !! _ with Some _ => _ | None => _ end). set (pods := <[_ := p]> _).
  destruct (track_effect b e p pods s) as (_ & _ & Hp & Hw). cbn zeta in Hp, Hw.
  set (s2 := stats_state b e p _) in *. rewrite <-Hp, <-Hw in *.
  destruct (revertResources σ' b p s2) as [[[er|] s3]|] eqn:Hr; try done. intros [= <-].
  by apply (revertResources_stores _ _ _ _ _ _ _ Hrev Hsrv Heq Hr).
Qed.

(** C27: [UpsertPod] always returns.  It leaves every other boost and the
    identity of this one alone.  If the pod condition policy is absent or
    still valid, the pod is tracked, no error is returned and the API server
    is not called.  If the condition is met and an error is returned, the
    pod stays tracked.  If the condition is met and no error is returned,
    the pod is no longer tracked, and if the copy was up to date and its
    annotation usable, the API server now stores the pod with its original
    CPU requests and limits and without the label and the annotation of the
    boost, and every other pod as before. *)
Theorem upsert_pod_tracking σ σ' now b p s :
  let i := s_boosts s b in
  let pod := s_pods s p in
  ∃ err s', UpsertPod σ σ' now b p s = Done (err, s') ∧
    (∀ b', b' ≠ b → s_boosts s' b' = s_boosts s b') ∧
    same_identity i (s_boosts s' b) ∧
    match condition_met now i pod, err with
    | false, _ => err = None ∧ b_pods (s_boosts s' b) = <[pod_Name pod := p]> (b_pods i) ∧
        s_world s' = s_world s
    | true, Some _ => b_pods (s_boosts s' b) = <[pod_Name pod := p]> (b_pods i)
    | true, None => b_pods (s_boosts s' b) = delete (pod_Name pod) (b_pods i) ∧
        ∀ a srv, revertible pod a → w_pods (s_world s) !! key pod = Some srv → srv ≡ pod →
          stores pod (unlabelled (restored a pod)) (s_world s) (s_world s')
    end.
Proof.
  intros i pod. destruct (UpsertPod_cases σ σ' now b p s) as (err & s' & Hu & _ & Hc).
  exists err, s'. split; [done|]. fold i pod in Hc.
  destruct (condition_met now i pod) eqn:Hmet, err as [e|];
    repeat match goal with Hx : _ ∧ _ |- _ => destruct Hx end; try done;
    match goal with He : boost_effect _ _ _ _ _ |- _ => destruct He end; split_and!; try done.
  intros a srv Hrev Hsrv Heq. by eapply upsert_stores.
Qed.

(** The second attempt computes the patch from the copy the first one
    changed: the patch is empty and the server keeps the resources. *)
Lemma repeated_resources_patch p s1 s2 pod srv a :
  revertible pod a → s_pods s1 p = restored a pod →
  w_pods (s_world s1) !! key pod = Some srv →
  go_Patch (Some ResizeSubResourceName) revertBoostResourcesPatch p s1 = Done (None, s2) →
  s_pods s2 p ≡ srv ∧ w_pods (s_world s2) = <[key pod := s_pods s2 p]> (w_pods (s_world s1)).
Proof.
  intros Hrev Hpod Hsrv. unfold go_Patch. rewrite Hpod.
  destruct (client_Patch _ _ _ _) as [[[e pod'] w']|] eqn:E; [|done]. intros [= -> <-].
  apply patch_ok in E as (d & obj1 & srv' & Hd & Hs & Hpod' & Hw).
  change (pod_Namespace (restored a pod), pod_Name (restored a pod)) with (key pod) in Hs, Hw.
  rewrite Hsrv in Hs. injection Hs as <-.
  destruct (resources_patch_ok _ _ (revertible_restored _ _ Hrev))
    as (j & j' & d' & Hj & Hj' & Hb & Hd'). rewrite restored_idem in Hj', Hd'.
  rewrite Hd in Hd'. injection Hd' as -> ->. rewrite Hj in Hj'. injection Hj' as <-.
  rewrite s_pods_set_pod_eq. split; [|done].
  rewrite Hpod'. rewrite (merge_same _ _ _ srv Hj Hb). by rewrite pod_set_Containers_id.
Qed.

(** C39: a reversion that the API server refused once is not repeated
    faithfully.  If the resize patch of the first attempt is refused after
    it was computed, the server being unchanged, and every call of the
    second attempt succeeds, then [RevertResources] reports success and the
    boost drops the pod, but the stored pod still has its boosted
    resources, without the annotation that holds the original ones. *)
Theorem refused_reversion_is_lost σ b p s e s1 s2 a srv :
  let pod := s_pods s p in
  b_legacyRevertMode (s_boosts s b) = false →
  revertible pod a →
  w_pods (s_world s) !! key pod = Some srv → srv ≡ pod →
  go_Patch (Some ResizeSubResourceName) revertBoostResourcesPatch p s = Done (Some e, s1) →
  s_pods s1 p ≠ pod →
  w_pods (s_world s1) = w_pods (s_world s) →
  RevertResources σ b p s1 = Done (None, s2) →
  RevertResources σ b p s = Done (Some e, s1) ∧
  (∃ stored, w_pods (s_world s2) !! key pod = Some stored ∧
     stored ≡ unlabelled pod ∧ pod_Containers stored ≡ pod_Containers pod) ∧
  b_pods (s_boosts s2 b) !! pod_Name pod = None.
Proof.
  intros pod Hleg Hrev Hsrv Heq Hp1 Hne Hw1 Hr2.
  assert (touches_pod p s s1) as Ht by (by eapply go_Patch_touches).
  assert (s_pods s1 p = restored a pod) as Hpod1.
  { unfold go_Patch in Hp1. destruct (client_Patch _ _ _ _) as [[[e' pod'] w']|] eqn:E; [|done].
    injection Hp1 as -> <-. rewrite s_pods_set_pod_eq in *.
    apply patch_err in E as [->|(r & Hd)]; [done|].
    destruct (resources_patch_ok _ _ Hrev) as (j & j' & d & _ & _ & _ & Hd').
    unfold pod in *. rewrite Hd in Hd'. by injection Hd'. }
  unfold RevertResources in *. rewrite revertResources_release in *.
  unfold release, deref_boost in *. go_unfold. go_unfold_in Hr2.
  rewrite (touches_boosts _ _ _ Ht), Hleg in *. split; [unfold updateBoostPod; go_unfold; by rewrite Hp1|].
  destruct (updateBoostPod p s1) as [[[e'|] s3]|] eqn:E; try done. injection Hr2 as <-.
  assert (touches_pod p s1 s3) as Ht3.
  { apply (release_touches b _ _ None). unfold release, deref_boost. go_unfold.
    by rewrite (touches_boosts _ _ _ Ht), Hleg. }
  apply bind_inv in E as (e1 & s4 & Hq1 & E). destruct e1 as [e1|]; [done|].
  apply bind_inv in E as (e2 & s5 & Hq2 & E). destruct e2 as [e2|]; [done|]. injection E as ->.
  apply (repeated_resources_patch _ _ _ pod srv a) in Hq1 as [Hpod4 Hw4]; [|done|done|by rewrite Hw1].
  assert (key (s_pods s4 p) = key pod) as Hkey by (by rewrite (key_proper _ _ Hpod4), (key_proper _ _ Heq)).
  apply (go_Patch_labels _ _ _ (s_pods s4 p)) in Hq2 as [Hpod5 Hw5];
    [|by rewrite Hkey, Hw4, lookup_insert_eq|done].
  split.
  - exists (s_pods s3 p). rewrite Hkey in Hw5.
    assert (s_pods s3 p ≡ unlabelled pod) as Hst by (by rewrite Hpod5, Hpod4, Heq).
    split_and!; [|done|by rewrite Hst]. cbn. by rewrite Hw5, lookup_insert_eq.
  - rewrite stats_state_boost, decide_True, s_boosts_set_boost_eq by done. cbn.
    rewrite (touches_name _ _ _ Ht3), (touches_name _ _ _ Ht). apply lookup_delete_eq.
Qed.
End server.

(** ** Witnesses *)

Module witness.
#[local] Existing Instances ConcreteQuantity.lib ConcreteQuantity.laws ConcreteSelector.lib
  ConcreteJSON.json ConcreteVec.lib json_patches server server_basics server_laws.
Import ConcreteQuantity Boost.witness.

Lemma boosted_revertible : revertible boosted_pod annotation.
Proof.
  split; [vm_compute; reflexivity|].
  repeat constructor; intros q Hq; vm_compute in Hq;
    [injection Hq as <-; eexists; vm_compute; reflexivity|discriminate].
Defined.

(** The reversion succeeds and leaves one CPU. *)
Example revert_restores_stored_pod_witness :
  let s := state_with [] in
  let s' := result_state (RevertResources order_fwd 0%nat 0%nat s) s in
  stores boosted_pod (unlabelled (restored annotation boosted_pod)) (s_world s) (s_world s') ∧
  b_pods (s_boosts s' 0%nat) !! "web-1" = None ∧
  ((λ c, QCmp (rl_Cpu (Requests (c_Resources c))) (milli 1000)) <$>
     pod_Containers (restored annotation boosted_pod)) = [0].
Proof.
  intros s s'.
  destruct (revert_restores_stored_pod order_fwd 0%nat 0%nat s s' annotation boosted_pod) as [Hs Hb].
  - apply boosted_revertible.
  - reflexivity.
  - reflexivity.
  - apply succeeds_result. vm_compute; reflexivity.
  - split; [exact Hs|]. split; [exact Hb|]. vm_compute; reflexivity.
Defined.

(** The pod is ready: it is reverted on the server and not tracked. *)
Definition ready_stored : GoState := {|
  s_pods := s_pods ready_state; s_nextPod := 1%nat; s_boosts := s_boosts ready_state; s_nextBoost := 1%nat;
  s_metrics := s_metrics ready_state;
  s_world := {| stored := {[("demo", "web-1") := ready_pod]}; refusals := [] |}
|}.

Example upsert_pod_tracking_witness :
  condition_met 10 ready_boost ready_pod = true ∧
  ∃ s', UpsertPod order_fwd order_fwd 10 0%nat 0%nat ready_stored = Done (None, s') ∧
    b_pods (s_boosts s' 0%nat) = ∅ ∧
    stores ready_pod (unlabelled (restored annotation ready_pod)) (s_world ready_stored) (s_world s').
Proof.
  split; [vm_compute; reflexivity|].
  destruct (upsert_pod_tracking order_fwd order_fwd 10 0%nat 0%nat ready_stored)
    as (err & s' & Hu & _ & _ & Hp).
  assert (succeeds (UpsertPod order_fwd order_fwd 10 0%nat 0%nat ready_stored) = true) as Hs
    by (vm_compute; reflexivity).
  rewrite Hu in Hs. destruct err as [e|]; [discriminate Hs|].
  exists s'. split; [exact Hu|].
  replace (condition_met _ _ _) with true in Hp by (vm_compute; reflexivity).
  destruct Hp as [Hp Hst]. split; [exact Hp|]. apply (Hst annotation ready_pod).
  - split; [vm_compute; reflexivity|apply boosted_revertible].
  - reflexivity.
  - reflexivity.
Defined.

(** The server refuses the first call only; the stored pod keeps 2 CPUs. *)
Example refused_reversion_is_lost_witness :
  let s := state_with [true] in
  let s1 := result_state
    (go_Patch (Some ResizeSubResourceName) revertBoostResourcesPatch 0%nat s) s in
  let s2 := result_state (RevertResources order_fwd 0%nat 0%nat s1) s1 in
  (∃ stored, w_pods (s_world s2) !! ("demo", "web-1") = Some stored ∧
     stored ≡ unlabelled boosted_pod ∧ pod_Containers stored ≡ pod_Containers boosted_pod) ∧
  b_pods (s_boosts s2 0%nat) !! "web-1" = None.
Proof.
  intros s s1 s2.
  destruct (refused_reversion_is_lost order_fwd 0%nat 0%nat s "conflict" s1 s2 annotation boosted_pod)
    as (_ & Hs & Hb).
  - reflexivity.
  - apply boosted_revertible.
  - reflexivity.
  - reflexivity.
  - apply fails_result. vm_compute; reflexivity.
  - intros Heq. apply (f_equal (λ q, QCmp (milli 2000) (rl_Cpu (Requests (c_Resources (hd {| c_Name := "";
      c_Resources := {| Limits := None; Requests := None |}; c_ResizePolicy := [] |}
      (pod_Containers q))))))) in Heq. vm_compute in Heq. discriminate Heq.
  - apply (bool_decide_eq_true_1 (stored (s_world s1) = stored (s_world s))). vm_compute; reflexivity.
  - apply succeeds_result. vm_compute; reflexivity.
  - split; [exact Hs|exact Hb].
Defined.
End witness.
