(* ===== verification/Validation.v ===== *)
(** * The validating webhooks (internal/webhook)

    [StartupCPUBoostWebhook] and [GlobalStartupCPUBoostWebhook]: the checks
    a boost passes before the API server stores it, the two validators as
    instances of one interface, and what admission guarantees to the code
    that builds a boost from an admitted object. *)

From S2P Require Import Prelude Quantities Kube Api Duration Resource BoostPod Metrics Client Boost.
From S2P Require Import ConcreteServer.

(** ** Field errors

    [field.Error] without the type, always [Invalid] here, and the copy of
    the bad value; [apierrors.NewInvalid] collects them for an object. *)

Inductive PathElem : Type :=
  | Child (name : string)
  | Index (i : nat).

Record FieldError : Type := {
  fe_Path : list PathElem;
  fe_Detail : string
}.

Record InvalidError : Type := {
  ie_Kind : string;
  ie_Name : string;
  ie_Errors : list FieldError
}.

Definition field_Invalid (path : list PathElem) (detail : string) : FieldError :=
  {| fe_Path := path; fe_Detail := detail |}.

(** [webhook.CustomValidator]; the objects are the decoded ones and no
    warning is ever returned. *)
Class CustomValidator (T : Type) : Type := {
  ValidateCreate : T → option InvalidError;
  ValidateUpdate : T → T → option InvalidError;
  ValidateDelete : T → option InvalidError
}.

Definition wildcard_detail : string := "only one wildcard (*) container policy is allowed".
Definition resource_detail : string := "one type of resource policy should be defined".
Definition duration_detail : string := "one type of duration policy should be defined".

Section validation.
Context `{QuantityLib} `{SelectorLib}.
Implicit Types policies : list v1alpha1.ContainerPolicy.

Definition incr_if {A} (x : option A) (cnt : nat) : nat :=
  match x with Some _ => S cnt | None => cnt end.

Definition validateDurationPolicy (policy : v1alpha1.DurationPolicy) : option FieldError :=
  let cnt := 0%nat in
  let fldPath := [Child "spec"; Child ""] in
  let cnt := incr_if (v1alpha1.dp_Fixed policy) cnt in
  let cnt := incr_if (v1alpha1.dp_PodCondition policy) cnt in
  if decide (cnt ≠ 1%nat) then Some (field_Invalid fldPath duration_detail) else None.

Definition containerPolicies_path : list PathElem :=
  [Child "spec"; Child "resourcePolicy"; Child "containerPolicies"].

(** The number of kinds of policy an entry sets. *)
Definition policy_kinds (p : v1alpha1.ContainerPolicy) : nat :=
  let cnt := incr_if (v1alpha1.cp_FixedResources p) 0%nat in
  incr_if (v1alpha1.cp_PercentageIncrease p) cnt.

(** The loop from index [i] on. *)
Fixpoint validateContainerPolicies_loop (i wildcardCount : nat) (allErrs : list FieldError)
    policies : list FieldError :=
  match policies with
  | [] => allErrs
  | p :: policies =>
      let fldPath := containerPolicies_path ++ [Index i] in
      let '(wildcardCount, allErrs) :=
        if String.eqb (v1alpha1.cp_ContainerName p) v1alpha1.ContainerPolicyWildcard
        then
          let wildcardCount := S wildcardCount in
          (wildcardCount,
           if (1 <? wildcardCount)%nat
           then allErrs ++ [field_Invalid fldPath wildcard_detail] else allErrs)
        else (wildcardCount, allErrs) in
      let allErrs :=
        if decide (policy_kinds p ≠ 1%nat)
        then allErrs ++ [field_Invalid fldPath resource_detail] else allErrs in
      validateContainerPolicies_loop (S i) wildcardCount allErrs policies
  end.

Definition validateContainerPolicies policies : list FieldError :=
  validateContainerPolicies_loop 0 0 [] policies.

Definition append_error (errs : list FieldError) (e : option FieldError) : list FieldError :=
  match e with Some e => errs ++ [e] | None => errs end.

Definition newInvalid (kind name : string) (allErrs : list FieldError) : option InvalidError :=
  match allErrs with
  | [] => None
  | _ => Some {| ie_Kind := kind; ie_Name := name; ie_Errors := allErrs |}
  end.

Definition validate (boost : v1alpha1.StartupCPUBoost) : option InvalidError :=
  let allErrs := validateContainerPolicies
    (v1alpha1.rp_ContainerPolicies (v1alpha1.spec_ResourcePolicy (v1alpha1.b_Spec boost))) in
  let allErrs := append_error allErrs
    (validateDurationPolicy (v1alpha1.spec_DurationPolicy (v1alpha1.b_Spec boost))) in
  newInvalid "StartupCPUBoost" (v1alpha1.om_Name (v1alpha1.b_Meta boost)) allErrs.

Definition check_selector (path : list PathElem) (sel : LabelSelector) : list FieldError :=
  match LabelSelectorAsSelector sel with
  | inl err => [field_Invalid path err]
  | inr _ => []
  end.

Definition validateGlobal (boost : v1alpha1.GlobalStartupCPUBoost) : option InvalidError :=
  let spec := v1alpha1.gb_Spec boost in
  let template := v1alpha1.gspec_Template spec in
  let allErrs := check_selector [Child "spec"; Child "namespaceSelector"]
    (v1alpha1.gspec_NamespaceSelector spec) in
  let allErrs := allErrs ++ check_selector [Child "spec"; Child "template"; Child "selector"]
    (v1alpha1.tmpl_Selector template) in
  let allErrs := allErrs ++ validateContainerPolicies
    (v1alpha1.rp_ContainerPolicies (v1alpha1.spec_ResourcePolicy (v1alpha1.tmpl_Spec template))) in
  let allErrs := append_error allErrs
    (validateDurationPolicy (v1alpha1.spec_DurationPolicy (v1alpha1.tmpl_Spec template))) in
  newInvalid "GlobalStartupCPUBoost" (v1alpha1.om_Name (v1alpha1.gb_Meta boost)) allErrs.

#[global] Instance StartupCPUBoostWebhook : CustomValidator v1alpha1.StartupCPUBoost := {|
  ValidateCreate := validate;
  ValidateUpdate := λ _ newObj, validate newObj;
  ValidateDelete := λ _, None
|}.

#[global] Instance GlobalStartupCPUBoostWebhook :
  CustomValidator v1alpha1.GlobalStartupCPUBoost := {|
  ValidateCreate := validateGlobal;
  ValidateUpdate := λ _ newObj, validateGlobal newObj;
  ValidateDelete := λ _, None
|}.

(** ** What a valid specification is *)

Definition is_wildcard (p : v1alpha1.ContainerPolicy) : Prop :=
  v1alpha1.cp_ContainerName p = v1alpha1.ContainerPolicyWildcard.
#[global] Instance is_wildcard_dec p : Decision (is_wildcard p) := _.

Definition one_policy (p : v1alpha1.ContainerPolicy) : Prop :=
  (v1alpha1.cp_FixedResources p = None) ↔ (v1alpha1.cp_PercentageIncrease p ≠ None).

Definition valid_policies policies : Prop :=
  (length (filter is_wildcard policies) ≤ 1)%nat ∧ Forall one_policy policies.

Definition valid_duration (d : v1alpha1.DurationPolicy) : Prop :=
  v1alpha1.dp_Fixed d = None ↔ v1alpha1.dp_PodCondition d ≠ None.

Definition valid_spec (spec : v1alpha1.StartupCPUBoostSpec) : Prop :=
  valid_policies (v1alpha1.rp_ContainerPolicies (v1alpha1.spec_ResourcePolicy spec)) ∧
  valid_duration (v1alpha1.spec_DurationPolicy spec).

Lemma policy_kinds_one p : policy_kinds p = 1%nat ↔ one_policy p.
Proof.
  unfold policy_kinds, one_policy.
  destruct (v1alpha1.cp_FixedResources p), (v1alpha1.cp_PercentageIncrease p); cbn; naive_solver.
Qed.

Lemma validateDurationPolicy_valid d : validateDurationPolicy d = None ↔ valid_duration d.
Proof.
  unfold validateDurationPolicy, valid_duration.
  destruct (v1alpha1.dp_Fixed d), (v1alpha1.dp_PodCondition d); cbn; naive_solver.
Qed.

Lemma wildcard_eqb p :
  String.eqb (v1alpha1.cp_ContainerName p) v1alpha1.ContainerPolicyWildcard =
    bool_decide (is_wildcard p).
Proof. unfold is_wildcard. case_bool_decide as Hw; [by apply String.eqb_eq|by apply String.eqb_neq]. Qed.

(** The errors one entry contributes, [n] wildcards having been seen. *)
Definition entry_errors (i n : nat) (p : v1alpha1.ContainerPolicy) : list FieldError :=
  (if decide (is_wildcard p ∧ (0 < n)%nat)
   then [field_Invalid (containerPolicies_path ++ [Index i]) wildcard_detail] else []) ++
  (if decide (one_policy p) then []
   else [field_Invalid (containerPolicies_path ++ [Index i]) resource_detail]).

Definition seen (n : nat) (p : v1alpha1.ContainerPolicy) : nat :=
  if decide (is_wildcard p) then S n else n.

Lemma loop_step i n errs p policies :
  validateContainerPolicies_loop i n errs (p :: policies) =
    validateContainerPolicies_loop (S i) (seen n p) (errs ++ entry_errors i n p) policies.
Proof.
  cbn -[String.eqb policy_kinds]. rewrite wildcard_eqb. unfold seen, entry_errors.
  pose proof (policy_kinds_one p).
  case_bool_decide; destruct n; repeat case_decide; rewrite ?app_nil_r, <-?app_assoc;
    first [done | lia | tauto | naive_solver lia].
Qed.

Lemma elem_of_entry_errors i n p e :
  e ∈ entry_errors i n p ↔
    (e = field_Invalid (containerPolicies_path ++ [Index i]) wildcard_detail ∧ is_wildcard p ∧ (0 < n)%nat) ∨
    (e = field_Invalid (containerPolicies_path ++ [Index i]) resource_detail ∧ ¬ one_policy p).
Proof. unfold entry_errors. repeat case_decide; set_solver. Qed.

(** The wildcards before index [k]. *)
Definition wildcards_before policies (k : nat) : nat :=
  length (filter is_wildcard (take k policies)).

Lemma wildcards_before_pos policies k :
  (0 < wildcards_before policies k)%nat ↔
    ∃ j q, (j < k)%nat ∧ policies !! j = Some q ∧ is_wildcard q.
Proof.
  unfold wildcards_before. split.
  - destruct (filter is_wildcard (take k policies)) as [|q l] eqn:E; cbn; [lia|]. intros _.
    assert (q ∈ filter is_wildcard (take k policies)) as Hq by (rewrite E; left).
    apply list_elem_of_filter in Hq as [Hw Hq]. apply list_elem_of_lookup in Hq as (j & Hj).
    apply lookup_take_Some in Hj as [Hj ?]. eauto.
  - intros (j & q & Hj & Hq & Hw).
    assert (q ∈ filter is_wildcard (take k policies)) as Hin.
    { rewrite list_elem_of_filter. split; [done|]. apply list_elem_of_lookup. exists j.
      by apply lookup_take_Some. }
    destruct (filter is_wildcard (take k policies)); [by apply not_elem_of_nil in Hin|cbn; lia].
Qed.

Lemma elem_of_loop i n errs policies e :
  e ∈ validateContainerPolicies_loop i n errs policies ↔
    e ∈ errs ∨ ∃ k p, policies !! k = Some p ∧
      e ∈ entry_errors (i + k) (n + wildcards_before policies k) p.
Proof.
  revert i n errs. induction policies as [|p policies IH]; intros i n errs.
  { cbn. split; [by left|]. intros [He|(k & p & Hk & _)]; [done|]. by rewrite lookup_nil in Hk. }
  rewrite loop_step, IH, elem_of_app. unfold seen, wildcards_before. split.
  - intros [[He|He]|(k & q & Hk & He)]; [by left|..]; right.
    + exists 0%nat, p. split; [done|]. by rewrite !Nat.add_0_r.
    + exists (S k), q. split; [done|]. rewrite firstn_cons, filter_cons, Nat.add_succ_r.
      case_decide; cbn; by rewrite ?Nat.add_succ_r.
  - intros [He|([|k] & q & Hk & He)]; [by left; left|..].
    + cbn in Hk. injection Hk as <-. rewrite !Nat.add_0_r in He. by left; right.
    + right. exists k, q. split; [done|]. rewrite firstn_cons, filter_cons, Nat.add_succ_r in He.
      case_decide; cbn in He; by rewrite ?Nat.add_succ_r in He.
Qed.

Lemma elem_of_validateContainerPolicies policies e :
  e ∈ validateContainerPolicies policies ↔
    ∃ k p, policies !! k = Some p ∧
      let path := containerPolicies_path ++ [Index k] in
      (e = field_Invalid path wildcard_detail ∧ is_wildcard p ∧
         ∃ j q, (j < k)%nat ∧ policies !! j = Some q ∧ is_wildcard q) ∨
      (e = field_Invalid path resource_detail ∧ ¬ one_policy p).
Proof.
  unfold validateContainerPolicies. rewrite elem_of_loop. split.
  - intros [?%not_elem_of_nil|(k & p & Hk & He)]; [done|]. exists k, p. split; [done|].
    apply elem_of_entry_errors in He. rewrite <-wildcards_before_pos. done.
  - intros (k & p & Hk & He). right. exists k, p. split; [done|].
    apply elem_of_entry_errors. rewrite <-wildcards_before_pos in He. done.
Qed.

Lemma elem_of_split {A} (l : list A) : l = [] ↔ ∀ x, x ∉ l.
Proof.
  split; [intros -> x; apply not_elem_of_nil|]. destruct l as [|x l]; [done|].
  intros Hl. destruct (Hl x). left.
Qed.

Lemma wildcards_unique policies :
  (length (filter is_wildcard policies) ≤ 1)%nat ↔
    ∀ j k p q, (j < k)%nat → policies !! j = Some p → policies !! k = Some q →
      is_wildcard p → ¬ is_wildcard q.
Proof.
  split.
  - intros Hlen j k p q Hjk Hj Hk Hp Hq.
    rewrite <-(take_drop k policies), filter_app, length_app in Hlen.
    rewrite (drop_S _ _ _ Hk), filter_cons, decide_True in Hlen by done. cbn in Hlen.
    assert (0 < wildcards_before policies k)%nat as Hpos by (apply wildcards_before_pos; eauto).
    unfold wildcards_before in Hpos. lia.
  - induction policies as [|p policies IH]; intros Hu; [cbn; lia|]. rewrite filter_cons.
    case_decide as Hp.
    + enough (filter is_wildcard policies = []) as -> by (cbn; lia).
      apply elem_of_split. intros q [Hq Hin]%list_elem_of_filter.
      apply list_elem_of_lookup in Hin as (k & Hk). apply (Hu 0%nat (S k) p q); [lia|done..].
    + apply IH. intros j k p' q' Hjk. apply (Hu (S j) (S k)). lia.
Qed.

Lemma validateContainerPolicies_valid policies :
  validateContainerPolicies policies = [] ↔ valid_policies policies.
Proof.
  rewrite elem_of_split. unfold valid_policies. rewrite wildcards_unique, Forall_lookup. split.
  - intros Hno. split.
    + intros j k p q Hjk Hj Hk Hp Hq.
      apply (Hno (field_Invalid (containerPolicies_path ++ [Index k]) wildcard_detail)).
      apply elem_of_validateContainerPolicies. exists k, q. split; [done|]. left. eauto 8.
    + intros k p Hk. destruct (decide (one_policy p)) as [|Hp]; [done|].
      destruct (Hno (field_Invalid (containerPolicies_path ++ [Index k]) resource_detail)).
      apply elem_of_validateContainerPolicies. exists k, p. split; [done|]. by right.
  - intros [Hw Hone] e He. apply elem_of_validateContainerPolicies in He
      as (k & p & Hk & [(_ & Hp & j & q & Hj & Hq & Hwq)|(_ & Hp)]).
    + by apply (Hw j k q p).
    + apply Hp. by eapply Hone.
Qed.

Lemma newInvalid_None kind name errs : newInvalid kind name errs = None ↔ errs = [].
Proof. by destruct errs. Qed.

Lemma append_error_nil errs e : append_error errs e = [] ↔ errs = [] ∧ e = None.
Proof. destruct e; cbn; [|tauto]. rewrite app_nil. naive_solver. Qed.

Lemma validate_valid boost : validate boost = None ↔ valid_spec (v1alpha1.b_Spec boost).
Proof.
  unfold validate, valid_spec.
  by rewrite newInvalid_None, append_error_nil, validateContainerPolicies_valid,
    validateDurationPolicy_valid.
Qed.

Lemma check_selector_nil path sel :
  check_selector path sel = [] ↔ ∃ s, LabelSelectorAsSelector sel = inr s.
Proof. unfold check_selector. destruct (LabelSelectorAsSelector sel); naive_solver. Qed.

Lemma validateGlobal_valid boost :
  let spec := v1alpha1.gb_Spec boost in
  validateGlobal boost = None ↔
    (∃ s, LabelSelectorAsSelector (v1alpha1.gspec_NamespaceSelector spec) = inr s) ∧
    (∃ s, LabelSelectorAsSelector (v1alpha1.tmpl_Selector (v1alpha1.gspec_Template spec)) = inr s) ∧
    valid_spec (v1alpha1.tmpl_Spec (v1alpha1.gspec_Template spec)).
Proof.
  unfold validateGlobal, valid_spec.
  rewrite newInvalid_None, append_error_nil, !app_nil, !check_selector_nil,
    validateContainerPolicies_valid, validateDurationPolicy_valid. tauto.
Qed.

(** ** The policies built from a valid specification *)

Lemma entry_policy_one p :
  one_policy p ↔ ∃ pol, entry_policy p = (Some pol, 1%nat).
Proof.
  unfold entry_policy, one_policy.
  destruct (v1alpha1.cp_FixedResources p), (v1alpha1.cp_PercentageIncrease p); naive_solver.
Qed.

Lemma mapResourcePolicy_loop_errs specs pols errs m errs' :
  mapResourcePolicy_loop specs pols errs = (m, errs') →
  (errs' = [] ↔ errs = [] ∧ Forall one_policy specs).
Proof.
  revert pols errs. induction specs as [|p specs IH]; intros pols errs; cbn.
  { intros [= _ ->]. naive_solver. }
  pose proof (entry_policy_one p) as Hone. rewrite Forall_cons.
  destruct (entry_policy p) as [[pol|] [|[|n]]]; intros ->%IH; rewrite ?app_nil; naive_solver.
Qed.

Lemma mapResourcePolicy_ok spec :
  (∃ m, mapResourcePolicy spec = inr m) ↔ Forall one_policy (v1alpha1.rp_ContainerPolicies spec).
Proof.
  unfold mapResourcePolicy. destruct (mapResourcePolicy_loop _ _ _) as [m errs] eqn:E.
  apply mapResourcePolicy_loop_errs in E. destruct errs as [|e errs]; cbn; naive_solver.
Qed.

(** The last entry for a container wins. *)
Lemma mapResourcePolicy_loop_last specs pols errs m errs' name :
  Forall one_policy specs →
  mapResourcePolicy_loop specs pols errs = (m, errs') →
  m !! name =
    match last (filter (λ p, v1alpha1.cp_ContainerName p = name) specs) with
    | Some p => (entry_policy p).1
    | None => pols !! name
    end.
Proof.
  intros Hall. revert pols errs. induction Hall as [|p specs Hp Hall IH]; intros pols errs;
    cbn [mapResourcePolicy_loop].
  { by intros [= -> _]. }
  apply entry_policy_one in Hp as (pol & Hp). rewrite Hp. intros ->%IH.
  rewrite filter_cons. case_decide as Hn; [|by rewrite lookup_insert_ne].
  rewrite last_cons. destruct (last _); [done|]. by rewrite Hp, Hn, lookup_insert_eq.
Qed.
End validation.

(** ** Properties *)

Section properties.
Context `{QuantityLib} `{SelectorLib} `{AnnotationJSON} `{!PatchLib} `{MetricVecLib} `{!PodClient}.

(** A StartupCPUBoost passes validation, on creation and on update
    alike, exactly when at most one entry is a wildcard, every entry sets
    exactly one of the two resource policies and exactly one of the two
    duration policies is set; the old object and deletions do not matter. *)
Theorem boost_admission_spec (old boost : v1alpha1.StartupCPUBoost) :
  let spec := v1alpha1.b_Spec boost in
  (ValidateCreate boost = None ↔
     valid_policies (v1alpha1.rp_ContainerPolicies (v1alpha1.spec_ResourcePolicy spec)) ∧
     valid_duration (v1alpha1.spec_DurationPolicy spec)) ∧
  ValidateUpdate old boost = ValidateCreate boost ∧
  ValidateDelete boost = None.
Proof. split; [apply validate_valid|done]. Qed.

(** The errors reported for the container policies are exactly: for
    every wildcard entry after the first one, an error at its index, and
    for every entry without exactly one policy, an error at its index. *)
Theorem container_policy_errors policies e :
  e ∈ validateContainerPolicies policies ↔
    ∃ k p, policies !! k = Some p ∧
      let path := containerPolicies_path ++ [Index k] in
      (e = field_Invalid path wildcard_detail ∧ is_wildcard p ∧
         ∃ j q, (j < k)%nat ∧ policies !! j = Some q ∧ is_wildcard q) ∨
      (e = field_Invalid path resource_detail ∧ ¬ one_policy p).
Proof. apply elem_of_validateContainerPolicies. Qed.

(** An admitted StartupCPUBoost can be turned into a boost exactly
    when its selector converts, which admission does not check; the boost
    then has exactly one duration policy and, for each container named in
    the spec, the policy of the last entry for it. *)
Theorem admitted_boost_constructs (boost : v1alpha1.StartupCPUBoost) legacy s :
  validate boost = None →
  match LabelSelectorAsSelector (v1alpha1.b_Selector boost) with
  | inl err => NewStartupCPUBoost boost legacy s = Done (inl err, s)
  | inr selector =>
      ∃ impl, NewStartupCPUBoost boost legacy s = Done (inr (s_nextBoost s), new_boost impl s) ∧
        b_selector impl = selector ∧ b_pods impl = ∅ ∧ size (b_durationPolicies impl) = 1%nat ∧
        ∀ name, b_resourcePolicies impl !! name =
          last (filter (λ p, v1alpha1.cp_ContainerName p = name)
                 (v1alpha1.rp_ContainerPolicies (v1alpha1.spec_ResourcePolicy (v1alpha1.b_Spec boost))))
            ≫= (λ p, (entry_policy p).1)
  end.
Proof.
  intros [[_ Hone] Hdur]%validate_valid. unfold NewStartupCPUBoost.
  destruct (LabelSelectorAsSelector _) as [err|sel]; [done|].
  destruct (proj2 (mapResourcePolicy_ok _) Hone) as (m & Hm). rewrite Hm.
  eexists. split; [reflexivity|]. cbn. split_and!; [done|done| |].
  - unfold mapDurationPolicy, valid_duration in *.
    destruct (v1alpha1.dp_Fixed _), (v1alpha1.dp_PodCondition _);
      try (exfalso; naive_solver); by rewrite insert_empty, map_size_singleton.
  - intros name. unfold mapResourcePolicy in Hm.
    destruct (mapResourcePolicy_loop _ _ _) as [m' errs] eqn:E.
    apply (mapResourcePolicy_loop_last _ _ _ _ _ name Hone) in E.
    destruct (errors_Join errs); [done|]. injection Hm as <-. rewrite E, lookup_empty.
    by destruct (last _).
Qed.

(** A GlobalStartupCPUBoost is admitted exactly when both its
    selectors convert and its template is valid; every boost with the spec
    and the selector of its template then can be constructed. *)
Theorem admitted_template_constructs (g : v1alpha1.GlobalStartupCPUBoost) :
  let template := v1alpha1.gspec_Template (v1alpha1.gb_Spec g) in
  (ValidateCreate g = None ↔
    (∃ sel, LabelSelectorAsSelector (v1alpha1.gspec_NamespaceSelector (v1alpha1.gb_Spec g)) = inr sel) ∧
    (∃ sel, LabelSelectorAsSelector (v1alpha1.tmpl_Selector template) = inr sel) ∧
    valid_spec (v1alpha1.tmpl_Spec template)) ∧
  ∀ (child : v1alpha1.StartupCPUBoost) legacy s,
    ValidateCreate g = None →
    v1alpha1.b_Selector child = v1alpha1.tmpl_Selector template →
    v1alpha1.b_Spec child = v1alpha1.tmpl_Spec template →
    ∃ s', NewStartupCPUBoost child legacy s = Done (inr (s_nextBoost s), s').
Proof.
  split; [apply validateGlobal_valid|].
  intros child legacy s (_ & (sel & Hsel) & [_ Hone] & _)%validateGlobal_valid Hs Hspec.
  unfold NewStartupCPUBoost. rewrite Hs, Hsel, Hspec.
  destruct (proj2 (mapResourcePolicy_ok _) Hone) as (m & ->). eauto.
Qed.
End properties.

(** ** Witnesses *)

Module witness.
#[local] Existing Instances ConcreteQuantity.lib ConcreteSelector.lib
  ConcreteJSON.json ConcreteVec.lib json_patches server.

Definition meta : v1alpha1.ObjectMeta := {|
  v1alpha1.om_Name := "boost"; v1alpha1.om_Namespace := "demo"; v1alpha1.om_UID := "1";
  v1alpha1.om_Labels := None; v1alpha1.om_Annotations := None;
  v1alpha1.om_Finalizers := []; v1alpha1.om_DeletionTimestamp := None
|}.

Definition a_spec : v1alpha1.StartupCPUBoostSpec := {|
  v1alpha1.spec_ResourcePolicy := {| v1alpha1.rp_ContainerPolicies :=
    [{| v1alpha1.cp_ContainerName := "app";
        v1alpha1.cp_PercentageIncrease := Some {| v1alpha1.pi_Value := 50 |};
        v1alpha1.cp_FixedResources := None |}] |};
  v1alpha1.spec_DurationPolicy := {|
    v1alpha1.dp_Fixed := Some {| v1alpha1.fdp_Unit := "Seconds"; v1alpha1.fdp_Value := 60 |};
    v1alpha1.dp_PodCondition := None |}
|}.

Definition boost_for (values : list string) : v1alpha1.StartupCPUBoost := {|
  v1alpha1.b_Meta := meta; v1alpha1.b_Selector := ("app", values); v1alpha1.b_Spec := a_spec;
  v1alpha1.b_Status := {| v1alpha1.bs_ActiveContainerBoosts := 0;
    v1alpha1.bs_TotalContainerBoosts := 0; v1alpha1.bs_Conditions := [] |}
|}.

(** A boost whose selector converts, and an admitted one whose selector
    does not. *)
Example admitted_boost_constructs_witness :
  (∃ impl, NewStartupCPUBoost (boost_for ["web"]) false (Boost.witness.state_with []) =
     Done (inr 1%nat, new_boost impl (Boost.witness.state_with [])) ∧
     size (b_durationPolicies impl) = 1%nat) ∧
  validate (boost_for []) = None ∧
  ∃ err, NewStartupCPUBoost (boost_for []) false (Boost.witness.state_with []) =
    Done (inl err, Boost.witness.state_with []).
Proof.
  split; [|split; [vm_compute; reflexivity|]].
  - destruct (admitted_boost_constructs (boost_for ["web"]) false (Boost.witness.state_with []))
      as (impl & Hn & _ & _ & Hd & _); [vm_compute; reflexivity|].
    exists impl. split; [exact Hn|exact Hd].
  - eexists. apply (admitted_boost_constructs (boost_for [])). vm_compute; reflexivity.
Defined.

Definition a_global : v1alpha1.GlobalStartupCPUBoost := {|
  v1alpha1.gb_Meta := meta;
  v1alpha1.gb_Spec := {| v1alpha1.gspec_NamespaceSelector := ("team", ["a"]);
    v1alpha1.gspec_Template := {| v1alpha1.tmpl_Selector := ("app", ["web"]);
                                  v1alpha1.tmpl_Spec := a_spec |} |};
  v1alpha1.gb_Status := {| v1alpha1.gs_NamespaceCount := 0; v1alpha1.gs_ActiveNamespaces := [];
    v1alpha1.gs_SkippedNamespaces := []; v1alpha1.gs_Conditions := [] |}
|}.

Example admitted_template_constructs_witness :
  ∃ s', NewStartupCPUBoost (boost_for ["web"]) false (Boost.witness.state_with []) =
    Done (inr 1%nat, s').
Proof.
  apply (proj2 (admitted_template_constructs a_global)); vm_compute; reflexivity.
Defined.
End witness.
