(* ===== verification/PodWebhook.v ===== *)
(** * The mutating pod webhook (internal/webhook/podcpuboost_webhook.go)

    [podCPUBoostHandler]: which containers of a new pod are boosted, what is
    recorded in the annotation, and the response.  Log calls are left out.
    The boost the handler works with is looked up through the interface
    [PodBoosts], which the manager implements. *)

From S2P Require Import Prelude Quantities Kube Api Duration Resource Qos BoostPod Metrics Client Boost.
From S2P Require Import BoostServer ConcreteServer.

Section handler.
Context `{QuantityLib} `{SelectorLib} `{AnnotationJSON}.

Record podCPUBoostHandler : Type := {
  removeLimits : bool;
  podLevelResourcesEnabled : bool
}.

Implicit Types (h : podCPUBoostHandler) (b : StartupCPUBoostImpl) (pod : Pod) (c : Container).

Definition canRemoveLimit h (qosClass : PodQOSClass) : bool :=
  if negb (removeLimits h) then false
  else if bool_decide (qosClass ≠ PodQOSBurstable) && bool_decide (qosClass ≠ PodQOSBestEffort)
       then false
  else true.

(** [podCopy.Spec.Containers[containerIdx].Resources = res] *)
Definition set_container_resources pod (i : nat) (res : ResourceRequirements) : Pod :=
  pod_set_Containers pod (alter (λ c, c_set_Resources c res) i (pod_Containers pod)).

Definition containerResizeChangesQosClass h (σ : nat → RangeOrder) (initQosClass : PodQOSClass)
    (initPod : Pod) (containerIdx : nat) (newContainerRes : ResourceRequirements) : bool :=
  let podCopy := set_container_resources initPod containerIdx newContainerRes in
  let newQos := computePodQOS σ podCopy (podLevelResourcesEnabled h) in
  bool_decide (newQos ≠ initQosClass).

Definition hasResourcesToIncrease c : bool :=
  negb (QIsZero (rl_Cpu (Requests (c_Resources c)))) ||
  negb (QIsZero (rl_Cpu (Limits (c_Resources c)))).

(** One of the two assignments of [updateBoostAnnotation]. *)
Definition annotate_entry (m : GoMap string) (containerName : string) (rl : GoMap Quantity) :
    outcome (GoMap string) :=
  match gm_get rl ResourceCPU with
  | Some q => gm_set m containerName (QString q)
  | None => Done m
  end.

Definition updateBoostAnnotation (annot : BoostPodAnnotation) (containerName : string)
    (resources : ResourceRequirements) : outcome BoostPodAnnotation :=
  requests ← annotate_entry (InitCPURequests annot) containerName (Requests resources);
  limits ← annotate_entry (InitCPULimits annot) containerName (Limits resources);
  Done {| BoostTimestamp := BoostTimestamp annot; InitCPURequests := requests;
          InitCPULimits := limits |}.

Fixpoint resizeRequiresRestart_loop (policies : list ContainerResizePolicy) (r : string) : bool :=
  match policies with
  | [] => false
  | p :: policies =>
      if negb (String.eqb (crp_ResourceName p) r) then resizeRequiresRestart_loop policies r
      else String.eqb (crp_RestartPolicy p) RestartContainer
  end.

Definition resizeRequiresRestart c (r : string) : bool :=
  resizeRequiresRestart_loop (c_ResizePolicy c) r.

(** One iteration of the loop over the containers: the pod and the
    annotation after it. *)
Definition boost_container h (σ : nat → RangeOrder) (originalQosClass : PodQOSClass) b
    (i : nat) (container : Container) (pod : Pod) (annotation : BoostPodAnnotation) :
    outcome (Pod * BoostPodAnnotation) :=
  match impl_ResourcePolicy b (c_Name container) with
  | None => Done (pod, annotation)
  | Some policy =>
      if resizeRequiresRestart container ResourceCPU then Done (pod, annotation)
      else if negb (hasResourcesToIncrease container) then Done (pod, annotation)
      else
        resources ← resource.NewResources policy container;
        if containerResizeChangesQosClass h σ originalQosClass pod i resources
        then Done (pod, annotation)
        else
          let resources :=
            if negb (QIsZero (rl_Cpu (Limits resources)))
            then if canRemoveLimit h originalQosClass
                 then {| Limits := gm_delete (Limits resources) ResourceCPU;
                         Requests := Requests resources |}
                 else resources
            else resources in
          annotation ← updateBoostAnnotation annotation (c_Name container) (c_Resources container);
          Done (set_container_resources pod i resources, annotation)
  end.

(** The loop from index [i] on; [σ (S i)] is the order the maps are
    ranged over in iteration [i]. *)
Fixpoint boost_containers h (σ : nat → nat → RangeOrder) (originalQosClass : PodQOSClass) b
    (i : nat) (containers : list Container) (pod : Pod) (annotation : BoostPodAnnotation) :
    outcome (Pod * BoostPodAnnotation) :=
  match containers with
  | [] => Done (pod, annotation)
  | container :: containers =>
      '(pod, annotation) ← boost_container h (σ (S i)) originalQosClass b i container pod annotation;
      boost_containers h σ originalQosClass b (S i) containers pod annotation
  end.

Definition boostContainerResources h (σ : nat → nat → RangeOrder) (now : Z) b (pod : Pod) :
    outcome Pod :=
  let originalQosClass := computePodQOS (σ 0%nat) pod (podLevelResourcesEnabled h) in
  '(pod, annotation) ←
    boost_containers h σ originalQosClass b 0 (pod_Containers pod) pod (NewBoostAnnotation now);
  if decide (0 < gm_len (InitCPULimits annotation) ∨ 0 < gm_len (InitCPURequests annotation))%nat
  then
    json ← ToJSON annotation;
    annotations ← gm_set (gm_make_if_nil (pod_Annotations pod)) BoostAnnotationKey json;
    labels ← gm_set (gm_make_if_nil (pod_Labels pod)) BoostLabelKey (b_name b);
    Done (pod_set_Meta pod labels annotations)
  else Done pod.

(** ** The request handler *)

(** What the handler relies on of [boost.Manager]. *)
Class PodBoosts : Type := {
  GetCPUBoostForPod : Pod → option StartupCPUBoostImpl
}.

(** A boost for a pod is one of its namespace that selects it. *)
Class PodBoostsLaws `{PodBoosts} : Prop := {
  boost_for_pod pod b : GetCPUBoostForPod pod = Some b →
    b_namespace b = pod_Namespace pod ∧ impl_Matches b pod = true
}.

Context `{!PatchLib}.

(** [admission.Decoder] and the part of the request that is used. *)
Class AdmissionLib : Type := {
  Request : Type;
  req_Raw : Request → Bytes;
  Decode : Request → result Pod
}.

Inductive Response : Type :=
  | Errored (code : Z) (err : error)
  | Allowed (reason : string)
  | PatchResponseFromRaw (original current : Bytes).

Definition StatusBadRequest : Z := 400.
Definition StatusInternalServerError : Z := 500.

Definition Handle `{!PodBoosts} `{!AdmissionLib} h (σ : nat → nat → RangeOrder) (now : Z)
    (req : Request) : outcome Response :=
  match Decode req with
  | inl err => Done (Errored StatusBadRequest err)
  | inr pod =>
      match GetCPUBoostForPod pod with
      | None => Done (Allowed "no boost matched")
      | Some boostImpl =>
          pod ← boostContainerResources h σ now boostImpl pod;
          match pod_Marshal pod with
          | inl err => Done (Errored StatusInternalServerError err)
          | inr marshaledPod => Done (PatchResponseFromRaw (req_Raw req) marshaledPod)
          end
      end
  end.
End handler.

(** ** What an iteration decides *)

Section decisions.
Context `{QuantityLaws} `{SelectorLib} `{AnnotationJSON}.
Implicit Types (h : podCPUBoostHandler) (b : StartupCPUBoostImpl) (pod : Pod) (c : Container).

(** The resources a policy asks for. *)
Definition new_resources (pol : resource.ContainerPolicy) c : ResourceRequirements :=
  {| Limits := resource.cpu_alter (resource.limit_update pol) (Limits (c_Resources c));
     Requests := resource.cpu_alter (resource.request_update pol) (Requests (c_Resources c)) |}.

(** The ones the container gets: the CPU limit may be dropped. *)
Definition final_resources h (qos : PodQOSClass) (pol : resource.ContainerPolicy) c :
    ResourceRequirements :=
  let r := new_resources pol c in
  if negb (QIsZero (rl_Cpu (Limits r))) && canRemoveLimit h qos
  then {| Limits := gm_delete (Limits r) ResourceCPU; Requests := Requests r |} else r.

(** The policy under which a container may be boosted. *)
Definition eligible b c : option resource.ContainerPolicy :=
  if resizeRequiresRestart c ResourceCPU || negb (hasResourcesToIncrease c) then None
  else impl_ResourcePolicy b (c_Name c).

Definition class_of h pod : PodQOSClass :=
  qos_spec (qos_sources pod (podLevelResourcesEnabled h)).

Definition decision h (qos : PodQOSClass) b pod (i : nat) c : option ResourceRequirements :=
  match eligible b c with
  | Some pol =>
      if decide (class_of h (set_container_resources pod i (new_resources pol c)) = qos)
      then Some (final_resources h qos pol c) else None
  | None => None
  end.

Definition record_entry (m : GoMap string) (name : string) (rl : GoMap Quantity) : GoMap string :=
  match gm_get rl ResourceCPU with
  | Some q => Some (<[name := QString q]> (gm_map m))
  | None => m
  end.

Definition record (a : BoostPodAnnotation) c : BoostPodAnnotation :=
  {| BoostTimestamp := BoostTimestamp a;
     InitCPURequests := record_entry (InitCPURequests a) (c_Name c) (Requests (c_Resources c));
     InitCPULimits := record_entry (InitCPULimits a) (c_Name c) (Limits (c_Resources c)) |}.

(** The maps of the annotation are never nil. *)
Definition made (a : BoostPodAnnotation) : Prop :=
  is_Some (InitCPURequests a) ∧ is_Some (InitCPULimits a).

Lemma annotate_entry_record m name rl :
  is_Some m → annotate_entry m name rl = Done (record_entry m name rl).
Proof.
  intros [m' ->]. unfold annotate_entry, record_entry. by destruct (gm_get rl ResourceCPU).
Qed.

Lemma updateBoostAnnotation_record a c :
  made a → updateBoostAnnotation a (c_Name c) (c_Resources c) = Done (record a c).
Proof. intros [Hr Hl]. unfold updateBoostAnnotation. by rewrite !annotate_entry_record. Qed.

Lemma record_made a c : made a → made (record a c).
Proof.
  intros [Hr Hl]. unfold made, record, record_entry. cbn.
  split; by destruct (gm_get _ ResourceCPU).
Qed.

Lemma boost_container_decision h σ qos b i c pod a :
  made a →
  boost_container h σ qos b i c pod a =
    Done (match decision h qos b pod i c with
          | Some r => (set_container_resources pod i r, record a c)
          | None => (pod, a)
          end).
Proof.
  intros Ha. unfold boost_container, decision, eligible.
  destruct (impl_ResourcePolicy b (c_Name c)) as [pol|]; [|by destruct (_ || _)].
  destruct (resizeRequiresRestart c ResourceCPU); [done|].
  destruct (hasResourcesToIncrease c); [|done]. cbn [negb orb].
  rewrite resource.NewResources_spec. cbn [mbind outcome_bind].
  fold (new_resources pol c). unfold containerResizeChangesQosClass.
  rewrite computePodQOS_spec. fold (class_of h (set_container_resources pod i (new_resources pol c))).
  case_bool_decide as Hq; case_decide; try done.
  rewrite updateBoostAnnotation_record by done. cbn [mbind outcome_bind].
  unfold final_resources. by destruct (negb (QIsZero _)), (canRemoveLimit h qos).
Qed.

(** ** The loop *)

Definition apply_dec c (d : option ResourceRequirements) : Container :=
  match d with Some r => c_set_Resources c r | None => c end.

Definition record_dec (a : BoostPodAnnotation) (cd : Container * option ResourceRequirements) :
    BoostPodAnnotation :=
  match cd.2 with Some _ => record a cd.1 | None => a end.

(** The decisions for the containers from index [i] on, each taken with the
    containers before it already boosted. *)
Fixpoint decisions h (qos : PodQOSClass) b (i : nat) (cs : list Container) pod :
    list (option ResourceRequirements) :=
  match cs with
  | [] => []
  | c :: cs =>
      let d := decision h qos b pod i c in
      let pod := match d with Some r => set_container_resources pod i r | None => pod end in
      d :: decisions h qos b (S i) cs pod
  end.

Lemma decisions_length h qos b i cs pod : length (decisions h qos b i cs pod) = length cs.
Proof. revert i pod. induction cs as [|c cs IH]; intros; cbn; auto. Qed.

Lemma set_container_at pod pre c cs r :
  pod_Containers pod = pre ++ c :: cs →
  set_container_resources pod (length pre) r =
    pod_set_Containers pod (pre ++ c_set_Resources c r :: cs).
Proof.
  intros Hp. unfold set_container_resources. f_equal. rewrite Hp.
  rewrite alter_app_r_alt by lia. by rewrite Nat.sub_diag.
Qed.

Lemma record_dec_made a cd : made a → made (record_dec a cd).
Proof. unfold record_dec. destruct cd.2; auto using record_made. Qed.

(** The pod after an iteration. *)
Lemma iteration_pod pod pre c cs d :
  pod_Containers pod = pre ++ c :: cs →
  (match d with Some r => set_container_resources pod (length pre) r | None => pod end) =
    pod_set_Containers pod ((pre ++ [apply_dec c d]) ++ cs).
Proof.
  intros Hp. rewrite <-app_assoc. destruct d as [r|]; cbn.
  - by apply set_container_at.
  - rewrite <-Hp. by rewrite pod_set_Containers_id.
Qed.

Lemma boost_containers_spec h σ qos b pre cs pod a :
  made a → pod_Containers pod = pre ++ cs →
  let ds := decisions h qos b (length pre) cs pod in
  boost_containers h σ qos b (length pre) cs pod a =
    Done (pod_set_Containers pod (pre ++ zip_with apply_dec cs ds),
          foldl record_dec a (zip cs ds)).
Proof.
  revert pre pod a. induction cs as [|c cs IH]; intros pre pod a Ha Hp; cbn -[boost_container].
  { rewrite <-Hp. by rewrite pod_set_Containers_id. }
  rewrite boost_container_decision by done. cbn [mbind outcome_bind].
  set (d := decision h qos b pod (length pre) c).
  pose proof (iteration_pod pod pre c cs d Hp) as Hit.
  pose proof (record_dec_made a (c, d) Ha) as Ha'.
  assert ((match d with
    | Some r => (set_container_resources pod (length pre) r, record a c)
    | None => (pod, a)
    end) = (pod_set_Containers pod ((pre ++ [apply_dec c d]) ++ cs), record_dec a (c, d))) as ->.
  { unfold record_dec. cbn. destruct d; by rewrite Hit. }
  rewrite Hit. specialize (IH (pre ++ [apply_dec c d])
    (pod_set_Containers pod ((pre ++ [apply_dec c d]) ++ cs)) (record_dec a (c, d)) Ha' eq_refl).
  rewrite length_app, Nat.add_1_r in IH. cbn zeta in IH. rewrite IH.
  generalize (decisions h qos b (S (length pre)) cs
    (pod_set_Containers pod ((pre ++ [apply_dec c d]) ++ cs))); intros ds. by rewrite <-!app_assoc.
Qed.

Lemma decision_inv h qos b pod i c r :
  decision h qos b pod i c = Some r →
  ∃ pol, eligible b c = Some pol ∧ r = final_resources h qos pol c ∧
    class_of h (set_container_resources pod i (new_resources pol c)) = qos.
Proof.
  unfold decision. destruct (eligible b c) as [pol|]; [|done]. case_decide; [|done].
  intros [= <-]. eauto.
Qed.

Lemma decisions_inv h qos b i cs pod k c r :
  cs !! k = Some c → decisions h qos b i cs pod !! k = Some (Some r) →
  ∃ pol, eligible b c = Some pol ∧ r = final_resources h qos pol c.
Proof.
  revert i pod k. induction cs as [|c' cs IH]; intros i pod [|k]; cbn; try done.
  - intros [= ->] [= Hd]. apply decision_inv in Hd as (pol & ? & ? & _). eauto.
  - apply IH.
Qed.
End decisions.

(** ** The QoS class of the boosted pod *)

Section qos_class.
Context `{QuantityLaws} `{SelectorLib} `{AnnotationJSON}.
Implicit Types (h : podCPUBoostHandler) (b : StartupCPUBoostImpl) (pod : Pod) (c : Container).

(** What the API server's defaulting and validation establish for a
    container before the webhook sees it, except that it accepts a zero
    request next to a positive limit. *)
Record defaulted c : Prop := {
  request_nonneg q : gm_get (Requests (c_Resources c)) ResourceCPU = Some q → (0 ≤ qval q)%Qc;
  limit_nonneg q : gm_get (Limits (c_Resources c)) ResourceCPU = Some q → (0 ≤ qval q)%Qc;
  limit_request q : gm_get (Limits (c_Resources c)) ResourceCPU = Some q → (0 < qval q)%Qc →
    ∃ q', gm_get (Requests (c_Resources c)) ResourceCPU = Some q' ∧ (0 < qval q')%Qc
}.

Definition policies_ok b : Prop :=
  ∀ name pol, impl_ResourcePolicy b name = Some pol → resource.policy_ok pol.

Lemma rl_Cpu_nonzero rl :
  QIsZero (rl_Cpu rl) = false → ∃ q, gm_get rl ResourceCPU = Some q ∧ qval q ≠ 0%Qc.
Proof.
  unfold rl_Cpu. rewrite QIsZero_val, bool_decide_eq_false.
  destruct (gm_get rl ResourceCPU) as [q|]; cbn; [eauto|]. by rewrite QuantityZero_val.
Qed.

Lemma Qc_nonneg_pos x : (0 ≤ x)%Qc → x ≠ 0%Qc → (0 < x)%Qc.
Proof. intros Hx Hne. apply Qcnot_le_lt. intros Hle. by destruct Hne; apply Qcle_antisym. Qed.

Lemma eligible_policy b c pol :
  eligible b c = Some pol →
  impl_ResourcePolicy b (c_Name c) = Some pol ∧ hasResourcesToIncrease c = true.
Proof.
  unfold eligible. destruct (resizeRequiresRestart _ _), (hasResourcesToIncrease c); done.
Qed.

(** A container whose CPU limit can be dropped keeps a positive request. *)
Lemma new_request_positive b c pol :
  policies_ok b → defaulted c → eligible b c = Some pol →
  QIsZero (rl_Cpu (Limits (new_resources pol c))) = false →
  (0 < pos_val (Requests (new_resources pol c)) ResourceCPU)%Qc.
Proof.
  intros Hpol [Hr Hl Hlr] (Hp & Hhas)%eligible_policy Hz.
  apply rl_Cpu_nonzero in Hz as (q' & Hq' & _). cbn in Hq'.
  rewrite resource.gm_get_cpu_alter, decide_True, fmap_Some in Hq' by done.
  destruct Hq' as (ql & Hql & _).
  assert (∃ qr, gm_get (Requests (c_Resources c)) ResourceCPU = Some qr ∧ (0 < qval qr)%Qc)
    as (qr & Hqr & Hpos).
  { destruct (decide (qval ql = 0%Qc)) as [Hzero|Hnz]; [|eauto using Qc_nonneg_pos].
    unfold hasResourcesToIncrease in Hhas. apply orb_true_iff in Hhas as [Hx|Hx].
    - apply negb_true_iff, rl_Cpu_nonzero in Hx as (qr & ? & ?). eauto using Qc_nonneg_pos.
    - apply negb_true_iff, rl_Cpu_nonzero in Hx as (q2 & ? & ?). congruence. }
  destruct (resource.policy_update_ge pol qr (Hpol _ _ Hp) (Hr _ Hqr)) as [Hge _].
  unfold pos_val. cbn. rewrite resource.gm_get_cpu_alter, decide_True, Hqr by done. cbn.
  assert (0 < qval (resource.request_update pol qr))%Qc by (by eapply Qclt_le_trans).
  by rewrite decide_True.
Qed.

(** Dropping the CPU limit of such a container does not change the class
    of a pod that is not guaranteed. *)
Lemma qos_spec_drop_limit rs1 rs2 r :
  (0 < pos_val (Requests r) ResourceCPU)%Qc →
  qos_spec (rs1 ++ r :: rs2) ≠ PodQOSGuaranteed →
  qos_spec (rs1 ++ {| Limits := gm_delete (Limits r) ResourceCPU; Requests := Requests r |} :: rs2) =
    qos_spec (rs1 ++ r :: rs2).
Proof.
  intros Hpos. set (r' := {| Limits := _; Requests := _ |}).
  assert (∀ x, Requests x = Requests r → ¬ no_resources (rs1 ++ x :: rs2)) as Hsome.
  { intros x Hx [_ Hall]%no_resources_spec%Forall_app. apply Forall_cons in Hall as [Hall _].
    apply Forall_supported in Hall as [[Hz _] _]. rewrite Hx in Hz. rewrite Hz in Hpos.
    by apply Qclt_not_eq in Hpos. }
  assert (¬ fully_limited (rs1 ++ r' :: rs2)) as Hnot.
  { intros [_ Hall]%Forall_app. apply Forall_cons in Hall as [Hall _].
    apply Forall_supported in Hall as [Hc _]. unfold pos_val, r' in Hc. cbn in Hc.
    rewrite gm_get_delete, decide_True in Hc by done. by apply Qclt_not_eq in Hc. }
  unfold qos_spec. rewrite !(bool_decide_eq_false_2 (no_resources _)) by (by apply Hsome).
  rewrite (bool_decide_eq_false_2 _ Hnot). cbn [andb].
  by destruct (bool_decide _ && bool_decide _).
Qed.

Lemma class_of_set h pod pre c cs r :
  pod_Containers pod = pre ++ c :: cs →
  class_of h (set_container_resources pod (length pre) r) =
    match podLevelResourcesEnabled h, pod_Resources pod with
    | true, Some r => qos_spec [r]
    | _, _ => qos_spec ((c_Resources <$> pre) ++ r :: (c_Resources <$> cs ++ pod_InitContainers pod))
    end.
Proof.
  intros Hp. unfold class_of, qos_sources. rewrite (set_container_at _ _ _ _ _ Hp). cbn.
  rewrite !fmap_app. cbn. rewrite <-app_assoc. by destruct (podLevelResourcesEnabled h), (pod_Resources pod).
Qed.

Lemma decision_class h qos b pod pre c cs r :
  policies_ok b → defaulted c → pod_Containers pod = pre ++ c :: cs →
  decision h qos b pod (length pre) c = Some r →
  class_of h (set_container_resources pod (length pre) r) = qos.
Proof.
  intros Hpol Hdef Hp (pol & Hel & -> & Hq)%decision_inv.
  unfold final_resources. destruct (QIsZero _) eqn:Hz; [done|].
  destruct (canRemoveLimit h qos) eqn:Hcan; [|done]. cbn [negb andb].
  rewrite !(class_of_set _ _ _ _ _ _ Hp) in *.
  pose proof (new_request_positive _ _ _ Hpol Hdef Hel Hz) as Hpos.
  assert (qos ≠ PodQOSGuaranteed) as Hng.
  { intros ->. unfold canRemoveLimit in Hcan. by destruct (removeLimits h). }
  destruct (podLevelResourcesEnabled h), (pod_Resources pod); try done;
    by rewrite qos_spec_drop_limit by congruence.
Qed.

Lemma decisions_class h qos b pre cs pod :
  policies_ok b → Forall defaulted cs → pod_Containers pod = pre ++ cs →
  class_of h pod = qos →
  class_of h (pod_set_Containers pod
    (pre ++ zip_with apply_dec cs (decisions h qos b (length pre) cs pod))) = qos.
Proof.
  intros Hpol Hdef. revert pre pod. induction Hdef as [|c cs Hc Hcs IH]; intros pre pod Hp Hq; cbn.
  { by rewrite <-Hp, pod_set_Containers_id. }
  set (d := decision h qos b pod (length pre) c).
  pose proof (iteration_pod pod pre c cs d Hp) as Hit.
  assert (class_of h (match d with
    | Some r => set_container_resources pod (length pre) r | None => pod end) = qos) as Hq'.
  { destruct d as [r|] eqn:Hd; [|done]. by eapply decision_class. }
  rewrite Hit in *. set (pod' := pod_set_Containers pod _) in *.
  specialize (IH (pre ++ [apply_dec c d]) pod' eq_refl Hq').
  rewrite length_app, Nat.add_1_r, <-app_assoc in IH. exact IH.
Qed.
End qos_class.

(** ** The annotation and the label *)

Section annotations.
Context `{QuantityLaws} `{SelectorLib} `{AnnotationJSONLaws}.
Implicit Types (h : podCPUBoostHandler) (b : StartupCPUBoostImpl) (pod : Pod) (c : Container).
Implicit Types l : list (Container * option ResourceRequirements).

(** One map of the annotation after the loop. *)
Definition fold_entries (sel : ResourceRequirements → GoMap Quantity) (m : GoMap string) l :
    GoMap string :=
  foldl (λ m cd, match cd.2 with
                 | Some _ => record_entry m (c_Name cd.1) (sel (c_Resources cd.1))
                 | None => m
                 end) m l.

Lemma foldl_record_requests a l :
  InitCPURequests (foldl record_dec a l) = fold_entries Requests (InitCPURequests a) l.
Proof. revert a. induction l as [|[c [r|]] l IH]; intros a; cbn; [done|apply IH..]. Qed.

Lemma foldl_record_limits a l :
  InitCPULimits (foldl record_dec a l) = fold_entries Limits (InitCPULimits a) l.
Proof. revert a. induction l as [|[c [r|]] l IH]; intros a; cbn; [done|apply IH..]. Qed.

Lemma gm_get_record_entry m name rl n :
  gm_get (record_entry m name rl) n =
    if decide (n = name)
    then match gm_get rl ResourceCPU with Some q => Some (QString q) | None => gm_get m n end
    else gm_get m n.
Proof.
  unfold record_entry. destruct (gm_get rl ResourceCPU); [|by case_decide].
  unfold gm_get, gm_map at 1. cbn. rewrite lookup_insert. repeat case_decide; congruence.
Qed.

Lemma fold_entries_other sel m l n :
  n ∉ (λ cd, c_Name cd.1) <$> l → gm_get (fold_entries sel m l) n = gm_get m n.
Proof.
  revert m. induction l as [|[c d] l IH]; intros m Hn; [done|].
  rewrite fmap_cons, not_elem_of_cons in Hn. cbn. unfold fold_entries in IH. rewrite IH by tauto.
  destruct d; [|done]. rewrite gm_get_record_entry. cbn. by rewrite decide_False by tauto.
Qed.

Lemma fold_entries_lookup sel m l k c d :
  NoDup ((λ cd, c_Name cd.1) <$> l) → l !! k = Some (c, d) → gm_get m (c_Name c) = None →
  gm_get (fold_entries sel m l) (c_Name c) =
    match d with
    | Some _ => QString <$> gm_get (sel (c_Resources c)) ResourceCPU
    | None => None
    end.
Proof.
  revert m k. induction l as [|[c' d'] l IH]; intros m [|k]; cbn; try done;
    rewrite NoDup_cons; intros [Hn Hnd] Hl Hm.
  - injection Hl as -> ->. fold (fold_entries sel). 
    transitivity (gm_get (match d with
      | Some _ => record_entry m (c_Name c) (sel (c_Resources c)) | None => m end) (c_Name c)).
    + by apply fold_entries_other.
    + destruct d; [|done]. rewrite gm_get_record_entry, decide_True, Hm by done.
      by destruct (gm_get (sel _) _).
  - apply (IH _ k Hnd Hl). destruct d' as [r|]; [|done].
    rewrite gm_get_record_entry, decide_False; [done|]. intros Heq. apply Hn. cbn. rewrite <-Heq.
    apply list_elem_of_fmap. exists (c, d). split; [done|]. by eapply list_elem_of_lookup_2.
Qed.

(** A boosted container leaves an entry in the annotation. *)
Lemma fold_entries_grows sel m l n v :
  gm_get m n = Some v → ∃ v', gm_get (fold_entries sel m l) n = Some v'.
Proof.
  revert m v. induction l as [|[c d] l IH]; intros m v Hm; cbn; [eauto|].
  destruct d; [|by eapply IH].
  destruct (gm_get (sel (c_Resources c)) ResourceCPU) as [q|] eqn:Hq.
  - destruct (decide (n = c_Name c)) as [Hn|Hn].
    + apply (IH _ (QString q)). by rewrite gm_get_record_entry, decide_True, Hq.
    + apply (IH _ v). by rewrite gm_get_record_entry, decide_False.
  - apply (IH _ v). rewrite gm_get_record_entry, Hq. by case_decide.
Qed.

Lemma gm_len_pos {V} (m : GoMap V) n v : gm_get m n = Some v → (0 < gm_len m)%nat.
Proof.
  unfold gm_get, gm_len. intros Hm. apply Nat.neq_0_lt_0. intros Hz%map_size_empty_inv.
  by rewrite Hz, lookup_empty in Hm.
Qed.

(** The annotation is non-empty exactly when a container was boosted. *)
Definition recorded (a : BoostPodAnnotation) : Prop :=
  (0 < gm_len (InitCPULimits a) ∨ 0 < gm_len (InitCPURequests a))%nat.

Lemma has_cpu_entry c :
  hasResourcesToIncrease c = true →
  is_Some (gm_get (Limits (c_Resources c)) ResourceCPU) ∨
  is_Some (gm_get (Requests (c_Resources c)) ResourceCPU).
Proof.
  intros [Hx|Hx]%orb_true_iff; apply negb_true_iff, rl_Cpu_nonzero in Hx as (q & Hq & _); eauto.
Qed.

Lemma fold_entries_boosted sel m l c r q :
  (c, Some r) ∈ l → gm_get (sel (c_Resources c)) ResourceCPU = Some q →
  ∃ v, gm_get (fold_entries sel m l) (c_Name c) = Some v.
Proof.
  intros Hin Hq. revert m. induction l as [|[c' d'] l IH]; intros m; [by apply not_elem_of_nil in Hin|].
  apply elem_of_cons in Hin as [[= <- <-]|Hin]; [|by apply IH]. cbn.
  apply (fold_entries_grows sel _ l _ (QString q)).
  rewrite gm_get_record_entry, decide_True by done. by rewrite Hq.
Qed.

Lemma recorded_iff now l :
  (∀ c r, (c, Some r) ∈ l → hasResourcesToIncrease c = true) →
  recorded (foldl record_dec (NewBoostAnnotation now) l) ↔ ∃ c r, (c, Some r) ∈ l.
Proof.
  intros Hhas. unfold recorded. rewrite foldl_record_requests, foldl_record_limits. cbn. split.
  - intros Hrec. destruct (decide (Forall (λ cd, cd.2 = None) l)) as [Hall|Hsome].
    + assert (∀ sel m, fold_entries sel m l = m) as Hid.
      { intros sel. clear Hhas Hrec. induction Hall as [|[c d] l Hd Hall IH]; intros m; [done|].
        cbn in *. subst d. apply IH. }
      rewrite !Hid in Hrec. unfold gm_len, gm_map in Hrec. cbn in Hrec. rewrite map_size_empty in Hrec. lia.
    + apply not_Forall_Exists in Hsome; [|apply _]. apply Exists_exists in Hsome as ([c d] & Hin & Hd).
      cbn in Hd. destruct d as [r|]; [eauto|done].
  - intros (c & r & Hin). destruct (has_cpu_entry c (Hhas _ _ Hin)) as [[q Hq]|[q Hq]].
    + left. destruct (fold_entries_boosted Limits (Some ∅) l c r q Hin Hq) as (v & Hv).
      by eapply gm_len_pos.
    + right. destruct (fold_entries_boosted Requests (Some ∅) l c r q Hin Hq) as (v & Hv).
      by eapply gm_len_pos.
Qed.
End annotations.

(** ** The whole mutation, and its inverse *)

Section mutation.
Context `{QuantityLaws} `{SelectorLib} `{AnnotationJSONLaws}.
Implicit Types (h : podCPUBoostHandler) (b : StartupCPUBoostImpl) (pod : Pod) (c : Container).

Definition pod_decisions h b pod : list (option ResourceRequirements) :=
  decisions h (class_of h pod) b 0 (pod_Containers pod) pod.

Definition boosted_containers h b pod : list Container :=
  zip_with apply_dec (pod_Containers pod) (pod_decisions h b pod).

Definition boost_annotation h (now : Z) b pod : BoostPodAnnotation :=
  foldl record_dec (NewBoostAnnotation now) (zip (pod_Containers pod) (pod_decisions h b pod)).

(** Some container is boosted. *)
Definition boosts h b pod : Prop := ∃ k r, pod_decisions h b pod !! k = Some (Some r).

Lemma elem_of_zip_decisions h b pod c d :
  (c, d) ∈ zip (pod_Containers pod) (pod_decisions h b pod) ↔
    ∃ k, pod_Containers pod !! k = Some c ∧ pod_decisions h b pod !! k = Some d.
Proof.
  rewrite list_elem_of_lookup. split; intros (k & Hk); exists k.
  - apply lookup_zip_with_Some in Hk as (? & ? & [= -> ->] & ? & ?). done.
  - apply lookup_zip_with_Some. naive_solver.
Qed.

Lemma boosts_recorded h now b pod : recorded (boost_annotation h now b pod) ↔ boosts h b pod.
Proof.
  unfold boost_annotation. rewrite recorded_iff.
  - unfold boosts. setoid_rewrite elem_of_zip_decisions. split.
    { intros (c & r & k & _ & Hk). by exists k, r. }
    intros (k & r & Hk). destruct (pod_Containers pod !! k) as [c|] eqn:Hc; [by exists c, r, k|].
    apply lookup_ge_None in Hc. apply lookup_lt_Some in Hk. unfold pod_decisions in Hk.
    rewrite decisions_length in Hk. lia.
  - intros c r (k & Hc & Hd)%elem_of_zip_decisions.
    eapply decisions_inv in Hd as (pol & Hel & _); [|done]. by apply eligible_policy in Hel as [_ ?].
Qed.

Lemma unboosted_containers h b pod : ¬ boosts h b pod → boosted_containers h b pod = pod_Containers pod.
Proof.
  intros Hno. unfold boosted_containers. apply list_eq. intros k.
  destruct (pod_Containers pod !! k) as [c|] eqn:Hc.
  - destruct (lookup_lt_is_Some_2 (pod_decisions h b pod) k) as [d Hd].
    { unfold pod_decisions. rewrite decisions_length. by eapply lookup_lt_Some. }
    rewrite lookup_zip_with, Hc, Hd. cbn. destruct d as [r|]; [|done]. destruct Hno. by exists k, r.
  - by rewrite lookup_zip_with, Hc.
Qed.

(** The mutation as a function: it never panics, leaves a pod without
    boosted containers as it is, and otherwise changes the containers and
    adds the annotation and the label. *)
Lemma boostContainerResources_spec h σ now b pod :
  (boosts h b pod ∧ ∃ json, annotation_Marshal (boost_annotation h now b pod) = inr json ∧
     boostContainerResources h σ now b pod =
       Done (pod_set_Meta (pod_set_Containers pod (boosted_containers h b pod))
         (Some (<[BoostLabelKey := b_name b]> (gm_map (pod_Labels pod))))
         (Some (<[BoostAnnotationKey := json]> (gm_map (pod_Annotations pod)))))) ∨
  (¬ boosts h b pod ∧ boostContainerResources h σ now b pod = Done pod).
Proof.
  unfold boostContainerResources. rewrite computePodQOS_spec. fold (class_of h pod).
  pose proof (boost_containers_spec h σ (class_of h pod) b [] (pod_Containers pod) pod
    (NewBoostAnnotation now)) as Hloop. cbn [length app] in Hloop. rewrite Hloop; [|by split; eexists|done].
  fold (pod_decisions h b pod). fold (boosted_containers h b pod). fold (boost_annotation h now b pod).
  cbn [mbind outcome_bind]. fold (recorded (boost_annotation h now b pod)).
  case_decide as Hrec; rewrite boosts_recorded in Hrec.
  - left. split; [done|]. unfold ToJSON.
    destruct (annotation_marshals (boost_annotation h now b pod)) as (json & Hjson).
    exists json. split; [done|]. by rewrite Hjson.
  - right. split; [done|]. by rewrite unboosted_containers, pod_set_Containers_id.
Qed.

(** ** Restoring what was changed *)

(** The CPU quantities of the containers were decoded from the API. *)
Definition decoded c : Prop :=
  ∀ q, gm_get (Requests (c_Resources c)) ResourceCPU = Some q ∨
       gm_get (Limits (c_Resources c)) ResourceCPU = Some q → from_api q.

Lemma gm_get_new_limits h qos pol c k :
  k ≠ ResourceCPU →
  gm_get (Limits (final_resources h qos pol c)) k = gm_get (Limits (c_Resources c)) k.
Proof.
  intros Hk. unfold final_resources. destruct (_ && _); cbn [Limits new_resources].
  - by rewrite gm_get_delete, decide_False, resource.gm_get_cpu_alter, decide_False by congruence.
  - by rewrite resource.gm_get_cpu_alter, decide_False.
Qed.

Lemma new_limits_absent h qos pol c :
  gm_get (Limits (c_Resources c)) ResourceCPU = None →
  gm_get (Limits (final_resources h qos pol c)) ResourceCPU = None.
Proof.
  intros Hn. unfold final_resources. destruct (_ && _); cbn [Limits new_resources].
  - by rewrite gm_get_delete, decide_True.
  - by rewrite resource.gm_get_cpu_alter, decide_True, Hn.
Qed.

Lemma new_requests h qos pol c :
  Requests (final_resources h qos pol c) =
    resource.cpu_alter (resource.request_update pol) (Requests (c_Resources c)).
Proof. unfold final_resources. by destruct (_ && _). Qed.

(** A map whose CPU entry changed and was recorded reads as before once
    the entry is restored. *)
Lemma restore_map_undoes (m : GoMap string) name rl rl' :
  (∀ k, k ≠ ResourceCPU → gm_get rl' k = gm_get rl k) →
  (gm_get rl ResourceCPU = None → gm_get rl' ResourceCPU = None) →
  (∀ q, gm_get rl ResourceCPU = Some q → from_api q) →
  gm_get m name = QString <$> gm_get rl ResourceCPU →
  parses m name ∧ rl_equiv (restore_map m name rl') rl.
Proof.
  intros Hother Habs Hapi Hm. unfold parses, restore_map. rewrite Hm.
  destruct (gm_get rl ResourceCPU) as [q|] eqn:Hq; cbn.
  - destruct (Hapi q eq_refl) as (s & Hs). apply QString_parses in Hs as (q' & Hp & Hv).
    split; [intros s' [= <-]; eauto|]. rewrite Hp. intros k.
    unfold gm_get, gm_map at 1. cbn. rewrite lookup_insert. case_decide as Hk; subst.
    + change (Some q' ≡ gm_get rl ResourceCPU). rewrite Hq. by constructor.
    + change (gm_get rl' k ≡ gm_get rl k). by rewrite Hother.
  - split; [done|]. intros k. destruct (decide (k = ResourceCPU)) as [->|Hk].
    + by rewrite Habs, Hq.
    + by rewrite Hother.
Qed.

Lemma annotation_lookup h now b pod k c d :
  NoDup (c_Name <$> pod_Containers pod) →
  pod_Containers pod !! k = Some c → pod_decisions h b pod !! k = Some d →
  let a := boost_annotation h now b pod in
  let entry rl := match d with Some _ => QString <$> gm_get rl ResourceCPU | None => None end in
  gm_get (InitCPURequests a) (c_Name c) = entry (Requests (c_Resources c)) ∧
  gm_get (InitCPULimits a) (c_Name c) = entry (Limits (c_Resources c)).
Proof.
  intros Hnd Hc Hd. unfold boost_annotation. rewrite foldl_record_requests, foldl_record_limits.
  assert (NoDup ((λ cd, c_Name cd.1) <$> zip (pod_Containers pod) (pod_decisions h b pod))) as Hnd'.
  { change (NoDup ((c_Name ∘ fst) <$> zip (pod_Containers pod) (pod_decisions h b pod))).
    rewrite list_fmap_compose, fst_zip; [done|]. unfold pod_decisions. by rewrite decisions_length. }
  assert (zip (pod_Containers pod) (pod_decisions h b pod) !! k = Some (c, d)) as Hk.
  { apply lookup_zip_with_Some. naive_solver. }
  split; by rewrite (fold_entries_lookup _ _ _ _ _ _ Hnd' Hk).
Qed.

Lemma restore_container h now b pod k c d a :
  NoDup (c_Name <$> pod_Containers pod) → decoded c →
  pod_Containers pod !! k = Some c → pod_decisions h b pod !! k = Some d →
  same_resources a (boost_annotation h now b pod) →
  restorable a (apply_dec c d) ∧ restore a (apply_dec c d) ≡ c.
Proof.
  intros Hnd Hdec Hc Hd [Hr Hl].
  destruct (annotation_lookup h now b pod k c d Hnd Hc Hd) as [Hreq Hlim].
  assert (gm_get (InitCPURequests a) (c_Name c) = gm_get (InitCPURequests (boost_annotation h now b pod)) (c_Name c)) as Er
    by (unfold gm_get; by rewrite Hr).
  assert (gm_get (InitCPULimits a) (c_Name c) = gm_get (InitCPULimits (boost_annotation h now b pod)) (c_Name c)) as El
    by (unfold gm_get; by rewrite Hl).
  rewrite Hreq in Er. rewrite Hlim in El. unfold restorable, restore. destruct d as [r|]; cbn.
  - eapply decisions_inv in Hd as (pol & Hel & ->); [|done].
    destruct (restore_map_undoes (InitCPURequests a) (c_Name c) (Requests (c_Resources c))
      (Requests (final_resources h (class_of h pod) pol c))) as [Hp1 He1]; try done.
    { intros k' Hk. by rewrite new_requests, resource.gm_get_cpu_alter, decide_False. }
    { intros Hn. by rewrite new_requests, resource.gm_get_cpu_alter, decide_True, Hn. }
    { intros q Hq. apply Hdec. by left. }
    destruct (restore_map_undoes (InitCPULimits a) (c_Name c) (Limits (c_Resources c))
      (Limits (final_resources h (class_of h pod) pol c))) as [Hp2 He2]; try done.
    { intros k' Hk. by apply gm_get_new_limits. }
    { apply new_limits_absent. }
    { intros q Hq. apply Hdec. by right. }
  - unfold parses, restore_map. rewrite Er, El. split; [by split; intros ?|]. by destruct c as [? []].
Qed.

Lemma restore_containers h now b pod a :
  NoDup (c_Name <$> pod_Containers pod) → Forall decoded (pod_Containers pod) →
  same_resources a (boost_annotation h now b pod) →
  Forall (restorable a) (boosted_containers h b pod) ∧
  restore a <$> boosted_containers h b pod ≡ pod_Containers pod.
Proof.
  intros Hnd Hdec Ha. unfold boosted_containers.
  assert (∀ k c', zip_with apply_dec (pod_Containers pod) (pod_decisions h b pod) !! k = Some c' →
    ∃ c, pod_Containers pod !! k = Some c ∧ restorable a c' ∧ restore a c' ≡ c) as Hk.
  { intros k c' (c & d & -> & Hc & Hd)%lookup_zip_with_Some. exists c. split; [done|].
    eapply restore_container; try done. by eapply Forall_lookup_1. }
  split.
  - apply Forall_lookup. intros k c' Hc'. apply Hk in Hc' as (? & _ & ? & _). done.
  - apply list_equiv_lookup. intros k. rewrite list_lookup_fmap.
    destruct (zip_with _ _ _ !! k) as [c'|] eqn:Hc'; cbn.
    + apply Hk in Hc' as (c & -> & _ & He). by constructor.
    + destruct (pod_Containers pod !! k) as [c|] eqn:Hc; [|done].
      destruct (lookup_lt_is_Some_2 (pod_decisions h b pod) k) as [d Hd].
      { unfold pod_decisions. rewrite decisions_length. by eapply lookup_lt_Some. }
      rewrite lookup_zip_with, Hc, Hd in Hc'. done.
Qed.
End mutation.

(** ** Properties *)

Section properties.
Context `{QuantityLaws} `{SelectorLib} `{AnnotationJSONLaws}.
Implicit Types (h : podCPUBoostHandler) (b : StartupCPUBoostImpl) (pod : Pod) (c : Container).

(** The annotation of a boosted pod restores its containers. *)
Lemma boosted_pod_revertible h σ now b pod pod' cur :
  NoDup (c_Name <$> pod_Containers pod) → Forall decoded (pod_Containers pod) →
  boosts h b pod → boostContainerResources h σ now b pod = Done pod' →
  pod_Containers cur = pod_Containers pod' →
  gm_get (pod_Annotations cur) BoostAnnotationKey = gm_get (pod_Annotations pod') BoostAnnotationKey →
  ∃ a, revertible cur a ∧ pod_Containers (restored a cur) ≡ pod_Containers pod.
Proof.
  intros Hnd Hdec Hb Hpod' Hcs Han.
  destruct (boostContainerResources_spec h σ now b pod) as [(_ & json & Hj & Hr)|[Hno _]]; [|done].
  rewrite Hpod' in Hr. injection Hr as ->. cbn in Hcs, Han. rewrite gm_get_insert in Han.
  destruct (annotation_roundtrip _ _ Hj) as (a & Ha & Hsame).
  destruct (restore_containers h now b pod a Hnd Hdec Hsame) as [Hall Heq]. exists a. split.
  - split; [unfold BoostAnnotationFromPod; by rewrite Han|]. by rewrite Hcs.
  - cbn. by rewrite Hcs.
Qed.

(** C19: reverting a pod undoes what the webhook did to it.  For a pod
    decoded from a request, with distinct container names and no boost
    label or annotation yet, the webhook returns a pod; either nothing
    changed or restoring that pod succeeds and gives back the original one:
    same containers with the same resource values, same labels, same
    annotations. *)
Theorem boost_revert_roundtrip h σ now b pod :
  NoDup (c_Name <$> pod_Containers pod) → Forall decoded (pod_Containers pod) →
  gm_get (pod_Labels pod) BoostLabelKey = None →
  gm_get (pod_Annotations pod) BoostAnnotationKey = None →
  ∃ pod', boostContainerResources h σ now b pod = Done pod' ∧
    (pod' = pod ∨
     ∃ pod'', RevertResourceBoost pod' = Done (None, pod'') ∧ pod'' ≡ pod).
Proof.
  intros Hnd Hdec Hlab Hann.
  destruct (boostContainerResources_spec h σ now b pod) as [(Hb & json & Hj & Hr)|[_ Hr]];
    eexists; (split; [exact Hr|]); [|by left].
  destruct (boosted_pod_revertible h σ now b pod _ _ Hnd Hdec Hb Hr eq_refl eq_refl) as (a & Hrev & Heq).
  right. unfold RevertResourceBoost. rewrite (revertBoostResources_ok _ _ Hrev).
  eexists. split; [reflexivity|]. 
  split; [done|done| | |exact Heq|done|done|done]; cbn [unlabelled pod_set_Meta pod_Labels pod_Annotations restored pod_set_Containers];
    rewrite gm_map_delete; by apply delete_insert_id.
Qed.

(** What it takes for container [c] at index [k] to be boosted; [cs'] are the
    containers the webhook returns. *)
Record qualifies h b pod (cs' : list Container) (k : nat) c (pol : resource.ContainerPolicy) : Prop := {
  ql_policy : impl_ResourcePolicy b (c_Name c) = Some pol;
  ql_resize : resizeRequiresRestart c ResourceCPU = false;
  ql_resources : hasResourcesToIncrease c = true;
  ql_class : class_of h (pod_set_Containers pod
    (take k cs' ++ c_set_Resources c (new_resources pol c) :: drop (S k) (pod_Containers pod))) = class_of h pod
}.

Lemma eligible_spec b c pol :
  eligible b c = Some pol ↔
    impl_ResourcePolicy b (c_Name c) = Some pol ∧ resizeRequiresRestart c ResourceCPU = false ∧
    hasResourcesToIncrease c = true.
Proof.
  unfold eligible. destruct (resizeRequiresRestart _ _), (hasResourcesToIncrease c); cbn; naive_solver.
Qed.

(** The decision for a container, with the ones before it already taken. *)
Lemma decisions_lookup h qos b pre cs pod k c :
  pod_Containers pod = pre ++ cs → cs !! k = Some c →
  let ds := decisions h qos b (length pre) cs pod in
  ds !! k = Some (
    match eligible b c with
    | Some pol =>
        if decide (class_of h (pod_set_Containers pod (pre ++ take k (zip_with apply_dec cs ds) ++
             c_set_Resources c (new_resources pol c) :: drop (S k) cs)) = qos)
        then Some (final_resources h qos pol c) else None
    | None => None
    end).
Proof.
  revert pre pod k. induction cs as [|c0 cs IH]; intros pre pod k Hp Hk; [done|]. destruct k as [|k].
  - injection Hk as ->. cbn. unfold decision. destruct (eligible b c) as [pol|]; [|done].
    by rewrite (set_container_at _ _ _ _ _ Hp), drop_0.
  - cbn in Hk |- *. set (d := decision h qos b pod (length pre) c0).
    pose proof (iteration_pod pod pre c0 cs d Hp) as Hit. rewrite Hit.
    specialize (IH (pre ++ [apply_dec c0 d]) (pod_set_Containers pod ((pre ++ [apply_dec c0 d]) ++ cs)) k
      eq_refl Hk). rewrite length_app, Nat.add_1_r in IH. cbn zeta in IH.
    etrans; [exact IH|]. destruct (eligible b c) as [pol|]; [|done]. by rewrite <-!app_assoc.
Qed.

Lemma pod_decision h b pod k c :
  pod_Containers pod !! k = Some c →
  pod_decisions h b pod !! k = Some (
    match eligible b c with
    | Some pol =>
        if decide (class_of h (pod_set_Containers pod (take k (boosted_containers h b pod) ++
             c_set_Resources c (new_resources pol c) :: drop (S k) (pod_Containers pod))) = class_of h pod)
        then Some (final_resources h (class_of h pod) pol c) else None
    | None => None
    end).
Proof. intros Hk. exact (decisions_lookup h (class_of h pod) b [] (pod_Containers pod) pod k c eq_refl Hk). Qed.

Lemma qualifies_decision h b pod k c pol :
  pod_Containers pod !! k = Some c → qualifies h b pod (boosted_containers h b pod) k c pol →
  pod_decisions h b pod !! k = Some (Some (final_resources h (class_of h pod) pol c)).
Proof.
  intros Hk [Hp Hr Hs Hc]. rewrite (pod_decision _ _ _ _ c Hk).
  assert (eligible b c = Some pol) as -> by (by apply eligible_spec). by rewrite decide_True.
Qed.

Lemma decision_qualifies h b pod k c r :
  pod_Containers pod !! k = Some c → pod_decisions h b pod !! k = Some (Some r) →
  ∃ pol, qualifies h b pod (boosted_containers h b pod) k c pol ∧
    r = final_resources h (class_of h pod) pol c.
Proof.
  intros Hk. rewrite (pod_decision _ _ _ _ c Hk).
  destruct (eligible b c) as [pol|] eqn:Hel; [|done]. case_decide as Hc; [|done].
  intros [= <-]. exists pol. split; [|done]. by apply eligible_spec in Hel as (? & ? & ?).
Qed.

Lemma boosted_containers_length h b pod :
  length (boosted_containers h b pod) = length (pod_Containers pod).
Proof.
  unfold boosted_containers, pod_decisions. rewrite length_zip_with, decisions_length. lia.
Qed.

Lemma boosted_container h b pod k c c' :
  pod_Containers pod !! k = Some c → boosted_containers h b pod !! k = Some c' →
  (∀ pol, qualifies h b pod (boosted_containers h b pod) k c pol →
     c' = c_set_Resources c (final_resources h (class_of h pod) pol c)) ∧
  ((∀ pol, ¬ qualifies h b pod (boosted_containers h b pod) k c pol) → c' = c).
Proof.
  intros Hk. set (cs' := boosted_containers h b pod). unfold cs' at 1, boosted_containers at 1.
  intros (c1 & d & -> & Hc1 & Hd)%lookup_zip_with_Some. rewrite Hk in Hc1. injection Hc1 as <-. split.
  - intros pol Hq. rewrite (qualifies_decision _ _ _ _ c pol Hk Hq) in Hd. by injection Hd as <-.
  - intros Hno. destruct d as [r|]; [|done].
    destruct (decision_qualifies h b pod k c r Hk Hd) as (pol & Hq & _). by destruct (Hno pol).
Qed.

Lemma boostContainerResources_boosted h σ now b pod :
  ∃ pod', boostContainerResources h σ now b pod = Done pod' ∧
    pod_Containers pod' = boosted_containers h b pod ∧
    (boosts h b pod → gm_get (pod_Labels pod') BoostLabelKey = Some (b_name b) ∧
       is_Some (gm_get (pod_Annotations pod') BoostAnnotationKey)) ∧
    (¬ boosts h b pod → pod' = pod).
Proof.
  destruct (boostContainerResources_spec h σ now b pod) as [(Hb & json & _ & Hr)|[Hno Hr]];
    eexists; (split; [exact Hr|]).
  - split_and!; [done|split; [apply gm_get_insert|exists json; apply gm_get_insert]|done].
  - split_and!; [by rewrite unboosted_containers|done|done].
Qed.

(** C4: the webhook never changes the QoS class of a pod whose containers
    have a positive CPU request wherever they have a positive CPU limit:
    the class computed for the pod it returns is the class of the pod it
    was given, also when it removes CPU limits. *)
Theorem boost_preserves_qos h σ now b pod σ1 σ2 :
  policies_ok b → Forall defaulted (pod_Containers pod) →
  ∃ pod', boostContainerResources h σ now b pod = Done pod' ∧
    computePodQOS σ1 pod' (podLevelResourcesEnabled h) =
    computePodQOS σ2 pod (podLevelResourcesEnabled h).
Proof.
  intros Hpol Hdef.
  destruct (boostContainerResources_spec h σ now b pod) as [(_ & json & _ & Hr)|[_ Hr]];
    eexists; (split; [exact Hr|]); rewrite !computePodQOS_spec; [|done].
  exact (decisions_class h _ b [] (pod_Containers pod) pod Hpol Hdef eq_refl eq_refl).
Qed.

(** C20: which containers the webhook changes and to what.  It returns for
    every pod and keeps its containers in order.  A container qualifies if
    the boost has a policy for it, its resize policy for CPU is not a
    restart, it has a CPU request or limit, and the pod would keep its QoS
    class with the resources of the policy, the containers before it as the
    webhook returns them and the ones after it as they are ([qualifies]).
    Every container that qualifies gets the resources of its policy, without
    a CPU limit if limits are to be removed and the pod is not guaranteed;
    every other container stays as it is.  The pod gets the boost's label
    and annotation if some container qualifies, and is returned unchanged if
    none does. *)
Theorem boost_container_resources_spec h σ now b pod :
  ∃ pod', boostContainerResources h σ now b pod = Done pod' ∧
    length (pod_Containers pod') = length (pod_Containers pod) ∧
    (∀ k c c', pod_Containers pod !! k = Some c → pod_Containers pod' !! k = Some c' →
       (∀ pol, qualifies h b pod (pod_Containers pod') k c pol →
          c' = c_set_Resources c (final_resources h (class_of h pod) pol c)) ∧
       ((∀ pol, ¬ qualifies h b pod (pod_Containers pod') k c pol) → c' = c)) ∧
    (∀ k c pol, pod_Containers pod !! k = Some c → qualifies h b pod (pod_Containers pod') k c pol →
       gm_get (pod_Labels pod') BoostLabelKey = Some (b_name b) ∧
       is_Some (gm_get (pod_Annotations pod') BoostAnnotationKey)) ∧
    ((∀ k c pol, pod_Containers pod !! k = Some c → ¬ qualifies h b pod (pod_Containers pod') k c pol) →
       pod' = pod).
Proof.
  destruct (boostContainerResources_boosted h σ now b pod) as (pod' & Hr & Hcs & Hmark & Hsame).
  exists pod'. rewrite Hcs. split_and!; [done|apply boosted_containers_length| | |].
  - apply boosted_container.
  - intros k c pol Hk Hq. apply Hmark. exists k. by eexists; apply (qualifies_decision _ _ _ _ c).
  - intros Hno. apply Hsame. intros (k & r & Hd).
    destruct (lookup_lt_is_Some_2 (pod_Containers pod) k) as [c Hc].
    { unfold pod_decisions in Hd. apply lookup_lt_Some in Hd. by rewrite decisions_length in Hd. }
    destruct (decision_qualifies h b pod k c r Hc Hd) as (pol & Hq & _). by eapply Hno.
Qed.
End properties.

Section end_to_end.
Context `{QuantityLaws} `{SelectorLib} `{AnnotationJSONLaws} `{!PatchLib} `{MetricVecLib} `{!PodClient}.
Context `{!PodClientBasics} `{!PodClientLaws}.

Lemma boosted_pod_restored h σ now bi pod pod' σ' b p s s' srv :
  NoDup (c_Name <$> pod_Containers pod) → Forall decoded (pod_Containers pod) →
  boosts h bi pod → boostContainerResources h σ now bi pod = Done pod' →
  let cur := s_pods s p in
  pod_Containers cur = pod_Containers pod' →
  gm_get (pod_Annotations cur) BoostAnnotationKey = gm_get (pod_Annotations pod') BoostAnnotationKey →
  w_pods (s_world s) !! key cur = Some srv → srv ≡ cur →
  RevertResources σ' b p s = Done (None, s') →
  ∃ stored, w_pods (s_world s') = <[key cur := stored]> (w_pods (s_world s)) ∧
    pod_Containers stored ≡ pod_Containers pod ∧
    gm_get (pod_Labels stored) BoostLabelKey = None ∧
    gm_get (pod_Annotations stored) BoostAnnotationKey = None ∧
    b_pods (s_boosts s' b) !! pod_Name cur = None.
Proof.
  intros Hnd Hdec Hb Hpod' cur Hcs Han Hsrv Heq Hr.
  destruct (boosted_pod_revertible h σ now bi pod pod' cur Hnd Hdec Hb Hpod' Hcs Han) as (a & Hrev & Hres).
  assert (Hs := Hr). unfold RevertResources in Hs.
  destruct (revertResources_stores _ _ _ _ _ _ _ Hrev Hsrv Heq Hs) as [(stored & Hst & Hw) Hgone].
  exists stored. split; [done|]. split; [by rewrite Hst|].
  destruct Hst as [_ _ Hl Ha _ _ _ _]. unfold gm_get. rewrite Hl, Ha. cbn.
  rewrite !gm_map_delete, !lookup_delete_eq. done.
Qed.

(** C3: from admission to reversion.  Let the webhook boost some container
    of a pod, and let a boost later track a copy of the stored pod that
    still has the containers and the annotation the webhook gave it.  If
    [RevertResources] then reports success, the pod the API server stores
    has the containers of the original pod, resources included, and
    neither the label nor the annotation of the boost. *)
Theorem boosted_pod_is_restored h σ now bi pod pod' σ' b p s s' srv :
  NoDup (c_Name <$> pod_Containers pod) → Forall decoded (pod_Containers pod) →
  boosts h bi pod → boostContainerResources h σ now bi pod = Done pod' →
  let cur := s_pods s p in
  pod_Containers cur = pod_Containers pod' →
  gm_get (pod_Annotations cur) BoostAnnotationKey = gm_get (pod_Annotations pod') BoostAnnotationKey →
  w_pods (s_world s) !! key cur = Some srv → srv ≡ cur →
  RevertResources σ' b p s = Done (None, s') →
  ∃ stored, w_pods (s_world s') = <[key cur := stored]> (w_pods (s_world s)) ∧
    pod_Containers stored ≡ pod_Containers pod ∧
    gm_get (pod_Labels stored) BoostLabelKey = None ∧
    gm_get (pod_Annotations stored) BoostAnnotationKey = None ∧
    b_pods (s_boosts s' b) !! pod_Name cur = None.
Proof. apply boosted_pod_restored. Qed.
End end_to_end.

Section handling.
Context `{QuantityLaws} `{SelectorLib} `{AnnotationJSONLaws} `{!PatchLib}.
Context `{!PodBoosts} `{!PodBoostsLaws} `{!AdmissionLib}.

(** Every request gets a response.  A request that does not decode is
    refused as a bad request; a pod without a matching boost is allowed as
    it is; otherwise the patch leads from the object of the request to the
    pod boosted by a boost of its own namespace whose selector matches it,
    an encoding failure being the only internal error. *)
Theorem handle_responses h σ now req :
  ∃ resp, Handle h σ now req = Done resp ∧
    match Decode req with
    | inl err => resp = Errored StatusBadRequest err
    | inr pod =>
        match GetCPUBoostForPod pod with
        | None => resp = Allowed "no boost matched"
        | Some b =>
            b_namespace b = pod_Namespace pod ∧ impl_Matches b pod = true ∧
            ∃ pod', boostContainerResources h σ now b pod = Done pod' ∧
              match pod_Marshal pod' with
              | inl err => resp = Errored StatusInternalServerError err
              | inr current => resp = PatchResponseFromRaw (req_Raw req) current
              end
        end
    end.
Proof.
  unfold Handle. destruct (Decode req) as [err|pod]; [eauto|].
  destruct (GetCPUBoostForPod pod) as [b|] eqn:Hb; [|eauto].
  apply boost_for_pod in Hb as [Hns Hm].
  destruct (boostContainerResources_spec h σ now b pod) as [(_ & json & _ & Hr)|[_ Hr]];
    rewrite Hr; cbn [mbind outcome_bind]; destruct (pod_Marshal _) as [err|j] eqn:Hj;
    eexists; (split; [reflexivity|]); split_and!; try done; eexists; (split; [reflexivity|]);
    by rewrite Hj.
Qed.
End handling.

(** ** Witnesses *)

Module witness.
#[local] Existing Instances ConcreteQuantity.lib ConcreteQuantity.laws ConcreteSelector.lib
  ConcreteJSON.json ConcreteJSON.json_laws ConcreteVec.lib json_patches server server_basics server_laws.
Import ConcreteQuantity Boost.witness.

Definition orders : nat → nat → RangeOrder := λ _ _, order_fwd.

Definition container (name : string) (request limit : Z) : Container := {|
  c_Name := name; c_ResizePolicy := [];
  c_Resources := {| Limits := Some {[ResourceCPU := milli limit]};
                    Requests := Some {[ResourceCPU := milli request]} |}
|}.

Definition pod_of (cs : list Container) : Pod := {|
  pod_Name := "web-1"; pod_Namespace := "demo"; pod_Labels := None; pod_Annotations := None;
  pod_Containers := cs; pod_InitContainers := []; pod_Resources := None; pod_Conditions := []
|}.

(** A boost that doubles the CPU of every container. *)
Definition doubling : StartupCPUBoostImpl := {|
  b_name := "boost"; b_namespace := "demo"; b_selector := ("app", ["web"]);
  b_durationPolicies := ∅;
  b_resourcePolicies := {[v1alpha1.ContainerPolicyWildcard :=
    resource.PolicyPercentage {| resource.percentage := 100 |}]};
  b_pods := ∅; b_stats := {| ActiveContainerBoosts := 0; TotalContainerBoosts := 0 |};
  b_legacyRevertMode := false
|}.

Definition removing : podCPUBoostHandler :=
  {| removeLimits := true; podLevelResourcesEnabled := false |}.

Definition two_containers : Pod := pod_of [container "app" 500 1000; container "proxy" 100 200].

Lemma container_decoded name r l : decoded (container name r l).
Proof. intros q [Hq|Hq]; injection Hq as <-; apply milli_from_api. Defined.

Lemma container_defaulted name r l : 0 < r → 0 < l → defaulted (container name r l).
Proof.
  intros Hr Hl. assert (∀ n, 0 < n → (0 < qval (milli n))%Qc) as Hpos.
  { intros n Hn. unfold Qclt, qval. cbn [dval laws AsDec lib fst milli this Q2Qc]. rewrite !Qred_correct.
    unfold Qlt. cbn. lia. }
  split; intros q Hq; injection Hq as <-; [apply Qclt_le_weak, (Hpos r Hr)|apply Qclt_le_weak, (Hpos l Hl)|].
  intros _. exists (milli r). split; [reflexivity|exact (Hpos r Hr)].
Defined.

Lemma doubling_ok : policies_ok doubling.
Proof.
  intros name pol. unfold impl_ResourcePolicy. cbn [b_resourcePolicies doubling].
  destruct (decide (name = v1alpha1.ContainerPolicyWildcard)) as [->|Hn].
  - rewrite lookup_singleton_eq. intros [= <-]. cbn. lia.
  - rewrite lookup_singleton_ne by done. rewrite lookup_singleton_eq. intros [= <-]. cbn. lia.
Defined.

Lemma two_containers_decoded : Forall decoded (pod_Containers two_containers).
Proof. repeat constructor; apply container_decoded. Defined.

Example boost_revert_roundtrip_witness :
  ∃ pod', boostContainerResources removing orders 7 doubling two_containers = Done pod' ∧
    (pod' = two_containers ∨
     ∃ pod'', RevertResourceBoost pod' = Done (None, pod'') ∧ pod'' ≡ two_containers).
Proof.
  apply (boost_revert_roundtrip removing orders 7 doubling two_containers).
  - repeat constructor; set_solver.
  - apply two_containers_decoded.
  - reflexivity.
  - reflexivity.
Defined.

Example boost_preserves_qos_witness :
  ∃ pod', boostContainerResources removing orders 7 doubling two_containers = Done pod' ∧
    computePodQOS (λ _, order_rev) pod' false = PodQOSBurstable.
Proof.
  destruct (boost_preserves_qos removing orders 7 doubling two_containers
    (λ _, order_rev) (λ _, order_fwd)) as (pod' & Hr & Hq).
  - apply doubling_ok.
  - repeat constructor; apply container_defaulted; lia.
  - exists pod'. split; [exact Hr|]. cbn [podLevelResourcesEnabled removing] in Hq. rewrite Hq.
    vm_compute; reflexivity.
Defined.

Lemma boosts_test h b pod :
  existsb (λ d, match d with Some _ => true | None => false end) (pod_decisions h b pod) = true →
  boosts h b pod.
Proof.
  intros ([r|] & Hin & Hd)%existsb_exists; [|done].
  apply list_elem_of_In, list_elem_of_lookup in Hin as (k & Hk). by exists k, r.
Qed.

Definition by_100 : resource.ContainerPolicy := resource.PolicyPercentage {| resource.percentage := 100 |}.

(** The container, boosted by 100% and without a CPU limit. *)
Definition boosted_container_of (c : Container) : Container :=
  c_set_Resources c (final_resources removing PodQOSBurstable by_100 c).

Lemma two_containers_class : class_of removing two_containers = PodQOSBurstable.
Proof. vm_compute. reflexivity. Defined.

Example boost_container_resources_spec_witness :
  ∃ pod', boostContainerResources removing orders 7 doubling two_containers = Done pod' ∧
    pod_Containers pod' =
      [boosted_container_of (container "app" 500 1000); boosted_container_of (container "proxy" 100 200)] ∧
    gm_get (pod_Labels pod') BoostLabelKey = Some "boost".
Proof.
  destruct (boost_container_resources_spec removing orders 7 doubling two_containers)
    as (pod' & Hr & Hlen & Hcs & Hl & _). exists pod'. split; [exact Hr|].
  destruct (pod_Containers pod') as [|c0 [|c1 [|]]]; try discriminate Hlen.
  assert (qualifies removing doubling two_containers [c0; c1] 0 (container "app" 500 1000) by_100) as Hq0.
  { split; vm_compute; reflexivity. }
  destruct (Hcs 0%nat (container "app" 500 1000) c0 eq_refl eq_refl) as [Hc0 _].
  specialize (Hc0 by_100 Hq0). rewrite two_containers_class in Hc0. subst c0.
  assert (qualifies removing doubling two_containers [boosted_container_of (container "app" 500 1000); c1] 1
    (container "proxy" 100 200) by_100) as Hq1.
  { split; vm_compute; reflexivity. }
  destruct (Hcs 1%nat (container "proxy" 100 200) c1 eq_refl eq_refl) as [Hc1 _].
  specialize (Hc1 by_100 Hq1). rewrite two_containers_class in Hc1. subst c1.
  split; [reflexivity|]. exact (proj1 (Hl 0%nat (container "app" 500 1000) by_100 eq_refl Hq0)).
Defined.
(** The pod as the webhook returns it, stored and tracked. *)
Definition boosted_two : Pod :=
  match boostContainerResources removing orders 7 doubling two_containers with
  | Done pod => pod
  | Panic _ => two_containers
  end.

Lemma boosted_two_result : boostContainerResources removing orders 7 doubling two_containers = Done boosted_two.
Proof.
  unfold boosted_two.
  destruct (boostContainerResources_spec removing orders 7 doubling two_containers)
    as [(_ & json & _ & ->)|[_ ->]]; reflexivity.
Defined.

Definition stored_state : GoState := {|
  s_pods := λ _, boosted_two; s_nextPod := 1%nat; s_boosts := λ _, a_boost; s_nextBoost := 1%nat;
  s_metrics := s_metrics (state_with []);
  s_world := {| stored := {[("demo", "web-1") := boosted_two]}; refusals := [] |}
|}.

Example boosted_pod_is_restored_witness :
  let s' := result_state (RevertResources order_fwd 0%nat 0%nat stored_state) stored_state in
  ∃ stored, w_pods (s_world s') = <[key boosted_two := stored]> (w_pods (s_world stored_state)) ∧
    pod_Containers stored ≡ pod_Containers two_containers.
Proof.
  intros s'.
  destruct (boosted_pod_is_restored removing orders 7 doubling two_containers boosted_two
    order_fwd 0%nat 0%nat stored_state s' boosted_two) as (stored & Hw & Hcs & _).
  - repeat constructor; set_solver.
  - apply two_containers_decoded.
  - apply boosts_test. vm_compute; reflexivity.
  - apply boosted_two_result.
  - reflexivity.
  - reflexivity.
  - change (stored (s_world stored_state) !! ("demo", "web-1") = Some boosted_two).
    apply lookup_singleton_eq.
  - reflexivity.
  - apply succeeds_result. vm_compute; reflexivity.
  - exists stored. split; [exact Hw|exact Hcs].
Defined.

(** Removing CPU limits is not covered by the QoS check.  A container
    that explicitly requests no CPU and limits it to one is burstable; the
    handler finds that raising the limit keeps the class, then drops the
    limit, and the pod it returns is best-effort. *)
Theorem limit_removal_can_change_qos :
  let pod := pod_of [container "app" 0 1000] in
  computePodQOS (λ _, order_fwd) pod false = PodQOSBurstable ∧
  ∃ pod', boostContainerResources removing orders 7 doubling pod = Done pod' ∧
    computePodQOS (λ _, order_fwd) pod' false = PodQOSBestEffort.
Proof.
  intros pod. split; [vm_compute; reflexivity|].
  destruct (boostContainerResources_spec removing orders 7 doubling pod)
    as [(_ & json & _ & Hr)|[Hno _]]; [|exfalso; apply Hno, boosts_test; vm_compute; reflexivity].
  eexists. split; [exact Hr|]. rewrite computePodQOS_spec.
  change (qos_spec (c_Resources <$> boosted_containers removing doubling pod ++ []) = PodQOSBestEffort).
  vm_compute; reflexivity.
Qed.

(** A manager that has one boost, and requests that hold their pod. *)
#[local] Instance one_boost : PodBoosts := {|
  GetCPUBoostForPod := λ pod,
    if decide (pod_Namespace pod = "demo" ∧ impl_Matches doubling pod = true)
    then Some doubling else None
|}.

#[local] Instance one_boost_laws : PodBoostsLaws.
Proof.
  split. intros pod b. cbn [GetCPUBoostForPod one_boost]. case_decide as Hd; [|done].
  intros [= <-]. by destruct Hd as [-> ?].
Qed.

#[local] Instance admission : AdmissionLib :=
  {| Request := Pod; req_Raw := Doc : Pod → @Bytes _ json_patches; Decode := inr |}.

Definition labelled_pod : Pod :=
  pod_set_Meta two_containers (Some {["app" := "web"]}) None.

Example handle_responses_witness :
  ∃ resp, Handle removing orders 7 (labelled_pod : @Request _ _ admission) = Done resp ∧
    ∃ current, resp = PatchResponseFromRaw (Doc labelled_pod) current.
Proof.
  destruct (handle_responses removing orders 7 (labelled_pod : @Request _ _ admission))
    as (resp & Hr & Hspec).
  exists resp. split; [exact Hr|]. cbn [Decode admission] in Hspec.
  assert (GetCPUBoostForPod labelled_pod = Some doubling) as Hget by reflexivity.
  rewrite Hget in Hspec. destruct Hspec as (_ & _ & pod' & _ & Hresp).
  exists (Doc pod'). exact Hresp.
Defined.
End witness.
