(* ===== verification/Manager.v ===== *)
(** * The boost manager (internal/boost/manager.go)

    [managerImpl] keeps the registered boosts, the ones with a fixed
    duration among them, and the pods that no boost matches.  Every exported
    method holds the manager's lock and is one step; Sections takes the calls
    apart for concurrency, and the check loop is in its own file.  The manager's state sits on top of the store of boosts
    and pods: the collections hold pointers. *)

From stdpp Require Import functions.
From S2P Require Import Prelude Quantities Kube Api Duration Resource BoostPod Metrics Client Boost.
From S2P Require Import Namespaced Qos BoostServer PodWebhook ConcreteServer.

Definition errStartupCPUBoostAlreadyExists : error := "startupCPUBoost already exists".
Definition DefaultManagerCheckInterval : Z := 5 * 1000000000.
Definition DefaultMaxGoroutines : nat := 10.

(** What the runtime chooses during a call: the iteration orders of maps
    and the readings of the clock, numbered by use. *)
Record Runtime : Type := {
  rt_order : nat → RangeOrder;
  rt_now : nat → Z
}.

(** The choices left after the first [n]. *)
Definition rt_after (n : nat) (rt : Runtime) : Runtime :=
  {| rt_order := λ i, rt_order rt (n + i)%nat; rt_now := λ i, rt_now rt (n + i)%nat |}.

Section manager.
Context `{QuantityLib} `{SelectorLib} `{AnnotationJSON} `{!PatchLib} `{MetricVecLib} `{!PodClient}.

Record managerImpl : Type := {
  m_isRunning : bool;
  m_client : bool;                       (* client != nil *)
  m_reconciler : bool;                   (* reconciler != nil *)
  m_checkInterval : Z;
  m_maxGoroutines : nat;
  m_timedBoosts : gmap string (gmap string BoostRef);
  m_regularBoosts : gmap string (gmap string BoostRef);
  m_orphanedPods : gmap string (gmap string PodRef);
  m_go : GoState
}.

Definition NewManagerWithTicker (client : bool) (s : GoState) : managerImpl := {|
  m_isRunning := false; m_client := client; m_reconciler := false;
  m_checkInterval := DefaultManagerCheckInterval; m_maxGoroutines := DefaultMaxGoroutines;
  m_timedBoosts := newNamespacedObjects; m_regularBoosts := newNamespacedObjects;
  m_orphanedPods := newNamespacedObjects; m_go := s
|}.

Definition m_set_go (s : GoState) (m : managerImpl) : managerImpl := {|
  m_isRunning := m_isRunning m; m_client := m_client m; m_reconciler := m_reconciler m;
  m_checkInterval := m_checkInterval m; m_maxGoroutines := m_maxGoroutines m;
  m_timedBoosts := m_timedBoosts m; m_regularBoosts := m_regularBoosts m;
  m_orphanedPods := m_orphanedPods m; m_go := s
|}.

Definition m_set_timed (t : gmap string (gmap string BoostRef)) (m : managerImpl) : managerImpl := {|
  m_isRunning := m_isRunning m; m_client := m_client m; m_reconciler := m_reconciler m;
  m_checkInterval := m_checkInterval m; m_maxGoroutines := m_maxGoroutines m;
  m_timedBoosts := t; m_regularBoosts := m_regularBoosts m;
  m_orphanedPods := m_orphanedPods m; m_go := m_go m
|}.

Definition m_set_regular (r : gmap string (gmap string BoostRef)) (m : managerImpl) : managerImpl := {|
  m_isRunning := m_isRunning m; m_client := m_client m; m_reconciler := m_reconciler m;
  m_checkInterval := m_checkInterval m; m_maxGoroutines := m_maxGoroutines m;
  m_timedBoosts := m_timedBoosts m; m_regularBoosts := r;
  m_orphanedPods := m_orphanedPods m; m_go := m_go m
|}.

Definition m_set_orphaned (o : gmap string (gmap string PodRef)) (m : managerImpl) : managerImpl := {|
  m_isRunning := m_isRunning m; m_client := m_client m; m_reconciler := m_reconciler m;
  m_checkInterval := m_checkInterval m; m_maxGoroutines := m_maxGoroutines m;
  m_timedBoosts := m_timedBoosts m; m_regularBoosts := m_regularBoosts m;
  m_orphanedPods := o; m_go := m_go m
|}.

Definition setRunning (isRunning : bool) (m : managerImpl) : managerImpl := {|
  m_isRunning := isRunning; m_client := m_client m; m_reconciler := m_reconciler m;
  m_checkInterval := m_checkInterval m; m_maxGoroutines := m_maxGoroutines m;
  m_timedBoosts := m_timedBoosts m; m_regularBoosts := m_regularBoosts m;
  m_orphanedPods := m_orphanedPods m; m_go := m_go m
|}.

Definition SetStartupCPUBoostReconciler (reconciler : bool) (m : managerImpl) : managerImpl := {|
  m_isRunning := m_isRunning m; m_client := m_client m; m_reconciler := reconciler;
  m_checkInterval := m_checkInterval m; m_maxGoroutines := m_maxGoroutines m;
  m_timedBoosts := m_timedBoosts m; m_regularBoosts := m_regularBoosts m;
  m_orphanedPods := m_orphanedPods m; m_go := m_go m
|}.

Definition IsRunning (m : managerImpl) : bool := m_isRunning m.

#[local] Abbreviation G := (M GoState).
#[local] Abbreviation MM := (M managerImpl).

(** A method of a boost or of the metrics, called by the manager. *)
Definition lift {A} (f : G A) : MM A := λ m,
  match f (m_go m) with
  | Done (a, s) => Done (a, m_set_go s m)
  | Panic msg => Panic msg
  end.

Definition metric (f : Metrics → Metrics) : G unit :=
  modify (λ s, set_metrics (f (s_metrics s)) s).

(** ** Looking up *)

Definition GetRegularCPUBoost (name namespace : string) (m : managerImpl) : option BoostRef :=
  Get name namespace (m_regularBoosts m).

(** The first boost of the namespace, in the order of the range, that
    matches. *)
Definition getMatchingBoost (σ : RangeOrder) (pod : Pod) (m : managerImpl) : option BoostRef :=
  find (λ b, impl_Matches (s_boosts (m_go m) b) pod)
    (List σ (pod_Namespace pod) (m_regularBoosts m)).

Definition GetCPUBoostForPod_ref (σ : RangeOrder) (pod : Pod) (m : managerImpl) : option BoostRef :=
  getMatchingBoost σ pod m.

(** ** Adopting pods *)

(** The loop over the orphaned pods: the errors and the adopted pods. *)
Fixpoint map_orphans (rt : Runtime) (b : BoostRef) (pods : list PodRef) (errs : list error)
    (mapped : list PodRef) : G (list error * list PodRef) :=
  match pods with
  | [] => ret (errs, mapped)
  | p :: pods =>
      let! matches := Matches b p in
      if matches : bool then
        let! err := UpsertPod (rt_order rt 0) (rt_order rt 1) (rt_now rt 0) b p in
        match err with
        | Some err => map_orphans (rt_after 2 rt) b pods (errs ++ [err]) mapped
        | None => map_orphans (rt_after 2 rt) b pods errs (mapped ++ [p])
        end
      else map_orphans (rt_after 2 rt) b pods errs mapped
  end.

Definition delete_orphan (p : PodRef) : MM unit := modify (λ m,
  let pod := s_pods (m_go m) p in
  m_set_orphaned (Delete (pod_Name pod) (pod_Namespace pod) (m_orphanedPods m)) m).

Fixpoint delete_orphans (pods : list PodRef) : MM unit :=
  match pods with
  | [] => ret tt
  | p :: pods => do! delete_orphan p in delete_orphans pods
  end.

Definition mapOrphanedPods (rt : Runtime) (b : BoostRef) : MM (option error) :=
  let! namespace := lift (Namespace b) in
  let! namespaceOrphanedPods := gets (λ m, List (rt_order rt 0) namespace (m_orphanedPods m)) in
  let! (errs, mappedOrphanedPods) := lift (map_orphans (rt_after 1 rt) b namespaceOrphanedPods [] []) in
  do! delete_orphans mappedOrphanedPods in
  ret (errors_Join errs).

(** [&podList.Items[i]]: the listed pod behind a new pointer. *)
Definition alloc_pod (pod : Pod) : G PodRef := λ s, Done (s_nextPod s, new_pod pod s).

Fixpoint sync_pods (rt : Runtime) (b : BoostRef) (items : list Pod) (errs : list error) :
    G (list error) :=
  match items with
  | [] => ret errs
  | pod :: items =>
      let! tracked := BoostPod b (pod_Name pod) in
      match tracked with
      | Some _ => sync_pods (rt_after 2 rt) b items errs
      | None =>
          let! p := alloc_pod pod in
          let! err := UpsertPod (rt_order rt 0) (rt_order rt 1) (rt_now rt 0) b p in
          match err with
          | Some err =>
              sync_pods (rt_after 2 rt) b items
                (errs ++ ["failed to sync pod " +:+ pod_Name pod +:+ ": " +:+ err])
          | None => sync_pods (rt_after 2 rt) b items errs
          end
      end
  end.

Definition syncBoostPods (rt : Runtime) (b : BoostRef) : MM (option error) :=
  let! hasClient := gets m_client in
  if negb hasClient then ret None else
  let! namespace := lift (Namespace b) in
  let! name := lift (Name b) in
  let! listed := gets (λ m, client_ListPods (s_world (m_go m)) namespace BoostLabelKey name) in
  match listed with
  | inl err => ret (Some ("failed to list pods for boost " +:+ namespace +:+ "/" +:+ name +:+ ": " +:+ err))
  | inr items =>
      if decide (length items = 0%nat) then ret None else
      let! errs := lift (sync_pods rt b items []) in
      ret (errors_Join errs)
  end.

(** The errors of the two adoptions are only logged.  [rt] serves the
    first one, [rt'] the second. *)
Definition postProcessNewBoost (rt rt' : Runtime) (b : BoostRef) : MM unit :=
  let! policies := lift (DurationPolicies b) in
  do! (match policies !! duration.FixedDurationPolicyName with
       | Some _ =>
           let! name := lift (Name b) in
           let! namespace := lift (Namespace b) in
           modify (λ m, m_set_timed (Put name namespace b (m_timedBoosts m)) m)
       | None => ret tt
       end) in
  let! _ := mapOrphanedPods rt b in
  let! _ := syncBoostPods rt' b in
  ret tt.

(** ** The exported methods *)

(** [boost] is an interface value: [None] is the nil interface, whose
    first method call panics. *)
Definition AddRegularCPUBoost (rt rt' : Runtime) (boost : option BoostRef) : MM (option error) :=
  match boost with
  | None => panic "invalid memory address or nil pointer dereference"
  | Some b =>
      let! name := lift (Name b) in
      let! namespace := lift (Namespace b) in
      let! existing := gets (λ m, Get name namespace (m_regularBoosts m)) in
      match existing with
      | Some _ => ret (Some errStartupCPUBoostAlreadyExists)
      | None =>
          do! modify (λ m, m_set_regular (Put name namespace b (m_regularBoosts m)) m) in
          do! lift (metric (NewBoostConfiguration namespace)) in
          do! postProcessNewBoost rt rt' b in
          ret None
      end
  end.

Definition DeleteRegularCPUBoost (namespace name : string) : MM unit :=
  do! modify (λ m, m_set_regular (Delete name namespace (m_regularBoosts m)) m) in
  do! modify (λ m, m_set_timed (Delete name namespace (m_timedBoosts m)) m) in
  lift (metric (DeleteBoostConfiguration namespace)).

Definition UpdateRegularCPUBoost (rt rt' : Runtime) (spec : v1alpha1.StartupCPUBoost) :
    MM (option error) :=
  let! existing := gets (λ m, Get (v1alpha1.om_Name (v1alpha1.b_Meta spec))
    (v1alpha1.om_Namespace (v1alpha1.b_Meta spec)) (m_regularBoosts m)) in
  match existing with
  | None => ret None
  | Some b =>
      let! err := lift (UpdateFromSpec b spec) in
      match err with
      | Some err => ret (Some err)
      | None => do! postProcessNewBoost rt rt' b in ret None
      end
  end.

Definition Manager_UpsertPod (rt : Runtime) (p : PodRef) : MM (option BoostRef * option error) :=
  let! pod := lift (deref_pod p) in
  let! boost := gets (getMatchingBoost (rt_order rt 0) pod) in
  match boost with
  | Some b =>
      let! err := lift (UpsertPod (rt_order rt 1) (rt_order rt 2) (rt_now rt 0) b p) in
      match err with
      | None => do! delete_orphan p in ret (Some b, None)
      | Some err => ret (Some b, Some err)
      end
  | None =>
      do! modify (λ m, m_set_orphaned
            (Put (pod_Name pod) (pod_Namespace pod) p (m_orphanedPods m)) m) in
      ret (None, None)
  end.

Definition Manager_DeletePod (rt : Runtime) (p : PodRef) : MM (option BoostRef * option error) :=
  let! pod := lift (deref_pod p) in
  let! boost := gets (getMatchingBoost (rt_order rt 0) pod) in
  match boost with
  | Some b =>
      let! err := lift (DeletePod (rt_order rt 1) b p) in
      ret (Some b, err)
  | None =>
      do! delete_orphan p in
      ret (None, None)
  end.
End manager.

(** ** What the methods of one boost keep *)

Section keeping.
Context `{QuantityLib} `{SelectorLib} `{AnnotationJSON} `{!PatchLib} `{MetricVecLib} `{!PodClient}.
Context `{!PodClientBasics}.
Implicit Types (s : GoState) (b : BoostRef) (p : PodRef).

(** The pods of a boost are tracked under their names. *)
Definition tracked_ok s b : Prop :=
  ∀ n p, b_pods (s_boosts s b) !! n = Some p → pod_Name (s_pods s p) = n ∧ (p < s_nextPod s)%nat.

Record keeps b s s' : Prop := {
  keeps_other b' : b' ≠ b → s_boosts s' b' = s_boosts s b';
  keeps_identity : same_identity (s_boosts s b) (s_boosts s' b);
  keeps_nextPod : (s_nextPod s ≤ s_nextPod s')%nat;
  keeps_nextBoost : s_nextBoost s' = s_nextBoost s;
  keeps_gauge : boostConfigurations (s_metrics s') = boostConfigurations (s_metrics s);
  keeps_key p : (p < s_nextPod s)%nat → same_key (s_pods s p) (s_pods s' p);
  keeps_tracked : tracked_ok s b → tracked_ok s' b
}.

#[global] Instance keeps_preorder b : PreOrder (keeps b).
Proof.
  split; [by intros s|].
  intros s1 s2 s3 [Ho Hi Hn ? ? Hk Ht] [Ho' Hi' Hn' ? ? Hk' Ht']. split; try congruence; try tauto.
  - intros b' Hb'. by rewrite Ho', Ho.
  - unfold same_identity in *. naive_solver congruence.
  - lia.
  - intros p Hp. destruct (Hk p Hp), (Hk' p ltac:(lia)). split; congruence.
Qed.

Lemma keeps_identity_all b s s' b' : keeps b s s' → same_identity (s_boosts s b') (s_boosts s' b').
Proof.
  intros Hk. destruct (decide (b' = b)) as [->|Hb]; [apply (keeps_identity _ _ _ Hk)|].
  by rewrite (keeps_other _ _ _ Hk).
Qed.

Lemma keeps_tracked_all b s s' b' : keeps b s s' → tracked_ok s b' → tracked_ok s' b'.
Proof.
  intros Hk Ht. destruct (decide (b' = b)) as [->|Hb]; [by apply (keeps_tracked _ _ _ Hk)|].
  intros n p. rewrite (keeps_other _ _ _ Hk) by done. intros [Hn Hp]%Ht.
  destruct (keeps_key _ _ _ Hk p Hp) as [-> _]. pose proof (keeps_nextPod _ _ _ Hk). split; [done|lia].
Qed.

(** From the effect of a method on the tracked pods. *)
Lemma keeps_of_effect b pods added s s' :
  frame s s' → boost_effect b pods added s s' →
  (tracked_ok s b → ∀ n p, pods !! n = Some p → pod_Name (s_pods s p) = n ∧ (p < s_nextPod s)%nat) →
  keeps b s s'.
Proof.
  intros [Hnp ? ? Hk] [Ho ? Hp ?] Hok. split; try done; [by rewrite Hnp|].
  intros Ht n p. rewrite Hp. intros [Hn Hlt]%Hok; [|done]. destruct (Hk p) as [-> _].
  by rewrite Hnp.
Qed.

Lemma tracked_insert s b p n q :
  (p < s_nextPod s)%nat → tracked_ok s b →
  <[pod_Name (s_pods s p) := p]> (b_pods (s_boosts s b)) !! n = Some q →
  pod_Name (s_pods s q) = n ∧ (q < s_nextPod s)%nat.
Proof. intros Hp Ht [[<- <-]|[_ Hq]]%lookup_insert_Some; [done|by apply Ht]. Qed.

Lemma tracked_delete s b k n q :
  tracked_ok s b → delete k (b_pods (s_boosts s b)) !! n = Some q →
  pod_Name (s_pods s q) = n ∧ (q < s_nextPod s)%nat.
Proof. intros Ht [_ Hq]%lookup_delete_Some. by apply Ht. Qed.

Lemma UpsertPod_keeps σ σ' now b p s :
  (p < s_nextPod s)%nat →
  ∃ err s', UpsertPod σ σ' now b p s = Done (err, s') ∧ keeps b s s' ∧
    (∀ p', p' ≠ p → s_pods s' p' = s_pods s p').
Proof.
  intros Hp. destruct (UpsertPod_cases σ σ' now b p s) as (err & s' & Hu & Ho & Hc).
  exists err, s'. split; [done|]. split; [|done]. apply UpsertPod_frame in Hu.
  destruct (condition_met _ _ _), err;
    repeat match goal with Hx : _ ∧ _ |- _ => destruct Hx end; try done;
    (eapply keeps_of_effect; [done|done|]); intros Ht n q Hq;
    first [by eapply tracked_insert|by eapply tracked_delete].
Qed.

Lemma revertResources_keeps σ b p s :
  ∃ err s', revertResources σ b p s = Done (err, s') ∧ keeps b s s'.
Proof.
  destruct (revertResources_cases σ b p s) as (err & s' & Hr & Hc). exists err, s'. split; [done|].
  apply revertResources_frame in Hr. destruct err as [e|].
  - apply (touches_effect _ b) in Hc. by eapply keeps_of_effect.
  - destruct Hc as (He & _). eapply keeps_of_effect; [done|done|].
    intros Ht n q. by apply tracked_delete.
Qed.

Lemma DeletePod_keeps σ b p s :
  ∃ s', DeletePod σ b p s = Done (None, s') ∧ keeps b s s' ∧ s_pods s' = s_pods s ∧
    b_pods (s_boosts s' b) = delete (pod_Name (s_pods s p)) (b_pods (s_boosts s b)).
Proof.
  destruct (DeletePod_cases σ b p s) as (s' & Hd & Hp & _ & He & _). exists s'.
  split_and!; [done| |done|apply (effect_pods _ _ _ _ _ He)].
  eapply keeps_of_effect; [by eapply DeletePod_frame|done|]. intros Ht n q. by apply tracked_delete.
Qed.

Lemma alloc_keeps b pod s : keeps b s (new_pod pod s).
Proof.
  assert (∀ p, (p < s_nextPod s)%nat → s_pods (new_pod pod s) p = s_pods s p) as Hold.
  { intros p Hp. cbn. apply fn_lookup_insert_ne. lia. }
  split; try done.
  - cbn. lia.
  - intros p Hp. by rewrite Hold.
  - intros Ht n p Hn. apply Ht in Hn as [Hn Hlt]. rewrite Hold by done. split; [done|]. cbn. lia.
Qed.

(** ** The adoption loops *)

Lemma map_orphans_keeps rt b pods errs mapped s :
  Forall (λ p, (p < s_nextPod s)%nat) pods →
  ∃ errs' mapped' s', map_orphans rt b pods errs mapped s = Done ((errs', mapped'), s') ∧
    keeps b s s' ∧ s_nextPod s' = s_nextPod s ∧
    (∀ p, p ∉ pods → s_pods s' p = s_pods s p) ∧
    (∃ new, mapped' = mapped ++ new ∧ new ⊆ pods).
Proof.
  revert rt errs mapped s. induction pods as [|p pods IH]; intros rt errs mapped s Hall.
  { exists errs, mapped, s. split_and!; try done. exists []. by rewrite app_nil_r. }
  apply Forall_cons in Hall as [Hp Hall]. cbn [map_orphans]. unfold Matches. go_unfold.
  destruct (impl_Matches _ _).
  - destruct (UpsertPod_keeps (rt_order rt 0) (rt_order rt 1) (rt_now rt 0) b p s Hp)
      as (err & s1 & Hu & Hk & Ho). rewrite Hu.
    assert (s_nextPod s1 = s_nextPod s) as Hn by (exact (frame_nextPod _ _ (UpsertPod_frame _ _ _ _ _ _ _ _ Hu))).
    rewrite <-Hn in Hall.
    destruct err as [e|].
    + destruct (IH (rt_after 2 rt) (errs ++ [e]) mapped s1 Hall)
        as (errs' & mapped' & s' & Hm & Hk' & Hn' & Ho' & new & Hnew & Hsub).
      exists errs', mapped', s'. split_and!; [done|by etrans|congruence| |].
      * intros q Hq. rewrite not_elem_of_cons in Hq. rewrite Ho' by tauto. apply Ho. tauto.
      * exists new. set_solver.
    + destruct (IH (rt_after 2 rt) errs (mapped ++ [p]) s1 Hall)
        as (errs' & mapped' & s' & Hm & Hk' & Hn' & Ho' & new & Hnew & Hsub).
      exists errs', mapped', s'. split_and!; [done|by etrans|congruence| |].
      * intros q Hq. rewrite not_elem_of_cons in Hq. rewrite Ho' by tauto. apply Ho. tauto.
      * exists (p :: new). rewrite Hnew, <-app_assoc. set_solver.
  - destruct (IH (rt_after 2 rt) errs mapped s Hall)
      as (errs' & mapped' & s' & Hm & Hk' & Hn' & Ho' & new & Hnew & Hsub).
    exists errs', mapped', s'. split_and!; [done|done|done| |].
    * intros q Hq. rewrite not_elem_of_cons in Hq. apply Ho'. tauto.
    * exists new. set_solver.
Qed.

Lemma sync_pods_keeps rt b items errs s :
  ∃ errs' s', sync_pods rt b items errs s = Done (errs', s') ∧ keeps b s s'.
Proof.
  revert rt errs s. induction items as [|pod items IH]; intros rt errs s; [by eexists _, _|].
  cbn [sync_pods]. unfold BoostPod, alloc_pod. go_unfold.
  destruct (b_pods (s_boosts s b) !! pod_Name pod); [apply IH|].
  assert (s_nextPod s < s_nextPod (new_pod pod s))%nat as Hlt by (cbn; lia).
  destruct (UpsertPod_keeps (rt_order rt 0) (rt_order rt 1) (rt_now rt 0) b (s_nextPod s)
    (new_pod pod s) Hlt) as (err & s1 & Hu & Hk & _). rewrite Hu.
  assert (keeps b s s1) as Hk1 by (etrans; [apply alloc_keeps|exact Hk]).
  destruct err as [e|].
  - destruct (IH (rt_after 2 rt) (errs ++ ["failed to sync pod " +:+ pod_Name pod +:+ ": " +:+ e]) s1)
      as (errs' & s' & Hs & Hk'). exists errs', s'. split; [done|by etrans].
  - destruct (IH (rt_after 2 rt) errs s1) as (errs' & s' & Hs & Hk').
    exists errs', s'. split; [done|by etrans].
Qed.
End keeping.

(** ** The operations of the manager *)

Abbreviation G := (M GoState).
Abbreviation MM := (M managerImpl).

Section operations.
Context `{QuantityLib} `{SelectorLib} `{AnnotationJSON} `{!PatchLib} `{MetricVecLib} `{!PodClient}.
Context `{!PodClientBasics}.
Implicit Types (m : managerImpl) (b : BoostRef) (p : PodRef).

Lemma bind_lift {A B} (f : G A) (k : A → MM B) m a s :
  f (m_go m) = Done (a, s) → bind (lift f) k m = k a (m_set_go s m).
Proof. intros Hf. unfold bind, lift. by rewrite Hf. Qed.

Lemma m_set_go_id m : m_set_go (m_go m) m = m.
Proof. by destruct m. Qed.

(** Reading the store or the manager. *)
Lemma bind_lift_gets {A B} (f : GoState → A) (k : A → MM B) m :
  bind (lift (gets f)) k m = k (f (m_go m)) m.
Proof. unfold bind, lift, gets. by rewrite m_set_go_id. Qed.

Lemma bind_gets {A B} (f : managerImpl → A) (k : A → MM B) m : bind (gets f) k m = k (f m) m.
Proof. done. Qed.

Lemma bind_modify {B} (f : managerImpl → managerImpl) (k : unit → MM B) m :
  bind (modify f) k m = k tt (f m).
Proof. done. Qed.

(** Everything of the manager but the orphans and the store. *)
Record same_registry m m' : Prop := {
  sr_running : m_isRunning m' = m_isRunning m;
  sr_client : m_client m' = m_client m;
  sr_reconciler : m_reconciler m' = m_reconciler m;
  sr_max : m_maxGoroutines m' = m_maxGoroutines m;
  sr_timed : m_timedBoosts m' = m_timedBoosts m;
  sr_regular : m_regularBoosts m' = m_regularBoosts m
}.

#[global] Instance same_registry_preorder : PreOrder same_registry.
Proof. split; [by intros m|]. intros m1 m2 m3 [] []; split; congruence. Qed.

Definition orphan_key m p : string * string :=
  (pod_Name (s_pods (m_go m) p), pod_Namespace (s_pods (m_go m) p)).

Lemma delete_orphans_spec ps m :
  ∃ m', delete_orphans ps m = Done (tt, m') ∧ same_registry m m' ∧ m_go m' = m_go m ∧
    ∀ n ns, Get n ns (m_orphanedPods m') =
      if decide ((n, ns) ∈ orphan_key m <$> ps) then None else Get n ns (m_orphanedPods m).
Proof.
  revert m. induction ps as [|p ps IH]; intros m.
  { by exists m. }
  cbn [delete_orphans]. unfold delete_orphan. go_unfold. set (m1 := m_set_orphaned _ m).
  destruct (IH m1) as (m' & -> & Hr & Hgo & Hget). exists m'. split_and!; [done|by etrans; [|exact Hr]|done|].
  intros n ns. rewrite Hget. cbn. rewrite Get_Delete.
  change (orphan_key m1) with (orphan_key m).
  destruct (decide ((n, ns) ∈ orphan_key m <$> ps)) as [Hin|Hin].
  - rewrite decide_True; [done|]. by right.
  - case_decide as Hk.
    + rewrite decide_True; [done|]. destruct Hk as [<- <-]. left.
    + rewrite decide_False; [done|]. rewrite not_elem_of_cons. split; [|done].
      intros [= -> ->]. by apply Hk.
Qed.

(** Orphans are filed under their key. *)
Definition orphans_ok m : Prop :=
  ∀ n ns p, Get n ns (m_orphanedPods m) = Some p →
    orphan_key m p = (n, ns) ∧ (p < s_nextPod (m_go m))%nat.

(** Adopting pods: the registry is kept, orphans can only become fewer. *)
Record adopts b m m' : Prop := {
  adopts_registry : same_registry m m';
  adopts_keeps : keeps b (m_go m) (m_go m');
  adopts_orphans n ns p :
    Get n ns (m_orphanedPods m') = Some p → Get n ns (m_orphanedPods m) = Some p;
  adopts_elsewhere n ns : ns ≠ b_namespace (s_boosts (m_go m) b) →
    Get n ns (m_orphanedPods m') = Get n ns (m_orphanedPods m)
}.

Lemma adopts_trans b m m' m'' : adopts b m m' → adopts b m' m'' → adopts b m m''.
Proof.
  intros [? Hk Ho He] [? Hk' Ho' He']. split; [by etrans|by etrans|eauto|].
  intros n ns Hns. rewrite He', He; [done|done|].
  destruct (keeps_identity _ _ _ Hk) as (_ & -> & _). done.
Qed.

Lemma adopts_orphans_ok b m m' : adopts b m m' → orphans_ok m → orphans_ok m'.
Proof.
  intros [_ Hk Ho _] Hok n ns p [Hkey Hp]%Ho%Hok. unfold orphan_key in *.
  destruct (keeps_key _ _ _ Hk p Hp) as [-> ->]. pose proof (keeps_nextPod _ _ _ Hk). split; [done|lia].
Qed.

Lemma orphans_list_alloc σ ns m :
  orphans_ok m → Forall (λ p, (p < s_nextPod (m_go m))%nat) (List σ ns (m_orphanedPods m)).
Proof.
  intros Hok. apply Forall_forall. intros p (n & Hn)%elem_of_List. by apply Hok in Hn as [_ ?].
Qed.

Lemma mapOrphanedPods_adopts rt b m :
  orphans_ok m → ∃ err m', mapOrphanedPods rt b m = Done (err, m') ∧ adopts b m m'.
Proof.
  intros Hok. unfold mapOrphanedPods, Namespace. rewrite bind_lift_gets, bind_gets.
  set (ps := List _ _ _).
  destruct (map_orphans_keeps (rt_after 1 rt) b ps [] [] (m_go m)) as (errs & mapped & s1 & Hm & Hk & _ & _ & new & Hnew & Hsub).
  { by apply orphans_list_alloc. }
  rewrite (bind_lift _ _ _ _ _ Hm). cbn beta match.
  destruct (delete_orphans_spec mapped (m_set_go s1 m)) as (m2 & Hd & Hr & Hgo & Hget).
  rewrite (bind_Done _ _ _ _ _ Hd). eexists _, _. split; [reflexivity|]. split.
  - by etrans; [|exact Hr].
  - by rewrite Hgo.
  - intros n ns p. rewrite Hget. cbn. by case_decide.
  - intros n ns Hns. rewrite Hget. rewrite decide_False; [done|].
    intros (q & Hq & Hin)%list_elem_of_fmap. rewrite Hnew in Hin. apply Hsub in Hin.
    apply elem_of_List in Hin as (n' & Hin). apply Hok in Hin as [Hkey Hlt].
    unfold orphan_key in *. cbn in Hq. destruct (keeps_key _ _ _ Hk q Hlt) as [Hqn Hqs].
    apply Hns. injection Hq as _ ->. injection Hkey as _ Hkey. by rewrite Hqs.
Qed.

Lemma syncBoostPods_adopts rt b m :
  ∃ err m', syncBoostPods rt b m = Done (err, m') ∧ adopts b m m'.
Proof.
  unfold syncBoostPods, Namespace, Name. rewrite bind_gets.
  destruct (m_client m); cbn [negb]; [|by eexists _, _].
  rewrite !bind_lift_gets, bind_gets.
  destruct (client_ListPods _ _ _ _) as [e|items]; [by eexists _, _|].
  case_decide; [by eexists _, _|].
  destruct (sync_pods_keeps rt b items [] (m_go m)) as (errs & s & Hs & Hk).
  rewrite (bind_lift _ _ _ _ _ Hs). by eexists _, _.
Qed.

(** The timed boosts after a boost was processed. *)
Definition timed_after b m : gmap string (gmap string BoostRef) :=
  let i := s_boosts (m_go m) b in
  match b_durationPolicies i !! duration.FixedDurationPolicyName with
  | Some _ => Put (b_name i) (b_namespace i) b (m_timedBoosts m)
  | None => m_timedBoosts m
  end.

Lemma postProcessNewBoost_spec rt rt' b m :
  orphans_ok m →
  ∃ m', postProcessNewBoost rt rt' b m = Done (tt, m') ∧ adopts b (m_set_timed (timed_after b m) m) m'.
Proof.
  intros Hok. unfold postProcessNewBoost, DurationPolicies, Name, Namespace. rewrite bind_lift_gets.
  set (m1 := m_set_timed (timed_after b m) m).
  assert (orphans_ok m1) as Hok1 by done.
  assert (∀ k : unit → MM unit, bind (match b_durationPolicies (s_boosts (m_go m) b) !!
      duration.FixedDurationPolicyName with
    | Some _ =>
        let! name := lift (gets (λ s, b_name (s_boosts s b))) in
        let! namespace := lift (gets (λ s, b_namespace (s_boosts s b))) in
        modify (λ m, m_set_timed (Put name namespace b (m_timedBoosts m)) m)
    | None => ret tt
    end) k m = k tt m1) as Hif.
  { intros k. unfold m1, timed_after. destruct (_ !! _).
    - unfold bind at 1. rewrite !bind_lift_gets. done.
    - unfold bind, ret. by destruct m. }
  rewrite Hif.
  destruct (mapOrphanedPods_adopts rt b m1 Hok1) as (e1 & m2 & Hm & Ha2).
  rewrite (bind_Done _ _ _ _ _ Hm).
  destruct (syncBoostPods_adopts rt' b m2) as (e2 & m3 & Hs & Ha3).
  rewrite (bind_Done _ _ _ _ _ Hs). exists m3. split; [done|]. by eapply adopts_trans.
Qed.

(** ** The invariant *)

(** For every boost, or for every boost but one that is being processed. *)
Record mgr_inv_for (P : BoostRef → Prop) m : Prop := {
  (** boosts are registered under their own name and namespace *)
  inv_key n ns b : Get n ns (m_regularBoosts m) = Some b →
    b_name (s_boosts (m_go m) b) = n ∧ b_namespace (s_boosts (m_go m) b) = ns ∧
    (b < s_nextBoost (m_go m))%nat;
  (** a timed boost is registered, and every boost with a fixed duration
      is timed *)
  inv_timed n ns b : Get n ns (m_timedBoosts m) = Some b → Get n ns (m_regularBoosts m) = Some b;
  inv_fixed n ns b : P b → Get n ns (m_regularBoosts m) = Some b →
    is_Some (b_durationPolicies (s_boosts (m_go m) b) !! duration.FixedDurationPolicyName) →
    Get n ns (m_timedBoosts m) = Some b;
  inv_orphans : orphans_ok m;
  inv_tracked b : (b < s_nextBoost (m_go m))%nat → tracked_ok (m_go m) b
}.

Definition mgr_inv : managerImpl → Prop := mgr_inv_for (λ _, True).

Lemma inv_go m b s :
  mgr_inv m → keeps b (m_go m) s → mgr_inv (m_set_go s m).
Proof.
  intros [Hkey Ht Hf Ho Htr] Hk. split; cbn.
  - intros n ns b' (Hn & Hns & Hb)%Hkey. rewrite (keeps_nextBoost _ _ _ Hk).
    destruct (keeps_identity_all _ _ _ b' Hk) as (-> & -> & _). done.
  - done.
  - intros n ns b' HP Hg. destruct (keeps_identity_all _ _ _ b' Hk) as (_ & _ & _ & -> & _). by apply Hf.
  - intros n ns p [Hkp Hp]%Ho. unfold orphan_key in *. cbn.
    destruct (keeps_key _ _ _ Hk p Hp) as [-> ->]. pose proof (keeps_nextPod _ _ _ Hk). split; [done|lia].
  - intros b'. rewrite (keeps_nextBoost _ _ _ Hk). intros Hb'%Htr. by eapply keeps_tracked_all.
Qed.

Lemma inv_adopts b m m' : mgr_inv m → adopts b m m' → mgr_inv m'.
Proof.
  intros Hinv Ha. pose proof (adopts_orphans_ok _ _ _ Ha (inv_orphans _ _ Hinv)) as Ho'.
  destruct Ha as [[_ _ _ _ Hti Hre] Hk _ _].
  destruct (inv_go _ _ _ Hinv Hk) as [Hkey Ht Hf _ Htr]. cbn in *.
  by split; rewrite ?Hti, ?Hre.
Qed.

Lemma inv_timed_after b m :
  mgr_inv_for (λ b', b' ≠ b) m → (∃ n ns, Get n ns (m_regularBoosts m) = Some b) →
  mgr_inv (m_set_timed (timed_after b m) m).
Proof.
  intros [Hkey Ht Hf Ho Htr] (n0 & ns0 & Hreg). destruct (Hkey _ _ _ Hreg) as (Hn & Hns & _).
  split; cbn; try done.
  - intros n ns b'. unfold timed_after. destruct (_ !! _); [|apply Ht]. rewrite Get_Put.
    case_decide as Hd; [|apply Ht]. destruct Hd as [<- <-]. intros [= <-]. by rewrite Hn, Hns.
  - intros n ns b' _ Hg Hs. unfold timed_after.
    destruct (decide (b' = b)) as [->|Hb].
    + destruct (Hkey _ _ _ Hg) as (-> & -> & _). destruct Hs as [pol ->].
      rewrite Get_Put. by rewrite decide_True.
    + destruct (b_durationPolicies (s_boosts (m_go m) b) !! _); [|by apply Hf].
      rewrite Get_Put. case_decide as Hd; [|by apply Hf].
      destruct Hd as [<- <-]. rewrite Hn, Hns, Hreg in Hg. congruence.
Qed.

Lemma inv_weaken P m : mgr_inv m → mgr_inv_for P m.
Proof. intros [? ? Hf ? ?]. split; try done. intros n ns b _. by apply Hf. Qed.

(** Processing a registered boost establishes the invariant for it. *)
Lemma postProcessNewBoost_inv rt rt' b m :
  mgr_inv_for (λ b', b' ≠ b) m → (∃ n ns, Get n ns (m_regularBoosts m) = Some b) →
  ∃ m', postProcessNewBoost rt rt' b m = Done (tt, m') ∧
    adopts b (m_set_timed (timed_after b m) m) m' ∧ mgr_inv m'.
Proof.
  intros Hinv Hreg. destruct (postProcessNewBoost_spec rt rt' b m (inv_orphans _ _ Hinv))
    as (m' & Hp & Ha). exists m'. split_and!; [done|done|].
  eapply inv_adopts; [|exact Ha]. by apply inv_timed_after.
Qed.

(** ** Each method: it returns, what it does, and that it keeps the
    invariant *)

(** The manager with boost [b] registered and counted. *)
Definition registered b m : managerImpl :=
  let i := s_boosts (m_go m) b in
  let s := m_go m in
  m_set_go (set_metrics (NewBoostConfiguration (b_namespace i) (s_metrics s)) s)
    (m_set_regular (Put (b_name i) (b_namespace i) b (m_regularBoosts m)) m).

Lemma registered_inv b m :
  mgr_inv m → (b < s_nextBoost (m_go m))%nat →
  Get (b_name (s_boosts (m_go m) b)) (b_namespace (s_boosts (m_go m) b)) (m_regularBoosts m) = None →
  mgr_inv_for (λ b', b' ≠ b) (registered b m).
Proof.
  intros [Hkey Ht Hf Ho Htr] Hb Hnone. split; cbn; try done.
  - intros n ns b'. rewrite Get_Put. case_decide as Hd; [|apply Hkey].
    destruct Hd as [<- <-]. by intros [= <-].
  - intros n ns b' Hg%Ht. rewrite Get_Put. case_decide as Hd; [|done].
    destruct Hd as [<- <-]. congruence.
  - intros n ns b' Hne. rewrite Get_Put. case_decide as Hd; [intros [= <-]; done|]. by apply Hf.
Qed.

Lemma AddRegularCPUBoost_spec rt rt' b m :
  mgr_inv m → (b < s_nextBoost (m_go m))%nat →
  let i := s_boosts (m_go m) b in
  match Get (b_name i) (b_namespace i) (m_regularBoosts m) with
  | Some _ => AddRegularCPUBoost rt rt' (Some b) m = Done (Some errStartupCPUBoostAlreadyExists, m)
  | None =>
      ∃ m', AddRegularCPUBoost rt rt' (Some b) m = Done (None, m') ∧ mgr_inv m' ∧
        adopts b (m_set_timed (timed_after b m) (registered b m)) m'
  end.
Proof.
  intros Hinv Hb i. unfold AddRegularCPUBoost, Name, Namespace. rewrite !bind_lift_gets, bind_gets.
  fold i. destruct (Get _ _ _) eqn:Hg; [done|].
  rewrite bind_modify. rewrite (bind_lift _ _ _ _ _ eq_refl).
  destruct (postProcessNewBoost_inv rt rt' b (registered b m)) as (m' & Hp & Ha & Hi).
  - by apply registered_inv.
  - exists (b_name i), (b_namespace i). cbn. by rewrite Get_Put, decide_True.
  - exists m'. split_and!; try done. by rewrite (bind_Done _ _ _ _ _ Hp).
Qed.

Lemma DeleteRegularCPUBoost_spec ns n m :
  ∃ m', DeleteRegularCPUBoost ns n m = Done (tt, m') ∧
    m_regularBoosts m' = Delete n ns (m_regularBoosts m) ∧
    m_timedBoosts m' = Delete n ns (m_timedBoosts m) ∧
    m_orphanedPods m' = m_orphanedPods m ∧
    m_go m' = set_metrics (DeleteBoostConfiguration ns (s_metrics (m_go m))) (m_go m) ∧
    (mgr_inv m → mgr_inv m').
Proof.
  eexists. split; [reflexivity|]. split_and!; try done.
  intros [Hkey Ht Hf Ho Htr]. split; cbn; try done.
  - intros n' ns' b. rewrite Get_Delete. case_decide; [done|]. apply Hkey.
  - intros n' ns' b. rewrite !Get_Delete. case_decide; [done|]. apply Ht.
  - intros n' ns' b _. rewrite !Get_Delete. case_decide; [done|]. by apply Hf.
Qed.

(** The store after a successful update of boost [b]. *)
Definition updated b (spec : v1alpha1.StartupCPUBoost) sel rp (s : GoState) : GoState :=
  set_boost b (b_set_spec (s_boosts s b) sel rp
    (mapDurationPolicy (v1alpha1.spec_DurationPolicy (v1alpha1.b_Spec spec)))) s.

Lemma UpdateFromSpec_keys b spec s :
  ∃ err s', UpdateFromSpec b spec s = Done (err, s') ∧
    match err with
    | Some _ => s' = s ∧ ∀ sel rp, LabelSelectorAsSelector (v1alpha1.b_Selector spec) = inr sel →
        mapResourcePolicy (v1alpha1.spec_ResourcePolicy (v1alpha1.b_Spec spec)) = inr rp → False
    | None => ∃ sel rp, LabelSelectorAsSelector (v1alpha1.b_Selector spec) = inr sel ∧
        mapResourcePolicy (v1alpha1.spec_ResourcePolicy (v1alpha1.b_Spec spec)) = inr rp ∧
        s' = updated b spec sel rp s
    end.
Proof.
  unfold UpdateFromSpec. destruct (LabelSelectorAsSelector _) as [e|sel] eqn:Hsel; [by eexists _, _|].
  destruct (mapResourcePolicy _) as [e|rp] eqn:Hrp; [by eexists _, _|]. eexists _, _.
  split; [reflexivity|]. by exists sel, rp.
Qed.

Lemma updated_inv b spec sel rp m :
  mgr_inv m → mgr_inv_for (λ b', b' ≠ b) (m_set_go (updated b spec sel rp (m_go m)) m).
Proof.
  intros [Hkey Ht Hf Ho Htr]. unfold updated. split; try done.
  - intros n ns b' Hb'. cbn [m_go m_set_go m_regularBoosts] in *.
    rewrite s_boosts_set_boost. apply Hkey in Hb'. by case_decide; subst.
  - intros n ns b' Hne Hb'. cbn [m_go m_set_go m_regularBoosts] in *.
    rewrite s_boosts_set_boost, decide_False by done. by apply Hf.
  - intros b' Hb' n p. cbn [m_go m_set_go] in *. rewrite s_boosts_set_boost.
    case_decide; subst; by apply Htr.
Qed.

Lemma UpdateRegularCPUBoost_spec rt rt' spec m :
  mgr_inv m →
  ∃ err m', UpdateRegularCPUBoost rt rt' spec m = Done (err, m') ∧ mgr_inv m' ∧
    m_regularBoosts m' = m_regularBoosts m ∧
    boostConfigurations (s_metrics (m_go m')) = boostConfigurations (s_metrics (m_go m)) ∧
    (GetRegularCPUBoost (v1alpha1.om_Name (v1alpha1.b_Meta spec))
       (v1alpha1.om_Namespace (v1alpha1.b_Meta spec)) m = None → m' = m) ∧
    (∀ b sel rp, GetRegularCPUBoost (v1alpha1.om_Name (v1alpha1.b_Meta spec))
       (v1alpha1.om_Namespace (v1alpha1.b_Meta spec)) m = Some b →
     LabelSelectorAsSelector (v1alpha1.b_Selector spec) = inr sel →
     mapResourcePolicy (v1alpha1.spec_ResourcePolicy (v1alpha1.b_Spec spec)) = inr rp →
     let m1 := m_set_go (updated b spec sel rp (m_go m)) m in
     adopts b (m_set_timed (timed_after b m1) m1) m').
Proof.
  intros Hinv. unfold UpdateRegularCPUBoost, GetRegularCPUBoost. rewrite bind_gets.
  destruct (Get _ _ _) as [b|] eqn:Hg; [|by eexists _, _].
  destruct (UpdateFromSpec_keys b spec (m_go m)) as (err & s & Hu & Hc).
  rewrite (bind_lift _ _ _ _ _ Hu). destruct err as [e|].
  { destruct Hc as [-> Hno]. eexists _, _. split; [reflexivity|]. rewrite m_set_go_id.
    split_and!; try done. intros b' sel rp _ Hsel Hrp. by destruct (Hno sel rp). }
  destruct Hc as (sel & rp & Hsel & Hrp & ->). set (m1 := m_set_go _ m).
  destruct (postProcessNewBoost_inv rt rt' b m1) as (m' & Hp & Ha & Hi); [by apply updated_inv|by eauto|].
  rewrite (bind_Done _ _ _ _ _ Hp). eexists _, _. split; [reflexivity|]. split; [done|].
  rewrite (sr_regular _ _ (adopts_registry _ _ _ Ha)). split; [done|].
  split_and!; [by rewrite (keeps_gauge _ _ _ (adopts_keeps _ _ _ Ha))|done|].
  intros b' sel' rp' [= <-] Hsel' Hrp'. rewrite Hsel' in Hsel. rewrite Hrp' in Hrp. by simplify_eq.
Qed.

Lemma getMatchingBoost_Some σ pod m b :
  getMatchingBoost σ pod m = Some b →
  (∃ n, Get n (pod_Namespace pod) (m_regularBoosts m) = Some b) ∧
  impl_Matches (s_boosts (m_go m) b) pod = true.
Proof.
  unfold getMatchingBoost. intros [Hin Hm]%find_some. split; [|done].
  by apply list_elem_of_In, elem_of_List in Hin.
Qed.

Lemma getMatchingBoost_None σ pod m :
  getMatchingBoost σ pod m = None ↔
    ∀ n b, Get n (pod_Namespace pod) (m_regularBoosts m) = Some b →
      impl_Matches (s_boosts (m_go m) b) pod = false.
Proof.
  unfold getMatchingBoost. split.
  - intros Hf n b Hb. apply (find_none _ _ Hf). apply list_elem_of_In, elem_of_List. by exists n.
  - intros Hno. destruct (find _ _) as [b|] eqn:Hf; [|done]. apply find_some in Hf as [Hin Hm].
    apply list_elem_of_In, elem_of_List in Hin as (n & Hn). apply Hno in Hn. congruence.
Qed.

Lemma delete_orphan_inv p m m' :
  delete_orphan p m = Done (tt, m') → mgr_inv m →
  mgr_inv m' ∧ m_go m' = m_go m ∧ m_regularBoosts m' = m_regularBoosts m ∧
  m_orphanedPods m' = Delete (orphan_key m p).1 (orphan_key m p).2 (m_orphanedPods m).
Proof.
  intros [= <-] [Hkey Ht Hf Ho Htr]. split; [|done]. split; try done.
  intros n ns q. cbn. rewrite Get_Delete. case_decide; [done|]. apply Ho.
Qed.

Lemma put_orphan_inv p m :
  mgr_inv m → (p < s_nextPod (m_go m))%nat →
  mgr_inv (m_set_orphaned (Put (orphan_key m p).1 (orphan_key m p).2 p (m_orphanedPods m)) m).
Proof.
  intros [Hkey Ht Hf Ho Htr] Hp. split; try done. intros n ns q. cbn. rewrite Get_Put.
  case_decide as Hd; [|apply Ho]. destruct Hd as [<- <-]. by intros [= <-].
Qed.

Lemma Manager_UpsertPod_spec rt p m :
  mgr_inv m → (p < s_nextPod (m_go m))%nat →
  let pod := s_pods (m_go m) p in
  ∃ r m', Manager_UpsertPod rt p m = Done (r, m') ∧ mgr_inv m' ∧
    m_regularBoosts m' = m_regularBoosts m ∧
    match getMatchingBoost (rt_order rt 0) pod m with
    | Some b =>
        r.1 = Some b ∧ keeps b (m_go m) (m_go m') ∧
        UpsertPod (rt_order rt 1) (rt_order rt 2) (rt_now rt 0) b p (m_go m) = Done (r.2, m_go m') ∧
        m_orphanedPods m' = match r.2 with
                            | None => Delete (pod_Name pod) (pod_Namespace pod) (m_orphanedPods m)
                            | Some _ => m_orphanedPods m
                            end
    | None =>
        r = (None, None) ∧ m_go m' = m_go m ∧
        m_orphanedPods m' = Put (pod_Name pod) (pod_Namespace pod) p (m_orphanedPods m)
    end.
Proof.
  intros Hinv Hp pod. unfold Manager_UpsertPod, deref_pod. rewrite bind_lift_gets, bind_gets. fold pod.
  destruct (getMatchingBoost _ pod m) as [b|] eqn:Hb.
  - destruct (UpsertPod_keeps (rt_order rt 1) (rt_order rt 2) (rt_now rt 0) b p (m_go m) Hp)
      as (err & s & Hu & Hk & _). rewrite (bind_lift _ _ _ _ _ Hu).
    pose proof (inv_go _ _ _ Hinv Hk) as Hinv1. destruct err as [e|].
    + eexists _, _. split; [reflexivity|]. done.
    + destruct (delete_orphan_inv p (m_set_go s m) _ eq_refl Hinv1) as (Hinv2 & _ & _ & Ho).
      eexists _, _. split; [reflexivity|]. split_and!; try done.
      unfold orphan_key in Ho. cbn in Ho |- *. by destruct (keeps_key _ _ _ Hk p Hp) as [-> ->].
  - eexists _, _. split; [reflexivity|]. split_and!; try done.
    by apply put_orphan_inv.
Qed.

Lemma Manager_DeletePod_spec rt p m :
  mgr_inv m →
  let pod := s_pods (m_go m) p in
  ∃ r m', Manager_DeletePod rt p m = Done (r, m') ∧ mgr_inv m' ∧
    m_regularBoosts m' = m_regularBoosts m ∧ r.2 = None ∧
    match getMatchingBoost (rt_order rt 0) pod m with
    | Some b =>
        r.1 = Some b ∧ keeps b (m_go m) (m_go m') ∧ m_orphanedPods m' = m_orphanedPods m ∧
        b_pods (s_boosts (m_go m') b) = delete (pod_Name pod) (b_pods (s_boosts (m_go m) b))
    | None =>
        r.1 = None ∧ m_go m' = m_go m ∧
        m_orphanedPods m' = Delete (pod_Name pod) (pod_Namespace pod) (m_orphanedPods m)
    end.
Proof.
  intros Hinv pod. unfold Manager_DeletePod, deref_pod. rewrite bind_lift_gets, bind_gets. fold pod.
  destruct (getMatchingBoost _ pod m) as [b|] eqn:Hb.
  - destruct (DeletePod_keeps (rt_order rt 1) b p (m_go m)) as (s & Hd & Hk & _ & Hpods).
    rewrite (bind_lift _ _ _ _ _ Hd). pose proof (inv_go _ _ _ Hinv Hk) as Hinv1.
    by eexists _, _.
  - destruct (delete_orphan_inv p m _ eq_refl Hinv) as (Hinv2 & _ & _ & Ho).
    eexists _, _. split; [reflexivity|]. done.
Qed.

(** ** The manager as a transition system *)

(** The calls the controllers, the webhook and the check loop make, and
    what changes around the manager. *)
Inductive mgr_step : managerImpl → managerImpl → Prop :=
  | step_world m w : mgr_step m (m_set_go (set_world w (m_go m)) m)
  | step_new_pod m pod : mgr_step m (m_set_go (new_pod pod (m_go m)) m)
  | step_running m r : mgr_step m (setRunning r m)
  | step_reconciler m r : mgr_step m (SetStartupCPUBoostReconciler r m)
  | step_add m spec legacy b s rt rt' err m' :
      NewStartupCPUBoost spec legacy (m_go m) = Done (inr b, s) →
      AddRegularCPUBoost rt rt' (Some b) (m_set_go s m) = Done (err, m') →
      mgr_step m m'
  | step_delete m ns n m' :
      DeleteRegularCPUBoost ns n m = Done (tt, m') → mgr_step m m'
  | step_update m rt rt' spec err m' :
      UpdateRegularCPUBoost rt rt' spec m = Done (err, m') → mgr_step m m'
  | step_upsert m rt p r m' :
      (p < s_nextPod (m_go m))%nat →
      Manager_UpsertPod rt p m = Done (r, m') → mgr_step m m'
  | step_delete_pod m rt p r m' :
      Manager_DeletePod rt p m = Done (r, m') → mgr_step m m'
  | step_revert m σ b p err s :
      RevertResources σ b p (m_go m) = Done (err, s) → mgr_step m (m_set_go s m).

Lemma new_inv client s : s_nextBoost s = 0%nat → mgr_inv (NewManagerWithTicker client s).
Proof.
  intros Hn. assert (∀ T n ns (x : T), Get n ns newNamespacedObjects = Some x → False) as Hno.
  { intros T n ns x. by rewrite Get_new. }
  split.
  - intros n ns b Hb. by destruct (Hno _ _ _ _ Hb).
  - intros n ns b Hb. by destruct (Hno _ _ _ _ Hb).
  - intros n ns b _ Hb. by destruct (Hno _ _ _ _ Hb).
  - intros n ns p Hp. by destruct (Hno _ _ _ _ Hp).
  - intros b Hb. cbn in Hb. lia.
Qed.

(** A boost that was just built is new to the manager. *)
Lemma new_boost_inv m i : b_pods i = ∅ → mgr_inv m → mgr_inv (m_set_go (new_boost i (m_go m)) m).
Proof.
  intros Hi [Hkey Ht Hf Ho Htr].
  assert (∀ b, (b < s_nextBoost (m_go m))%nat →
    s_boosts (new_boost i (m_go m)) b = s_boosts (m_go m) b) as Hold.
  { intros b Hb. cbn. apply fn_lookup_insert_ne. lia. }
  split; try done.
  - intros n ns b Hb. cbn [m_go m_set_go m_regularBoosts] in *. destruct (Hkey _ _ _ Hb) as (? & ? & ?).
    rewrite Hold by done. split_and!; try done. cbn. lia.
  - intros n ns b HP Hb. cbn [m_go m_set_go m_regularBoosts] in *. destruct (Hkey _ _ _ Hb) as (? & ? & ?).
    rewrite Hold by done. by apply Hf.
  - intros b Hb n p. cbn [m_go m_set_go] in *.
    destruct (decide (b = s_nextBoost (m_go m))) as [->|Hne].
    + cbn. rewrite fn_lookup_insert, Hi. by rewrite lookup_empty.
    + assert (b < s_nextBoost (m_go m))%nat as Hlt by (cbn in Hb; lia).
      rewrite Hold by done. by apply Htr.
Qed.

Lemma NewStartupCPUBoost_new spec legacy s b s' :
  NewStartupCPUBoost spec legacy s = Done (inr b, s') →
  b = s_nextBoost s ∧ ∃ i, s' = new_boost i s ∧ b_pods i = ∅.
Proof.
  unfold NewStartupCPUBoost. destruct (LabelSelectorAsSelector _); [done|].
  destruct (mapResourcePolicy _); [done|]. intros [= <- <-]. eauto.
Qed.

Lemma step_inv m m' : mgr_inv m → mgr_step m m' → mgr_inv m'.
Proof.
  intros Hinv Hstep. destruct Hstep as [m w|m pod|m r|m r|m spec legacy b s rt rt' err m' Hnew Hadd
    |m ns n m' Hd|m rt rt' spec err m' Hu|m rt p r m' Hp Hu|m rt p r m' Hd|m σ b p err s Hr].
  - apply (inv_go _ 0%nat); [done|]. by split.
  - apply (inv_go _ 0%nat); [done|]. apply alloc_keeps.
  - by destruct Hinv.
  - by destruct Hinv.
  - apply NewStartupCPUBoost_new in Hnew as (-> & i & -> & Hi).
    pose proof (AddRegularCPUBoost_spec rt rt' (s_nextBoost (m_go m)) _ (new_boost_inv _ _ Hi Hinv))
      as Hspec. cbn zeta in Hspec.
    destruct (Get _ _ _) as [b'|]; [rewrite Hspec in Hadd by (cbn; lia)|destruct Hspec as (m1 & Ha & Hm1 & _); [cbn; lia|]].
    + injection Hadd as <- <-. by apply new_boost_inv.
    + rewrite Ha in Hadd. by injection Hadd as <- <-.
  - destruct (DeleteRegularCPUBoost_spec ns n m) as (m1 & Hd1 & _ & _ & _ & _ & Hi).
    rewrite Hd in Hd1. injection Hd1 as <-. auto.
  - destruct (UpdateRegularCPUBoost_spec rt rt' spec m Hinv) as (e & m1 & Hu1 & Hi & _).
    rewrite Hu in Hu1. by injection Hu1 as <- <-.
  - destruct (Manager_UpsertPod_spec rt p m Hinv Hp) as (r1 & m1 & Hu1 & Hi & _).
    rewrite Hu in Hu1. by injection Hu1 as <- <-.
  - destruct (Manager_DeletePod_spec rt p m Hinv) as (r1 & m1 & Hd1 & Hi & _).
    rewrite Hd in Hd1. by injection Hd1 as <- <-.
  - destruct (revertResources_keeps σ b p (m_go m)) as (e & s1 & Hr1 & Hk).
    unfold RevertResources in Hr. rewrite Hr in Hr1. injection Hr1 as <- <-. by eapply inv_go.
Qed.

Lemma reachable_inv client s m :
  s_nextBoost s = 0%nat → rtc mgr_step (NewManagerWithTicker client s) m → mgr_inv m.
Proof.
  intros Hs. apply (rtc_ind_r (λ m, mgr_inv m) _); [by apply new_inv|].
  intros m1 m2 _ Hstep Hinv. by eapply step_inv.
Qed.
End operations.

(** ** Which orphans are adopted *)

Section adoption.
Context `{QuantityLib} `{SelectorLib} `{AnnotationJSON} `{!PatchLib} `{MetricVecLib} `{!PodClient}.
Context `{!PodClientBasics}.
Implicit Types (m : managerImpl) (b : BoostRef) (p : PodRef).

Definition matched (s : GoState) b p : bool := impl_Matches (s_boosts s b) (s_pods s p).

Lemma matched_keeps s s' b p :
  keeps b s s' → s_pods s' p = s_pods s p → matched s' b p = matched s b p.
Proof.
  intros Hk Hp. unfold matched, impl_Matches. rewrite Hp.
  by destruct (keeps_identity _ _ _ Hk) as (_ & _ & -> & _).
Qed.

Lemma map_orphans_matched rt b pods errs mapped s :
  NoDup pods → Forall (λ p, (p < s_nextPod s)%nat) pods →
  ∃ errs1 new s', map_orphans rt b pods errs mapped s = Done ((errs ++ errs1, mapped ++ new), s') ∧
    (∀ p, p ∈ new → p ∈ pods ∧ matched s b p = true) ∧
    (errs1 = [] → ∀ p, p ∈ pods → matched s b p = true → p ∈ new).
Proof.
  intros Hnd. revert rt errs mapped s. induction Hnd as [|p pods Hnin Hnd IH]; intros rt errs mapped s Hall.
  { exists [], [], s. rewrite !app_nil_r. set_solver. }
  apply Forall_cons in Hall as [Hp Hall]. cbn [map_orphans]. unfold Matches. go_unfold.
  change (impl_Matches (s_boosts s b) (s_pods s p)) with (matched s b p).
  destruct (matched s b p) eqn:Hm.
  - destruct (UpsertPod_keeps (rt_order rt 0) (rt_order rt 1) (rt_now rt 0) b p s Hp)
      as (err & s1 & Hu & Hk & Ho). rewrite Hu.
    rewrite <-(frame_nextPod _ _ (UpsertPod_frame _ _ _ _ _ _ _ _ Hu)) in Hall.
    assert (∀ q, q ∈ pods → matched s1 b q = matched s b q) as Hsame.
    { intros q Hq. apply matched_keeps; [done|]. apply Ho. by intros ->. }
    destruct err as [e|].
    + destruct (IH (rt_after 2 rt) (errs ++ [e]) mapped s1 Hall) as (errs1 & new & s' & -> & Hnew & _).
      exists (e :: errs1), new, s'. rewrite <-app_assoc. split_and!; [done| |done].
      intros q Hq. destruct (Hnew q Hq) as [Hin Hmq]. rewrite Hsame in Hmq by done. split; [by right|done].
    + destruct (IH (rt_after 2 rt) errs (mapped ++ [p]) s1 Hall) as (errs1 & new & s' & -> & Hnew & Hall').
      exists errs1, (p :: new), s'. rewrite <-app_assoc. split_and!; [done| |].
      * intros q [->|Hq]%elem_of_cons; [by split; [left|]|].
        destruct (Hnew q Hq) as [Hin Hmq]. rewrite Hsame in Hmq by done. split; [by right|done].
      * intros He q [->|Hq]%elem_of_cons Hmq; [left|right]. apply Hall'; [done|done|]. by rewrite Hsame.
  - destruct (IH (rt_after 2 rt) errs mapped s Hall) as (errs1 & new & s' & -> & Hnew & Hall').
    exists errs1, new, s'. split_and!; [done| |].
    * intros q Hq. destruct (Hnew q Hq). split; [by right|done].
    * intros He q [->|Hq]%elem_of_cons Hmq; [congruence|]. by apply Hall'.
Qed.

Lemma NoDup_orphans σ ns m : orphans_ok m → NoDup (List σ ns (m_orphanedPods m)).
Proof.
  intros Hok. unfold List. destruct (m_orphanedPods m !! ns) as [o|] eqn:Ho; [|constructor].
  apply NoDup_fmap_2_strong; [|apply NoDup_go_range].
  intros [n1 p1] [n2 p2] Hn1%elem_of_go_range Hn2%elem_of_go_range Heq. cbn in Heq. subst p2.
  assert (∀ n, o !! n = Some p1 → orphan_key m p1 = (n, ns)) as Hkey.
  { intros n Hn. apply Hok. unfold Get. by rewrite Ho. }
  pose proof (Hkey _ Hn1). pose proof (Hkey _ Hn2). congruence.
Qed.

Lemma mapOrphanedPods_spec rt b m :
  orphans_ok m →
  let namespace := b_namespace (s_boosts (m_go m) b) in
  ∃ err m', mapOrphanedPods rt b m = Done (err, m') ∧
    ∀ n ns p, Get n ns (m_orphanedPods m) = Some p →
      (ns ≠ namespace ∨ matched (m_go m) b p = false → Get n ns (m_orphanedPods m') = Some p) ∧
      (ns = namespace → matched (m_go m) b p = true → err = None →
         Get n ns (m_orphanedPods m') = None).
Proof.
  intros Hok ns0. unfold mapOrphanedPods, Namespace. rewrite bind_lift_gets, bind_gets.
  fold ns0. set (ps := List _ ns0 _).
  pose proof (orphans_list_alloc (rt_order rt 0) ns0 m Hok) as Hall.
  destruct (map_orphans_keeps (rt_after 1 rt) b ps [] [] (m_go m) Hall)
    as (errs' & mapped' & s1 & Hm & Hk & _).
  destruct (map_orphans_matched (rt_after 1 rt) b ps [] [] (m_go m) (NoDup_orphans _ _ _ Hok) Hall)
    as (errs1 & new & s1' & Hm' & Hnew & Hevery).
  rewrite Hm in Hm'. injection Hm' as -> -> <-. rewrite (bind_lift _ _ _ _ _ Hm). cbn beta match.
  destruct (delete_orphans_spec ([] ++ new) (m_set_go s1 m)) as (m2 & Hd & _ & _ & Hget).
  rewrite (bind_Done _ _ _ _ _ Hd). eexists _, _. split; [reflexivity|].
  assert (∀ n ns p, Get n ns (m_orphanedPods m) = Some p → ∀ q, q ∈ ps →
    orphan_key (m_set_go s1 m) q = (n, ns) → q = p ∧ ns = ns0) as Hunique.
  { intros n ns p Hp q (nq & Hq)%elem_of_List Hkq. destruct (Hok _ _ _ Hq) as [Hkey Hlt].
    unfold orphan_key in *. cbn in Hkq. destruct (keeps_key _ _ _ Hk q Hlt) as [Hqn Hqs].
    rewrite Hqn, Hqs, Hkey in Hkq. injection Hkq as <- <-. split; [|done]. congruence. }
  intros n ns p Hp. split.
  - intros Hnot. rewrite Hget, decide_False; [done|].
    intros (q & Hq & Hin)%list_elem_of_fmap. destruct (Hnew q Hin) as [Hps Hmq].
    destruct (Hunique _ _ _ Hp q Hps (eq_sym Hq)) as [-> ->]. destruct Hnot; congruence.
  - intros -> Hmp Herr. rewrite Hget, decide_True; [done|]. apply list_elem_of_fmap. exists p.
    assert (errs1 = []) as He by (by destruct errs1).
    assert (p ∈ ps) as Hin by (apply elem_of_List; eauto).
    split; [|by apply Hevery]. destruct (Hok _ _ _ Hp) as [Hkey Hlt]. unfold orphan_key in *. cbn.
    destruct (keeps_key _ _ _ Hk p Hlt) as [-> ->]. done.
Qed.
End adoption.

(** ** Following the pods of the API server, and counting the boosts *)

Section following.
Context `{QuantityLib} `{SelectorLib} `{AnnotationJSON} `{!PatchLib} `{MetricVecLib} `{!PodClient}.
Context `{!PodClientBasics}.
Implicit Types (m : managerImpl) (b : BoostRef) (p : PodRef).

Definition tracks (s : GoState) b (n : string) : Prop := is_Some (b_pods (s_boosts s b) !! n).

(** Without a pod condition policy an upsert always tracks the pod. *)
Lemma UpsertPod_tracks σ σ' now b p s :
  b_durationPolicies (s_boosts s b) !! duration.PodConditionPolicyName = None →
  ∃ s', UpsertPod σ σ' now b p s = Done (None, s') ∧
    b_pods (s_boosts s' b) = <[pod_Name (s_pods s p) := p]> (b_pods (s_boosts s b)) ∧
    b_durationPolicies (s_boosts s' b) = b_durationPolicies (s_boosts s b).
Proof.
  intros Hpol. destruct (UpsertPod_cases σ σ' now b p s) as (err & s' & Hu & _ & Hc).
  unfold condition_met in Hc. rewrite Hpol in Hc. destruct Hc as (-> & He & _).
  exists s'. split; [done|]. destruct He as [_ (_ & _ & _ & ? & _) ? _]. done.
Qed.

Lemma sync_pods_tracks rt b items errs s :
  b_durationPolicies (s_boosts s b) !! duration.PodConditionPolicyName = None →
  ∃ s', sync_pods rt b items errs s = Done (errs, s') ∧
    (∀ n p, b_pods (s_boosts s b) !! n = Some p → b_pods (s_boosts s' b) !! n = Some p) ∧
    (∀ pod, pod ∈ items → tracks s' b (pod_Name pod)).
Proof.
  revert rt s. induction items as [|pod items IH]; intros rt s Hpol.
  { exists s. split_and!; [done|done|]. by intros pod ?%not_elem_of_nil. }
  cbn [sync_pods]. unfold BoostPod, alloc_pod. go_unfold.
  destruct (b_pods (s_boosts s b) !! pod_Name pod) as [p|] eqn:Hp.
  - destruct (IH (rt_after 2 rt) s Hpol) as (s' & -> & Hold & Hnew). exists s'. split_and!; [done|done|].
    intros q [->|Hq]%elem_of_cons; [|by apply Hnew]. apply Hold in Hp. by exists p.
  - destruct (UpsertPod_tracks (rt_order rt 0) (rt_order rt 1) (rt_now rt 0) b (s_nextPod s) (new_pod pod s) Hpol)
      as (s1 & Hu & Hpods & Hdp). rewrite Hu.
    assert (s_pods (new_pod pod s) (s_nextPod s) = pod) as Hnewpod by apply fn_lookup_insert.
    rewrite Hnewpod in Hpods. change (s_boosts (new_pod pod s)) with (s_boosts s) in *.
    destruct (IH (rt_after 2 rt) s1) as (s' & -> & Hold & Hnew); [by rewrite Hdp|].
    exists s'. split_and!; [done| |].
    + intros n p Hn. apply Hold. rewrite Hpods, lookup_insert_ne; [done|]. congruence.
    + intros q [->|Hq]%elem_of_cons; [|by apply Hnew]. eexists. apply Hold.
      by rewrite Hpods, lookup_insert_eq.
Qed.

(** The gauge of a namespace compared with the boosts registered there. *)
Definition registered_count (ns : string) m : Z :=
  Z.of_nat (size (default ∅ (m_regularBoosts m !! ns))).
Definition gauge (ns : string) m : Z := BoostConfigurations ns (s_metrics (m_go m)).
Definition drift (ns : string) m : Z := gauge ns m - registered_count ns m.

Lemma drift_ext ns m m' :
  m_regularBoosts m' = m_regularBoosts m →
  boostConfigurations (s_metrics (m_go m')) = boostConfigurations (s_metrics (m_go m)) →
  drift ns m' = drift ns m.
Proof.
  unfold drift, gauge, registered_count, BoostConfigurations. by intros -> ->.
Qed.

Lemma size_Put ns0 n ns b (o : gmap string (gmap string BoostRef)) :
  Get n ns o = None →
  Z.of_nat (size (default ∅ (Put n ns b o !! ns0))) =
    Z.of_nat (size (default ∅ (o !! ns0))) + if decide (ns = ns0) then 1 else 0.
Proof.
  unfold Get, Put. intros Hg. destruct (o !! ns) as [i|] eqn:Ho; rewrite lookup_insert; case_decide as Hd;
    subst; rewrite ?Ho; cbn; rewrite ?map_size_insert, ?Hg, ?lookup_empty, ?map_size_empty; lia.
Qed.

Lemma size_Delete ns0 n ns (o : gmap string (gmap string BoostRef)) :
  Z.of_nat (size (default ∅ (Delete n ns o !! ns0))) =
    Z.of_nat (size (default ∅ (o !! ns0))) -
    if decide (ns = ns0) then match Get n ns o with Some _ => 1 | None => 0 end else 0.
Proof.
  unfold Get, Delete. destruct (o !! ns) as [i|] eqn:Ho; [|case_decide; lia].
  rewrite lookup_insert; case_decide as Hd; subst; rewrite ?Ho; cbn; [|lia].
  rewrite map_size_delete. destruct (i !! n) as [b|] eqn:Hi; [|cbn; lia].
  assert (0 < size i)%nat by (apply Nat.neq_0_lt_0; intros Hz%map_size_empty_inv; by rewrite Hz, lookup_empty in Hi).
  cbn. lia.
Qed.
End following.

Section counting.
Context `{QuantityLib} `{SelectorLib} `{AnnotationJSON} `{!PatchLib} `{MetricVecLaws} `{!PodClient}.
Context `{!PodClientBasics}.
Implicit Types m : managerImpl.

Lemma drift_registered ns0 b m :
  Get (b_name (s_boosts (m_go m) b)) (b_namespace (s_boosts (m_go m) b)) (m_regularBoosts m) = None →
  drift ns0 (registered b m) = drift ns0 m.
Proof.
  intros Hg. unfold drift, gauge, registered_count, BoostConfigurations. cbn.
  rewrite vec_inc_value, (size_Put _ _ _ _ _ Hg). repeat case_decide; try lia; congruence.
Qed.

Lemma drift_delete ns0 ns n m m' :
  DeleteRegularCPUBoost ns n m = Done (tt, m') →
  drift ns0 m' = drift ns0 m -
    if decide (ns = ns0) then match Get n ns (m_regularBoosts m) with Some _ => 0 | None => 1 end else 0.
Proof.
  intros [= <-]. unfold drift, gauge, registered_count, BoostConfigurations. cbn.
  rewrite vec_dec_value, size_Delete.
  destruct (Get n ns _); repeat case_decide; try lia; congruence.
Qed.

Lemma drift_step ns m m' :
  mgr_inv m → mgr_step m m' →
  drift ns m' = drift ns m ∨
  ∃ n, Get n ns (m_regularBoosts m) = None ∧ DeleteRegularCPUBoost ns n m = Done (tt, m') ∧
    drift ns m' = drift ns m - 1.
Proof.
  intros Hinv Hstep. destruct Hstep as [m w|m pod|m r|m r|m spec legacy b s rt rt' err m' Hnew Hadd
    |m ns' n m' Hd|m rt rt' spec err m' Hu|m rt p r m' Hp Hu|m rt p r m' Hd|m σ b p err s Hr];
    try (by left; apply drift_ext).
  - left. apply NewStartupCPUBoost_new in Hnew as (-> & i & -> & Hi).
    set (m1 := m_set_go _ m) in Hadd. transitivity (drift ns m1); [|by apply drift_ext].
    pose proof (AddRegularCPUBoost_spec rt rt' (s_nextBoost (m_go m)) m1 (new_boost_inv _ _ Hi Hinv))
      as Hspec. cbn zeta in Hspec.
    destruct (Get _ _ _) as [b'|] eqn:Hg; [rewrite Hspec in Hadd by (cbn; lia)|
      destruct Hspec as (m2 & Ha & _ & Had); [cbn; lia|]].
    + by injection Hadd as <- <-.
    + rewrite Ha in Hadd. injection Hadd as <- <-.
      rewrite <-(drift_registered ns (s_nextBoost (m_go m)) m1 Hg). apply drift_ext.
      * by rewrite (sr_regular _ _ (adopts_registry _ _ _ Had)).
      * by rewrite (keeps_gauge _ _ _ (adopts_keeps _ _ _ Had)).
  - pose proof (drift_delete ns _ _ _ _ Hd) as Hdr. case_decide as Hns; [|left; lia]. subst ns'.
    destruct (Get n ns (m_regularBoosts m)) eqn:Hg; [left; lia|right]. eauto.
  - left. destruct (UpdateRegularCPUBoost_spec rt rt' spec m Hinv) as (e & m1 & Hu1 & _ & Hr1 & Hg1 & _).
    rewrite Hu in Hu1. injection Hu1 as <- <-. by apply drift_ext.
  - left. destruct (Manager_UpsertPod_spec rt p m Hinv Hp) as (r1 & m1 & Hu1 & _ & Hr1 & Hc).
    rewrite Hu in Hu1. injection Hu1 as <- <-. apply drift_ext; [done|].
    destruct (getMatchingBoost _ _ _); [|by destruct Hc as (_ & -> & _)].
    destruct Hc as (_ & Hk & _). apply (keeps_gauge _ _ _ Hk).
  - left. destruct (Manager_DeletePod_spec rt p m Hinv) as (r1 & m1 & Hd1 & _ & Hr1 & _ & Hc).
    rewrite Hd in Hd1. injection Hd1 as <- <-. apply drift_ext; [done|].
    destruct (getMatchingBoost _ _ _); [|by destruct Hc as (_ & -> & _)].
    destruct Hc as (_ & Hk & _). apply (keeps_gauge _ _ _ Hk).
  - left. destruct (revertResources_keeps σ b p (m_go m)) as (e & s1 & Hr1 & Hk).
    unfold RevertResources in Hr. rewrite Hr in Hr1. injection Hr1 as <- <-.
    apply drift_ext; [done|]. apply (keeps_gauge _ _ _ Hk).
Qed.
End counting.

(** ** The manager behind the webhook's interface *)

Section interface.
Context `{QuantityLib} `{SelectorLib} `{AnnotationJSON} `{!PatchLib} `{MetricVecLib} `{!PodClient}.
Context `{!PodClientBasics}.

Definition manager_boosts (σ : RangeOrder) (m : managerImpl) : PodBoosts := {|
  GetCPUBoostForPod := λ pod, s_boosts (m_go m) <$> GetCPUBoostForPod_ref σ pod m
|}.

Lemma manager_boosts_laws σ m : mgr_inv m → @PodBoostsLaws _ _ (manager_boosts σ m).
Proof.
  intros Hinv. split. intros pod i. cbn [GetCPUBoostForPod manager_boosts].
  intros (b & Hb & ->)%fmap_Some. apply getMatchingBoost_Some in Hb as [(n & Hn) Hm].
  split; [|done]. by apply (inv_key _ _ Hinv) in Hn as (_ & ? & _).
Qed.
End interface.

(** ** Properties *)

Section properties.
Context `{QuantityLib} `{SelectorLib} `{AnnotationJSON} `{!PatchLib} `{MetricVecLib} `{!PodClient}.
Context `{!PodClientBasics}.
Implicit Types m : managerImpl.

(** A boost is registered under its own name and namespace; the check loop
    checks only registered boosts, and every registered boost with a fixed
    duration; orphaned pods are filed under their own name and namespace; and
    every registered boost tracks pods under their names. *)
Definition registry_consistent m : Prop :=
  (∀ n ns b, Get n ns (m_regularBoosts m) = Some b →
     b_name (s_boosts (m_go m) b) = n ∧ b_namespace (s_boosts (m_go m) b) = ns) ∧
  (∀ n ns b, Get n ns (m_timedBoosts m) = Some b → Get n ns (m_regularBoosts m) = Some b) ∧
  (∀ n ns b, Get n ns (m_regularBoosts m) = Some b →
     is_Some (b_durationPolicies (s_boosts (m_go m) b) !! duration.FixedDurationPolicyName) →
     Get n ns (m_timedBoosts m) = Some b) ∧
  (∀ n ns p, Get n ns (m_orphanedPods m) = Some p →
     pod_Name (s_pods (m_go m) p) = n ∧ pod_Namespace (s_pods (m_go m) p) = ns) ∧
  (∀ n ns b k p, Get n ns (m_regularBoosts m) = Some b →
     b_pods (s_boosts (m_go m) b) !! k = Some p → pod_Name (s_pods (m_go m) p) = k).

Lemma inv_consistent m : mgr_inv m → registry_consistent m.
Proof.
  intros [Hkey Ht Hf Ho Htr]. split_and!; [|done| | |].
  - intros n ns b (? & ? & _)%Hkey. done.
  - intros n ns b. by apply Hf.
  - intros n ns p [[= <- <-] _]%Ho. done.
  - intros n ns b k p (_ & _ & Hb)%Hkey Hp. by apply (Htr b Hb) in Hp as [? _].
Qed.

(** In every state the manager can reach, through any sequence of
    registrations, updates, deletions, pod events, reversions by the check
    loop and changes of the world, the registry is consistent. *)
Theorem manager_invariant client s m :
  s_nextBoost s = 0%nat → rtc mgr_step (NewManagerWithTicker client s) m → registry_consistent m.
Proof. intros Hs Hr. by eapply inv_consistent, reachable_inv. Qed.

(** No call of a reachable manager panics or blocks: registering a
    boost, updating, deleting, upserting and deleting pods all return; a
    boost is refused exactly when its name is taken in its namespace, and
    the refusal changes nothing. *)
Theorem manager_calls_return client s m rt rt' :
  s_nextBoost s = 0%nat → rtc mgr_step (NewManagerWithTicker client s) m →
  (∀ b : BoostRef, (b < s_nextBoost (m_go m))%nat →
     ∃ err m', AddRegularCPUBoost rt rt' (Some b) m = Done (err, m') ∧
       (err ≠ None ↔ is_Some (GetRegularCPUBoost (b_name (s_boosts (m_go m) b))
                                (b_namespace (s_boosts (m_go m) b)) m)) ∧
       (err ≠ None → m' = m) ∧
       (err = None → GetRegularCPUBoost (b_name (s_boosts (m_go m) b))
                       (b_namespace (s_boosts (m_go m) b)) m' = Some b)) ∧
  (∀ ns n, ∃ m', DeleteRegularCPUBoost ns n m = Done (tt, m') ∧ GetRegularCPUBoost n ns m' = None) ∧
  (∀ spec, ∃ err m', UpdateRegularCPUBoost rt rt' spec m = Done (err, m')) ∧
  (∀ p : PodRef, (p < s_nextPod (m_go m))%nat → ∃ r m', Manager_UpsertPod rt p m = Done (r, m')) ∧
  (∀ p, ∃ r m', Manager_DeletePod rt p m = Done (r, m')).
Proof.
  intros Hs Hr. apply reachable_inv in Hr as Hinv; [|done]. split_and!.
  - intros b Hb. pose proof (AddRegularCPUBoost_spec rt rt' b m Hinv Hb) as Hspec. cbn zeta in Hspec.
    unfold GetRegularCPUBoost. destruct (Get _ _ _) as [b'|] eqn:Hg.
    + rewrite Hspec. eexists _, _. split; [reflexivity|]. split_and!; [|done|done]. split; [by eexists|done].
    + destruct Hspec as (m' & -> & _ & Ha). exists None, m'. split; [done|]. split_and!.
      * by split; [|intros [? ?]].
      * done.
      * intros _. rewrite (sr_regular _ _ (adopts_registry _ _ _ Ha)). cbn. rewrite Get_Put.
        by rewrite decide_True.
  - intros ns n. destruct (DeleteRegularCPUBoost_spec ns n m) as (m' & Hd & Hre & _).
    exists m'. split; [done|]. unfold GetRegularCPUBoost. by rewrite Hre, Get_Delete, decide_True.
  - intros spec. destruct (UpdateRegularCPUBoost_spec rt rt' spec m Hinv) as (e & m' & Hu & _). eauto.
  - intros p Hp. destruct (Manager_UpsertPod_spec rt p m Hinv Hp) as (r & m' & Hu & _). eauto.
  - intros p. destruct (Manager_DeletePod_spec rt p m Hinv) as (r & m' & Hd & _). eauto.
Qed.

(** Where an upserted pod ends up.  If a registered boost of its
    namespace matches, the pod is handed to one such boost and, unless that
    fails, is not an orphan afterwards; an error leaves the orphans as they
    were.  If none matches, it becomes an orphan and no boost changes. *)
Theorem upsert_pod_placement client s m rt p :
  s_nextBoost s = 0%nat → rtc mgr_step (NewManagerWithTicker client s) m →
  (p < s_nextPod (m_go m))%nat →
  let pod := s_pods (m_go m) p in
  let orphan m := Get (pod_Name pod) (pod_Namespace pod) (m_orphanedPods m) in
  ∃ boost err m', Manager_UpsertPod rt p m = Done ((boost, err), m') ∧
    match boost with
    | Some b =>
        (∃ n, GetRegularCPUBoost n (pod_Namespace pod) m = Some b) ∧
        impl_Matches (s_boosts (m_go m) b) pod = true ∧
        (err = None → orphan m' = None) ∧ (err ≠ None → m_orphanedPods m' = m_orphanedPods m)
    | None =>
        (∀ n b, GetRegularCPUBoost n (pod_Namespace pod) m = Some b →
           impl_Matches (s_boosts (m_go m) b) pod = false) ∧
        err = None ∧ orphan m' = Some p ∧ s_boosts (m_go m') = s_boosts (m_go m)
    end.
Proof.
  intros Hs Hr Hp pod orphan. apply reachable_inv in Hr as Hinv; [|done].
  destruct (Manager_UpsertPod_spec rt p m Hinv Hp) as ([boost err] & m' & Hu & _ & _ & Hc).
  exists boost, err, m'. split; [done|]. fold pod in Hc. cbn [fst snd] in Hc.
  destruct (getMatchingBoost (rt_order rt 0) pod m) as [b|] eqn:Hb.
  - destruct Hc as (-> & _ & _ & Ho). apply getMatchingBoost_Some in Hb as [Hn Hm].
    split_and!; [done|done| |]; unfold orphan; rewrite Ho.
    + intros ->. by rewrite Get_Delete, decide_True.
    + by destruct err.
  - destruct Hc as ([= -> ->] & Hgo & Ho). split_and!;
      [exact (proj1 (getMatchingBoost_None _ _ _) Hb)|done| |by rewrite Hgo].
    unfold orphan. rewrite Ho, Get_Put. by rewrite decide_True.
Qed.

(** Adopting orphans.  The orphans of other namespaces and the ones
    the boost does not match stay orphans; if no adoption failed, every
    matching orphan of the boost's namespace has been handed over. *)
Theorem orphan_adoption client s m rt b :
  s_nextBoost s = 0%nat → rtc mgr_step (NewManagerWithTicker client s) m →
  let i := s_boosts (m_go m) b in
  ∃ err m', mapOrphanedPods rt b m = Done (err, m') ∧
    ∀ n ns p, Get n ns (m_orphanedPods m) = Some p →
      let matches := impl_Matches i (s_pods (m_go m) p) in
      (ns ≠ b_namespace i ∨ matches = false → Get n ns (m_orphanedPods m') = Some p) ∧
      (ns = b_namespace i → matches = true → err = None → Get n ns (m_orphanedPods m') = None).
Proof.
  intros Hs Hr. apply reachable_inv in Hr as Hinv; [|done].
  apply (mapOrphanedPods_spec rt b m (inv_orphans _ _ Hinv)).
Qed.


(** The boost found for a pod is registered in the pod's namespace
    and its selector matches; none is found exactly when no registered
    boost of the namespace matches.  Which one is returned when several
    match is not determined. *)
Theorem matching_boost_spec σ pod m :
  match GetCPUBoostForPod_ref σ pod m with
  | Some b => (∃ n, GetRegularCPUBoost n (pod_Namespace pod) m = Some b) ∧
              impl_Matches (s_boosts (m_go m) b) pod = true
  | None => ∀ n b, GetRegularCPUBoost n (pod_Namespace pod) m = Some b →
              impl_Matches (s_boosts (m_go m) b) pod = false
  end.
Proof.
  unfold GetCPUBoostForPod_ref. destruct (getMatchingBoost σ pod m) as [b|] eqn:Hb.
  - by apply getMatchingBoost_Some in Hb.
  - exact (proj1 (getMatchingBoost_None _ _ _) Hb).
Qed.
End properties.

Section gauge_property.
Context `{QuantityLib} `{SelectorLib} `{AnnotationJSON} `{!PatchLib} `{MetricVecLaws} `{!PodClient}.
Context `{!PodClientBasics}.

(** The gauge of registered boosts follows the registrations: every
    step of a reachable manager changes the gauge of a namespace and the
    number of boosts registered in it by the same amount, except that
    deleting a boost that is not registered lowers the gauge by one. *)
Theorem gauge_follows_registrations client s m m' ns :
  s_nextBoost s = 0%nat → rtc mgr_step (NewManagerWithTicker client s) m → mgr_step m m' →
  let difference m := BoostConfigurations ns (s_metrics (m_go m)) -
    Z.of_nat (size (default ∅ (m_regularBoosts m !! ns))) in
  difference m' = difference m ∨
  ∃ n, GetRegularCPUBoost n ns m = None ∧ DeleteRegularCPUBoost ns n m = Done (tt, m') ∧
    difference m' = difference m - 1.
Proof. intros Hs Hr Hstep. apply drift_step; [by eapply reachable_inv|done]. Qed.
End gauge_property.

(** ** Witnesses *)

Module witness.
#[local] Existing Instances ConcreteQuantity.lib ConcreteQuantity.laws ConcreteSelector.lib
  ConcreteJSON.json ConcreteVec.lib ConcreteVec.laws json_patches server server_basics.
Import ConcreteQuantity.

Definition rt : Runtime := {| rt_order := λ _, order_fwd; rt_now := λ _, 0 |}.

(** A boosted pod the server has, labelled for the boost and matched by
    its selector. *)
Definition web_pod : Pod :=
  pod_set_Meta Boost.witness.boosted_pod
    (Some {[BoostLabelKey := "boost"; "app" := "web"]})
    (pod_Annotations Boost.witness.boosted_pod).

Definition start : GoState := {|
  s_pods := λ _, web_pod; s_nextPod := 0%nat; s_boosts := λ _, Boost.witness.a_boost;
  s_nextBoost := 0%nat;
  s_metrics := {| boostConfigurations := ∅; boostContainersTotal := ∅; boostContainersActive := ∅ |};
  s_world := {| stored := {[("demo", "web-1") := web_pod]}; refusals := [] |}
|}.

Definition boost_spec (name : string) : v1alpha1.StartupCPUBoost := {|
  v1alpha1.b_Meta := {| v1alpha1.om_Name := name; v1alpha1.om_Namespace := "demo";
    v1alpha1.om_UID := "1"; v1alpha1.om_Labels := None; v1alpha1.om_Annotations := None;
    v1alpha1.om_Finalizers := []; v1alpha1.om_DeletionTimestamp := None |};
  v1alpha1.b_Selector := ("app", ["web"]);
  v1alpha1.b_Spec := {| v1alpha1.spec_ResourcePolicy := {| v1alpha1.rp_ContainerPolicies := [] |};
    v1alpha1.spec_DurationPolicy := {| v1alpha1.dp_PodCondition := None; v1alpha1.dp_Fixed :=
      Some {| v1alpha1.fdp_Unit := "Seconds"; v1alpha1.fdp_Value := 60 |} |} |};
  v1alpha1.b_Status := {| v1alpha1.bs_ActiveContainerBoosts := 0;
    v1alpha1.bs_TotalContainerBoosts := 0; v1alpha1.bs_Conditions := [] |}
|}.

Definition built (name : string) (m : managerImpl) : managerImpl :=
  m_set_go (result_state (NewStartupCPUBoost (boost_spec name) false (m_go m)) (m_go m)) m.

(** An empty manager, one with an orphan, and one with a boost after that. *)
Definition m0 : managerImpl := NewManagerWithTicker true start.
Definition m1 : managerImpl := m_set_go (new_pod web_pod (m_go m0)) m0.
Definition m2 : managerImpl := result_state (Manager_UpsertPod rt 0%nat m1) m1.
Definition m3 : managerImpl :=
  result_state (AddRegularCPUBoost rt rt (Some 0%nat) (built "boost" m2)) (built "boost" m2).

Lemma reach_m2 : rtc mgr_step (NewManagerWithTicker true start) m2.
Proof.
  apply (rtc_l _ _ m1); [apply step_new_pod|]. apply rtc_once.
  apply (step_upsert m1 rt 0%nat (None, None)); [cbn; lia|]. reflexivity.
Defined.

Lemma reach_m3 : rtc mgr_step (NewManagerWithTicker true start) m3.
Proof.
  apply (rtc_r _ m2); [exact reach_m2|].
  apply (step_add m2 (boost_spec "boost") false 0%nat (m_go (built "boost" m2)) rt rt None).
  - reflexivity.
  - apply succeeds_result. vm_compute; reflexivity.
Defined.

Example manager_invariant_witness :
  Get "boost" "demo" (m_timedBoosts m3) = Some 0%nat ∧
  Get "web-1" "demo" (m_orphanedPods m2) = Some 0%nat ∧
  Get "web-1" "demo" (m_orphanedPods m3) = None ∧
  b_name (s_boosts (m_go m3) 0%nat) = "boost".
Proof.
  split_and!; [vm_compute; reflexivity..|].
  apply (manager_invariant true start m3 eq_refl reach_m3) with "demo". vm_compute; reflexivity.
Defined.

Example manager_calls_return_witness :
  ∃ m', DeleteRegularCPUBoost "demo" "boost" m3 = Done (tt, m') ∧
    GetRegularCPUBoost "boost" "demo" m' = None.
Proof.
  apply (proj1 (proj2 (manager_calls_return true start m3 rt rt eq_refl reach_m3))).
Defined.

Example upsert_pod_placement_witness :
  ∃ boost err m', Manager_UpsertPod rt 0%nat m3 = Done ((boost, err), m').
Proof.
  destruct (upsert_pod_placement true start m3 rt 0%nat eq_refl reach_m3)
    as (boost & err & m' & Hu & _); [vm_compute; lia|]. exists boost, err, m'. exact Hu.
Defined.

Example orphan_adoption_witness :
  ∃ err m', mapOrphanedPods rt 0%nat m2 = Done (err, m') ∧
    (impl_Matches (s_boosts (m_go m2) 0%nat) web_pod = true → err = None →
       Get "web-1" "demo" (m_orphanedPods m') = None).
Proof.
  destruct (orphan_adoption true start m2 rt 0%nat eq_refl reach_m2) as (err & m' & Hm & Hall).
  exists err, m'. split; [exact Hm|]. intros Hmat Herr.
  apply (Hall "web-1" "demo" 0%nat); [reflexivity|reflexivity|exact Hmat|exact Herr].
Defined.


Example gauge_follows_registrations_witness :
  let m' := result_state (DeleteRegularCPUBoost "demo" "other" m3) m3 in
  BoostConfigurations "demo" (s_metrics (m_go m3)) = 1 ∧
  (BoostConfigurations "demo" (s_metrics (m_go m')) -
     Z.of_nat (size (default ∅ (m_regularBoosts m' !! "demo"))) = 0 ∨
   BoostConfigurations "demo" (s_metrics (m_go m')) -
     Z.of_nat (size (default ∅ (m_regularBoosts m' !! "demo"))) = -1).
Proof.
  intros m'. split; [vm_compute; reflexivity|].
  destruct (gauge_follows_registrations true start m3 m' "demo" eq_refl reach_m3) as [Hd|(n & _ & _ & Hd)].
  - apply (step_delete _ "demo" "other"). reflexivity.
  - left. rewrite Hd. vm_compute; reflexivity.
  - right. rewrite Hd. vm_compute; reflexivity.
Defined.

(** Two boosts whose selectors match the pod. *)
Definition m4 : managerImpl :=
  result_state (AddRegularCPUBoost rt rt (Some 1%nat) (built "second" m3)) (built "second" m3).

(** Which boost a pod gets is decided by the iteration order of a map
    when more than one matches: with two matching boosts registered, two
    orders give two different boosts. *)
Theorem matching_boost_depends_on_order :
  ∃ b b', GetCPUBoostForPod_ref order_fwd web_pod m4 = Some b ∧
    GetCPUBoostForPod_ref order_rev web_pod m4 = Some b' ∧ b ≠ b'.
Proof.
  assert (GetCPUBoostForPod_ref order_fwd web_pod m4 = Some 1%nat ∧
    GetCPUBoostForPod_ref order_rev web_pod m4 = Some 0%nat ∨
    GetCPUBoostForPod_ref order_fwd web_pod m4 = Some 0%nat ∧
    GetCPUBoostForPod_ref order_rev web_pod m4 = Some 1%nat) as [[-> ->]|[-> ->]];
    [first [left; split; vm_compute; reflexivity|right; split; vm_compute; reflexivity]|..];
    by eexists _, _.
Qed.
End witness.
