(* ===== verification/Sections.v ===== *)
(** * The calls of the manager, section by section

    A call of the manager holds the manager's lock from its first to its
    last statement, but the boosts have locks of their own: between two
    method calls on a boost, the check loop may revert a pod of it.  Here
    the body of each call is a tree of atomic sections, one per method call
    on a boost and one per access to a field or a collection, so that other
    goroutines can run between any two of them.  Run alone, each body does
    what the definition of Manager does ([run_body]). *)

From S2P Require Import Prelude Quantities Kube Api Duration Resource BoostPod Metrics Client Boost.
From S2P Require Import Namespaced Qos BoostServer PodWebhook ConcreteServer Manager.

(** ** Programs of atomic sections *)

Inductive prog (S A : Type) : Type :=
  | Stop (a : A)
  | Atomic (B : Type) (f : M S B) (k : B → prog S A).
Arguments Stop {S A} _.
Arguments Atomic {S A B} _ _.

Fixpoint then_ {S A B} (r : prog S A) (k : A → prog S B) : prog S B :=
  match r with
  | Stop a => k a
  | Atomic f g => Atomic f (λ x, then_ (g x) k)
  end.

Notation "'sec!' x ':=' f 'in' k" := (Atomic f (λ x, k))
  (at level 10, x pattern, f at level 200, k at level 200) : go_scope.
Notation "'call!' x ':=' r 'in' k" := (then_ r (λ x, k))
  (at level 10, x pattern, r at level 200, k at level 200) : go_scope.

(** Without interference the sections run one after the other. *)
Fixpoint run {S A} (r : prog S A) : M S A :=
  match r with
  | Stop a => ret a
  | Atomic f k => λ s, match f s with Done (x, s') => run (k x) s' | Panic msg => Panic msg end
  end.

Lemma run_then {S A B} (r : prog S A) (k : A → prog S B) s :
  run (then_ r k) s = bind (run r) (λ a, run (k a)) s.
Proof.
  revert s. induction r as [a|C f g IH]; intros s; [done|]. cbn. unfold bind.
  destruct (f s) as [[x s']|]; [|done]. cbn. by rewrite IH.
Qed.

Section bodies.
Context `{QuantityLib} `{SelectorLib} `{AnnotationJSON} `{!PatchLib} `{MetricVecLib} `{!PodClient}.

#[local] Abbreviation P := (prog managerImpl).

(** ** Adopting pods *)

Fixpoint map_orphans_body (rt : Runtime) (b : BoostRef) (pods : list PodRef) (errs : list error)
    (mapped : list PodRef) : P (list error * list PodRef) :=
  match pods with
  | [] => Stop (errs, mapped)
  | p :: pods =>
      sec! matches := lift (Matches b p) in
      if matches : bool then
        sec! err := lift (UpsertPod (rt_order rt 0) (rt_order rt 1) (rt_now rt 0) b p) in
        match err with
        | Some err => map_orphans_body (rt_after 2 rt) b pods (errs ++ [err]) mapped
        | None => map_orphans_body (rt_after 2 rt) b pods errs (mapped ++ [p])
        end
      else map_orphans_body (rt_after 2 rt) b pods errs mapped
  end.

Fixpoint delete_orphans_body (pods : list PodRef) : P unit :=
  match pods with
  | [] => Stop tt
  | p :: pods => sec! _ := delete_orphan p in delete_orphans_body pods
  end.

Definition mapOrphanedPods_body (rt : Runtime) (b : BoostRef) : P (option error) :=
  sec! namespace := lift (Namespace b) in
  sec! namespaceOrphanedPods := gets (λ m, List (rt_order rt 0) namespace (m_orphanedPods m)) in
  call! (errs, mappedOrphanedPods) := map_orphans_body (rt_after 1 rt) b namespaceOrphanedPods [] [] in
  call! _ := delete_orphans_body mappedOrphanedPods in
  Stop (errors_Join errs).

(** Between looking a listed pod up and upserting it, the check may run. *)
Fixpoint sync_pods_body (rt : Runtime) (b : BoostRef) (items : list Pod) (errs : list error) :
    P (list error) :=
  match items with
  | [] => Stop errs
  | pod :: items =>
      sec! tracked := lift (BoostPod b (pod_Name pod)) in
      match tracked with
      | Some _ => sync_pods_body (rt_after 2 rt) b items errs
      | None =>
          sec! p := lift (alloc_pod pod) in
          sec! err := lift (UpsertPod (rt_order rt 0) (rt_order rt 1) (rt_now rt 0) b p) in
          match err with
          | Some err =>
              sync_pods_body (rt_after 2 rt) b items
                (errs ++ ["failed to sync pod " +:+ pod_Name pod +:+ ": " +:+ err])
          | None => sync_pods_body (rt_after 2 rt) b items errs
          end
      end
  end.

Definition syncBoostPods_body (rt : Runtime) (b : BoostRef) : P (option error) :=
  sec! hasClient := gets m_client in
  if negb hasClient then Stop None else
  sec! namespace := lift (Namespace b) in
  sec! name := lift (Name b) in
  sec! listed := gets (λ m, client_ListPods (s_world (m_go m)) namespace BoostLabelKey name) in
  match listed with
  | inl err => Stop (Some ("failed to list pods for boost " +:+ namespace +:+ "/" +:+ name +:+ ": " +:+ err))
  | inr items =>
      if decide (length items = 0%nat) then Stop None else
      call! errs := sync_pods_body rt b items [] in
      Stop (errors_Join errs)
  end.

Definition add_timed_body (b : BoostRef) : P unit :=
  sec! policies := lift (DurationPolicies b) in
  match policies !! duration.FixedDurationPolicyName with
  | Some _ =>
      sec! name := lift (Name b) in
      sec! namespace := lift (Namespace b) in
      sec! _ := modify (λ m, m_set_timed (Put name namespace b (m_timedBoosts m)) m) in
      Stop tt
  | None => Stop tt
  end.

Definition postProcessNewBoost_body (rt rt' : Runtime) (b : BoostRef) : P unit :=
  call! _ := add_timed_body b in
  call! _ := mapOrphanedPods_body rt b in
  call! _ := syncBoostPods_body rt' b in
  Stop tt.

(** ** The exported methods *)

Definition AddRegularCPUBoost_body (rt rt' : Runtime) (boost : option BoostRef) : P (option error) :=
  match boost with
  | None => Atomic (panic "invalid memory address or nil pointer dereference") Stop
  | Some b =>
      sec! name := lift (Name b) in
      sec! namespace := lift (Namespace b) in
      sec! existing := gets (λ m, Get name namespace (m_regularBoosts m)) in
      match existing with
      | Some _ => Stop (Some errStartupCPUBoostAlreadyExists)
      | None =>
          sec! _ := modify (λ m, m_set_regular (Put name namespace b (m_regularBoosts m)) m) in
          sec! _ := lift (metric (NewBoostConfiguration namespace)) in
          call! _ := postProcessNewBoost_body rt rt' b in
          Stop None
      end
  end.

Definition DeleteRegularCPUBoost_body (namespace name : string) : P unit :=
  sec! _ := modify (λ m, m_set_regular (Delete name namespace (m_regularBoosts m)) m) in
  sec! _ := modify (λ m, m_set_timed (Delete name namespace (m_timedBoosts m)) m) in
  sec! _ := lift (metric (DeleteBoostConfiguration namespace)) in
  Stop tt.

Definition UpdateRegularCPUBoost_body (rt rt' : Runtime) (spec : v1alpha1.StartupCPUBoost) :
    P (option error) :=
  sec! existing := gets (λ m, Get (v1alpha1.om_Name (v1alpha1.b_Meta spec))
    (v1alpha1.om_Namespace (v1alpha1.b_Meta spec)) (m_regularBoosts m)) in
  match existing with
  | None => Stop None
  | Some b =>
      sec! err := lift (UpdateFromSpec b spec) in
      match err with
      | Some err => Stop (Some err)
      | None => call! _ := postProcessNewBoost_body rt rt' b in Stop None
      end
  end.

(** The loop of [getMatchingBoost]; every boost reads the labels of the pod
    behind the pointer again. *)
Fixpoint first_match (boosts : list BoostRef) (p : PodRef) : P (option BoostRef) :=
  match boosts with
  | [] => Stop None
  | b :: boosts =>
      sec! matches := lift (Matches b p) in
      if matches : bool then Stop (Some b) else first_match boosts p
  end.

Definition getMatchingBoost_body (σ : RangeOrder) (p : PodRef) : P (option BoostRef) :=
  sec! pod := lift (deref_pod p) in
  sec! namespaceBoosts := gets (λ m, List σ (pod_Namespace pod) (m_regularBoosts m)) in
  first_match namespaceBoosts p.

Definition Manager_UpsertPod_body (rt : Runtime) (p : PodRef) : P (option BoostRef * option error) :=
  call! boost := getMatchingBoost_body (rt_order rt 0) p in
  match boost with
  | Some b =>
      sec! err := lift (UpsertPod (rt_order rt 1) (rt_order rt 2) (rt_now rt 0) b p) in
      match err with
      | None => sec! _ := delete_orphan p in Stop (Some b, None)
      | Some err => Stop (Some b, Some err)
      end
  | None =>
      sec! pod := lift (deref_pod p) in
      sec! _ := modify (λ m, m_set_orphaned
            (Put (pod_Name pod) (pod_Namespace pod) p (m_orphanedPods m)) m) in
      Stop (None, None)
  end.

Definition Manager_DeletePod_body (rt : Runtime) (p : PodRef) : P (option BoostRef * option error) :=
  call! boost := getMatchingBoost_body (rt_order rt 0) p in
  match boost with
  | Some b =>
      sec! err := lift (DeletePod (rt_order rt 1) b p) in
      Stop (Some b, err)
  | None =>
      sec! _ := delete_orphan p in
      Stop (None, None)
  end.

(** The two methods that only read; [GetCPUBoostForPod] gets the pod the
    webhook decoded, which no other goroutine has. *)
Definition GetRegularCPUBoost_body (name namespace : string) : P (option BoostRef) :=
  sec! boost := gets (GetRegularCPUBoost name namespace) in
  Stop boost.

Fixpoint first_match_value (boosts : list BoostRef) (pod : Pod) : P (option BoostRef) :=
  match boosts with
  | [] => Stop None
  | b :: boosts =>
      sec! matches := gets (λ m, impl_Matches (s_boosts (m_go m) b) pod) in
      if matches : bool then Stop (Some b) else first_match_value boosts pod
  end.

Definition GetCPUBoostForPod_body (σ : RangeOrder) (pod : Pod) : P (option BoostRef) :=
  sec! namespaceBoosts := gets (λ m, List σ (pod_Namespace pod) (m_regularBoosts m)) in
  first_match_value namespaceBoosts pod.

(** The part of [validateTimePolicyBoosts] that runs under the lock. *)
Definition timeBoosts_body (σ : RangeOrder) (τ : string → RangeOrder) : P (list BoostRef) :=
  sec! timeBoosts := gets (λ m, ListAll σ τ (m_timedBoosts m)) in
  Stop timeBoosts.

(** ** The calls *)

Inductive Call : Type :=
  | CallAdd (rt rt' : Runtime) (b : BoostRef)
  | CallDelete (namespace name : string)
  | CallUpdate (rt rt' : Runtime) (spec : v1alpha1.StartupCPUBoost)
  | CallUpsertPod (rt : Runtime) (p : PodRef)
  | CallDeletePod (rt : Runtime) (p : PodRef)
  | CallGet (name namespace : string)
  | CallGetForPod (σ : RangeOrder) (pod : Pod)
  | CallTimeBoosts (σ : RangeOrder) (τ : string → RangeOrder).

Definition answer (c : Call) : Type :=
  match c with
  | CallAdd _ _ _ | CallUpdate _ _ _ => option error
  | CallDelete _ _ => unit
  | CallUpsertPod _ _ | CallDeletePod _ _ => option BoostRef * option error
  | CallGet _ _ | CallGetForPod _ _ => option BoostRef
  | CallTimeBoosts _ _ => list BoostRef
  end.

Definition body (c : Call) : P (answer c) :=
  match c with
  | CallAdd rt rt' b => AddRegularCPUBoost_body rt rt' (Some b)
  | CallDelete namespace name => DeleteRegularCPUBoost_body namespace name
  | CallUpdate rt rt' spec => UpdateRegularCPUBoost_body rt rt' spec
  | CallUpsertPod rt p => Manager_UpsertPod_body rt p
  | CallDeletePod rt p => Manager_DeletePod_body rt p
  | CallGet name namespace => GetRegularCPUBoost_body name namespace
  | CallGetForPod σ pod => GetCPUBoostForPod_body σ pod
  | CallTimeBoosts σ τ => timeBoosts_body σ τ
  end.

(** The same calls as one step each. *)
Definition whole (c : Call) : M managerImpl (answer c) :=
  match c with
  | CallAdd rt rt' b => AddRegularCPUBoost rt rt' (Some b)
  | CallDelete namespace name => DeleteRegularCPUBoost namespace name
  | CallUpdate rt rt' spec => UpdateRegularCPUBoost rt rt' spec
  | CallUpsertPod rt p => Manager_UpsertPod rt p
  | CallDeletePod rt p => Manager_DeletePod rt p
  | CallGet name namespace => gets (GetRegularCPUBoost name namespace)
  | CallGetForPod σ pod => gets (GetCPUBoostForPod_ref σ pod)
  | CallTimeBoosts σ τ => gets (λ m, ListAll σ τ (m_timedBoosts m))
  end.
End bodies.

(** ** Run alone, a body is the method *)

Section alone.
Context `{QuantityLib} `{SelectorLib} `{AnnotationJSON} `{!PatchLib} `{MetricVecLib} `{!PodClient}.
Implicit Types (m : managerImpl) (b : BoostRef) (p : PodRef).

Lemma lift_bind {A B} (f : G A) (k : A → G B) m :
  lift (bind f k) m = bind (lift f) (λ a, lift (k a)) m.
Proof.
  unfold lift, bind. destruct (f (m_go m)) as [[a s]|]; [|done]. cbn.
  by destruct (k a s) as [[x s']|].
Qed.

(** The call of a body that behaves like [f]. *)
Lemma run_call {A B} (r : prog managerImpl A) (f : MM A) (k : A → prog managerImpl B) (g : A → MM B) m :
  (∀ m, run r m = f m) → (∀ a m, run (k a) m = g a m) → run (then_ r k) m = bind f g m.
Proof. intros Hr Hk. rewrite run_then. unfold bind. rewrite Hr. by destruct (f m) as [[a m']|]. Qed.

Lemma run_sec {A B} (f : MM A) (k : A → prog managerImpl B) (g : A → MM B) m :
  (∀ a m, run (k a) m = g a m) → run (Atomic f k) m = bind f g m.
Proof. intros Hk. cbn. unfold bind. by destruct (f m) as [[a m']|]. Qed.

Lemma run_map_orphans rt b pods errs mapped m :
  run (map_orphans_body rt b pods errs mapped) m = lift (map_orphans rt b pods errs mapped) m.
Proof.
  revert rt errs mapped m. induction pods as [|p pods IH]; intros rt errs mapped m; cbn [map_orphans_body map_orphans].
  { unfold lift, ret. by rewrite m_set_go_id. }
  rewrite lift_bind. apply run_sec. intros [] m1; [|apply IH].
  rewrite lift_bind. apply run_sec. intros [e|] m2; apply IH.
Qed.

Lemma run_sync_pods rt b items errs m :
  run (sync_pods_body rt b items errs) m = lift (sync_pods rt b items errs) m.
Proof.
  revert rt errs m. induction items as [|pod items IH]; intros rt errs m; cbn [sync_pods_body sync_pods].
  { unfold lift, ret. by rewrite m_set_go_id. }
  rewrite lift_bind. apply run_sec. intros [p|] m1; [apply IH|].
  rewrite lift_bind. apply run_sec. intros p m2.
  rewrite lift_bind. apply run_sec. intros [e|] m3; apply IH.
Qed.

Lemma run_delete_orphans pods m : run (delete_orphans_body pods) m = delete_orphans pods m.
Proof. revert m. induction pods as [|p pods IH]; intros m; [done|]. cbn. apply IH. Qed.

Lemma run_mapOrphanedPods rt b m : run (mapOrphanedPods_body rt b) m = mapOrphanedPods rt b m.
Proof.
  apply run_sec. intros ns m1. apply run_sec. intros ps m2.
  apply run_call; [apply run_map_orphans|]. intros [errs mapped] m3.
  by apply run_call; [apply run_delete_orphans|].
Qed.

Lemma run_syncBoostPods rt b m : run (syncBoostPods_body rt b) m = syncBoostPods rt b m.
Proof.
  apply run_sec. intros [] m1; [|done]. cbn [negb]. do 2 (apply run_sec; intros ? ?).
  apply run_sec. intros [e|items] m4; [done|]. case_decide; [done|].
  by apply run_call; [apply run_sync_pods|].
Qed.

Lemma run_postProcessNewBoost rt rt' b m :
  run (postProcessNewBoost_body rt rt' b) m = postProcessNewBoost rt rt' b m.
Proof.
  unfold postProcessNewBoost_body, add_timed_body. cbn [then_]. apply run_sec. intros policies m1.
  apply run_call.
  - intros m2. destruct (_ !! _); [|done]. by do 2 (apply run_sec; intros ? ?).
  - intros _ m2. apply run_call; [apply run_mapOrphanedPods|]. intros _ m3.
    by apply run_call; [apply run_syncBoostPods|].
Qed.

Lemma run_AddRegularCPUBoost rt rt' boost m :
  run (AddRegularCPUBoost_body rt rt' boost) m = AddRegularCPUBoost rt rt' boost m.
Proof.
  destruct boost as [b|]; [|done]. do 2 (apply run_sec; intros ? ?). apply run_sec. intros [b'|] m3; [done|].
  do 2 (apply run_sec; intros [] ?). by apply run_call; [apply run_postProcessNewBoost|].
Qed.

Lemma run_UpdateRegularCPUBoost rt rt' spec m :
  run (UpdateRegularCPUBoost_body rt rt' spec) m = UpdateRegularCPUBoost rt rt' spec m.
Proof.
  apply run_sec. intros [b|] m1; [|done]. apply run_sec. intros [e|] m2; [done|].
  by apply run_call; [apply run_postProcessNewBoost|].
Qed.

Lemma run_first_match boosts p m :
  run (first_match boosts p) m =
    Done (find (λ b, impl_Matches (s_boosts (m_go m) b) (s_pods (m_go m) p)) boosts, m).
Proof.
  revert m. induction boosts as [|b boosts IH]; intros m; [done|]. cbn. rewrite m_set_go_id.
  by destruct (impl_Matches _ _).
Qed.

Lemma run_first_match_value boosts pod m :
  run (first_match_value boosts pod) m =
    Done (find (λ b, impl_Matches (s_boosts (m_go m) b) pod) boosts, m).
Proof.
  revert m. induction boosts as [|b boosts IH]; intros m; [done|]. cbn.
  by destruct (impl_Matches _ _).
Qed.

Lemma run_getMatchingBoost σ p m :
  run (getMatchingBoost_body σ p) m = Done (getMatchingBoost σ (s_pods (m_go m) p) m, m).
Proof. cbn. rewrite m_set_go_id. apply run_first_match. Qed.

Lemma run_Manager_UpsertPod rt p m : run (Manager_UpsertPod_body rt p) m = Manager_UpsertPod rt p m.
Proof.
  unfold Manager_UpsertPod_body, Manager_UpsertPod, deref_pod. rewrite run_then.
  unfold bind at 1. rewrite run_getMatchingBoost, bind_lift_gets, bind_gets.
  destruct (getMatchingBoost _ _ m) as [b|].
  - by apply run_sec; intros [e|] m1.
  - cbn. by rewrite m_set_go_id.
Qed.

Lemma run_Manager_DeletePod rt p m : run (Manager_DeletePod_body rt p) m = Manager_DeletePod rt p m.
Proof.
  unfold Manager_DeletePod_body, Manager_DeletePod, deref_pod. rewrite run_then.
  unfold bind at 1. rewrite run_getMatchingBoost, bind_lift_gets, bind_gets.
  by destruct (getMatchingBoost _ _ m) as [b|].
Qed.

(** Without interference, the sections of every call run to the result
    and the state that the call has as one step, panics included. *)
Theorem run_body c m : run (body c) m = whole c m.
Proof.
  destruct c; cbn [body whole].
  - apply run_AddRegularCPUBoost.
  - done.
  - apply run_UpdateRegularCPUBoost.
  - apply run_Manager_UpsertPod.
  - apply run_Manager_DeletePod.
  - done.
  - apply run_first_match_value.
  - done.
Qed.
End alone.
