(* ===== verification/Interleaving.v ===== *)
(** * Calls of the manager interleaved with the check

    The bodies of Sections under interference: while a call holds the
    manager's lock, goroutines that do not need it go on.  The workers of
    the check revert pods, the controller builds boosts, informers and the
    webhook make new pods, the API server changes.  [rely] bounds what such
    steps can do, [safe] is a program logic that admits them between any two
    sections and records what the call has done ([did]), and [call_post] is
    what each call promises. *)

From stdpp Require Import functions.
From S2P Require Import Prelude Quantities Kube Api Duration Resource BoostPod Metrics Client Boost.
From S2P Require Import Namespaced Qos BoostServer PodWebhook ConcreteServer Manager Sections.

Section interference.
Context `{QuantityLib} `{SelectorLib} `{AnnotationJSON} `{!PatchLib} `{MetricVecLib} `{!PodClient}.
Context `{!PodClientBasics}.
Implicit Types (m : managerImpl) (s : GoState) (b : BoostRef) (p : PodRef).

(** ** What runs without the manager's lock *)

Inductive env_step : managerImpl → managerImpl → Prop :=
  | env_world m w : env_step m (m_set_go (set_world w (m_go m)) m)
  | env_new_pod m pod : env_step m (m_set_go (new_pod pod (m_go m)) m)
  | env_new_boost m spec legacy r s :
      NewStartupCPUBoost spec legacy (m_go m) = Done (r, s) → env_step m (m_set_go s m)
  | env_running m r : env_step m (setRunning r m)
  | env_reconciler m r : env_step m (SetStartupCPUBoostReconciler r m)
  | env_revert m σ b p err s :
      RevertResources σ b p (m_go m) = Done (err, s) → env_step m (m_set_go s m).

(** ** A bound on it *)

Definition all_tracked s : Prop := ∀ b, (b < s_nextBoost s)%nat → tracked_ok s b.

Record interferes s s' : Prop := {
  itf_identity b : (b < s_nextBoost s)%nat → same_identity (s_boosts s b) (s_boosts s' b);
  itf_nextPod : (s_nextPod s ≤ s_nextPod s')%nat;
  itf_nextBoost : (s_nextBoost s ≤ s_nextBoost s')%nat;
  itf_gauge : boostConfigurations (s_metrics s') = boostConfigurations (s_metrics s);
  itf_key p : (p < s_nextPod s)%nat → same_key (s_pods s p) (s_pods s' p);
  itf_tracked : all_tracked s → all_tracked s'
}.

#[export] Instance interferes_preorder : PreOrder interferes.
Proof.
  split; [by intros s|].
  intros s1 s2 s3 [Hi Hp Hb Hg Hk Ht] [Hi' Hp' Hb' Hg' Hk' Ht']. split; [|lia|lia|congruence| |tauto].
  - intros b Hlt. specialize (Hi b Hlt). specialize (Hi' b ltac:(lia)).
    unfold same_identity in *. naive_solver congruence.
  - intros p Hlt. destruct (Hk p Hlt), (Hk' p ltac:(lia)). split; congruence.
Qed.

Lemma keeps_interferes b s s' : keeps b s s' → interferes s s'.
Proof.
  intros Hk. split; [|apply Hk| |apply Hk|apply Hk|].
  - intros b' _. by eapply keeps_identity_all.
  - by rewrite (keeps_nextBoost _ _ _ Hk).
  - intros Ht b'. rewrite (keeps_nextBoost _ _ _ Hk). intros Hb%Ht. by eapply keeps_tracked_all.
Qed.

Lemma new_boost_interferes i s : b_pods i = ∅ → interferes s (new_boost i s).
Proof.
  intros Hi. assert (∀ b, (b < s_nextBoost s)%nat → s_boosts (new_boost i s) b = s_boosts s b) as Hold.
  { intros b Hb. cbn. apply fn_lookup_insert_ne. lia. }
  split; try done.
  - intros b Hb. by rewrite Hold.
  - cbn. lia.
  - intros Ht b Hb n p. destruct (decide (b = s_nextBoost s)) as [->|Hne].
    + cbn. by rewrite fn_lookup_insert, Hi, lookup_empty.
    + assert (b < s_nextBoost s)%nat as Hlt by (cbn in Hb; lia). rewrite Hold by done. by apply Ht.
Qed.

(** The collections and the settings stay. *)
Record rely m m' : Prop := {
  rely_client : m_client m' = m_client m;
  rely_max : m_maxGoroutines m' = m_maxGoroutines m;
  rely_timed : m_timedBoosts m' = m_timedBoosts m;
  rely_regular : m_regularBoosts m' = m_regularBoosts m;
  rely_orphaned : m_orphanedPods m' = m_orphanedPods m;
  rely_go : interferes (m_go m) (m_go m')
}.

#[export] Instance rely_preorder : PreOrder rely.
Proof. split; [by intros m|]. intros m1 m2 m3 [] []. split; try congruence. by etrans. Qed.

Lemma interferes_rely m s : interferes (m_go m) s → rely m (m_set_go s m).
Proof. by split. Qed.

Lemma keeps_rely b m s : keeps b (m_go m) s → rely m (m_set_go s m).
Proof. intros Hk. by eapply interferes_rely, keeps_interferes. Qed.

Lemma NewStartupCPUBoost_interferes spec legacy s r s' :
  NewStartupCPUBoost spec legacy s = Done (r, s') → interferes s s'.
Proof.
  destruct r as [e|b].
  - unfold NewStartupCPUBoost. destruct (LabelSelectorAsSelector _); [by intros [= _ ->]|].
    destruct (mapResourcePolicy _); [by intros [= _ ->]|done].
  - intros (_ & i & -> & Hi)%NewStartupCPUBoost_new. by apply new_boost_interferes.
Qed.

Lemma env_rely m m' : env_step m m' → rely m m'.
Proof.
  intros [m1 w|m1 pod|m1 spec legacy r s Hn|m1 r|m1 r|m1 σ b p err s Hr].
  - apply (keeps_rely 0%nat). by split.
  - apply (keeps_rely 0%nat), alloc_keeps.
  - by eapply interferes_rely, NewStartupCPUBoost_interferes.
  - by split.
  - by split.
  - destruct (revertResources_keeps σ b p (m_go m1)) as (e & s1 & Hr1 & Hk).
    unfold RevertResources in Hr. rewrite Hr in Hr1. injection Hr1 as <- <-. by eapply keeps_rely.
Qed.

(** ** Programs that are safe under interference *)

(** What a call has done so far: the manager before and after each of its
    sections, in order.  [did h f x]: one of them was [f], with result [x]. *)
#[local] Abbreviation history := (list (managerImpl * managerImpl)).

Definition did {A} (h : history) (f : M managerImpl A) (x : A) : Prop :=
  ∃ m1 m2, (m1, m2) ∈ h ∧ f m1 = Done (x, m2).

Lemma did_mono {A} h h' (f : M managerImpl A) x : did h f x → h ⊆ h' → did h' f x.
Proof. intros (m1 & m2 & Hin & Hf) Hh. exists m1, m2. auto. Qed.

Lemma did_last {A} h (f : M managerImpl A) x m1 m2 : f m1 = Done (x, m2) → did (h ++ [(m1, m2)]) f x.
Proof. intros Hf. exists m1, m2. split; [|done]. apply elem_of_app. right. by left. Qed.

Lemma did_read {A} h (f : managerImpl → A) m : did (h ++ [(m, m)]) (gets f) (f m).
Proof. by apply did_last. Qed.

Lemma did_read_go {A} h (f : GoState → A) m : did (h ++ [(m, m)]) (lift (gets f)) (f (m_go m)).
Proof. apply did_last. unfold lift. cbn. by rewrite m_set_go_id. Qed.

(** Other goroutines may run before each section and before the call
    returns; no section panics and the result satisfies [Q], which can speak
    of the history [h]. *)
Fixpoint safe {A} (r : prog managerImpl A) (Q : A → history → managerImpl → Prop) (h : history) m : Prop :=
  match r with
  | Stop a => ∀ m', rely m m' → Q a h m'
  | Atomic f k =>
      ∀ m', rely m m' → ∃ x m'', f m' = Done (x, m'') ∧ safe (k x) Q (h ++ [(m', m'')]) m''
  end.

Lemma safe_stable {A} (r : prog managerImpl A) Q h m m' : rely m m' → safe r Q h m → safe r Q h m'.
Proof.
  intros Hm. destruct r as [a|B f k]; cbn; intros Hs m'' Hm'; apply Hs; by etrans.
Qed.

(** A history only grows. *)
Lemma safe_mono {A} (r : prog managerImpl A) (Q Q' : A → history → managerImpl → Prop) h m :
  safe r Q h m → (∀ a h' m', h ⊆ h' → Q a h' m' → Q' a h' m') → safe r Q' h m.
Proof.
  intros Hs HQ. revert h m Hs HQ. induction r as [a|B f k IH]; cbn; intros h m Hs HQ m' Hm; [by apply HQ, Hs|].
  destruct (Hs m' Hm) as (x & m'' & Hf & Hk). exists x, m''. split; [done|]. apply IH; [done|].
  intros a h' m1 Hh. apply HQ. set_solver.
Qed.

Lemma safe_then {A B} (r : prog managerImpl A) (k : A → prog managerImpl B) Q h m :
  safe r (λ a, safe (k a) Q) h m → safe (then_ r k) Q h m.
Proof.
  revert h m. induction r as [a|C f g IH]; cbn; intros h m Hs; [by apply Hs|]. intros m' Hm.
  destruct (Hs m' Hm) as (x & m'' & Hf & Hk). exists x, m''. split; [done|]. by apply IH.
Qed.

(** A call inside a call. *)
Lemma safe_call {A B} (r : prog managerImpl A) (k : A → prog managerImpl B)
    (R : A → history → managerImpl → Prop) Q h m :
  safe r R h m → (∀ a h' m', h ⊆ h' → R a h' m' → safe (k a) Q h' m') → safe (then_ r k) Q h m.
Proof. intros Hr Hk. apply safe_then. by eapply safe_mono. Qed.

(** A section that only reads. *)
Lemma safe_gets {A B} (f : managerImpl → B) (k : B → prog managerImpl A) Q h m :
  (∀ m', rely m m' → safe (k (f m')) Q (h ++ [(m', m')]) m') → safe (Atomic (gets f) k) Q h m.
Proof. intros Hk m' Hm. eexists _, _. split; [reflexivity|]. by apply Hk. Qed.

Lemma safe_lift_gets {A B} (f : GoState → B) (k : B → prog managerImpl A) Q h m :
  (∀ m', rely m m' → safe (k (f (m_go m'))) Q (h ++ [(m', m')]) m') →
  safe (Atomic (lift (gets f)) k) Q h m.
Proof.
  intros Hk m' Hm. eexists _, _. split; [reflexivity|]. rewrite m_set_go_id. by apply Hk.
Qed.

Lemma safe_modify {A} (f : managerImpl → managerImpl) (k : unit → prog managerImpl A) Q h m :
  (∀ m', rely m m' → safe (k tt) Q (h ++ [(m', f m')]) (f m')) → safe (Atomic (modify f) k) Q h m.
Proof. intros Hk m' Hm. eexists _, _. split; [reflexivity|]. by apply Hk. Qed.
End interference.

(** Use a specification of the program at hand; compose interference. *)
Tactic Notation "safe_use" uconstr(spec) := eapply safe_mono; [apply spec; try done|cbn beta].
Ltac chain := first
  [ reflexivity | assumption
  | match goal with Hx : ?R ?x ?y |- ?R ?x _ => apply (transitivity Hx); chain end ].
Ltac by_rely := cbn beta in *; chain.

(** ** The calls under interference *)

Section calls.
Context `{QuantityLib} `{SelectorLib} `{AnnotationJSON} `{!PatchLib} `{MetricVecLib} `{!PodClient}.
Context `{!PodClientBasics}.
Implicit Types (m : managerImpl) (s : GoState) (b : BoostRef) (p : PodRef).

#[local] Abbreviation history := (list (managerImpl * managerImpl)).

(** In the course of [h], boost [b] was asked whether it matches [p] and
    answered [r]; asked and answered yes, it was handed the pod, with result
    [err]. *)
Definition asked b p (r : bool) (h : history) : Prop := did h (lift (Matches b p)) r.

Definition handed b p (err : option error) (h : history) : Prop :=
  asked b p true h ∧ ∃ σ σ' now, did h (lift (UpsertPod σ σ' now b p)) err.

Definition dropped b p (h : history) : Prop :=
  asked b p true h ∧ ∃ σ, did h (lift (DeletePod σ b p)) None.

Lemma asked_mono b p r h h' : asked b p r h → h ⊆ h' → asked b p r h'.
Proof. apply did_mono. Qed.

Lemma handed_mono b p err h h' : handed b p err h → h ⊆ h' → handed b p err h'.
Proof.
  intros [Ha (σ & σ' & now & Hu)] Hh. split; [by eapply asked_mono|]. exists σ, σ', now. by eapply did_mono.
Qed.

(** The methods of a boost that a call uses interfere no more than the
    check does. *)
Lemma safe_UpsertPod {A} σ σ' now b p (k : option error → prog managerImpl A) Q h m :
  (p < s_nextPod (m_go m))%nat →
  (∀ err m1 s2, rely m m1 → did (h ++ [(m1, m_set_go s2 m1)]) (lift (UpsertPod σ σ' now b p)) err →
     rely m1 (m_set_go s2 m1) → safe (k err) Q (h ++ [(m1, m_set_go s2 m1)]) (m_set_go s2 m1)) →
  safe (Atomic (lift (UpsertPod σ σ' now b p)) k) Q h m.
Proof.
  intros Hp Hk m' Hm. pose proof (itf_nextPod _ _ (rely_go _ _ Hm)) as Hle.
  destruct (UpsertPod_keeps σ σ' now b p (m_go m')) as (err & s & Hu & Hkeep & _); [lia|].
  assert (lift (UpsertPod σ σ' now b p) m' = Done (err, m_set_go s m')) as Hl by (unfold lift; by rewrite Hu).
  exists err, (m_set_go s m'). split; [done|]. apply Hk; [done|by apply did_last|]. by eapply keeps_rely.
Qed.

Lemma safe_DeletePod {A} σ b p (k : option error → prog managerImpl A) Q h m :
  (∀ m1 s2, rely m m1 → did (h ++ [(m1, m_set_go s2 m1)]) (lift (DeletePod σ b p)) None →
     rely m1 (m_set_go s2 m1) → safe (k None) Q (h ++ [(m1, m_set_go s2 m1)]) (m_set_go s2 m1)) →
  safe (Atomic (lift (DeletePod σ b p)) k) Q h m.
Proof.
  intros Hk m' Hm. destruct (DeletePod_keeps σ b p (m_go m')) as (s & Hd & Hkeep & _).
  assert (lift (DeletePod σ b p) m' = Done (None, m_set_go s m')) as Hl by (unfold lift; by rewrite Hd).
  exists None, (m_set_go s m'). split; [done|]. apply Hk; [done|by apply did_last|]. by eapply keeps_rely.
Qed.

Lemma safe_alloc_pod {A} pod (k : PodRef → prog managerImpl A) Q h m :
  (∀ p h' m', h ⊆ h' → did h' (lift (alloc_pod pod)) p → rely m m' → (p < s_nextPod (m_go m'))%nat →
     safe (k p) Q h' m') →
  safe (Atomic (lift (alloc_pod pod)) k) Q h m.
Proof.
  intros Hk m' Hm. eexists _, _. split; [reflexivity|]. apply Hk; [set_solver|by apply did_last| |cbn; lia].
  etrans; [exact Hm|]. apply (keeps_rely 0%nat), alloc_keeps.
Qed.

(** The boost does not match the pod, or it reported an error for it. *)
Definition refused b p (h : history) : Prop :=
  asked b p false h ∨ ∃ e, handed b p (Some e) h.

Lemma refused_mono b p h h' : refused b p h → h ⊆ h' → refused b p h'.
Proof.
  intros [Ha|[e Hh]] Hsub; [left; by eapply asked_mono|]. right. exists e. by eapply handed_mono.
Qed.

Lemma map_orphans_safe rt b pods errs mapped h m :
  Forall (λ p, (p < s_nextPod (m_go m))%nat) pods →
  safe (map_orphans_body rt b pods errs mapped) (λ r h' m', rely m m' ∧ mapped ⊆ r.2 ∧
    (∀ p, p ∈ pods → p ∈ r.2 ∨ refused b p h') ∧
    ∀ p, p ∈ r.2 → p ∈ mapped ∨ p ∈ pods ∧ handed b p None h') h m.
Proof.
  revert rt errs mapped h m. induction pods as [|p pods IH]; intros rt errs mapped h m Hall.
  { intros m' Hm. split_and!; [done|done|by intros p ?%not_elem_of_nil|]. by left. }
  apply Forall_cons in Hall as [Hp Hall]. cbn [map_orphans_body].
  assert (∀ m', rely m m' → Forall (λ p, (p < s_nextPod (m_go m'))%nat) pods) as Hall'.
  { intros m' Hm. eapply Forall_impl; [exact Hall|]. intros q Hq. cbn in Hq.
    pose proof (itf_nextPod _ _ (rely_go _ _ Hm)). cbn. lia. }
  apply safe_lift_gets. intros m1 Hm1. pose proof (itf_nextPod _ _ (rely_go _ _ Hm1)).
  set (h1 := h ++ _). pose proof (did_read_go h _ m1 : asked b p _ h1) as Ha.
  destruct (impl_Matches _ _) eqn:Hmat.
  - apply safe_UpsertPod; [lia|]. intros err m2 s3 Hm2 Hu Hm3. set (m3 := m_set_go s3 m2) in *.
    set (h2 := h1 ++ _) in *. assert (rely m m3) as Hr3 by by_rely.
    assert (handed b p err h2) as Hh2.
    { split; [apply (asked_mono _ _ _ h1); [done|set_solver]|eauto]. }
    destruct err as [e|]; (safe_use IH; [by apply Hall'|]); intros r h' m' Hh' (Hr & Hsub & Hoff & Hin);
      pose proof (handed_mono _ _ _ _ _ Hh2 Hh') as Hh.
    + split_and!; [by_rely|done| |].
      * intros q [->|Hq]%elem_of_cons; [|by apply Hoff]. right. right. by exists e.
      * intros q [Hq|[Hq ?]]%Hin; [by left|]. right. split; [by right|done].
    + split_and!; [by_rely|set_solver| |].
      * intros q [->|Hq]%elem_of_cons; [|by apply Hoff]. left. set_solver.
      * intros q [[Hq| ->%list_elem_of_singleton]%elem_of_app|[Hq ?]]%Hin; [by left| |].
        -- right. split; [by left|done].
        -- right. split; [by right|done].
  - safe_use IH; [by apply Hall'|]. intros r h' m' Hh' (Hr & Hsub & Hoff & Hin). split_and!; [by_rely|done| |].
    + intros q [->|Hq]%elem_of_cons; [|by apply Hoff]. right. left. by eapply asked_mono.
    + intros q [Hq|[Hq ?]]%Hin; [by left|]. right. split; [by right|done].
Qed.

(** A listed pod: the boost was found to track a pod of its name, or the
    boost was handed the pod of the list. *)
Definition visited b (pod : Pod) (h : history) : Prop :=
  (∃ q, did h (lift (BoostPod b (pod_Name pod))) (Some q)) ∨
  (did h (lift (BoostPod b (pod_Name pod))) None ∧
   ∃ p err σ σ' now, did h (lift (alloc_pod pod)) p ∧ did h (lift (UpsertPod σ σ' now b p)) err).

Lemma visited_mono b pod h h' : visited b pod h → h ⊆ h' → visited b pod h'.
Proof.
  intros [[q Hq]|(Hn & p & err & σ & σ' & now & Hp & Hu)] Hh.
  - left. exists q. by eapply did_mono.
  - right. split; [by eapply did_mono|]. exists p, err, σ, σ', now. split; by eapply did_mono.
Qed.

Lemma sync_pods_safe rt b items errs h m :
  safe (sync_pods_body rt b items errs)
    (λ _ h' m', rely m m' ∧ ∀ pod, pod ∈ items → visited b pod h') h m.
Proof.
  revert rt errs h m. induction items as [|pod items IH]; intros rt errs h m.
  { intros m' Hm. split; [done|]. by intros pod ?%not_elem_of_nil. }
  cbn [sync_pods_body]. apply safe_lift_gets. intros m1 Hm1. set (h1 := h ++ _).
  pose proof (did_read_go h _ m1 : did h1 (lift (BoostPod b (pod_Name pod))) _) as Ha.
  destruct (b_pods _ !! _) as [q|].
  - safe_use IH. intros _ h' m' Hh' [Hm' Hv]. split; [by_rely|].
    intros pod' [->|Hin]%elem_of_cons; [|by apply Hv]. left. exists q. by eapply did_mono.
  - apply safe_alloc_pod. intros p h2 m2 Hh2 Hd2 Hm2 Hp. apply safe_UpsertPod; [done|].
    intros err m3 s4 Hm3 Hu Hm4. set (h3 := h2 ++ _) in *.
    assert (visited b pod h3) as Hv3.
    { right. split; [eapply did_mono; [exact Ha|]; set_solver|]. exists p, err. eexists _, _, _.
      split; [|exact Hu]. eapply did_mono; [exact Hd2|]. set_solver. }
    destruct err as [e|].
    all: safe_use IH; intros _ h' m' Hh' [Hm' Hv]; split; [by_rely|];
      intros pod' [->|Hin]%elem_of_cons; [by eapply visited_mono|by apply Hv].
Qed.

(** With a client, the pods with the label of the boost were listed, and
    every listed pod was visited. *)
Definition synced b (i : StartupCPUBoostImpl) (h : history) : Prop :=
  ∃ listed, did h (gets (λ m, client_ListPods (s_world (m_go m)) (b_namespace i) BoostLabelKey (b_name i))) listed ∧
    match listed with
    | inl _ => True
    | inr items => ∀ pod, pod ∈ items → visited b pod h
    end.

Lemma synced_mono b i h h' : synced b i h → h ⊆ h' → synced b i h'.
Proof.
  intros (l & Hl & Hv) Hh. exists l. split; [by eapply did_mono|]. destruct l; [done|].
  intros pod Hp. eapply visited_mono; [by apply Hv|done].
Qed.

Lemma syncBoostPods_safe rt b h m :
  (b < s_nextBoost (m_go m))%nat →
  safe (syncBoostPods_body rt b)
    (λ _ h' m', rely m m' ∧ (m_client m = true → synced b (s_boosts (m_go m) b) h')) h m.
Proof.
  intros Hb. apply safe_gets. intros m1 Hm1. rewrite <-(rely_client _ _ Hm1).
  destruct (m_client m1); cbn [negb]; [|intros m' Hm'; split; [by etrans|done]].
  apply safe_lift_gets. intros m2 Hm2. assert (rely m m2) as Hr2 by by_rely.
  apply safe_lift_gets. intros m3 Hm3. assert (rely m m3) as Hr3 by by_rely.
  destruct (itf_identity _ _ (rely_go _ _ Hr2) b Hb) as (_ & -> & _).
  destruct (itf_identity _ _ (rely_go _ _ Hr3) b Hb) as (-> & _). set (i := s_boosts (m_go m) b).
  apply safe_gets. intros m4 Hm4. assert (rely m m4) as Hm by by_rely. set (h1 := _ ++ [(m4, m4)]).
  pose proof (did_read _ _ m4 : did h1 (gets (λ m, client_ListPods (s_world (m_go m)) (b_namespace i)
    BoostLabelKey (b_name i))) _) as Hd. cbn beta in Hd.
  destruct (client_ListPods _ _ _ _) as [e|items].
  { intros m' Hm'. split; [by_rely|]. intros _. by exists (inl e). }
  case_decide as Hlen.
  { intros m' Hm'. split; [by_rely|]. intros _. exists (inr items). split; [done|].
    apply nil_length_inv in Hlen as ->. by intros pod ?%not_elem_of_nil. }
  eapply safe_call; [apply sync_pods_safe|]. cbn beta. intros errs h5 m5 Hh5 [Hm5 Hv] m' Hm'.
  split; [by_rely|]. intros _. exists (inr items). split; [by eapply did_mono|done].
Qed.

(** The frame of an adoption: as [rely], but orphans of one namespace can
    become fewer. *)
Record adopting ns m m' : Prop := {
  ad_client : m_client m' = m_client m;
  ad_max : m_maxGoroutines m' = m_maxGoroutines m;
  ad_timed : m_timedBoosts m' = m_timedBoosts m;
  ad_regular : m_regularBoosts m' = m_regularBoosts m;
  ad_orphans n ns' p :
    Get n ns' (m_orphanedPods m') = Some p → Get n ns' (m_orphanedPods m) = Some p;
  ad_elsewhere n ns' : ns' ≠ ns → Get n ns' (m_orphanedPods m') = Get n ns' (m_orphanedPods m);
  ad_go : interferes (m_go m) (m_go m')
}.

#[export] Instance adopting_preorder ns : PreOrder (adopting ns).
Proof.
  split; [by intros m; split|]. intros m1 m2 m3 [???? Ho1 He1 Hi1] [???? Ho2 He2 Hi2].
  split; try congruence; [by eauto| |by etrans]. intros n ns' Hns. by rewrite He2, He1.
Qed.

Lemma rely_adopting ns m m' : rely m m' → adopting ns m m'.
Proof. intros [? ? ? ? Ho ?]. split; try done; by rewrite Ho. Qed.

Lemma adopting_orphans_ok ns m m' : adopting ns m m' → orphans_ok m → orphans_ok m'.
Proof.
  intros Ha Hok n ns' p [Hkey Hp]%(ad_orphans _ _ _ Ha)%Hok. unfold orphan_key in *.
  destruct (itf_key _ _ (ad_go _ _ _ Ha) p Hp) as [-> ->].
  pose proof (itf_nextPod _ _ (ad_go _ _ _ Ha)). split; [done|lia].
Qed.

Lemma inv_adopting P ns m m' : mgr_inv_for P m → adopting ns m m' → mgr_inv_for P m'.
Proof.
  intros [Hkey Ht Hf Ho Htr] Ha. pose proof (ad_go _ _ _ Ha) as Hi. split.
  - intros n ns' b'. rewrite (ad_regular _ _ _ Ha). intros (Hn & Hns & Hb)%Hkey.
    pose proof (itf_nextBoost _ _ Hi). destruct (itf_identity _ _ Hi b' Hb) as (-> & -> & _).
    split_and!; [done|done|lia].
  - intros n ns' b'. rewrite (ad_regular _ _ _ Ha), (ad_timed _ _ _ Ha). apply Ht.
  - intros n ns' b' HP. rewrite (ad_regular _ _ _ Ha), (ad_timed _ _ _ Ha). intros Hg.
    destruct (Hkey _ _ _ Hg) as (_ & _ & Hb). destruct (itf_identity _ _ Hi b' Hb) as (_ & _ & _ & -> & _).
    by apply Hf.
  - by eapply adopting_orphans_ok.
  - by apply (itf_tracked _ _ Hi).
Qed.

Lemma inv_rely P m m' : mgr_inv_for P m → rely m m' → mgr_inv_for P m'.
Proof. intros Hinv Hm. by eapply (inv_adopting P ""), rely_adopting. Qed.

Lemma rely_alloc m m' p : rely m m' → (p < s_nextPod (m_go m))%nat → (p < s_nextPod (m_go m'))%nat.
Proof. intros Hm. pose proof (itf_nextPod _ _ (rely_go _ _ Hm)). lia. Qed.

Lemma rely_key m m' p : rely m m' → (p < s_nextPod (m_go m))%nat → orphan_key m' p = orphan_key m p.
Proof. intros Hm Hp. unfold orphan_key. by destruct (itf_key _ _ (rely_go _ _ Hm) p Hp) as [-> ->]. Qed.

Lemma rely_boost m m' b :
  rely m m' → (b < s_nextBoost (m_go m))%nat →
  same_identity (s_boosts (m_go m) b) (s_boosts (m_go m') b) ∧ (b < s_nextBoost (m_go m'))%nat.
Proof.
  intros Hm Hb. split; [by apply (itf_identity _ _ (rely_go _ _ Hm))|].
  pose proof (itf_nextBoost _ _ (rely_go _ _ Hm)). lia.
Qed.

(** Interference commutes with assignments to the collections. *)
Lemma rely_set_timed t m m' : rely m m' → rely (m_set_timed t m) (m_set_timed t m').
Proof. by intros []. Qed.
Lemma rely_set_regular t m m' : rely m m' → rely (m_set_regular t m) (m_set_regular t m').
Proof. by intros []. Qed.
Lemma rely_set_orphaned t m m' : rely m m' → rely (m_set_orphaned t m) (m_set_orphaned t m').
Proof. by intros []. Qed.

(** Exactly the orphans of a list are deleted. *)
Lemma delete_orphans_safe ns ps gone h m0 m :
  orphans_ok m0 → adopting ns m0 m →
  (∀ n q, Get n ns (m_orphanedPods m0) = Some q →
     Get n ns (m_orphanedPods m) = if decide (q ∈ gone) then None else Some q) →
  (∀ p, p ∈ ps → ∃ n, Get n ns (m_orphanedPods m0) = Some p) →
  safe (delete_orphans_body ps) (λ _ _ m', adopting ns m0 m' ∧
    ∀ n q, Get n ns (m_orphanedPods m0) = Some q →
      Get n ns (m_orphanedPods m') = if decide (q ∈ gone ++ ps) then None else Some q) h m.
Proof.
  intros Hok. revert gone h m. induction ps as [|p ps IH]; intros gone h m Ha Hgone Hps.
  { intros m' Hm. rewrite app_nil_r. split; [etrans; [exact Ha|by apply rely_adopting]|].
    by rewrite (rely_orphaned _ _ Hm). }
  apply safe_modify. intros m1 Hm1. set (m2 := m_set_orphaned _ m1).
  destruct (Hps p) as (n0 & Hget); [by left|]. destruct (Hok _ _ _ Hget) as [Hkey0 Hp].
  assert (adopting ns m0 m1) as Ha1 by (etrans; [exact Ha|by apply rely_adopting]).
  assert (orphan_key m1 p = (n0, ns)) as Hkey.
  { rewrite <-Hkey0. unfold orphan_key. by destruct (itf_key _ _ (ad_go _ _ _ Ha1) p Hp) as [-> ->]. }
  assert (m_orphanedPods m2 = Delete n0 ns (m_orphanedPods m1)) as Hm2.
  { unfold orphan_key in Hkey. injection Hkey as <- <-. done. }
  rewrite (cons_middle p gone ps), (app_assoc gone). apply IH.
  - destruct Ha1 as [? ? ? ? Ho1 He1 Hi1]. split; try done; rewrite Hm2.
    + intros n ns' q. rewrite Get_Delete. case_decide; [done|]. apply Ho1.
    + intros n ns' Hne. rewrite Get_Delete, decide_False; [by apply He1|]. naive_solver.
  - intros n q Hq. rewrite Hm2, Get_Delete, (rely_orphaned _ _ Hm1), (Hgone n q Hq).
    destruct (Hok _ _ _ Hq) as [Hkq _]. destruct (decide (q = p)) as [->|Hne].
    + rewrite Hkq in Hkey0. injection Hkey0 as ->. rewrite decide_True by done.
      by rewrite decide_True by set_solver.
    + rewrite decide_False by naive_solver. by apply decide_ext; set_solver.
  - intros q Hq. apply Hps. by right.
Qed.

(** What became of an orphan that is now found as [now]: gone, it was handed
    to the boost; still there, the boost refused it. *)
Definition rehomed b p (now : option PodRef) (h : history) : Prop :=
  match now with
  | None => handed b p None h
  | Some q => q = p ∧ refused b p h
  end.

Lemma rehomed_mono b p now h h' : rehomed b p now h → h ⊆ h' → rehomed b p now h'.
Proof.
  destruct now as [q|]; cbn; [|apply handed_mono]. intros [-> Hr] Hh. split; [done|by eapply refused_mono].
Qed.

Definition orphans_rehomed b ns m0 (h : history) m : Prop :=
  ∀ n p, Get n ns (m_orphanedPods m0) = Some p → rehomed b p (Get n ns (m_orphanedPods m)) h.

Lemma mapOrphanedPods_safe rt b h m :
  orphans_ok m → (b < s_nextBoost (m_go m))%nat →
  let ns := b_namespace (s_boosts (m_go m) b) in
  safe (mapOrphanedPods_body rt b) (λ _ h' m', adopting ns m m' ∧ orphans_rehomed b ns m h' m') h m.
Proof.
  intros Hok Hb ns. apply safe_lift_gets. intros m1 Hm1.
  destruct (rely_boost _ _ _ Hm1 Hb) as ((_ & -> & _) & _). fold ns.
  apply safe_gets. intros m2 Hm2. assert (rely m m2) as Hr2 by by_rely.
  assert (orphans_ok m2) as Hok2 by (by eapply adopting_orphans_ok; [apply (rely_adopting ns)|]).
  set (ps := List _ ns _).
  eapply safe_call; [by apply map_orphans_safe, orphans_list_alloc|]. cbn beta.
  intros [errs mapped] h3 m3 _ (Hm3 & _ & Hoff & Hin). cbn [fst snd] in *. eapply safe_call.
  - apply (delete_orphans_safe ns mapped [] _ m2); [done|by apply rely_adopting| |].
    + intros n q Hq. rewrite decide_False by apply not_elem_of_nil. by rewrite (rely_orphaned _ _ Hm3).
    + intros p [Hp%not_elem_of_nil|[Hp Hh]]%Hin; [done|]. by apply elem_of_List in Hp.
  - cbn beta. intros _ h4 m4 Hh4 [Ha4 Hgone] m' Hm'. split.
    + etrans; [by apply rely_adopting, Hr2|]. etrans; [exact Ha4|]. by apply rely_adopting.
    + intros n p. rewrite <-(rely_orphaned _ _ Hr2). intros Hp.
      rewrite (rely_orphaned _ _ Hm'), (Hgone n p Hp), app_nil_l.
      eapply rehomed_mono; [|exact Hh4]. case_decide as Hd.
      * apply Hin in Hd as [?%not_elem_of_nil|[_ Hh]]; done.
      * split; [done|]. destruct (Hoff p); [|done|done]. apply elem_of_List. by exists n.
Qed.

Lemma timed_after_rely b m m' :
  rely m m' → (b < s_nextBoost (m_go m))%nat → timed_after b m' = timed_after b m.
Proof.
  intros Hm Hb. unfold timed_after. rewrite (rely_timed _ _ Hm).
  by destruct (rely_boost _ _ _ Hm Hb) as ((-> & -> & _ & -> & _) & _).
Qed.

Lemma add_timed_safe b h m :
  (b < s_nextBoost (m_go m))%nat →
  safe (add_timed_body b) (λ _ _, rely (m_set_timed (timed_after b m) m)) h m.
Proof.
  intros Hb. apply safe_lift_gets. intros m1 Hm1. rewrite <-(timed_after_rely b m m1) by done.
  destruct (rely_boost _ _ _ Hm1 Hb) as (_ & Hb1). unfold timed_after. destruct (_ !! _) as [pol|].
  - apply safe_lift_gets. intros m2 Hm2. destruct (rely_boost _ _ _ Hm2 Hb1) as ((-> & _) & Hb2).
    apply safe_lift_gets. intros m3 Hm3. destruct (rely_boost _ _ _ Hm3 Hb2) as ((_ & -> & _) & _).
    destruct (rely_boost _ _ _ Hm2 Hb1) as ((_ & -> & _) & _).
    apply safe_modify. intros m4 Hm4 m' Hm'.
    assert (rely m1 m4) as Hm14 by by_rely. rewrite (rely_timed _ _ Hm14) in Hm'.
    etrans; [|exact Hm']. apply rely_set_timed. by_rely.
  - intros m' Hm'. rewrite (rely_timed _ _ Hm1). trans m; [by destruct m|by_rely].
Qed.

(** Everything [postProcessNewBoost] does after filing the boost: the
    orphans of its namespace are offered to it, then the pods that carry its
    label are synchronised. *)
Record processed b m0 (h : history) m : Prop := {
  pr_frame : adopting (b_namespace (s_boosts (m_go m0) b)) m0 m;
  pr_orphans : orphans_rehomed b (b_namespace (s_boosts (m_go m0) b)) m0 h m;
  pr_synced : m_client m0 = true → synced b (s_boosts (m_go m0) b) h
}.

Lemma synced_identity b i i' h : same_identity i i' → synced b i' h → synced b i h.
Proof. intros (Hn & Hns & _). unfold synced. by rewrite Hn, Hns. Qed.

Lemma processed_rely b m1 m2 h m3 m4 :
  (b < s_nextBoost (m_go m1))%nat → rely m1 m2 → processed b m2 h m3 → rely m3 m4 → processed b m1 h m4.
Proof.
  intros Hb H12 [Hf Ho Hs] H34. destruct (rely_boost _ _ _ H12 Hb) as [Hid _].
  pose proof Hid as (_ & Hns & _). rewrite Hns in Hf, Ho. split.
  - etrans; [by apply rely_adopting|]. etrans; [exact Hf|]. by apply rely_adopting.
  - intros n p. rewrite <-(rely_orphaned _ _ H12), (rely_orphaned _ _ H34). apply Ho.
  - rewrite <-(rely_client _ _ H12). intros Hc. eapply synced_identity; [exact Hid|by apply Hs].
Qed.

Lemma postProcessNewBoost_safe rt rt' b h m :
  orphans_ok m → (b < s_nextBoost (m_go m))%nat →
  safe (postProcessNewBoost_body rt rt' b) (λ _, processed b (m_set_timed (timed_after b m) m)) h m.
Proof.
  intros Hok Hb. set (m1 := m_set_timed _ m).
  eapply safe_call; [by apply add_timed_safe|]. fold m1. cbn beta. intros _ h2 m2 _ Hm2.
  destruct (rely_boost m1 m2 b Hm2 Hb) as (Hid & Hb2).
  eapply safe_call; [apply mapOrphanedPods_safe; [|done]|].
  { eapply adopting_orphans_ok; [by apply (rely_adopting ""), Hm2|]. done. }
  cbn beta zeta. intros _ h3 m3 _ [Ha3 Ho3].
  pose proof (itf_nextBoost _ _ (ad_go _ _ _ Ha3)) as Hle.
  eapply safe_call; [apply syncBoostPods_safe; lia|]. cbn beta. intros _ h4 m4 Hh4 [Hm4 Hs4] m' Hm'.
  eapply processed_rely; [exact Hb|exact Hm2| |exact Hm']. split.
  - etrans; [exact Ha3|]. by apply rely_adopting.
  - intros n p Hp. rewrite (rely_orphaned _ _ Hm4). eapply rehomed_mono; [by apply Ho3|done].
  - rewrite <-(ad_client _ _ _ Ha3). intros Hc. eapply synced_identity; [|by apply Hs4].
    by apply (itf_identity _ _ (ad_go _ _ _ Ha3)).
Qed.

(** ** What a call promises

    [m0] is the manager when the lock was taken, [m] the manager when it is
    released and [h] what the call has done in between: the call has done to
    [m0] what it does as one step, up to interference. *)

Definition call_ok (c : Call) m : Prop :=
  match c with
  | CallAdd _ _ b => (b < s_nextBoost (m_go m))%nat
  | CallUpsertPod _ p | CallDeletePod _ p => (p < s_nextPod (m_go m))%nat
  | _ => True
  end.

Definition unregistered (namespace name : string) m : managerImpl :=
  m_set_go (set_metrics (DeleteBoostConfiguration namespace (s_metrics (m_go m))) (m_go m))
    (m_set_timed (Delete name namespace (m_timedBoosts m))
      (m_set_regular (Delete name namespace (m_regularBoosts m)) m)).

Definition add_post b m0 (err : option error) (h : history) m : Prop :=
  let i := s_boosts (m_go m0) b in
  match Get (b_name i) (b_namespace i) (m_regularBoosts m0) with
  | Some _ => err = Some errStartupCPUBoostAlreadyExists ∧ rely m0 m
  | None => err = None ∧ processed b (m_set_timed (timed_after b m0) (registered b m0)) h m
  end.

Definition update_post (spec : v1alpha1.StartupCPUBoost) m0 (err : option error) (h : history) m : Prop :=
  match Get (v1alpha1.om_Name (v1alpha1.b_Meta spec))
      (v1alpha1.om_Namespace (v1alpha1.b_Meta spec)) (m_regularBoosts m0) with
  | None => err = None ∧ rely m0 m
  | Some b =>
      match LabelSelectorAsSelector (v1alpha1.b_Selector spec),
        mapResourcePolicy (v1alpha1.spec_ResourcePolicy (v1alpha1.b_Spec spec)) with
      | inr sel, inr rp =>
          let m1 := m_set_go (updated b spec sel rp (m_go m0)) m0 in
          err = None ∧ processed b (m_set_timed (timed_after b m1) m1) h m
      | _, _ => err ≠ None ∧ rely m0 m
      end
  end.

(** The boost is one of the pod's namespace that answered that it matches
    the labels the pod has at that moment; without one, all of them answered
    that they do not. *)
Definition answered p m0 (boost : option BoostRef) (h : history) : Prop :=
  let namespace := (orphan_key m0 p).2 in
  match boost with
  | Some b => (∃ n, Get n namespace (m_regularBoosts m0) = Some b) ∧ asked b p true h
  | None => ∀ n b, Get n namespace (m_regularBoosts m0) = Some b → asked b p false h
  end.

Definition upsert_post p m0 (r : option BoostRef * option error) (h : history) m : Prop :=
  let (name, namespace) := orphan_key m0 p in
  answered p m0 r.1 h ∧
  match r with
  | (Some b, err) => handed b p err h ∧
      rely (match err with
            | None => m_set_orphaned (Delete name namespace (m_orphanedPods m0)) m0
            | Some _ => m0
            end) m
  | (None, err) => err = None ∧
      rely (m_set_orphaned (Put name namespace p (m_orphanedPods m0)) m0) m
  end.

Definition delete_pod_post p m0 (r : option BoostRef * option error) (h : history) m : Prop :=
  let (name, namespace) := orphan_key m0 p in
  answered p m0 r.1 h ∧ r.2 = None ∧
  match r.1 with
  | Some b => dropped b p h ∧ rely m0 m
  | None => rely (m_set_orphaned (Delete name namespace (m_orphanedPods m0)) m0) m
  end.

Definition call_post (c : Call) m0 : answer c → history → managerImpl → Prop :=
  match c with
  | CallAdd _ _ b => add_post b m0
  | CallDelete namespace name => λ _ _, rely (unregistered namespace name m0)
  | CallUpdate _ _ spec => update_post spec m0
  | CallUpsertPod _ p => upsert_post p m0
  | CallDeletePod _ p => delete_pod_post p m0
  | CallGet name namespace => λ r _ m, r = GetRegularCPUBoost name namespace m0 ∧ rely m0 m
  | CallGetForPod σ pod => λ r _ m, r = GetCPUBoostForPod_ref σ pod m0 ∧ rely m0 m
  | CallTimeBoosts σ τ => λ r _ m, r = ListAll σ τ (m_timedBoosts m0) ∧ rely m0 m
  end.

(** ** Every call keeps its promise *)

Lemma rely_registered b m m' :
  rely m m' → (b < s_nextBoost (m_go m))%nat → rely (registered b m) (registered b m').
Proof.
  intros Hm Hb. destruct (rely_boost _ _ _ Hm Hb) as ((Hn & Hns & _) & _).
  destruct Hm as [? ? ? Hr ? [? ? ? Hg ? ?]]. split; try done; cbn.
  - by rewrite Hn, Hns, Hr.
  - split; try done. cbn. by rewrite Hg, Hns.
Qed.

Lemma timed_after_registered b m : timed_after b (registered b m) = timed_after b m.
Proof. done. Qed.

Lemma AddRegularCPUBoost_safe rt rt' b h m :
  mgr_inv m → (b < s_nextBoost (m_go m))%nat →
  safe (AddRegularCPUBoost_body rt rt' (Some b)) (add_post b m) h m.
Proof.
  intros Hinv Hb. unfold add_post. set (i := s_boosts (m_go m) b).
  apply safe_lift_gets. intros m1 Hm1. destruct (rely_boost _ _ _ Hm1 Hb) as ((-> & _) & _).
  apply safe_lift_gets. intros m2 Hm2. assert (rely m m2) as Hr2 by by_rely.
  destruct (rely_boost _ _ _ Hr2 Hb) as ((_ & -> & _) & _). fold i.
  apply safe_gets. intros m3 Hm3. assert (rely m m3) as Hr3 by by_rely. rewrite (rely_regular _ _ Hr3).
  destruct (Get _ _ _) as [b'|] eqn:Hg; [intros m' Hm'; split; [done|by_rely]|].
  apply safe_modify. intros m4 Hm4. assert (rely m m4) as Hr4 by by_rely. rewrite (rely_regular _ _ Hr4).
  set (m4' := m_set_regular _ m4). intros m5 Hm5. eexists tt, _. split; [reflexivity|].
  set (m6 := m_set_go _ m5).
  assert (rely (registered b m) m6) as Hm6.
  { etrans; [by apply rely_registered|].
    destruct (rely_boost _ _ _ Hr4 Hb) as ((Hn & Hns & _) & _).
    destruct Hm5 as [? ? ? Hre ? [? ? ? Hga ? ?]]. split; try done; cbn.
    - rewrite Hre. cbn. by rewrite Hn, Hns, (rely_regular _ _ Hr4).
    - split; try done. cbn in Hga |- *. rewrite Hga, Hns. done. }
  assert (b < s_nextBoost (m_go (registered b m)))%nat as Hb6 by done.
  destruct (rely_boost _ _ _ Hm6 Hb6) as (_ & Hlt6).
  eapply safe_call; [apply postProcessNewBoost_safe; [|done]|].
  { eapply adopting_orphans_ok; [by apply (rely_adopting ""), Hm6|]. apply Hinv. }
  cbn beta. intros _ h7 m7 _ Ha7 m' Hm'. split; [done|].
  rewrite (timed_after_rely _ _ _ Hm6 Hb6), timed_after_registered in Ha7.
  eapply processed_rely; [done|apply rely_set_timed, Hm6|exact Ha7|done].
Qed.

Lemma DeleteRegularCPUBoost_safe ns n h m :
  safe (DeleteRegularCPUBoost_body ns n) (λ _ _, rely (unregistered ns n m)) h m.
Proof.
  apply safe_modify. intros m1 Hm1. apply safe_modify. intros m2 Hm2 m3 Hm3.
  eexists tt, _. split; [reflexivity|]. intros m' Hm'. etrans; [|exact Hm'].
  destruct Hm1 as [? ? Ht1 Hr1 ? Hi1], Hm2 as [? ? Ht2 Hr2 ? Hi2], Hm3 as [? ? Ht3 Hr3 ? Hi3]. cbn in *.
  split; cbn; try congruence.
  assert (interferes (m_go m) (m_go m3)) as [? ? ? Hg ? ?] by by_rely.
  split; try done. cbn. by rewrite Hg.
Qed.

Lemma updated_interferes b spec sel rp s s' :
  interferes s s' → (b < s_nextBoost s)%nat →
  interferes (updated b spec sel rp s) (updated b spec sel rp s').
Proof.
  intros [Hi ? ? ? ? Ht] Hb. unfold updated. split; try done.
  - intros b' Hb'. specialize (Hi b' Hb'). rewrite !s_boosts_set_boost. case_decide as Hd; [|done].
    subst b'. destruct Hi as (? & ? & _ & _ & _ & ?). by split_and!.
  - intros Htr.
    assert (∀ s0, all_tracked (set_boost b (b_set_spec (s_boosts s0 b) sel rp
      (mapDurationPolicy (v1alpha1.spec_DurationPolicy (v1alpha1.b_Spec spec)))) s0) ↔ all_tracked s0) as Hall.
    { intros s0. split; intros Ht0 b' Hb' n p Hp; apply (Ht0 b' Hb'); cbn [s_pods set_boost].
      - rewrite s_boosts_set_boost. by case_decide; subst.
      - rewrite s_boosts_set_boost in Hp. by case_decide; subst. }
    apply Hall, Ht, Hall, Htr.
Qed.

Lemma UpdateRegularCPUBoost_safe rt rt' spec h m :
  mgr_inv m → safe (UpdateRegularCPUBoost_body rt rt' spec) (update_post spec m) h m.
Proof.
  intros Hinv. apply safe_gets. intros m1 Hm1. rewrite (rely_regular _ _ Hm1). unfold update_post.
  destruct (Get _ _ _) as [b|] eqn:Hg; [|intros m' Hm'; split; [done|by_rely]].
  destruct (inv_key _ _ Hinv _ _ _ Hg) as (_ & _ & Hb).
  intros m2 Hm2. assert (rely m m2) as Hr2 by by_rely.
  destruct (UpdateFromSpec_keys b spec (m_go m2)) as (err & s & Hu & Hc).
  exists err, (m_set_go s m2). unfold lift. rewrite Hu. split; [done|]. destruct err as [e|].
  { destruct Hc as [-> Hno]. rewrite m_set_go_id. intros m' Hm'.
    destruct (LabelSelectorAsSelector _); [split; [done|by_rely]|].
    destruct (mapResourcePolicy _); [split; [done|by_rely]|]. by destruct (Hno _ _ eq_refl eq_refl). }
  destruct Hc as (sel & rp & -> & -> & ->).
  set (m1' := m_set_go (updated b spec sel rp (m_go m)) m). set (m3 := m_set_go _ m2).
  assert (rely m1' m3) as Hm3.
  { destruct Hr2. split; try done. by apply updated_interferes. }
  assert (b < s_nextBoost (m_go m1'))%nat as Hb1 by done.
  destruct (rely_boost _ _ _ Hm3 Hb1) as (_ & Hlt3).
  eapply safe_call; [apply postProcessNewBoost_safe; [|done]|].
  { eapply adopting_orphans_ok; [by apply (rely_adopting ""), Hm3|]. apply Hinv. }
  cbn beta. intros _ h4 m4 _ Ha4 m' Hm'. split; [done|].
  rewrite (timed_after_rely _ _ _ Hm3 Hb1) in Ha4.
  eapply processed_rely; [done|apply rely_set_timed, Hm3|exact Ha4|done].
Qed.

Lemma first_match_safe boosts p h m :
  safe (first_match boosts p) (λ r h' m', rely m m' ∧
    match r with
    | Some b => b ∈ boosts ∧ asked b p true h'
    | None => ∀ b, b ∈ boosts → asked b p false h'
    end) h m.
Proof.
  revert h m. induction boosts as [|b boosts IH]; intros h m.
  { intros m' Hm'. split; [done|]. by intros b ?%not_elem_of_nil. }
  apply safe_lift_gets. intros m1 Hm1. pose proof (did_read_go h _ m1 : asked b p _ _) as Ha.
  destruct (impl_Matches _ _) eqn:Hmat.
  - intros m' Hm'. split; [by_rely|]. split; [left|exact Ha].
  - safe_use IH. intros r h' m' Hh' [Hm' Hr]. split; [by_rely|]. destruct r as [b'|].
    + destruct Hr as [Hin Hb']. split; [by right|done].
    + intros b' [->|Hb']%elem_of_cons; [by eapply asked_mono|by apply Hr].
Qed.

Lemma getMatchingBoost_safe σ p h m :
  (p < s_nextPod (m_go m))%nat →
  safe (getMatchingBoost_body σ p) (λ r h' m', rely m m' ∧ answered p m r h') h m.
Proof.
  intros Hp. apply safe_lift_gets. intros m1 Hm1. apply safe_gets. intros m2 Hm2.
  assert (rely m m2) as Hr2 by by_rely.
  change (pod_Namespace _) with (orphan_key m1 p).2. rewrite (rely_key _ _ _ Hm1 Hp), (rely_regular _ _ Hr2).
  safe_use first_match_safe. intros r h' m' Hh' [Hm' Hr]. split; [by_rely|]. unfold answered. destruct r as [b|].
  - destruct Hr as [Hb Ha]. split; [by apply elem_of_List in Hb|done].
  - intros n b Hb. apply Hr, elem_of_List. by exists n.
Qed.

Lemma answered_mono p m0 r h h' : answered p m0 r h → h ⊆ h' → answered p m0 r h'.
Proof.
  intros Hf Hh. destruct r as [b|]; cbn in *.
  - split; [apply Hf|]. by eapply asked_mono; [apply Hf|].
  - intros n b Hb. eapply asked_mono; [by eapply Hf|done].
Qed.

Lemma delete_orphan_safe p (m0 : managerImpl) {A} (a : A) (Q : A → history → managerImpl → Prop) h m :
  rely m0 m → (p < s_nextPod (m_go m0))%nat →
  (∀ h' m', h ⊆ h' →
     rely (m_set_orphaned (Delete (orphan_key m0 p).1 (orphan_key m0 p).2 (m_orphanedPods m0)) m0) m' →
     Q a h' m') →
  safe (Atomic (delete_orphan p) (λ _, Stop a)) Q h m.
Proof.
  intros Hm Hp HQ. apply safe_modify. intros m1 Hm1 m' Hm'. apply HQ; [set_solver|]. etrans; [|exact Hm'].
  assert (rely m0 m1) as Hr1 by by_rely. cbn zeta.
  change (pod_Name _) with (orphan_key m1 p).1. change (pod_Namespace _) with (orphan_key m1 p).2.
  rewrite (rely_key _ _ _ Hr1 Hp), (rely_orphaned _ _ Hr1). by apply rely_set_orphaned.
Qed.

Lemma Manager_UpsertPod_safe rt p h m :
  (p < s_nextPod (m_go m))%nat → safe (Manager_UpsertPod_body rt p) (upsert_post p m) h m.
Proof.
  intros Hp. unfold upsert_post. destruct (orphan_key m p) as [name ns] eqn:Hkey.
  eapply safe_call; [by apply getMatchingBoost_safe|]. cbn beta. intros [b|] h1 m1 _ [Hm1 Hf].
  - apply safe_UpsertPod; [by eapply rely_alloc|]. intros err m2 s3 Hm2 Hu Hm3. set (m3 := m_set_go s3 m2) in *.
    set (h3 := h1 ++ _) in *. assert (answered p m (Some b) h3) as Ha3 by (eapply answered_mono; [exact Hf|set_solver]).
    assert (handed b p err h3) as Hh3 by (split; [apply Ha3|eauto]).
    destruct err as [e|]; [intros m' Hm'; split; [done|]; split; [done|by_rely]|].
    eapply (delete_orphan_safe p m); [by_rely|done|]. rewrite Hkey. intros h' m' Hh' Hm'.
    split; [by eapply answered_mono|]. split; [by eapply handed_mono|done].
  - apply safe_lift_gets. intros m2 Hm2. apply safe_modify. intros m3 Hm3 m' Hm'.
    assert (rely m m2) as Hr2 by by_rely. assert (rely m m3) as Hr3 by by_rely.
    split; [|split; [done|]].
    + eapply answered_mono; [exact Hf|set_solver].
    + pose proof (rely_key _ _ _ Hr2 Hp) as Hk2. rewrite Hkey in Hk2. unfold orphan_key in Hk2.
      injection Hk2 as Hk2 Hk2'. rewrite Hk2, Hk2', (rely_orphaned _ _ Hr3) in Hm'.
      etrans; [|exact Hm']. by apply rely_set_orphaned.
Qed.

Lemma Manager_DeletePod_safe rt p h m :
  (p < s_nextPod (m_go m))%nat → safe (Manager_DeletePod_body rt p) (delete_pod_post p m) h m.
Proof.
  intros Hp. unfold delete_pod_post. destruct (orphan_key m p) as [name ns] eqn:Hkey.
  eapply safe_call; [by apply getMatchingBoost_safe|]. cbn beta. intros [b|] h1 m1 _ [Hm1 Hf].
  - apply safe_DeletePod. intros m2 s3 Hm2 Hd Hm3 m' Hm'. set (h3 := h1 ++ _) in *.
    assert (answered p m (Some b) h3) as Ha3 by (eapply answered_mono; [exact Hf|set_solver]).
    split; [done|split; [done|split; [|by_rely]]]. split; [apply Ha3|eauto].
  - eapply (delete_orphan_safe p m); [by_rely|done|]. rewrite Hkey. intros h' m' Hh' Hm'.
    split; [by eapply answered_mono|done].
Qed.

(** Selectors change only under the lock, so a reader sees the boosts as
    they were when it took the lock. *)
Lemma first_match_value_safe boosts pod h m :
  Forall (λ b, (b < s_nextBoost (m_go m))%nat) boosts →
  safe (first_match_value boosts pod) (λ r _ m',
    r = find (λ b, impl_Matches (s_boosts (m_go m) b) pod) boosts ∧ rely m m') h m.
Proof.
  revert h m. induction boosts as [|b boosts IH]; intros h m Hall; [by intros m' Hm'|].
  apply Forall_cons in Hall as [Hb Hall]. apply safe_gets. intros m1 Hm1. cbn [find].
  assert (∀ b, (b < s_nextBoost (m_go m))%nat →
    impl_Matches (s_boosts (m_go m1) b) pod = impl_Matches (s_boosts (m_go m) b) pod) as Heq.
  { intros b' Hb'. unfold impl_Matches. by destruct (rely_boost _ _ _ Hm1 Hb') as ((_ & _ & -> & _) & _). }
  rewrite Heq by done. destruct (impl_Matches _ _); [intros m' Hm'; split; [done|by_rely]|].
  safe_use IH.
  - eapply Forall_impl; [exact Hall|]. cbn beta. intros b' Hb'. by apply (rely_boost _ _ _ Hm1).
  - intros r _ m' _ [-> Hm']. split; [|by_rely].
    apply find_ext_in. intros b' Hb'. apply Heq. rewrite Forall_forall in Hall. by apply Hall.
Qed.

Lemma body_safe c h m : mgr_inv m → call_ok c m → safe (body c) (call_post c m) h m.
Proof.
  intros Hinv Hok. destruct c as [rt rt' b|ns n|rt rt' spec|rt p|rt p|n ns|σ pod|σ τ]; cbn [body call_post].
  - by apply AddRegularCPUBoost_safe.
  - apply DeleteRegularCPUBoost_safe.
  - by apply UpdateRegularCPUBoost_safe.
  - by apply Manager_UpsertPod_safe.
  - by apply Manager_DeletePod_safe.
  - apply safe_gets. intros m1 Hm1 m' Hm'. unfold GetRegularCPUBoost. rewrite (rely_regular _ _ Hm1).
    split; [done|by_rely].
  - apply safe_gets. intros m1 Hm1. safe_use first_match_value_safe.
    + apply Forall_forall. intros b (n & Hb)%elem_of_List. rewrite (rely_regular _ _ Hm1) in Hb.
      apply (inv_key _ _ Hinv) in Hb as (_ & _ & Hb). by apply (rely_boost _ _ _ Hm1).
    + intros r _ m' _ [-> Hm']. split; [|by_rely]. unfold GetCPUBoostForPod_ref, getMatchingBoost.
      rewrite (rely_regular _ _ Hm1). apply find_ext_in. intros b Hb.
      apply elem_of_List in Hb as (n & Hb). apply (inv_key _ _ Hinv) in Hb as (_ & _ & Hb).
      unfold impl_Matches. by destruct (rely_boost _ _ _ Hm1 Hb) as ((_ & _ & -> & _) & _).
  - apply safe_gets. intros m1 Hm1 m' Hm'. rewrite (rely_timed _ _ Hm1). split; [done|by_rely].
Qed.
End calls.
