(* ===== verification/Concurrency.v ===== *)
(** * The manager under concurrent calls

    Any number of goroutines call the manager.  A call that writes holds the
    manager's lock alone, calls that read share it, and between any two
    sections of a call ([body]) the steps of [env_step] happen, which need
    no lock of the manager.  Every state such a system reaches keeps the
    invariant of the manager whenever no writer holds the lock, no section
    panics, and every call does what it does as one step. *)

From S2P Require Import Prelude Quantities Kube Api Duration Resource BoostPod Metrics Client Boost.
From S2P Require Import Namespaced Qos BoostServer PodWebhook ConcreteServer Manager Sections Interleaving.

Section system.
Context `{QuantityLib} `{SelectorLib} `{AnnotationJSON} `{!PatchLib} `{MetricVecLib} `{!PodClient}.
Context `{!PodClientBasics}.
Implicit Types m : managerImpl.

(** ** The invariant after a call *)

Lemma post_inv c m0 a h m : mgr_inv m0 → call_ok c m0 → call_post c m0 a h m → mgr_inv m.
Proof.
  intros Hinv Hok. destruct c as [rt rt' b|ns n|rt rt' spec|rt p|rt p|n ns|σ pod|σ τ]; cbn [call_post answer] in *.
  - unfold add_post. destruct (Get _ _ _) eqn:Hg; intros [-> Hm]; [by eapply inv_rely|].
    eapply inv_adopting; [|apply Hm]. apply (inv_timed_after b (registered b m0)).
    + by apply registered_inv.
    + eexists _, _. cbn. rewrite Get_Put. by rewrite decide_True.
  - intros Hm. eapply inv_rely; [|exact Hm].
    destruct (DeleteRegularCPUBoost_spec ns n m0) as (m1 & [= <-] & _ & _ & _ & _ & Hi). by apply Hi.
  - unfold update_post. destruct (Get _ _ _) as [b|] eqn:Hg; [|intros [_ Hm]; by eapply inv_rely].
    destruct (LabelSelectorAsSelector _) as [|sel]; [intros [_ Hm]; by eapply inv_rely|].
    destruct (mapResourcePolicy _) as [|rp]; intros [_ Hm]; [by eapply inv_rely|].
    eapply inv_adopting; [|apply Hm]. apply inv_timed_after; [by apply updated_inv|by eauto].
  - unfold upsert_post. pose proof (put_orphan_inv p m0 Hinv Hok) as Hput.
    destruct (delete_orphan_inv p m0 _ eq_refl Hinv) as [Hdel _]. destruct (orphan_key m0 p) as [name ns] eqn:Hk.
    injection Hk as <- <-. destruct a as [[b|] [e|]]; by intros (_ & _ & Hm); refine (inv_rely _ _ _ _ Hm).
  - unfold delete_pod_post. destruct (delete_orphan_inv p m0 _ eq_refl Hinv) as [Hdel _].
    destruct (orphan_key m0 p) as [name ns] eqn:Hk. injection Hk as <- <-.
    destruct a as [[b|] e]; cbn; [intros (_ & _ & _ & Hm)|intros (_ & _ & Hm)]; by refine (inv_rely _ _ _ _ Hm).
  - intros [_ Hm]. by eapply inv_rely.
  - intros [_ Hm]. by eapply inv_rely.
  - intros [_ Hm]. by eapply inv_rely.
Qed.

(** ** The system *)

(** A call in progress: the manager when it took the lock, what it has done
    since (the manager before and after each section), and what is left of it
    to run. *)
Record thread : Type := {
  t_call : Call;
  t_start : managerImpl;
  t_done : list (managerImpl * managerImpl);
  t_rest : prog managerImpl (answer t_call)
}.

Definition writes (c : Call) : bool :=
  match c with
  | CallGet _ _ | CallGetForPod _ _ | CallTimeBoosts _ _ => false
  | _ => true
  end.

(** [Lock] waits for everyone, [RLock] for a writer. *)
Definition may_lock (c : Call) (ts : list thread) : Prop :=
  if writes c then ts = [] else Forall (λ t, writes (t_call t) = false) ts.

Definition begin (c : Call) m : thread := {| t_call := c; t_start := m; t_done := []; t_rest := body c |}.
Definition continue (t : thread) m m' (r : prog managerImpl (answer (t_call t))) : thread :=
  {| t_call := t_call t; t_start := t_start t; t_done := t_done t ++ [(m, m')]; t_rest := r |}.

Abbreviation conf := (managerImpl * list thread)%type.

(** The steps of the calls in progress: the next section of one of them, or
    its end, which releases the lock. *)
Inductive call_step : conf → conf → Prop :=
  | c_section m m' ts t ts' B (f : M managerImpl B) k x :
      t_rest t = Atomic f k → f m = Done (x, m') →
      call_step (m, ts ++ t :: ts') (m', ts ++ continue t m m' (k x) :: ts')
  | c_unlock m ts t ts' a :
      t_rest t = Stop a → call_step (m, ts ++ t :: ts') (m, ts ++ ts').

Definition interference (x y : conf) : Prop := env_step x.1 y.1 ∧ y.2 = x.2.

Inductive cstep : conf → conf → Prop :=
  | c_env x y : interference x y → cstep x y
  | c_lock m ts c : call_ok c m → may_lock c ts → cstep (m, ts) (m, ts ++ [begin c m])
  | c_call x y : call_step x y → cstep x y.

(** ** Its invariant *)

Fixpoint reads {A} (r : prog managerImpl A) : Prop :=
  match r with
  | Stop _ => True
  | Atomic f k => (∀ m, ∃ x, f m = Done (x, m)) ∧ ∀ x, reads (k x)
  end.

Lemma body_reads c : writes c = false → reads (body c).
Proof.
  destruct c as [| | | | |n ns|σ pod|σ τ]; intros Hw; try done; (split; [by eexists|]); try done.
  intros bs. induction bs as [|b bs IH]; [done|]. split; [by eexists|]. by intros [].
Qed.

Record thread_ok m (t : thread) : Prop := {
  ok_start : mgr_inv (t_start t);
  ok_call : call_ok (t_call t) (t_start t);
  ok_safe : safe (t_rest t) (call_post (t_call t) (t_start t)) (t_done t) m;
  ok_reads : writes (t_call t) = false → reads (t_rest t)
}.

Definition readers (ts : list thread) : Prop := Forall (λ t, writes (t_call t) = false) ts.

Definition conf_ok (x : conf) : Prop :=
  Forall (thread_ok x.1) x.2 ∧
  ((∃ t, x.2 = [t] ∧ writes (t_call t) = true) ∨ (mgr_inv x.1 ∧ readers x.2)).

Lemma thread_ok_rely m m' t : rely m m' → thread_ok m t → thread_ok m' t.
Proof. intros Hm []. split; try done. by eapply safe_stable. Qed.

(** The next section of a call in progress does not panic. *)
Lemma thread_section m t {B} (f : M managerImpl B) k :
  thread_ok m t → t_rest t = Atomic f k →
  ∃ x m', f m = Done (x, m') ∧ thread_ok m' (continue t m m' (k x)) ∧
    (writes (t_call t) = false → m' = m).
Proof.
  intros [Hs Hc Hsafe Hr] Heq. rewrite Heq in Hsafe, Hr.
  destruct (Hsafe m) as (x & m' & Hf & Hk); [done|]. exists x, m'. split_and!; [done| |].
  - split; try done. intros Hw. by apply Hr.
  - intros Hw. destruct (proj1 (Hr Hw) m) as [y Hy]. congruence.
Qed.

Lemma thread_stop m t a : thread_ok m t → t_rest t = Stop a → call_post (t_call t) (t_start t) a (t_done t) m.
Proof. intros [_ _ Hsafe _] Heq. rewrite Heq in Hsafe. by apply Hsafe. Qed.

Lemma singleton_split (ts ts' : list thread) t w : ts ++ t :: ts' = [w] → ts = [] ∧ ts' = [] ∧ t = w.
Proof. destruct ts as [|? [|]]; cbn; intros [=]; by subst. Qed.

Lemma conf_call_ok x y : conf_ok x → call_step x y → conf_ok y.
Proof.
  intros [Hall Hex] Hstep. destruct Hstep as [m m' ts t ts' B f k x Heq Hf|m ts t ts' a Heq]; cbn in *.
  - apply Forall_app in Hall as [Hts [Ht Hts']%Forall_cons].
    destruct (thread_section m t f k Ht Heq) as (x1 & m1 & Hf1 & Ht1 & Hread).
    rewrite Hf in Hf1. injection Hf1 as <- <-.
    destruct Hex as [(w & (-> & -> & ->)%singleton_split & Hw)|[Hinv Hrd]].
    + split; [by apply Forall_singleton|]. left. by eexists.
    + apply Forall_app in Hrd as [Hr [Hrt Hr']%Forall_cons]. rewrite Hread in * by done.
      split; cbn; [|right; split; [done|]]; apply Forall_app; (split; [done|by apply Forall_cons]).
  - apply Forall_app in Hall as [Hts [Ht Hts']%Forall_cons]. split; [by apply Forall_app|]. right.
    destruct Hex as [(w & (-> & -> & ->)%singleton_split & Hw)|[Hinv Hrd]].
    + split; [|by apply Forall_nil]. pose proof (thread_stop _ _ _ Ht Heq) as Hpost.
      eapply post_inv; [apply Ht|apply Ht|exact Hpost].
    + apply Forall_app in Hrd as [Hr [Hrt Hr']%Forall_cons]. split; [done|]. by apply Forall_app.
Qed.

Lemma conf_env_ok x y : conf_ok x → interference x y → conf_ok y.
Proof.
  destruct x as [m ts], y as [m' ts']. intros [Hall Hex] [Hm Hts]. cbn in *. subst ts'.
  apply env_rely in Hm. split.
  - eapply Forall_impl; [exact Hall|]. intros t. by apply thread_ok_rely.
  - destruct Hex as [Hw|[Hinv Hr]]; [by left|]. right. split; [by eapply inv_rely|done].
Qed.

Lemma conf_step_ok x y : conf_ok x → cstep x y → conf_ok y.
Proof.
  intros Hok Hstep. destruct Hstep as [x y He|m ts c Hc Hl|x y Hs]; [by eapply conf_env_ok| |by eapply conf_call_ok].
  destruct Hok as [Hall Hex]. unfold may_lock in Hl. cbn in *.
  assert (mgr_inv m ∧ readers ts ∧ (writes c = true → ts = [])) as (Hinv & Hr & Hempty).
  { destruct Hex as [(w & -> & Hw)|[Hinv Hr]].
    - destruct (writes c); [done|]. apply Forall_cons in Hl as [Hl _]. congruence.
    - split_and!; [done|done|]. by destruct (writes c). }
  split; cbn.
  - apply Forall_app. split; [done|]. apply Forall_singleton.
    split; [done|done|by apply body_safe|apply body_reads].
  - destruct (writes c) eqn:Hw; [left|right].
    + rewrite Hempty by done. by eexists.
    + split; [done|]. apply Forall_app. split; [done|]. by apply Forall_singleton.
Qed.

Lemma conf_reachable client s x :
  s_nextBoost s = 0%nat → rtc cstep (NewManagerWithTicker client s, []) x → conf_ok x.
Proof.
  intros Hs. apply (rtc_ind_r conf_ok _).
  - split; [by apply Forall_nil|]. right. split; [by apply new_inv|by apply Forall_nil].
  - intros y z _ Hstep Hy. by eapply conf_step_ok.
Qed.

(** ** Properties *)

(** C5: the registry under concurrency.  In every state that concurrent
    calls of the manager and the goroutines around it can reach, their
    sections interleaved in any way the read-write lock allows: a call that
    writes is in progress alone, and whenever none is, every boost is
    registered under its own name and namespace, the check loop checks only
    registered boosts and among them every one with a fixed duration,
    orphaned pods are filed under their own name and namespace, and every
    registered boost tracks pods under their names. *)
Theorem concurrent_registry_consistent client s m ts :
  s_nextBoost s = 0%nat → rtc cstep (NewManagerWithTicker client s, []) (m, ts) →
  (∀ t, t ∈ ts → writes (t_call t) = true → ts = [t]) ∧
  ((∀ t, t ∈ ts → writes (t_call t) = false) → registry_consistent m).
Proof.
  intros Hs Hr. apply conf_reachable in Hr as [_ Hex]; [|done]. cbn in Hex.
  destruct Hex as [(w & -> & Hw)|[Hinv Hrd]]; split.
  - by intros t ->%list_elem_of_singleton.
  - intros Hrd. rewrite Hrd in Hw by left. done.
  - intros t Ht Hw. unfold readers in Hrd. rewrite Forall_forall in Hrd. apply Hrd in Ht. congruence.
  - intros _. by apply inv_consistent.
Qed.

(** C8: a call of the manager does what it does as one step, up to what the
    other goroutines do meanwhile.  In every reachable state, a call in
    progress either has ended, and then its answer and the manager follow
    from the manager it found when it took the lock and from the sections it
    has run as [call_post] says, or its next section does not panic.  In
    particular a registration or an update that succeeds has asked the boost
    about every orphan of its namespace and handed it the ones it matched,
    the orphans that are gone are those it took without an error, and with a
    client it has listed the pods that carry the boost's label and handed the
    boost each of them that it did not track. *)
Theorem concurrent_calls_correct client s m ts t :
  s_nextBoost s = 0%nat → rtc cstep (NewManagerWithTicker client s, []) (m, ts) → t ∈ ts →
  match t_rest t with
  | Stop a => call_post (t_call t) (t_start t) a (t_done t) m
  | Atomic f _ => ∃ x m', f m = Done (x, m')
  end.
Proof.
  intros Hs Hr Ht. apply conf_reachable in Hr as [Hall _]; [|done]. cbn in Hall.
  rewrite Forall_forall in Hall. specialize (Hall t Ht).
  destruct (t_rest t) as [a|B f k] eqn:Heq; [by apply thread_stop|].
  destruct (thread_section m t f k Hall Heq) as (x & m' & Hf & _ & _). eauto.
Qed.
End system.

(** ** Concrete runs *)

Section driving.
Context `{QuantityLib} `{SelectorLib} `{AnnotationJSON} `{!PatchLib} `{MetricVecLib} `{!PodClient}.

(** The next step of the only call in progress. *)
Definition advance (x : managerImpl * list thread) : managerImpl * list thread :=
  match x.2 with
  | [t] =>
      match t_rest t with
      | Stop _ => (x.1, [])
      | Atomic f k =>
          match f x.1 with Done (y, m') => (m', [continue t x.1 m' (k y)]) | Panic _ => x end
      end
  | _ => x
  end.

(** One call is in progress and its next section does not panic. *)
Definition can_advance (x : managerImpl * list thread) : bool :=
  match x.2 with
  | [t] =>
      match t_rest t with
      | Stop _ => true
      | Atomic f _ => match f x.1 with Done _ => true | Panic _ => false end
      end
  | _ => false
  end.

Lemma advance_call x : can_advance x = true → call_step x (advance x).
Proof.
  destruct x as [m [|t [|t' ts]]]; try done. unfold can_advance, advance. cbn.
  destruct (t_rest t) as [a|B f k] eqn:Heq; intros Hc.
  - by apply (c_unlock m [] t [] a).
  - destruct (f m) as [[z m']|] eqn:Hf; [|done]. by apply (c_section m m' [] t [] B f k z).
Qed.

Lemma advance_stuck x : can_advance x = false → advance x = x.
Proof.
  destruct x as [m [|t [|t' ts]]]; try done. unfold can_advance, advance. cbn.
  destruct (t_rest t) as [a|B f k]; [done|]. by destruct (f m) as [[]|].
Qed.

Lemma advance_step x : rtc cstep x (advance x).
Proof.
  destruct (can_advance x) eqn:Hc; [by apply rtc_once, c_call, advance_call|].
  rewrite advance_stuck by done. apply rtc_refl.
Qed.

Lemma advance_reach n x y : rtc cstep x y → rtc cstep x (Nat.iter n advance y).
Proof.
  intros Hxy. induction n as [|n IH]; [done|]. etrans; [exact IH|apply advance_step].
Qed.

Lemma lock_reach c x y : rtc cstep x y → length y.2 = 0%nat → call_ok c y.1 → rtc cstep x (y.1, [begin c y.1]).
Proof.
  destruct y as [m ts]. cbn. intros Hxy ->%nil_length_inv Hc. apply (rtc_r _ (m, [])); [done|].
  apply (c_lock m [] c Hc). unfold may_lock. destruct (writes c); [done|apply Forall_nil_2].
Qed.

Lemma env_reach x y m : rtc cstep x y → env_step y.1 m → rtc cstep x (m, y.2).
Proof. intros Hxy Hm. apply (rtc_r _ y); [done|]. by apply c_env. Qed.
End driving.

Module witness.
#[local] Existing Instances ConcreteQuantity.lib ConcreteQuantity.laws ConcreteSelector.lib
  ConcreteJSON.json ConcreteVec.lib ConcreteVec.laws json_patches server server_basics.
Import ConcreteQuantity.
Import Manager.witness.

(** A pod becomes an orphan, a boost is built and registered and adopts it. *)
Definition orphaned := Nat.iter 10 advance (m1, [begin (CallUpsertPod rt 0%nat) m1]).
Definition building := built "boost" orphaned.1.
Definition adopted := Nat.iter 40 advance (building, [begin (CallAdd rt rt 0%nat) building]).

(** The boost is updated; after its pods were listed, a worker of the check
    reverts the pod, and the update goes on. *)
Definition listed := Nat.iter 12 advance (adopted.1, [begin (CallUpdate rt rt (boost_spec "boost")) adopted.1]).

Definition reverted : managerImpl := m_set_go
  (result_state (RevertResources order_fwd 0%nat 0%nat (m_go listed.1)) (m_go listed.1)) listed.1.
Definition resumed := Nat.iter 10 advance (reverted, listed.2).

Lemma reach_building :
  rtc cstep (NewManagerWithTicker true start, []) (building, [begin (CallAdd rt rt 0%nat) building]).
Proof.
  apply (lock_reach (CallAdd rt rt 0%nat) _ (building, orphaned.2)).
  2: vm_compute; reflexivity. 2: vm_compute; lia.
  apply env_reach.
  - apply advance_reach, (lock_reach _ _ (m1, [])); [|reflexivity|vm_compute; lia].
    apply (env_reach _ (m0, [])); [done|]. apply env_new_pod.
  - apply (env_new_boost orphaned.1 (boost_spec "boost") false (inr 0%nat)). reflexivity.
Defined.

Lemma reach_adopted : rtc cstep (NewManagerWithTicker true start, []) adopted.
Proof. apply (advance_reach 40), reach_building. Defined.

Lemma reach_listed : rtc cstep (NewManagerWithTicker true start, []) listed.
Proof.
  apply advance_reach, lock_reach; [apply reach_adopted|vm_compute; reflexivity|done].
Defined.

Lemma reach_updated : rtc cstep (NewManagerWithTicker true start, []) resumed.
Proof.
  apply advance_reach, (env_reach _ listed); [apply reach_listed|].
  apply (env_revert listed.1 order_fwd 0%nat 0%nat None). apply succeeds_result. vm_compute; reflexivity.
Defined.

Example concurrent_registry_consistent_witness :
  registry_consistent adopted.1 ∧ Get "boost" "demo" (m_timedBoosts adopted.1) = Some 0%nat ∧
  Get "web-1" "demo" (m_orphanedPods adopted.1) = None.
Proof.
  pose proof reach_adopted as Hr. rewrite (surjective_pairing adopted) in Hr.
  split_and!; [|vm_compute; reflexivity..].
  apply (concurrent_registry_consistent true start _ _ eq_refl Hr).
  assert (length adopted.2 = 0%nat) as ->%nil_length_inv by (vm_compute; reflexivity).
  by intros t Ht%not_elem_of_nil.
Defined.

(** A registration at its end: the orphan it found is gone, so the boost was
    asked about it and handed it. *)
Definition ending := Nat.iter 19 advance (building, [begin (CallAdd rt rt 0%nat) building]).

Definition at_end (x : managerImpl * list thread) : bool :=
  match x.2 with
  | [t] => match t_rest t with Stop _ => true | Atomic _ _ => false end
  | _ => false
  end.

Lemma reach_ending : rtc cstep (NewManagerWithTicker true start, []) ending.
Proof. apply (advance_reach 19), reach_building. Defined.

Example concurrent_calls_correct_witness :
  at_end ending = true ∧ Get "web-1" "demo" (m_orphanedPods building) = Some 0%nat ∧
  Get "web-1" "demo" (m_orphanedPods ending.1) = None ∧
  ∃ t, t ∈ ending.2 ∧
    match t_rest t with
    | Stop a => call_post (t_call t) (t_start t) a (t_done t) ending.1
    | Atomic f _ => ∃ x m', f ending.1 = Done (x, m')
    end.
Proof.
  split_and!; [vm_compute; reflexivity..|].
  pose proof reach_ending as Hr. rewrite (surjective_pairing ending) in Hr.
  assert (length ending.2 = 1%nat) as Hlen by (vm_compute; reflexivity).
  destruct ending.2 as [|t ts] eqn:Hts; [discriminate Hlen|]. exists t. split; [left|].
  apply (concurrent_calls_correct true start _ _ t eq_refl Hr). left.
Defined.
(** Only the interleaving shows this: an update lists the pods of its boost
    and then asks the boost for each of them.  A pod that a worker of the
    check reverts in between is tracked again, from the stale list, although
    the API server has it without the label of the boost. *)
Theorem update_tracks_reverted_pod :
  ∃ m, rtc cstep (NewManagerWithTicker true start, []) (m, []) ∧
    tracks (m_go m) 0%nat "web-1" ∧
    (pod ← stored (s_world (m_go m)) !! ("demo", "web-1"); gm_get (pod_Labels pod) BoostLabelKey) = None ∧
    is_Some (stored (s_world (m_go m)) !! ("demo", "web-1")).
Proof.
  exists resumed.1. pose proof reach_updated as Hr. rewrite (surjective_pairing resumed) in Hr.
  assert (length resumed.2 = 0%nat) as Hts%nil_length_inv by (vm_compute; reflexivity).
  rewrite Hts in Hr. split_and!; [done|apply (bool_decide_eq_true_1 (is_Some _)); vm_compute; reflexivity
    |vm_compute; reflexivity|apply (bool_decide_eq_true_1 (is_Some _)); vm_compute; reflexivity].
Qed.
End witness.
