(* ===== verification/ManagerTick.v ===== *)
(** * The check loop of the manager (internal/boost/manager.go)

    [validateTimePolicyBoosts] starts a producer, [maxGoroutines] workers, a
    goroutine that closes the result channels and one that logs errors, and
    collects reconcile requests itself.  The model is a transition system:
    [fire] runs one goroutine to its next communication.  Between any two
    steps the rest of the program may change the store of boosts and pods in
    any way, because the loop holds the manager's lock only while it copies
    the list of timed boosts.  The file proves that no goroutine panics, that
    they never block each other for good, that they finish, and what they
    have done then. *)

From S2P Require Import Prelude Quantities Kube Api Duration Resource BoostPod Metrics Client Boost.
From S2P Require Import Namespaced Manager ConcreteServer.

(** ** Buffered channels *)

Record Chan (A : Type) : Type := {
  ch_items : list A;
  ch_closed : bool
}.
Arguments ch_items {A} _.
Arguments ch_closed {A} _.

Section channels.
Context {A : Type}.
Implicit Types ch : Chan A.

Definition make_chan : Chan A := {| ch_items := []; ch_closed := false |}.

(** [ch <- x] with capacity [N]: [None] when the sender blocks. *)
Definition chan_send (N : nat) (x : A) ch : option (outcome (Chan A)) :=
  if ch_closed ch then Some (Panic "send on closed channel")
  else if (length (ch_items ch) <? N)%nat
  then Some (Done {| ch_items := ch_items ch ++ [x]; ch_closed := false |})
  else None.

(** [x, ok := <-ch]: [None] when the receiver blocks, [Some None] when the
    channel is closed and drained. *)
Definition chan_recv ch : option (option (A * Chan A)) :=
  match ch_items ch with
  | x :: xs => Some (Some (x, {| ch_items := xs; ch_closed := ch_closed ch |}))
  | [] => if ch_closed ch then Some None else None
  end.

Definition chan_close ch : outcome (Chan A) :=
  if ch_closed ch then Panic "close of closed channel"
  else Done {| ch_items := ch_items ch; ch_closed := true |}.
End channels.

Section tick.
Context `{QuantityLib} `{SelectorLib} `{AnnotationJSON} `{!PatchLib} `{MetricVecLib} `{!PodClient}.

(** ** The goroutines *)

Definition podRevertTask : Type := BoostRef * PodRef.

(** [reconcile.Request]: name and namespace. *)
Definition ReconcileRequest : Type := string * string.

Record Producer : Type := {
  pr_boosts : list BoostRef;            (* boosts still to validate *)
  pr_pending : list podRevertTask;      (* tasks of the current boost still to send *)
  pr_returned : bool
}.

(** Where a worker is in the body of its loop. *)
Inductive Worker : Type :=
  | Receiving
  | Reverting (t : podRevertTask)
  | SendingError (e : error)
  | SendingRequest (r : ReconcileRequest)
  | Returned.

Record Channels : Type := {
  c_revertTasks : Chan podRevertTask;
  c_reconcileTasks : Chan ReconcileRequest;
  c_errors : Chan error
}.

(** The closing goroutine: waiting for the workers, about to close the
    error channel, returned. *)
Inductive Closer : Type := Waiting | ClosingErrors | ClosedAll.

Record Tick : Type := {
  t_go : GoState;
  t_producer : Producer;
  t_workers : list Worker;
  t_closer : Closer;
  t_chans : Channels;
  t_received : list ReconcileRequest;   (* dedupeReconcileRequests: received so far *)
  t_collected : bool;                   (* and whether its loop has ended *)
  t_logged : list error;
  t_loggerDone : bool;
  (* history: the tasks handed out, and the reversions with their outcome *)
  t_produced : list podRevertTask;
  t_done : list (podRevertTask * (error + ReconcileRequest))
}.

(** The call with the given timed boosts, all goroutines about to run. *)
Definition tick_start (timeBoosts : list BoostRef) (maxGoroutines : nat) (s : GoState) : Tick := {|
  t_go := s;
  t_producer := {| pr_boosts := timeBoosts; pr_pending := []; pr_returned := false |};
  t_workers := replicate maxGoroutines Receiving;
  t_closer := Waiting;
  t_chans := {| c_revertTasks := make_chan; c_reconcileTasks := make_chan; c_errors := make_chan |};
  t_received := []; t_collected := false; t_logged := []; t_loggerDone := false;
  t_produced := []; t_done := []
|}.

Definition t_set_go (s : GoState) (c : Tick) : Tick := {|
  t_go := s; t_producer := t_producer c; t_workers := t_workers c; t_closer := t_closer c;
  t_chans := t_chans c; t_received := t_received c; t_collected := t_collected c;
  t_logged := t_logged c; t_loggerDone := t_loggerDone c;
  t_produced := t_produced c; t_done := t_done c
|}.

(** The producer and what it hands out. *)
Definition t_set_producer (p : Producer) (q : Chan podRevertTask) (produced : list podRevertTask)
    (c : Tick) : Tick := {|
  t_go := t_go c; t_producer := p; t_workers := t_workers c; t_closer := t_closer c;
  t_chans := {| c_revertTasks := q; c_reconcileTasks := c_reconcileTasks (t_chans c);
                c_errors := c_errors (t_chans c) |};
  t_received := t_received c; t_collected := t_collected c;
  t_logged := t_logged c; t_loggerDone := t_loggerDone c;
  t_produced := produced; t_done := t_done c
|}.

(** Worker [i] and the channels. *)
Definition t_set_worker (i : nat) (w : Worker) (chans : Channels) (c : Tick) : Tick := {|
  t_go := t_go c; t_producer := t_producer c; t_workers := <[i := w]> (t_workers c);
  t_closer := t_closer c; t_chans := chans; t_received := t_received c;
  t_collected := t_collected c; t_logged := t_logged c; t_loggerDone := t_loggerDone c;
  t_produced := t_produced c; t_done := t_done c
|}.

Definition t_set_reverted (i : nat) (t : podRevertTask) (o : error + ReconcileRequest) (s : GoState)
    (c : Tick) : Tick := {|
  t_go := s; t_producer := t_producer c;
  t_workers := <[i := match o with inl e => SendingError e | inr r => SendingRequest r end]> (t_workers c);
  t_closer := t_closer c; t_chans := t_chans c; t_received := t_received c;
  t_collected := t_collected c; t_logged := t_logged c; t_loggerDone := t_loggerDone c;
  t_produced := t_produced c; t_done := t_done c ++ [(t, o)]
|}.

Definition t_set_closer (k : Closer) (chans : Channels) (c : Tick) : Tick := {|
  t_go := t_go c; t_producer := t_producer c; t_workers := t_workers c; t_closer := k;
  t_chans := chans; t_received := t_received c; t_collected := t_collected c;
  t_logged := t_logged c; t_loggerDone := t_loggerDone c;
  t_produced := t_produced c; t_done := t_done c
|}.

Definition t_set_received (chans : Channels) (received : list ReconcileRequest) (collected : bool)
    (c : Tick) : Tick := {|
  t_go := t_go c; t_producer := t_producer c; t_workers := t_workers c; t_closer := t_closer c;
  t_chans := chans; t_received := received; t_collected := collected;
  t_logged := t_logged c; t_loggerDone := t_loggerDone c;
  t_produced := t_produced c; t_done := t_done c
|}.

Definition t_set_logged (chans : Channels) (logged : list error) (loggerDone : bool)
    (c : Tick) : Tick := {|
  t_go := t_go c; t_producer := t_producer c; t_workers := t_workers c; t_closer := t_closer c;
  t_chans := chans; t_received := t_received c; t_collected := t_collected c;
  t_logged := logged; t_loggerDone := loggerDone;
  t_produced := t_produced c; t_done := t_done c
|}.

Definition with_revertTasks (chans : Channels) q : Channels :=
  {| c_revertTasks := q; c_reconcileTasks := c_reconcileTasks chans; c_errors := c_errors chans |}.
Definition with_reconcileTasks (chans : Channels) q : Channels :=
  {| c_revertTasks := c_revertTasks chans; c_reconcileTasks := q; c_errors := c_errors chans |}.
Definition with_errors (chans : Channels) q : Channels :=
  {| c_revertTasks := c_revertTasks chans; c_reconcileTasks := c_reconcileTasks chans; c_errors := q |}.

(** *** One step of each: [None] when it blocks or has returned. *)

(** [now] is the clock of the validation, [σ] its iteration order. *)
Definition producer_step (N : nat) (σ : RangeOrder) (now : string → Z) (c : Tick) :
    option (outcome Tick) :=
  let p := t_producer c in
  let q := c_revertTasks (t_chans c) in
  if pr_returned p then None else
  match pr_pending p, pr_boosts p with
  | t :: ts, _ =>
      match chan_send N t q with
      | None => None
      | Some (Panic msg) => Some (Panic msg)
      | Some (Done q') =>
          Some (Done (t_set_producer
            {| pr_boosts := pr_boosts p; pr_pending := ts; pr_returned := false |} q' (t_produced c) c))
      end
  | [], b :: bs =>
      match ValidatePolicy σ now b duration.FixedDurationPolicyName (t_go c) with
      | Panic msg => Some (Panic msg)
      | Done (pods, s) =>
          let tasks := (λ pod, (b, pod)) <$> pods in
          Some (Done (t_set_go s (t_set_producer
            {| pr_boosts := bs; pr_pending := tasks; pr_returned := false |} q (t_produced c ++ tasks) c)))
      end
  | [], [] =>
      match chan_close q with
      | Panic msg => Some (Panic msg)
      | Done q' =>
          Some (Done (t_set_producer
            {| pr_boosts := []; pr_pending := []; pr_returned := true |} q' (t_produced c) c))
      end
  end.

Definition revert_outcome (s : GoState) (t : podRevertTask) (err : option error) :
    error + ReconcileRequest :=
  match err with
  | Some e => inl ("pod " +:+ pod_Namespace (s_pods s t.2) +:+ "/" +:+ pod_Name (s_pods s t.2) +:+ ": " +:+ e)
  | None => inr (b_name (s_boosts s t.1), b_namespace (s_boosts s t.1))
  end.

Definition worker_step (N : nat) (i : nat) (σ : RangeOrder) (c : Tick) : option (outcome Tick) :=
  let chans := t_chans c in
  match t_workers c !! i with
  | None | Some Returned => None
  | Some Receiving =>
      match chan_recv (c_revertTasks chans) with
      | None => None
      | Some (Some (t, q)) => Some (Done (t_set_worker i (Reverting t) (with_revertTasks chans q) c))
      | Some None => Some (Done (t_set_worker i Returned chans c))
      end
  | Some (Reverting t) =>
      match RevertResources σ t.1 t.2 (t_go c) with
      | Panic msg => Some (Panic msg)
      | Done (err, s) => Some (Done (t_set_reverted i t (revert_outcome s t err) s c))
      end
  | Some (SendingError e) =>
      match chan_send N e (c_errors chans) with
      | None => None
      | Some (Panic msg) => Some (Panic msg)
      | Some (Done q) => Some (Done (t_set_worker i Receiving (with_errors chans q) c))
      end
  | Some (SendingRequest r) =>
      match chan_send N r (c_reconcileTasks chans) with
      | None => None
      | Some (Panic msg) => Some (Panic msg)
      | Some (Done q) => Some (Done (t_set_worker i Receiving (with_reconcileTasks chans q) c))
      end
  end.

#[global] Instance Worker_returned_dec (w : Worker) : Decision (w = Returned).
Proof. destruct w; [right|right|right|right|left]; done. Defined.

(** [wg.Wait()], [close(reconcileTasks)], [close(errors)] *)
Definition closer_step (c : Tick) : option (outcome Tick) :=
  let chans := t_chans c in
  match t_closer c with
  | Waiting =>
      if decide (Forall (λ w, w = Returned) (t_workers c)) then
        match chan_close (c_reconcileTasks chans) with
        | Panic msg => Some (Panic msg)
        | Done q => Some (Done (t_set_closer ClosingErrors (with_reconcileTasks chans q) c))
        end
      else None
  | ClosingErrors =>
      match chan_close (c_errors chans) with
      | Panic msg => Some (Panic msg)
      | Done q => Some (Done (t_set_closer ClosedAll (with_errors chans q) c))
      end
  | ClosedAll => None
  end.

(** The loop of [dedupeReconcileRequests] over the channel. *)
Definition collector_step (c : Tick) : option (outcome Tick) :=
  let chans := t_chans c in
  if t_collected c then None else
  match chan_recv (c_reconcileTasks chans) with
  | None => None
  | Some (Some (r, q)) =>
      Some (Done (t_set_received (with_reconcileTasks chans q) (t_received c ++ [r]) false c))
  | Some None => Some (Done (t_set_received chans (t_received c) true c))
  end.

Definition logger_step (c : Tick) : option (outcome Tick) :=
  let chans := t_chans c in
  if t_loggerDone c then None else
  match chan_recv (c_errors chans) with
  | None => None
  | Some (Some (e, q)) =>
      Some (Done (t_set_logged (with_errors chans q) (t_logged c ++ [e]) false c))
  | Some None => Some (Done (t_set_logged chans (t_logged c) true c))
  end.

(** Who runs next, with the choices its step needs. *)
Inductive Action : Type :=
  | RunProducer (σ : RangeOrder) (now : string → Z)
  | RunWorker (i : nat) (σ : RangeOrder)
  | RunCloser
  | RunCollector
  | RunLogger.

Definition fire (N : nat) (a : Action) (c : Tick) : option (outcome Tick) :=
  match a with
  | RunProducer σ now => producer_step N σ now c
  | RunWorker i σ => worker_step N i σ c
  | RunCloser => closer_step c
  | RunCollector => collector_step c
  | RunLogger => logger_step c
  end.

(** A step after the rest of the program has left the store as [s]. *)
Definition tick_step (N : nat) (c c' : Tick) : Prop :=
  ∃ s a, fire N a (t_set_go s c) = Some (Done c').

(** All goroutines of the call have returned, and its collecting loop. *)
Definition finished (c : Tick) : Prop :=
  pr_returned (t_producer c) = true ∧ Forall (λ w, w = Returned) (t_workers c) ∧
  t_closer c = ClosedAll ∧ t_collected c = true ∧ t_loggerDone c = true.

(** ** Around the goroutines *)

(** The order in which a map keyed by requests is ranged over. *)
Record RequestOrder : Type := {
  request_order : list ReconcileRequest → list ReconcileRequest;
  request_order_perm l : request_order l ≡ₚ l
}.

(** The result of [dedupeReconcileRequests] for the received requests. *)
Definition dedupeReconcileRequests (ρ : RequestOrder) (received : list ReconcileRequest) :
    list ReconcileRequest :=
  let requests : gset ReconcileRequest := list_to_set received in
  request_order ρ (elements requests).

(** The requests handed to the reconciler, in order. *)
Definition reconcile_calls (m : managerImpl) (ρ : RequestOrder) (c : Tick) : list ReconcileRequest :=
  if m_reconciler m then dedupeReconcileRequests ρ (t_received c) else [].

(** [validateTimePolicyBoosts]: from the copy of the timed boosts to the
    end of the collecting loop. *)
Definition validateTimePolicyBoosts_start (σ : RangeOrder) (τ : string → RangeOrder)
    (m : managerImpl) : Tick :=
  tick_start (ListAll σ τ (m_timedBoosts m)) (m_maxGoroutines m) (m_go m).
End tick.

(** ** The invariant *)

Section invariant.
Context `{QuantityLib} `{SelectorLib} `{AnnotationJSON} `{!PatchLib} `{MetricVecLib} `{!PodClient}.
Context `{!PodClientBasics}.
Implicit Types (c : Tick) (w : Worker) (ws : list Worker).

#[global] Instance Closer_eq_dec : EqDecision Closer.
Proof. solve_decision. Defined.

(** What a worker holds. *)
Definition w_task w : list podRevertTask := match w with Reverting t => [t] | _ => [] end.
Definition w_error w : list error := match w with SendingError e => [e] | _ => [] end.
Definition w_request w : list ReconcileRequest := match w with SendingRequest r => [r] | _ => [] end.

Definition outcome_errors (os : list (error + ReconcileRequest)) : list error :=
  omap (λ o, match o with inl e => Some e | inr _ => None end) os.
Definition outcome_requests (os : list (error + ReconcileRequest)) : list ReconcileRequest :=
  omap (λ o, match o with inr r => Some r | inl _ => None end) os.

(** Which goroutine has returned decides which channel is closed. *)
Record control_inv (N : nat) c : Prop := {
  ci_workers : length (t_workers c) = N;
  ci_revert : ch_closed (c_revertTasks (t_chans c)) = pr_returned (t_producer c);
  ci_producer : pr_returned (t_producer c) = true →
    pr_boosts (t_producer c) = [] ∧ pr_pending (t_producer c) = [];
  ci_returned : Returned ∈ t_workers c →
    ch_items (c_revertTasks (t_chans c)) = [] ∧ pr_returned (t_producer c) = true;
  ci_reconcile : ch_closed (c_reconcileTasks (t_chans c)) = bool_decide (t_closer c ≠ Waiting);
  ci_errors : ch_closed (c_errors (t_chans c)) = bool_decide (t_closer c = ClosedAll);
  ci_closer : t_closer c ≠ Waiting → Forall (λ w, w = Returned) (t_workers c);
  ci_collected : t_collected c = true →
    ch_items (c_reconcileTasks (t_chans c)) = [] ∧ t_closer c ≠ Waiting;
  ci_logger : t_loggerDone c = true →
    ch_items (c_errors (t_chans c)) = [] ∧ t_closer c = ClosedAll
}.

(** Nothing is lost and nothing happens twice. *)
Record data_inv c : Prop := {
  di_tasks : t_produced c ≡ₚ
    pr_pending (t_producer c) ++ ch_items (c_revertTasks (t_chans c)) ++
    (t_workers c ≫= w_task) ++ (t_done c).*1;
  di_requests : outcome_requests (t_done c).*2 ≡ₚ
    t_received c ++ ch_items (c_reconcileTasks (t_chans c)) ++ (t_workers c ≫= w_request);
  di_errors : outcome_errors (t_done c).*2 ≡ₚ
    t_logged c ++ ch_items (c_errors (t_chans c)) ++ (t_workers c ≫= w_error)
}.

Lemma start_control boosts N s : control_inv N (tick_start boosts N s).
Proof.
  split; cbn; try done; [by rewrite length_replicate|].
  intros [? _]%elem_of_replicate. done.
Qed.

Lemma start_data boosts N s : data_inv (tick_start boosts N s).
Proof.
  assert (∀ {A} (f : Worker → list A), f Receiving = [] → replicate N Receiving ≫= f = []) as Hnil.
  { intros A f Hf. induction N as [|N IH]; [done|]. cbn. by rewrite Hf, IH. }
  split; cbn; by rewrite Hnil.
Qed.

Lemma chan_send_inv {A} N (x : A) ch r :
  chan_send N x ch = Some r → ch_closed ch = false →
  r = Done {| ch_items := ch_items ch ++ [x]; ch_closed := false |}.
Proof.
  unfold chan_send. intros Hr Hc. rewrite Hc in Hr. destruct (_ <? N)%nat; [|done]. by injection Hr.
Qed.

(** What a step can be, once the panics are ruled out. *)
Inductive stepped c : Tick → Prop :=
  | stepped_validate b bs tasks s :
      pr_boosts (t_producer c) = b :: bs → pr_pending (t_producer c) = [] →
      pr_returned (t_producer c) = false →
      stepped c (t_set_go s (t_set_producer
        {| pr_boosts := bs; pr_pending := tasks; pr_returned := false |}
        (c_revertTasks (t_chans c)) (t_produced c ++ tasks) c))
  | stepped_send t ts :
      pr_pending (t_producer c) = t :: ts → pr_returned (t_producer c) = false →
      stepped c (t_set_producer
        {| pr_boosts := pr_boosts (t_producer c); pr_pending := ts; pr_returned := false |}
        {| ch_items := ch_items (c_revertTasks (t_chans c)) ++ [t]; ch_closed := false |}
        (t_produced c) c)
  | stepped_close :
      pr_pending (t_producer c) = [] → pr_boosts (t_producer c) = [] →
      pr_returned (t_producer c) = false →
      stepped c (t_set_producer {| pr_boosts := []; pr_pending := []; pr_returned := true |}
        {| ch_items := ch_items (c_revertTasks (t_chans c)); ch_closed := true |} (t_produced c) c)
  | stepped_take i t q :
      t_workers c !! i = Some Receiving → ch_items (c_revertTasks (t_chans c)) = t :: q →
      stepped c (t_set_worker i (Reverting t) (with_revertTasks (t_chans c)
        {| ch_items := q; ch_closed := ch_closed (c_revertTasks (t_chans c)) |}) c)
  | stepped_return i :
      t_workers c !! i = Some Receiving → ch_items (c_revertTasks (t_chans c)) = [] →
      ch_closed (c_revertTasks (t_chans c)) = true →
      stepped c (t_set_worker i Returned (t_chans c) c)
  | stepped_revert i t o s :
      t_workers c !! i = Some (Reverting t) → stepped c (t_set_reverted i t o s c)
  | stepped_error i e :
      t_workers c !! i = Some (SendingError e) →
      stepped c (t_set_worker i Receiving (with_errors (t_chans c)
        {| ch_items := ch_items (c_errors (t_chans c)) ++ [e]; ch_closed := false |}) c)
  | stepped_request i r :
      t_workers c !! i = Some (SendingRequest r) →
      stepped c (t_set_worker i Receiving (with_reconcileTasks (t_chans c)
        {| ch_items := ch_items (c_reconcileTasks (t_chans c)) ++ [r]; ch_closed := false |}) c)
  | stepped_close_requests :
      t_closer c = Waiting → Forall (λ w, w = Returned) (t_workers c) →
      stepped c (t_set_closer ClosingErrors (with_reconcileTasks (t_chans c)
        {| ch_items := ch_items (c_reconcileTasks (t_chans c)); ch_closed := true |}) c)
  | stepped_close_errors :
      t_closer c = ClosingErrors →
      stepped c (t_set_closer ClosedAll (with_errors (t_chans c)
        {| ch_items := ch_items (c_errors (t_chans c)); ch_closed := true |}) c)
  | stepped_collect r q :
      t_collected c = false → ch_items (c_reconcileTasks (t_chans c)) = r :: q →
      stepped c (t_set_received (with_reconcileTasks (t_chans c)
        {| ch_items := q; ch_closed := ch_closed (c_reconcileTasks (t_chans c)) |})
        (t_received c ++ [r]) false c)
  | stepped_collected :
      t_collected c = false → ch_items (c_reconcileTasks (t_chans c)) = [] →
      ch_closed (c_reconcileTasks (t_chans c)) = true →
      stepped c (t_set_received (t_chans c) (t_received c) true c)
  | stepped_log e q :
      t_loggerDone c = false → ch_items (c_errors (t_chans c)) = e :: q →
      stepped c (t_set_logged (with_errors (t_chans c)
        {| ch_items := q; ch_closed := ch_closed (c_errors (t_chans c)) |}) (t_logged c ++ [e]) false c)
  | stepped_logged :
      t_loggerDone c = false → ch_items (c_errors (t_chans c)) = [] →
      ch_closed (c_errors (t_chans c)) = true →
      stepped c (t_set_logged (t_chans c) (t_logged c) true c).

(** An active worker keeps the result channels open. *)
Lemma active_open N c i w :
  control_inv N c → t_workers c !! i = Some w → w ≠ Returned →
  ch_closed (c_reconcileTasks (t_chans c)) = false ∧ ch_closed (c_errors (t_chans c)) = false.
Proof.
  intros Hc Hi Hw. assert (t_closer c = Waiting) as Hk.
  { destruct (decide (t_closer c = Waiting)) as [|Hk]; [done|]. destruct Hw.
    by eapply (Forall_lookup_1 _ _ _ _ (ci_closer _ _ Hc Hk)). }
  by rewrite (ci_reconcile _ _ Hc), (ci_errors _ _ Hc), Hk.
Qed.

Lemma chan_recv_cases {A} (ch : Chan A) r :
  chan_recv ch = Some r →
  match r with
  | Some (x, ch') => ∃ q, ch_items ch = x :: q ∧ ch' = {| ch_items := q; ch_closed := ch_closed ch |}
  | None => ch_items ch = [] ∧ ch_closed ch = true
  end.
Proof.
  unfold chan_recv. destruct (ch_items ch) as [|x q] eqn:Hi.
  - destruct (ch_closed ch) eqn:Hc; [|done]. by intros [= <-].
  - intros [= <-]. by exists q.
Qed.

(** No goroutine panics, and its step is one of those above. *)
Lemma fire_cases N a c r :
  control_inv N c → fire N a c = Some r → ∃ c', r = Done c' ∧ stepped c c'.
Proof.
  intros Hc. destruct a as [σ now|i σ| | |]; cbn [fire].
  - unfold producer_step. destruct (pr_returned _) eqn:Hret; [done|].
    pose proof (ci_revert _ _ Hc) as Hq. rewrite Hret in Hq.
    destruct (pr_pending _) as [|t ts] eqn:Hp; [destruct (pr_boosts _) as [|b bs] eqn:Hb|].
    + unfold chan_close. rewrite Hq. intros [= <-]. eexists. split; [done|]. by constructor.
    + destruct (ValidatePolicy_spec σ now b duration.FixedDurationPolicyName (t_go c)) as (l & -> & _).
      intros [= <-]. eexists. split; [done|]. by econstructor.
    + destruct (chan_send _ _ _) as [r'|] eqn:Hs; [|done]. apply chan_send_inv in Hs as ->; [|done].
      intros [= <-]. eexists. split; [done|]. by constructor.
  - unfold worker_step. destruct (t_workers c !! i) as [[|t|e|r'|]|] eqn:Hi; try done.
    + destruct (chan_recv _) as [r'|] eqn:Hr; [|done]. apply chan_recv_cases in Hr.
      destruct r' as [[t q]|].
      * destruct Hr as (q' & Hq & ->). intros [= <-]. eexists. split; [done|]. by constructor.
      * destruct Hr. intros [= <-]. eexists. split; [done|]. by constructor.
    + destruct (revertResources_keeps σ t.1 t.2 (t_go c)) as (err & s & Hr & _).
      unfold RevertResources. rewrite Hr. intros [= <-]. eexists. split; [done|]. by constructor.
    + destruct (active_open _ _ _ _ Hc Hi) as [_ Ho]; [done|].
      destruct (chan_send _ _ _) as [r'|] eqn:Hs; [|done]. apply chan_send_inv in Hs as ->; [|done].
      intros [= <-]. eexists. split; [done|]. by constructor.
    + destruct (active_open _ _ _ _ Hc Hi) as [Ho _]; [done|].
      destruct (chan_send _ _ _) as [r''|] eqn:Hs; [|done]. apply chan_send_inv in Hs as ->; [|done].
      intros [= <-]. eexists. split; [done|]. by constructor.
  - unfold closer_step. pose proof (ci_reconcile _ _ Hc) as Hr. pose proof (ci_errors _ _ Hc) as He.
    destruct (t_closer c) eqn:Hk; cbn in Hr, He; [|..|done].
    + destruct (decide (Forall _ (t_workers c))); [|done]. unfold chan_close. rewrite Hr. intros [= <-].
      eexists. split; [done|]. by constructor.
    + unfold chan_close. rewrite He. intros [= <-]. eexists. split; [done|]. by constructor.
  - unfold collector_step. destruct (t_collected c) eqn:Hcol; [done|].
    destruct (chan_recv _) as [r'|] eqn:Hr; [|done]. apply chan_recv_cases in Hr.
    destruct r' as [[x q]|].
    + destruct Hr as (q' & Hq & ->). intros [= <-]. eexists. split; [done|]. by constructor.
    + destruct Hr. intros [= <-]. eexists. split; [done|]. by constructor.
  - unfold logger_step. destruct (t_loggerDone c) eqn:Hl; [done|].
    destruct (chan_recv _) as [r'|] eqn:Hr; [|done]. apply chan_recv_cases in Hr.
    destruct r' as [[x q]|].
    + destruct Hr as (q' & Hq & ->). intros [= <-]. eexists. split; [done|]. by constructor.
    + destruct Hr. intros [= <-]. eexists. split; [done|]. by constructor.
Qed.

Lemma returned_insert ws i w w0 :
  ws !! i = Some w0 → w ≠ Returned → Returned ∈ <[i := w]> ws → Returned ∈ ws.
Proof.
  intros Hi Hw. destruct (list_split_at _ _ _ Hi) as (l1 & l2 & -> & ->). rewrite !elem_of_app, !elem_of_cons.
  naive_solver.
Qed.

(** A worker that has not returned: the closing goroutine waits. *)
Lemma active_waiting N c i w :
  control_inv N c → t_workers c !! i = Some w → w ≠ Returned → t_closer c = Waiting.
Proof.
  intros Hc Hi Hw. destruct (decide (t_closer c = Waiting)) as [|Hk]; [done|]. destruct Hw.
  by eapply (Forall_lookup_1 _ _ _ _ (ci_closer _ _ Hc Hk)).
Qed.

Lemma stepped_control N c c' : control_inv N c → stepped c c' → control_inv N c'.
Proof.
  intros Hc Hs. pose proof Hc as [Hw Hrv Hpr Hrt Hrc Her Hcl Hco Hlo].
  destruct Hs as [b bs tasks s Hb Hp Hr|t ts Hp Hr|Hp Hb Hr|i t q Hi Hq|i Hi Hq Hcq|i t o s Hi
    |i e Hi|i r Hi|Hk Hall|Hk|r q Hcol Hq|Hcol Hq Hcq|e q Hl Hq|Hl Hq Hcq];
    try (pose proof (active_waiting _ _ _ _ Hc Hi ltac:(done)) as Hwait).
  all: split; cbn; try done; try (by rewrite length_insert); try (intros; congruence).
  all: try (intros Hin; apply (returned_insert _ _ _ _ Hi) in Hin; [|by try destruct o]).
  all: try (intros Hin); try (destruct (Hrt Hin)); try (destruct (Hco Hin)); try (destruct (Hlo Hin)).
  all: try (rewrite ?Hrc, ?Her, ?Hwait, ?Hk; reflexivity); try (split; congruence).
  - apply Hcl. congruence.
  - split; [done|]. intros Hk. by rewrite Hrc, Hk in Hcq.
  - split; [done|]. rewrite Her in Hcq. by apply bool_decide_eq_true in Hcq.
Qed.

Lemma stepped_data c c' : data_inv c → stepped c c' → data_inv c'.
Proof.
  intros [Ht Hq He] Hs.
  destruct Hs as [b bs tasks s Hb Hp Hr|t ts Hp Hr|Hp Hb Hr|i t q Hi Hq'|i Hi Hq' Hcq|i t o s Hi
    |i e Hi|i r Hi|Hk Hall|Hk|r q Hcol Hq'|Hcol Hq' Hcq|e q Hl Hq'|Hl Hq' Hcq];
    try (destruct (list_split_at _ _ _ Hi) as (l1 & l2 & Hws & Hins));
    split; cbn -[outcome_requests outcome_errors];
    unfold outcome_requests, outcome_errors in *; rewrite ?fmap_app, ?omap_app, ?Ht, ?Hq, ?He, ?Hins, ?Hws;
    rewrite ?bind_app, ?bind_cons, ?Hp, ?Hq'; try (destruct o); cbn; solve_Permutation.
Qed.
End invariant.

(** ** Progress and termination *)

Section progress.
Context `{QuantityLib} `{SelectorLib} `{AnnotationJSON} `{!PatchLib} `{MetricVecLib} `{!PodClient}.
Context `{!PodClientBasics}.
Implicit Types (c : Tick) (w : Worker).

Definition enabled (N : nat) c : Prop := ∃ a c', fire N a c = Some (Done c').

(** A step that does not block is a step: nothing panics. *)
Lemma enabled_intro N a c : control_inv N c → fire N a c ≠ None → enabled N c.
Proof.
  intros Hc Ha. destruct (fire N a c) as [r|] eqn:Hr; [|done].
  destruct (fire_cases _ _ _ _ Hc Hr) as (c' & -> & _). by exists a, c'.
Qed.

Lemma chan_send_room {A} N (x : A) ch :
  chan_send N x ch = None → (N ≤ length (ch_items ch))%nat ∧ ch_closed ch = false.
Proof.
  unfold chan_send. destruct (ch_closed ch); [done|]. destruct (Nat.ltb_spec (length (ch_items ch)) N); [done|].
  done.
Qed.

(** The collector and the logger never leave a full channel alone. *)
Lemma collector_progress N c :
  control_inv N c → ch_items (c_reconcileTasks (t_chans c)) ≠ [] → enabled N c.
Proof.
  intros Hc Hq. apply (enabled_intro N RunCollector); [done|]. cbn. unfold collector_step, chan_recv.
  destruct (t_collected c) eqn:Hcol; [by destruct (ci_collected _ _ Hc Hcol)|].
  by destruct (ch_items _).
Qed.

Lemma logger_progress N c :
  control_inv N c → ch_items (c_errors (t_chans c)) ≠ [] → enabled N c.
Proof.
  intros Hc Hq. apply (enabled_intro N RunLogger); [done|]. cbn. unfold logger_step, chan_recv.
  destruct (t_loggerDone c) eqn:Hl; [by destruct (ci_logger _ _ Hc Hl)|].
  by destruct (ch_items _).
Qed.

Lemma full_nonempty {A} N (l : list A) : (0 < N)%nat → (N ≤ length l)%nat → l ≠ [].
Proof. intros HN Hl ->. cbn in Hl. lia. Qed.

(** A worker that has not returned moves, or someone moves for it, when
    there is a task to take or the tasks are closed. *)
Lemma worker_progress N c i w :
  (0 < N)%nat → control_inv N c → t_workers c !! i = Some w → w ≠ Returned →
  ch_items (c_revertTasks (t_chans c)) ≠ [] ∨ ch_closed (c_revertTasks (t_chans c)) = true →
  enabled N c.
Proof.
  intros HN Hc Hi Hw Htask. destruct (fire N (RunWorker i order_fwd) c) as [r|] eqn:Hr.
  { apply (enabled_intro N (RunWorker i order_fwd)); [done|]. by rewrite Hr. }
  cbn in Hr. unfold worker_step in Hr. rewrite Hi in Hr. destruct w as [|t|e|r|]; [| | | |done].
  - unfold chan_recv in Hr. destruct (ch_items _); [|done]. destruct (ch_closed _); [done|]. naive_solver.
  - by destruct (RevertResources _ _ _ _) as [[? ?]|].
  - destruct (chan_send _ _ _) as [[|]|] eqn:Hs; try done. apply chan_send_room in Hs as [Hfull _].
    apply logger_progress; [done|]. by eapply full_nonempty.
  - destruct (chan_send _ _ _) as [[|]|] eqn:Hs; try done. apply chan_send_room in Hs as [Hfull _].
    apply collector_progress; [done|]. by eapply full_nonempty.
Qed.

Lemma worker_active (ws : list Worker) :
  ¬ Forall (λ w, w = Returned) ws → ∃ i w, ws !! i = Some w ∧ w ≠ Returned.
Proof.
  intros Hn. apply not_Forall_Exists in Hn; [|apply _]. apply Exists_exists in Hn as (w & Hin & Hw).
  apply list_elem_of_lookup in Hin as (i & Hi). eauto.
Qed.

Lemma tick_progress N c : (0 < N)%nat → control_inv N c → finished c ∨ enabled N c.
Proof.
  intros HN Hc. destruct (pr_returned (t_producer c)) eqn:Hret.
  - assert (ch_closed (c_revertTasks (t_chans c)) = true) as Hcl by (by rewrite (ci_revert _ _ Hc)).
    destruct (decide (Forall (λ w, w = Returned) (t_workers c))) as [Hall|Hn].
    + destruct (t_closer c) eqn:Hk;
        [right; apply (enabled_intro N RunCloser); [done|]; cbn; unfold closer_step; rewrite Hk..|].
      * rewrite decide_True by done. by destruct (chan_close _).
      * by destruct (chan_close _).
      * destruct (ch_items (c_reconcileTasks (t_chans c))) eqn:Hq;
          [|right; apply collector_progress; [done|by rewrite Hq]].
        destruct (ch_items (c_errors (t_chans c))) eqn:He;
          [|right; apply logger_progress; [done|by rewrite He]].
        destruct (t_collected c) eqn:Hcol; [destruct (t_loggerDone c) eqn:Hl; [by left|]|]; right.
        -- apply (enabled_intro N RunLogger); [done|]. cbn. unfold logger_step, chan_recv.
           by rewrite Hl, He, (ci_errors _ _ Hc), Hk.
        -- apply (enabled_intro N RunCollector); [done|]. cbn. unfold collector_step, chan_recv.
           by rewrite Hcol, Hq, (ci_reconcile _ _ Hc), Hk.
    + right. apply worker_active in Hn as (i & w & Hi & Hw). eapply worker_progress; eauto.
  - right. destruct (fire N (RunProducer order_fwd (λ _, 0)) c) as [r|] eqn:Hr.
    { apply (enabled_intro N (RunProducer order_fwd (λ _, 0))); [done|]. by rewrite Hr. }
    cbn in Hr. unfold producer_step in Hr. rewrite Hret in Hr.
    destruct (pr_pending _) as [|t ts]; [destruct (pr_boosts _) as [|b bs]|].
    + by destruct (chan_close _).
    + by destruct (ValidatePolicy _ _ _ _ _) as [[? ?]|].
    + destruct (chan_send _ _ _) as [[|]|] eqn:Hs; try done. apply chan_send_room in Hs as [Hfull _].
      pose proof (full_nonempty _ _ HN Hfull) as Hne.
      destruct (t_workers c) as [|w ws] eqn:Hws.
      { pose proof (ci_workers _ _ Hc) as Hlen. rewrite Hws in Hlen. cbn in Hlen. lia. }
      apply (worker_progress N c 0 w); [done|done|by rewrite Hws| |by left].
      intros ->. destruct (ci_returned _ _ Hc) as [Hnil _]; [rewrite Hws; left|done].
Qed.

(** A bound on the steps left, once the boosts have been validated. *)
Definition w_weight w : nat :=
  match w with Receiving => 1 | Reverting _ => 5 | SendingError _ | SendingRequest _ => 4 | Returned => 0 end.

Definition todo (b : bool) : nat := if b then 0 else 1.

Definition tick_weight c : nat :=
  6 * length (pr_pending (t_producer c)) + 5 * length (ch_items (c_revertTasks (t_chans c))) +
  sum_nat w_weight (t_workers c) +
  2 * length (ch_items (c_reconcileTasks (t_chans c))) + 2 * length (ch_items (c_errors (t_chans c))) +
  todo (pr_returned (t_producer c)) +
  match t_closer c with Waiting => 2 | ClosingErrors => 1 | ClosedAll => 0 end +
  todo (t_collected c) + todo (t_loggerDone c).

Lemma stepped_weight c c' :
  stepped c c' →
  (length (pr_boosts (t_producer c')) < length (pr_boosts (t_producer c)))%nat ∨
  length (pr_boosts (t_producer c')) = length (pr_boosts (t_producer c)) ∧
  (tick_weight c' < tick_weight c)%nat.
Proof.
  intros Hs.
  destruct Hs as [b bs tasks s Hb Hp Hr|t ts Hp Hr|Hp Hb Hr|i t q Hi Hq|i Hi Hq Hcq|i t o s Hi
    |i e Hi|i r Hi|Hk Hall|Hk|r q Hcol Hq|Hcol Hq Hcq|e q Hl Hq|Hl Hq Hcq];
    [left; cbn; rewrite Hb; cbn; lia|..]; right; (split; [cbn; by rewrite ?Hb|]);
    unfold tick_weight; cbn -[Nat.mul sum_nat]; rewrite ?Hp, ?Hr, ?Hq, ?Hk, ?Hcol, ?Hl, ?length_app;
    cbn -[Nat.mul sum_nat];
    try match goal with
    | |- context [<[i := ?w']> _] => pose proof (sum_nat_insert w_weight _ _ _ w' Hi) as Hsum
    end; try (destruct o); cbn -[Nat.mul sum_nat] in *; lia.
Qed.
End progress.

(** ** Properties *)

Section properties.
Context `{QuantityLib} `{SelectorLib} `{AnnotationJSON} `{!PatchLib} `{MetricVecLib} `{!PodClient}.
Context `{!PodClientBasics}.
Implicit Types c : Tick.

Lemma set_go_control N s c : control_inv N c → control_inv N (t_set_go s c).
Proof. by intros []. Qed.

Lemma set_go_data s c : data_inv c → data_inv (t_set_go s c).
Proof. by intros []. Qed.

Lemma tick_step_stepped N c c' :
  control_inv N c → tick_step N c c' → ∃ s, stepped (t_set_go s c) c'.
Proof.
  intros Hc (s & a & Hf). exists s.
  destruct (fire_cases N a _ _ (set_go_control N s c Hc) Hf) as (c1 & [= ->] & Hs). done.
Qed.

Lemma tick_reachable boosts N s c :
  rtc (tick_step N) (tick_start boosts N s) c → control_inv N c ∧ data_inv c.
Proof.
  apply (rtc_ind_r (λ c, control_inv N c ∧ data_inv c) _); [by split; [apply start_control|apply start_data]|].
  intros c1 c2 _ Hstep [Hc Hd]. destruct (tick_step_stepped _ _ _ Hc Hstep) as (s' & Hs). split.
  - eapply stepped_control; [by apply (set_go_control _ s')|done].
  - eapply stepped_data; [by apply (set_go_data s')|done].
Qed.

Lemma tick_acc N c : control_inv N c → Acc (λ c2 c1, tick_step N c1 c2) c.
Proof.
  remember (length (pr_boosts (t_producer c))) as n eqn:Hn. revert c Hn.
  induction n as [n IHn] using lt_wf_ind. intros c Hn.
  remember (tick_weight c) as k eqn:Hk. revert c Hn Hk.
  induction k as [k IHk] using lt_wf_ind. intros c Hn Hk Hc. constructor. intros c' Hstep.
  destruct (tick_step_stepped _ _ _ Hc Hstep) as (s & Hs).
  assert (control_inv N c') as Hc' by (eapply stepped_control; [by apply (set_go_control _ s)|done]).
  apply stepped_weight in Hs. cbn [t_producer t_set_go] in Hs. change (tick_weight (t_set_go s c)) with (tick_weight c) in Hs.
  destruct Hs as [Hlt|[Heq Hlt]].
  - eapply IHn; [|reflexivity|done]. lia.
  - eapply IHk; [|by rewrite Heq|reflexivity|done]. lia.
Qed.

Lemma tick_finishes N c :
  (0 < N)%nat → control_inv N c → ∃ c', rtc (tick_step N) c c' ∧ finished c'.
Proof.
  intros HN Hc. induction (tick_acc N c Hc) as [c _ IH].
  destruct (tick_progress N c HN Hc) as [Hf|(a & c1 & Hf)]; [by exists c|].
  assert (tick_step N c c1) as Hstep by (exists (t_go c), a; by destruct c).
  destruct (IH c1 Hstep) as (c' & Hr & Hfin).
  - destruct (tick_step_stepped _ _ _ Hc Hstep) as (s & Hs).
    eapply stepped_control; [by apply (set_go_control _ s)|done].
  - exists c'. split; [|done]. by eapply rtc_l.
Qed.

(** C11: the goroutines of a check never panic and never deadlock.
    Whatever the rest of the program does to the boosts and pods meanwhile,
    in every state that the check reaches, no goroutine's next step panics
    (no send on a closed channel, no channel closed twice), and either all
    of them have returned or one of them can move. *)
Theorem check_never_deadlocks boosts s c :
  let N := DefaultMaxGoroutines in
  rtc (tick_step N) (tick_start boosts N s) c →
  (∀ a s' msg, fire N a (t_set_go s' c) ≠ Some (Panic msg)) ∧
  (finished c ∨ ∃ a c', fire N a c = Some (Done c')).
Proof.
  intros N [Hc _]%tick_reachable. split.
  - intros a s' msg Hf.
    destruct (fire_cases N a _ _ (set_go_control N s' c Hc) Hf) as (c1 & ? & _). done.
  - apply tick_progress; [unfold N, DefaultMaxGoroutines; lia|done].
Qed.

(** A check always ends: it cannot make infinitely many steps, under
    any scheduling and any interference, and every state it reaches can be
    continued to one in which all its goroutines have returned. *)
Theorem check_terminates boosts s c :
  let N := DefaultMaxGoroutines in
  rtc (tick_step N) (tick_start boosts N s) c →
  Acc (λ c2 c1, tick_step N c1 c2) c ∧ ∃ c', rtc (tick_step N) c c' ∧ finished c'.
Proof.
  intros N [Hc _]%tick_reachable. split; [by apply tick_acc|].
  apply tick_finishes; [unfold N, DefaultMaxGoroutines; lia|done].
Qed.

(** What has happened when all goroutines have returned. *)
Lemma finished_result boosts s c :
  let N := DefaultMaxGoroutines in
  rtc (tick_step N) (tick_start boosts N s) c → finished c →
  pr_boosts (t_producer c) = [] ∧ t_produced c ≡ₚ (t_done c).*1 ∧
  t_received c ≡ₚ outcome_requests (t_done c).*2 ∧ t_logged c ≡ₚ outcome_errors (t_done c).*2.
Proof.
  intros N [Hc [Ht Hq He]]%tick_reachable (Hret & Hall & Hk & Hcol & Hlog).
  destruct (ci_producer _ _ Hc Hret) as [Hb Hp].
  assert (∀ {A} (f : Worker → list A), f Returned = [] → t_workers c ≫= f = []) as Hnil.
  { intros A f Hf. induction Hall as [|w ws -> _ IH]; [done|]. by rewrite bind_cons, Hf, IH. }
  rewrite !Hnil in Ht, Hq, He by done. rewrite Hp in Ht.
  destruct (ci_collected _ _ Hc Hcol) as [Hqn _]. destruct (ci_logger _ _ Hc Hlog) as [Hen _].
  rewrite Hqn, !app_nil_r in Hq. rewrite Hen, !app_nil_r in He.
  assert (ch_items (c_revertTasks (t_chans c)) = []) as Hrn.
  { apply (ci_returned _ _ Hc). pose proof (ci_workers _ _ Hc) as Hlen.
    destruct (t_workers c) as [|w ws]; [done|]. apply Forall_cons in Hall as [-> _]. left. }
  rewrite Hrn in Ht. by split_and!.
Qed.

End properties.

(** ** Witnesses *)

Module witness.
#[local] Existing Instances ConcreteQuantity.lib ConcreteQuantity.laws ConcreteSelector.lib
  ConcreteJSON.json ConcreteVec.lib ConcreteVec.laws json_patches server server_basics.

(** A boosted pod scheduled at instant 0, tracked by a boost of one minute. *)
Definition scheduled_pod : Pod := {|
  pod_Name := "web-1"; pod_Namespace := "demo"; pod_Labels := pod_Labels Boost.witness.boosted_pod;
  pod_Annotations := pod_Annotations Boost.witness.boosted_pod;
  pod_Containers := pod_Containers Boost.witness.boosted_pod;
  pod_InitContainers := []; pod_Resources := None;
  pod_Conditions := [plain_condition PodScheduled ConditionTrue 0]
|}.

Definition minute_boost : StartupCPUBoostImpl := {|
  b_name := "boost"; b_namespace := "demo"; b_selector := ("app", ["web"]);
  b_durationPolicies := {[duration.FixedDurationPolicyName :=
    duration.PolicyFixed (duration.NewFixedDurationPolicy (60 * 1000000000))]};
  b_resourcePolicies := ∅; b_pods := {["web-1" := 0%nat]};
  b_stats := {| ActiveContainerBoosts := 1; TotalContainerBoosts := 1 |};
  b_legacyRevertMode := false
|}.

Definition expired_state : GoState := {|
  s_pods := λ _, scheduled_pod; s_nextPod := 1%nat; s_boosts := λ _, minute_boost; s_nextBoost := 1%nat;
  s_metrics := {| boostConfigurations := ∅; boostContainersTotal := ∅; boostContainersActive := ∅ |};
  s_world := {| stored := {[("demo", "web-1") := scheduled_pod]}; refusals := [] |}
|}.

(** A run under a given schedule, blocked goroutines being skipped. *)
Fixpoint run (N : nat) (as_ : list Action) (c : Tick) : Tick :=
  match as_ with
  | [] => c
  | a :: as_ => match fire N a c with Some (Done c') => run N as_ c' | _ => run N as_ c end
  end.

Lemma run_rtc N as_ c : rtc (tick_step N) c (run N as_ c).
Proof.
  revert c. induction as_ as [|a as_ IH]; intros c; [done|]. cbn.
  destruct (fire N a c) as [[c'|msg]|] eqn:Hf; [|apply IH..].
  apply (rtc_l _ _ c'); [|apply IH]. exists (t_go c), a. by destruct c.
Qed.

(** Two minutes later: the producer, then worker 3, the other workers, and
    the collecting goroutines, twice. *)
Definition schedule : list Action :=
  replicate 3 (RunProducer order_fwd (λ _, 120 * 1000000000)) ++
  replicate 4 (RunWorker 3 order_fwd) ++
  ((λ i, RunWorker i order_fwd) <$> seq 0 10) ++ [RunCloser; RunCloser; RunCollector; RunCollector; RunLogger].

Definition initial : Tick := tick_start [0%nat] DefaultMaxGoroutines expired_state.
Definition final : Tick := run DefaultMaxGoroutines schedule initial.

Definition finished_b (c : Tick) : bool :=
  pr_returned (t_producer c) && bool_decide (Forall (λ w, w = Returned) (t_workers c)) &&
  bool_decide (t_closer c = ClosedAll) && t_collected c && t_loggerDone c.

Lemma finished_test c : finished_b c = true → finished c.
Proof. unfold finished_b, finished. rewrite !andb_true_iff, !bool_decide_eq_true. tauto. Qed.

Definition order_id : RequestOrder := {| request_order := id; request_order_perm := λ l, Permutation_refl l |}.
Definition with_reconciler : managerImpl :=
  SetStartupCPUBoostReconciler true (NewManagerWithTicker true expired_state).


(** In the middle of the check. *)
Definition midway : Tick := run DefaultMaxGoroutines (take 5 schedule) initial.

Example check_never_deadlocks_witness :
  t_workers midway !! 3%nat = Some (SendingRequest ("boost", "demo")) ∧
  (finished midway ∨ ∃ a c', fire DefaultMaxGoroutines a midway = Some (Done c')).
Proof.
  split; [vm_compute; reflexivity|].
  apply (check_never_deadlocks [0%nat] expired_state midway). apply run_rtc.
Defined.

Example check_terminates_witness :
  ∃ c', rtc (tick_step DefaultMaxGoroutines) midway c' ∧ finished c'.
Proof. apply (check_terminates [0%nat] expired_state midway). apply run_rtc. Defined.
End witness.
