(* ===== verification/ManagerLoop.v ===== *)
(** * The loop of the manager (internal/boost/manager.go, Start)

    [Start] waits for the ticker or the end of its context and runs the
    check of ManagerTick at every tick, while the other goroutines of the
    operator call the manager.  The file composes the transition systems of
    Manager and ManagerTick, proves their invariants for the composition,
    and that every check eventually gets to every pod whose time is over. *)

From S2P Require Import Prelude Quantities Kube Api Duration Resource BoostPod Metrics Client Boost.
From S2P Require Import Namespaced Manager ManagerTick ConcreteServer.

(** ** What calls of the manager leave alone *)

Section settings.
Context `{QuantityLib} `{SelectorLib} `{AnnotationJSON} `{!PatchLib} `{MetricVecLib} `{!PodClient}.
Implicit Types m : managerImpl.

(** The fields of the manager that its exported methods do not assign. *)
Definition settings m : bool * bool * bool * Z * nat :=
  (m_isRunning m, m_client m, m_reconciler m, m_checkInterval m, m_maxGoroutines m).

Definition keeps_settings {A} (f : M managerImpl A) : Prop :=
  ∀ m a m', f m = Done (a, m') → settings m' = settings m.

Lemma keeps_settings_ret {A} (a : A) : keeps_settings (ret a).
Proof. by intros m ? m' [= _ <-]. Qed.

Lemma keeps_settings_gets {A} (f : managerImpl → A) : keeps_settings (gets f).
Proof. by intros m ? m' [= _ <-]. Qed.

Lemma keeps_settings_modify f : (∀ m, settings (f m) = settings m) → keeps_settings (modify f).
Proof. intros Hf m ? m' [= _ <-]. apply Hf. Qed.

Lemma keeps_settings_lift {A} (f : M GoState A) : keeps_settings (lift f).
Proof. intros m a m'. unfold lift. destruct (f (m_go m)) as [[x s]|]; [|done]. by intros [= _ <-]. Qed.

Lemma keeps_settings_panic {A} msg : keeps_settings (panic (A := A) msg).
Proof. done. Qed.

Lemma keeps_settings_bind {A B} (f : M managerImpl A) (k : A → M managerImpl B) :
  keeps_settings f → (∀ a, keeps_settings (k a)) → keeps_settings (bind f k).
Proof. intros Hf Hk m b m' (a & m1 & Hs1%Hf & Hs2%Hk)%bind_inv. congruence. Qed.
End settings.

Create HintDb settings discriminated.
#[export] Hint Resolve keeps_settings_ret keeps_settings_gets keeps_settings_modify
  keeps_settings_lift keeps_settings_panic : settings.
#[export] Hint Extern 1 (keeps_settings (match ?x with _ => _ end)) => destruct x : settings.
#[export] Hint Extern 1 (keeps_settings (bind _ _)) => apply keeps_settings_bind; [|intros ?] : settings.
#[export] Hint Extern 0 (settings _ = settings _) => reflexivity : settings.

Section keep.
Context `{QuantityLib} `{SelectorLib} `{AnnotationJSON} `{!PatchLib} `{MetricVecLib} `{!PodClient}.
Implicit Types m : managerImpl.

Lemma delete_orphan_settings p : keeps_settings (delete_orphan p).
Proof. unfold delete_orphan. auto with settings. Qed.
Local Hint Resolve delete_orphan_settings : settings.

Lemma delete_orphans_settings pods : keeps_settings (delete_orphans pods).
Proof. induction pods; cbn; auto with settings. Qed.
Local Hint Resolve delete_orphans_settings : settings.

Lemma postProcess_settings rt rt' b : keeps_settings (postProcessNewBoost rt rt' b).
Proof.
  unfold postProcessNewBoost, mapOrphanedPods, syncBoostPods.
  auto 40 with settings.
Qed.
Local Hint Resolve postProcess_settings : settings.

Lemma AddRegularCPUBoost_settings rt rt' boost : keeps_settings (AddRegularCPUBoost rt rt' boost).
Proof. unfold AddRegularCPUBoost. auto 40 with settings. Qed.

Lemma DeleteRegularCPUBoost_settings ns n : keeps_settings (DeleteRegularCPUBoost ns n).
Proof. unfold DeleteRegularCPUBoost. auto 40 with settings. Qed.

Lemma UpdateRegularCPUBoost_settings rt rt' spec : keeps_settings (UpdateRegularCPUBoost rt rt' spec).
Proof. unfold UpdateRegularCPUBoost. auto 40 with settings. Qed.

Lemma UpsertPod_settings rt p : keeps_settings (Manager_UpsertPod rt p).
Proof. unfold Manager_UpsertPod. auto 40 with settings. Qed.

Lemma DeletePod_settings rt p : keeps_settings (Manager_DeletePod rt p).
Proof. unfold Manager_DeletePod. auto 40 with settings. Qed.

Lemma mgr_step_max m m' : mgr_step m m' → m_maxGoroutines m' = m_maxGoroutines m.
Proof.
  intros Hstep. assert (∀ x y, settings x = settings y → m_maxGoroutines x = m_maxGoroutines y) as Hmax.
  { intros x y. unfold settings. congruence. }
  destruct Hstep as [| | | |? ? ? ? ? ? ? ? ? _ Ha|? ? ? ? Hd|? ? ? ? ? ? Hu|? ? ? ? ? _ Hp|? ? ? ? ? Hp|];
    try done.
  - apply Hmax. by rewrite (AddRegularCPUBoost_settings _ _ _ _ _ _ Ha).
  - apply Hmax. by eapply DeleteRegularCPUBoost_settings.
  - apply Hmax. by eapply UpdateRegularCPUBoost_settings.
  - apply Hmax. by eapply UpsertPod_settings.
  - apply Hmax. by eapply DeletePod_settings.
Qed.
End keep.

(** ** Start *)

Section loop.
Context `{QuantityLib} `{SelectorLib} `{AnnotationJSON} `{!PatchLib} `{MetricVecLib} `{!PodClient}.
Implicit Types m : managerImpl.

(** Where the goroutine of [Start] is. *)
Inductive Phase : Type :=
  | NotStarted
  | Selecting
  | Checking (c : Tick)
  | LoopReturned.

Record Loop : Type := {
  lp_m : managerImpl;
  lp_phase : Phase;
  lp_tick : bool;           (* the ticker's channel, with room for one tick *)
  lp_cancelled : bool;      (* ctx.Done() is closed *)
  lp_tickerStopped : bool;
  lp_reconciled : list ReconcileRequest
}.

Definition loop_start (client : bool) (s : GoState) : Loop := {|
  lp_m := NewManagerWithTicker client s; lp_phase := NotStarted; lp_tick := false;
  lp_cancelled := false; lp_tickerStopped := false; lp_reconciled := []
|}.

Definition lp_set_m m (l : Loop) : Loop := {|
  lp_m := m; lp_phase := lp_phase l; lp_tick := lp_tick l; lp_cancelled := lp_cancelled l;
  lp_tickerStopped := lp_tickerStopped l; lp_reconciled := lp_reconciled l |}.

(** The goroutine moves to [ph]. *)
Definition lp_move (ph : Phase) m (tick : bool) (l : Loop) : Loop := {|
  lp_m := m; lp_phase := ph; lp_tick := tick; lp_cancelled := lp_cancelled l;
  lp_tickerStopped := lp_tickerStopped l; lp_reconciled := lp_reconciled l |}.

(** The deferred calls, when the loop returns. *)
Definition lp_return (l : Loop) : Loop := {|
  lp_m := setRunning false (lp_m l); lp_phase := LoopReturned; lp_tick := lp_tick l;
  lp_cancelled := lp_cancelled l; lp_tickerStopped := true; lp_reconciled := lp_reconciled l |}.

(** The statements of [Start].  In [select], both cases may be ready.  The
    check returns once its collecting loop has ended; what may be left of it
    then, the close of the error channel and the goroutine that logs the
    errors, touches nothing else. *)
Inductive start_step : Loop → Loop → Prop :=
  | start_running l :
      lp_phase l = NotStarted →
      start_step l (lp_move Selecting (setRunning true (lp_m l)) (lp_tick l) l)
  | start_tick l σ τ :
      lp_phase l = Selecting → lp_tick l = true →
      start_step l (lp_move (Checking (validateTimePolicyBoosts_start σ τ (lp_m l))) (lp_m l) false l)
  | start_check l c a c' :
      lp_phase l = Checking c →
      fire (m_maxGoroutines (lp_m l)) a (t_set_go (m_go (lp_m l)) c) = Some (Done c') →
      start_step l (lp_move (Checking c') (m_set_go (t_go c') (lp_m l)) (lp_tick l) l)
  | start_checked l c ρ :
      lp_phase l = Checking c → t_collected c = true →
      start_step l {| lp_m := lp_m l; lp_phase := Selecting; lp_tick := lp_tick l;
        lp_cancelled := lp_cancelled l; lp_tickerStopped := lp_tickerStopped l;
        lp_reconciled := lp_reconciled l ++ reconcile_calls (lp_m l) ρ c |}
  | start_stop l :
      lp_phase l = Selecting → lp_cancelled l = true → start_step l (lp_return l).

(** Everything else that happens: the ticker fires, dropping the tick when
    one is waiting, the context ends, another goroutine calls the manager. *)
Inductive env_step : Loop → Loop → Prop :=
  | env_tick l :
      lp_tickerStopped l = false →
      env_step l (lp_move (lp_phase l) (lp_m l) true l)
  | env_cancel l :
      env_step l {| lp_m := lp_m l; lp_phase := lp_phase l; lp_tick := lp_tick l; lp_cancelled := true;
        lp_tickerStopped := lp_tickerStopped l; lp_reconciled := lp_reconciled l |}
  | env_call l m :
      mgr_step (lp_m l) m → m_isRunning m = m_isRunning (lp_m l) → env_step l (lp_set_m m l).

Definition loop_step (l l' : Loop) : Prop := start_step l l' ∨ env_step l l'.
End loop.

Section invariant.
Context `{QuantityLib} `{SelectorLib} `{AnnotationJSON} `{!PatchLib} `{MetricVecLib} `{!PodClient}.
Context `{!PodClientBasics}.
Implicit Types (m : managerImpl) (c : Tick).

(** Running means between the start and the return of the loop. *)
Definition in_loop (ph : Phase) : bool :=
  match ph with NotStarted | LoopReturned => false | Selecting | Checking _ => true end.

Definition has_returned (ph : Phase) : bool := match ph with LoopReturned => true | _ => false end.

Definition check_ok (ph : Phase) (N : nat) : Prop :=
  match ph with Checking c => control_inv N c ∧ data_inv c | _ => True end.

Record loop_inv (l : Loop) : Prop := {
  li_mgr : mgr_inv (lp_m l);
  li_max : m_maxGoroutines (lp_m l) = DefaultMaxGoroutines;
  li_running : m_isRunning (lp_m l) = in_loop (lp_phase l);
  li_ticker : lp_tickerStopped l = has_returned (lp_phase l);
  li_check : check_ok (lp_phase l) DefaultMaxGoroutines
}.

(** What a step of the check means for the tasks it hands out and for the
    program's memory: nothing, a boost is validated, or a pod is reverted. *)
Inductive progressed (a : Action) c c' : Prop :=
  | progressed_idle :
      pr_boosts (t_producer c') = pr_boosts (t_producer c) → t_produced c' = t_produced c →
      t_done c' = t_done c → t_go c' = t_go c → progressed a c c'
  | progressed_validate σ now b pods :
      a = RunProducer σ now → pr_boosts (t_producer c) = b :: pr_boosts (t_producer c') →
      ValidatePolicy σ now b duration.FixedDurationPolicyName (t_go c) = Done (pods, t_go c) →
      t_produced c' = t_produced c ++ ((λ pod, (b, pod)) <$> pods) →
      t_done c' = t_done c → t_go c' = t_go c → progressed a c c'
  | progressed_revert i σ t err :
      t_workers c !! i = Some (Reverting t) →
      RevertResources σ t.1 t.2 (t_go c) = Done (err, t_go c') →
      pr_boosts (t_producer c') = pr_boosts (t_producer c) → t_produced c' = t_produced c →
      t_done c' = t_done c ++ [(t, revert_outcome (t_go c') t err)] → progressed a c c'.

Lemma fire_progressed N a c c' : fire N a c = Some (Done c') → progressed a c c'.
Proof.
  intros Hf. destruct a as [σ now|i σ| | |]; cbn [fire] in Hf.
  - unfold producer_step in Hf. destruct (pr_returned _); [done|].
    destruct (pr_pending _); [destruct (pr_boosts _) as [|b bs] eqn:Hb|].
    + destruct (chan_close _); simplify_eq/=. by apply progressed_idle.
    + destruct (ValidatePolicy_spec σ now b duration.FixedDurationPolicyName (t_go c)) as (l & Hv & _).
      rewrite Hv in Hf. simplify_eq/=. by eapply progressed_validate.
    + destruct (chan_send _ _ _) as [[]|]; simplify_eq/=. by apply progressed_idle.
  - unfold worker_step in Hf. destruct (_ !! i) as [[|t|e|r|]|] eqn:Hi; try done.
    + destruct (chan_recv _) as [[[? ?]|]|]; simplify_eq/=; by apply progressed_idle.
    + destruct (RevertResources σ t.1 t.2 (t_go c)) as [[err s]|] eqn:Hr; simplify_eq/=.
      by eapply progressed_revert.
    + destruct (chan_send _ _ _) as [[]|]; simplify_eq/=. by apply progressed_idle.
    + destruct (chan_send _ _ _) as [[]|]; simplify_eq/=. by apply progressed_idle.
  - unfold closer_step in Hf. destruct (t_closer c); [destruct (decide _); [|done]|..|done];
      destruct (chan_close _); simplify_eq/=; by apply progressed_idle.
  - unfold collector_step in Hf. destruct (t_collected c); [done|].
    destruct (chan_recv _) as [[[? ?]|]|]; simplify_eq/=; by apply progressed_idle.
  - unfold logger_step in Hf. destruct (t_loggerDone c); [done|].
    destruct (chan_recv _) as [[[? ?]|]|]; simplify_eq/=; by apply progressed_idle.
Qed.

(** A step of the check reverts a pod or leaves the store alone. *)
Lemma fire_reverts N a c c' m :
  fire N a (t_set_go (m_go m) c) = Some (Done c') →
  m_set_go (t_go c') m = m ∨ ∃ σ b p err, RevertResources σ b p (m_go m) = Done (err, t_go c').
Proof.
  assert (m_set_go (m_go m) m = m) as Hid by by destruct m.
  intros [_ _ _ ->|? ? ? ? _ _ _ _ _ ->|i σ t err _ Hr]%fire_progressed; [by left|by left|right].
  by exists σ, t.1, t.2, err.
Qed.

Lemma loop_start_inv client s : s_nextBoost s = 0%nat → loop_inv (loop_start client s).
Proof. intros Hs. split; [by apply new_inv|done..]. Qed.

Lemma check_mgr_inv N a c c' m :
  mgr_inv m → control_inv N c → fire N a (t_set_go (m_go m) c) = Some (Done c') →
  mgr_inv (m_set_go (t_go c') m).
Proof.
  intros Hm Hc Hf. destruct (fire_reverts _ _ _ _ _ Hf) as [->|(σ & b & p & err & Hr)]; [done|].
  eapply step_inv; [done|]. by eapply step_revert.
Qed.

Lemma fire_invs N a c c' s :
  control_inv N c → data_inv c → fire N a (t_set_go s c) = Some (Done c') → control_inv N c' ∧ data_inv c'.
Proof.
  intros Hc Hd Hf. destruct (fire_cases N a _ _ (set_go_control N s c Hc) Hf) as (c1 & [= ->] & Hs).
  split; [by eapply stepped_control; [apply set_go_control|]|by eapply stepped_data; [apply set_go_data|]].
Qed.

Lemma loop_step_inv l l' : loop_inv l → loop_step l l' → loop_inv l'.
Proof.
  intros [Hm Hmax Hrun Htk Hck] [Hstep|Hstep].
  - destruct Hstep as [l Hph|l σ τ Hph Ht|l c a c' Hph Hf|l c ρ Hph Hfin|l Hph Hcan]; rewrite Hph in *.
    + split; cbn; try done. by eapply step_inv; [|apply step_running].
    + split; cbn; try done. unfold validateTimePolicyBoosts_start. rewrite Hmax.
      split; [apply start_control|apply start_data].
    + cbn in Hck. destruct Hck as [Hc Hd]. rewrite Hmax in Hf. split; cbn; try done.
      * by eapply check_mgr_inv.
      * by eapply fire_invs.
    + by split.
    + split; cbn; try done. by eapply step_inv; [|apply step_running].
  - destruct Hstep as [l Hst|l|l m Hs Hr].
    + by split.
    + by split.
    + split; cbn; try done; [by eapply step_inv|by rewrite (mgr_step_max _ _ Hs)|congruence].
Qed.

Lemma loop_reachable_inv client s l :
  s_nextBoost s = 0%nat → rtc loop_step (loop_start client s) l → loop_inv l.
Proof.
  intros Hs. apply (rtc_ind_r (λ l, loop_inv l) _); [by apply loop_start_inv|].
  intros l1 l2 _ Hstep Hinv. by eapply loop_step_inv.
Qed.

(** Until the loop has returned, its goroutine or one of the check's can
    move, or it waits for a tick or the end of the context. *)
Lemma loop_progress l :
  loop_inv l →
  match lp_phase l with
  | LoopReturned => True
  | Selecting => (∃ l', start_step l l') ∨ lp_tick l = false ∧ lp_cancelled l = false
  | _ => ∃ l', start_step l l'
  end.
Proof.
  intros [_ Hmax _ _ Hck]. destruct (lp_phase l) as [| |c|] eqn:Hph; cbn in Hck.
  - eexists. by apply start_running.
  - destruct (lp_tick l) eqn:Ht; [left; eexists; by apply (start_tick _ order_fwd (λ _, order_fwd))|].
    destruct (lp_cancelled l) eqn:Hc; [left; eexists; by apply start_stop|by right].
  - destruct Hck as [Hc _].
    destruct (tick_progress DefaultMaxGoroutines (t_set_go (m_go (lp_m l)) c)) as [Hfin|(a & c' & Hf)].
    + unfold DefaultMaxGoroutines. lia.
    + by apply set_go_control.
    + eexists. apply (start_checked _ c {| request_order := id; request_order_perm := λ l, Permutation_refl l |});
        [done|by destruct Hfin as (_ & _ & _ & ? & _)].
    + eexists. eapply start_check; [done|]. rewrite Hmax. exact Hf.
  - done.
Qed.
End invariant.

(** ** Every expired pod is dealt with *)

Section liveness.
Context `{QuantityLib} `{SelectorLib} `{AnnotationJSON} `{!PatchLib} `{MetricVecLib} `{!PodClient}.
Context `{!PodClientBasics}.
Implicit Types (m : managerImpl) (s : GoState) (c : Tick).

(** Boost [b] tracks the pod behind [p] and its fixed duration is over at
    instant [t0]. *)
Definition expired (t0 : Z) (b : BoostRef) (p : PodRef) s : Prop :=
  ∃ n pol, b_durationPolicies (s_boosts s b) !! duration.FixedDurationPolicyName = Some pol ∧
    b_pods (s_boosts s b) !! n = Some p ∧ duration.Valid pol t0 (s_pods s p) = false.

(** A step of the check after instant [t0]; the rest of the program may
    interfere, but leaves the expired pod with the boost. *)
Definition timely_step (N : nat) (t0 : Z) (b : BoostRef) (p : PodRef) c c' : Prop :=
  ∃ s a, (expired t0 b p (t_go c) → expired t0 b p s) ∧
    (∀ σ now, a = RunProducer σ now → ∀ n, t0 ≤ now n) ∧
    fire N a (t_set_go s c) = Some (Done c').

Lemma timely_tick_step N t0 b p c c' : timely_step N t0 b p c c' → tick_step N c c'.
Proof. intros (s & a & _ & _ & Hf). by exists s, a. Qed.

(** Either the pod was handed out, or its boost is still to be validated. *)
Record pursued (t0 : Z) (b : BoostRef) (p : PodRef) c : Prop := {
  pu_nodup : NoDup (pr_boosts (t_producer c));
  pu_later t : t ∈ t_produced c → t.1 ∉ pr_boosts (t_producer c);
  pu_pod : (∃ b', (b', p) ∈ t_produced c) ∨ b ∈ pr_boosts (t_producer c) ∧ expired t0 b p (t_go c)
}.

(** Validating the boost hands out its expired pods. *)
Lemma validate_hands_out σ now t0 b p s l s' :
  ValidatePolicy σ now b duration.FixedDurationPolicyName s = Done (l, s') →
  (∀ n, t0 ≤ now n) → expired t0 b p s → p ∈ l.
Proof.
  intros Hv Hnow (n & pol & Hpol & Hn & Hval).
  destruct (ValidatePolicy_spec σ now b duration.FixedDurationPolicyName s) as (l' & Hv' & Hl).
  assert (l = l') as -> by congruence. apply Hl. exists pol, n. split_and!; [done|done|].
  by apply (duration.policy_expiry_permanent _ _ _ t0 (now n) (Hnow n) eq_refl).
Qed.

(** A reversion for another boost, of another pod, leaves the pod alone. *)
Lemma revert_other_expired σ t0 b p (t : podRevertTask) s err s' :
  RevertResources σ t.1 t.2 s = Done (err, s') → t.1 ≠ b → t.2 ≠ p → expired t0 b p s → expired t0 b p s'.
Proof.
  unfold RevertResources. intros Hr Hb Hp (n & pol & Hpol & Hn & Hv).
  destruct (revertResources_cases σ t.1 t.2 s) as (e & s1 & Hr' & Hc). rewrite Hr' in Hr. injection Hr as -> ->.
  assert (s_boosts s' b = s_boosts s b ∧ s_pods s' p = s_pods s p) as [Hsb Hsp].
  { destruct err.
    - split; [by rewrite (touches_boosts _ _ _ Hc)|]. by apply (touches_other _ _ _ Hc).
    - destruct Hc as ([Ho _ _ _] & _ & Hop). split; [by apply Ho|by apply Hop]. }
  exists n, pol. by rewrite Hsb, Hsp.
Qed.

Lemma pursued_interfere t0 b p s c :
  (expired t0 b p (t_go c) → expired t0 b p s) → pursued t0 b p c → pursued t0 b p (t_set_go s c).
Proof. intros Hs [? ? Hp]. split; try done. cbn. naive_solver. Qed.

(** What a worker reverts was handed out. *)
Lemma reverting_produced c i t : data_inv c → t_workers c !! i = Some (Reverting t) → t ∈ t_produced c.
Proof.
  intros Hd Hi. rewrite (di_tasks _ Hd). apply elem_of_app. right. apply elem_of_app. right.
  apply elem_of_app. left. apply list_elem_of_bind. exists (Reverting t). split; [left|].
  by eapply list_elem_of_lookup_2.
Qed.

Lemma pursued_progress t0 b p a c c' :
  (∀ σ now, a = RunProducer σ now → ∀ n, t0 ≤ now n) →
  data_inv c → progressed a c c' → pursued t0 b p c → pursued t0 b p c'.
Proof.
  intros Hnow Hd [Hb Hp _ Hg|σ now b1 pods Ha Hb Hv Hp _ Hg|i σ t err Hi Hr Hb Hp _] [Hnd Hlat Hpod].
  - by split; rewrite ?Hb, ?Hp, ?Hg.
  - rewrite Hb in *. apply NoDup_cons in Hnd as [Hb1 Hnd]. split; [done|..]; rewrite Hp.
    + intros t [Ht%Hlat|Ht]%elem_of_app; [by intros ?; apply Ht; right|].
      apply list_elem_of_fmap in Ht as (p' & -> & _). done.
    + rewrite Hg. destruct Hpod as [(b' & Hb')|[[->|Hin]%elem_of_cons Hexp]].
      * left. exists b'. apply elem_of_app. by left.
      * left. exists b1. apply elem_of_app. right. apply list_elem_of_fmap. exists p. split; [done|].
        eapply validate_hands_out; [done|by eapply Hnow|done].
      * by right.
  - split; rewrite ?Hb, ?Hp; [done|done|]. destruct Hpod as [|[Hin Hexp]]; [by left|].
    apply (reverting_produced _ _ _ Hd) in Hi. destruct (decide (t.2 = p)) as [<-|Hne].
    + left. exists t.1. by destruct t.
    + right. split; [done|]. apply (revert_other_expired _ _ _ _ _ _ _ _ Hr); [|done|done].
      intros <-. by apply (Hlat t).
Qed.

Lemma pursued_step N t0 b p c c' :
  data_inv c → timely_step N t0 b p c c' → pursued t0 b p c → pursued t0 b p c'.
Proof.
  intros Hd (s & a & Hs & Hnow & Hf%fire_progressed) Hpu.
  apply (pursued_progress _ _ _ _ _ _ Hnow (set_go_data s _ Hd) Hf). by apply pursued_interfere.
Qed.

(** The check can always go on after [t0]. *)
Lemma prompt_progress N t0 c :
  (0 < N)%nat → control_inv N c →
  finished c ∨ ∃ a c', (∀ σ now, a = RunProducer σ now → ∀ n, t0 ≤ now n) ∧
    fire N a (t_set_go (t_go c) c) = Some (Done c').
Proof.
  intros HN Hc. destruct (tick_progress N c HN Hc) as [|(a & c' & Hf)]; [by left|right].
  replace (t_set_go (t_go c) c) with c by by destruct c.
  destruct a as [σ now|i σ| | |]; [|by (eexists _, c'; split; [|exact Hf])..].
  destruct (fire N (RunProducer σ (λ _, t0)) c) as [r|] eqn:Hr.
  - destruct (fire_cases _ _ _ _ Hc Hr) as (c1 & -> & _). exists (RunProducer σ (λ _, t0)), c1.
    split; [|done]. by intros ? ? [= <- <-] ?.
  - exfalso. cbn [fire] in Hf, Hr. unfold producer_step in Hf, Hr.
    destruct (pr_returned _); [done|]. destruct (pr_pending _); [destruct (pr_boosts _)|].
    + by destruct (chan_close _).
    + by destruct (ValidatePolicy _ (λ _, t0) _ _ _) as [[? ?]|].
    + by destruct (chan_send _ _ _) as [[]|].
Qed.

Lemma timely_progress N t0 b p c :
  (0 < N)%nat → control_inv N c → finished c ∨ ∃ c', timely_step N t0 b p c c'.
Proof.
  intros HN Hc. destruct (prompt_progress N t0 c HN Hc) as [|(a & c' & Ha & Hf)]; [by left|right].
  by exists c', (t_go c), a.
Qed.

(** The timed boosts are listed once each. *)
Lemma timed_listed m σ τ : mgr_inv m → NoDup (ListAll σ τ (m_timedBoosts m)).
Proof.
  intros Hinv. apply NoDup_ListAll. intros n ns n' ns' b Hn Hn'.
  apply (inv_timed _ _ Hinv) in Hn, Hn'.
  destruct (inv_key _ _ Hinv _ _ _ Hn) as (<- & <- & _). destruct (inv_key _ _ Hinv _ _ _ Hn') as (<- & <- & _).
  done.
Qed.
End liveness.

(** ** Properties *)

Section properties.
Context `{QuantityLib} `{SelectorLib} `{AnnotationJSON} `{!PatchLib} `{MetricVecLib} `{!PodClient}.
Context `{!PodClientBasics}.

(** C16: Start composed with everything else that happens, in any
    interleaving: the manager reports that it runs exactly while the loop
    does, the ticker is stopped exactly when the loop has returned, no
    goroutine of a check panics, and until the loop returns something can
    happen or it waits for a tick or the end of its context.  Boosts stay
    registered under their own names, and every registered boost with a
    fixed duration is one that the next check will validate. *)
Theorem manager_loop_safe client s l :
  s_nextBoost s = 0%nat → rtc loop_step (loop_start client s) l →
  let m := lp_m l in
  IsRunning m = in_loop (lp_phase l) ∧
  (lp_tickerStopped l = true ↔ lp_phase l = LoopReturned) ∧
  (∀ c a msg, lp_phase l = Checking c →
     fire (m_maxGoroutines m) a (t_set_go (m_go m) c) ≠ Some (Panic msg)) ∧
  (lp_phase l = LoopReturned ∨ (∃ l', start_step l l') ∨
   lp_phase l = Selecting ∧ lp_tick l = false ∧ lp_cancelled l = false) ∧
  (∀ n ns b, GetRegularCPUBoost n ns m = Some b →
     b_name (s_boosts (m_go m) b) = n ∧ b_namespace (s_boosts (m_go m) b) = ns ∧
     (is_Some (b_durationPolicies (s_boosts (m_go m) b) !! duration.FixedDurationPolicyName) →
      ∀ σ τ, b ∈ pr_boosts (t_producer (validateTimePolicyBoosts_start σ τ m)))).
Proof.
  intros Hs Hl m. pose proof (loop_reachable_inv _ _ _ Hs Hl) as Hinv.
  pose proof (loop_progress _ Hinv) as Hprog. destruct Hinv as [Hm Hmax Hrun Htk Hck]. split_and!.
  - exact Hrun.
  - rewrite Htk. by destruct (lp_phase l).
  - intros c a msg Hph Hf. rewrite Hph in Hck. destruct Hck as [Hc _]. unfold m in Hf. rewrite Hmax in Hf.
    destruct (fire_cases _ _ _ _ (set_go_control _ _ _ Hc) Hf) as (? & ? & _). done.
  - destruct (lp_phase l); naive_solver.
  - intros n ns b Hb. destruct (inv_key _ _ Hm _ _ _ Hb) as (Hn & Hns & _). split_and!; [done|done|].
    intros Hfix σ τ. cbn. apply elem_of_ListAll. exists n, ns. by apply (inv_fixed _ _ Hm).
Qed.

Lemma reachable_max client s m :
  rtc mgr_step (NewManagerWithTicker client s) m → m_maxGoroutines m = DefaultMaxGoroutines.
Proof.
  apply (rtc_ind_r (λ m, m_maxGoroutines m = DefaultMaxGoroutines) _); [done|].
  intros m1 m2 _ Hstep Hm. by rewrite (mgr_step_max _ _ Hstep).
Qed.

(** C10: the time of every pod comes.  Let a registered boost track a pod
    whose fixed duration is over.  Then under every scheduling of the
    goroutines of a check, with any interference that leaves the pod with
    the boost, the check eventually ends, and by then it has tried to revert
    the pod: either it has been reverted and its boost is to be reconciled,
    or the error has been logged. *)
Theorem expired_pods_reverted client s m σ τ n ns b p t0 :
  s_nextBoost s = 0%nat → rtc mgr_step (NewManagerWithTicker client s) m →
  GetRegularCPUBoost n ns m = Some b → expired t0 b p (m_go m) →
  eventually (timely_step (m_maxGoroutines m) t0 b p)
    (λ c, finished c ∧ ∃ b' o, ((b', p), o) ∈ t_done c ∧
       match o with inl e => e ∈ t_logged c | inr r => r ∈ t_received c end)
    (validateTimePolicyBoosts_start σ τ m).
Proof.
  intros Hs Hm Hb Hexp. pose proof (reachable_max _ _ _ Hm) as HN.
  pose proof (Manager.reachable_inv _ _ _ Hs Hm) as Hinv.
  unfold validateTimePolicyBoosts_start. rewrite HN. set (N := DefaultMaxGoroutines).
  assert (0 < N)%nat as HN0 by (unfold N, DefaultMaxGoroutines; lia).
  set (c0 := tick_start _ N _).
  apply (eventually_acc _ (λ c, rtc (tick_step N) c0 c ∧ pursued t0 b p c)).
  - apply (Acc_impl (λ c2 c1, tick_step N c1 c2)); [apply tick_acc, start_control|].
    by intros c c' ?%timely_tick_step.
  - split; [done|]. split; cbn.
    + by apply timed_listed.
    + by intros t Ht%elem_of_nil.
    + right. split; [|done]. apply elem_of_ListAll. exists n, ns. apply (inv_fixed _ _ Hinv); [done|done|].
      destruct Hexp as (_ & pol & -> & _). done.
  - intros c c' [Hr Hpu] Hstep. destruct (tick_reachable _ _ _ _ Hr) as [_ Hd].
    split; [eapply rtc_r; [exact Hr|by eapply timely_tick_step]|by eapply pursued_step].
  - intros c [Hr Hpu]. destruct (tick_reachable _ _ _ _ Hr) as [Hc _].
    destruct (timely_progress N t0 b p c HN0 Hc) as [Hfin|]; [left|by right].
    split; [done|]. destruct (finished_result _ _ _ Hr Hfin) as (Hbs & Hp & Hrq & Hlg).
    destruct (pu_pod _ _ _ _ Hpu) as [(b' & Hb')|[Hin _]]; [|by rewrite Hbs in Hin; apply elem_of_nil in Hin].
    rewrite Hp in Hb'. apply list_elem_of_fmap in Hb' as ([t o] & Ht & Hin). cbn in Ht. subst t.
    exists b', o. split; [done|].
    assert (o ∈ (t_done c).*2) as Ho by (apply list_elem_of_fmap; by exists (b', p, o)).
    destruct o as [e|r]; [rewrite Hlg|rewrite Hrq]; apply list_elem_of_omap; by eexists.
Qed.
End properties.

(** ** Witnesses *)

Module witness.
#[local] Existing Instances ConcreteQuantity.lib ConcreteQuantity.laws ConcreteSelector.lib
  ConcreteJSON.json ConcreteVec.lib ConcreteVec.laws json_patches server server_basics.
Import Manager.witness.

(** The loop has started and a tick has arrived. *)
Definition l1 : Loop := lp_move Selecting (setRunning true m0) false (loop_start true start).
Definition l2 : Loop := lp_move Selecting (lp_m l1) true l1.
Definition l3 : Loop :=
  lp_move (Checking (validateTimePolicyBoosts_start order_fwd (λ _, order_fwd) (lp_m l2))) (lp_m l2) false l2.

Lemma reach_l3 : rtc loop_step (loop_start true start) l3.
Proof.
  apply (rtc_l _ _ l1); [left; by apply start_running|].
  apply (rtc_l _ _ l2); [right; by apply (env_tick l1)|].
  apply rtc_once. left. by apply start_tick.
Defined.

Example manager_loop_safe_witness : IsRunning (lp_m l3) = true ∧ ∃ l', start_step l3 l'.
Proof.
  destruct (manager_loop_safe true start l3 eq_refl reach_l3) as (Hrun & _ & _ & Hprog & _).
  split; [exact Hrun|]. destruct Hprog as [Hp|[Hp|[Hp _]]]; [discriminate Hp|exact Hp|discriminate Hp].
Defined.

(** A pod scheduled at instant 0, adopted by a boost of a minute. *)
Definition timed_pod : Pod := {|
  pod_Name := pod_Name web_pod; pod_Namespace := pod_Namespace web_pod; pod_Labels := pod_Labels web_pod;
  pod_Annotations := pod_Annotations web_pod; pod_Containers := pod_Containers web_pod;
  pod_InitContainers := []; pod_Resources := None;
  pod_Conditions := [plain_condition PodScheduled ConditionTrue 0]
|}.

Definition n1 : managerImpl := m_set_go (new_pod timed_pod (m_go m0)) m0.
Definition n2 : managerImpl := result_state (Manager_UpsertPod rt 0%nat n1) n1.
Definition n3 : managerImpl :=
  result_state (AddRegularCPUBoost rt rt (Some 0%nat) (built "boost" n2)) (built "boost" n2).

Lemma reach_n3 : rtc mgr_step (NewManagerWithTicker true start) n3.
Proof.
  apply (rtc_l _ _ n1); [apply step_new_pod|].
  apply (rtc_l _ _ n2).
  { apply (step_upsert n1 rt 0%nat (None, None)); [cbn; lia|]. reflexivity. }
  apply rtc_once. apply (step_add n2 (boost_spec "boost") false 0%nat (m_go (built "boost" n2)) rt rt None).
  - reflexivity.
  - apply succeeds_result. vm_compute; reflexivity.
Defined.

Definition two_minutes : Z := 120 * 1000000000.

Example expired_pods_reverted_witness :
  eventually (timely_step (m_maxGoroutines n3) two_minutes 0%nat 0%nat)
    (λ c, finished c ∧ ∃ b' o, ((b', 0%nat), o) ∈ t_done c ∧
       match o with inl e => e ∈ t_logged c | inr r => r ∈ t_received c end)
    (validateTimePolicyBoosts_start order_fwd (λ _, order_rev) n3).
Proof.
  apply (expired_pods_reverted true start n3 order_fwd (λ _, order_rev) "boost" "demo" 0%nat 0%nat two_minutes).
  - reflexivity.
  - exact reach_n3.
  - vm_compute; reflexivity.
  - exists "web-1", (duration.PolicyFixed (duration.NewFixedDurationPolicy (60 * 1000000000))).
    split; [vm_compute; reflexivity|]. split; vm_compute; reflexivity.
Defined.
End witness.
