(* ===== verification/BoostController.v ===== *)
(** * The controller of StartupCPUBoost (internal/controller)

    [StartupCPUBoostReconciler] keeps the status of the API object in step
    with the manager; its event filter registers, updates and deletes boosts
    in the manager; [boostPodHandler] feeds pod events to the manager and
    asks for reconciliations. *)

From stdpp Require Import functions.
From S2P Require Import Prelude Quantities Kube Api Duration Resource BoostPod Metrics Client Boost.
From S2P Require Import Namespaced Manager ManagerTick Validation ConcreteServer.

Definition BoostActiveConditionTrueReason : string := "Ready".
Definition BoostActiveConditionTrueMessage : string := "Can boost new containers".
Definition BoostActiveConditionFalseReason : string := "NotFound".
Definition BoostActiveConditionFalseMessage : string := "StartupCPUBoost not found".
Definition WantedServerVersionForNewRevert : string := "v1.32.0".

(** ** Interfaces *)

(** API errors as [apierrors] classifies them. *)
Inductive ApiError : Type :=
  | ErrNotFound (msg : error)
  | ErrConflict (msg : error)
  | ErrAlreadyExists (msg : error)
  | ErrOther (msg : error).

Definition IsConflict (e : ApiError) : bool := match e with ErrConflict _ => true | _ => false end.
Definition IsNotFound (e : ApiError) : bool := match e with ErrNotFound _ => true | _ => false end.
Definition IsAlreadyExists (e : ApiError) : bool :=
  match e with ErrAlreadyExists _ => true | _ => false end.
Definition IgnoreNotFound (e : ApiError) : option ApiError :=
  if IsNotFound e then None else Some e.

(** [meta.SetStatusCondition] and what it documents: the condition of
    that type is the given one afterwards, other types keep theirs, and a
    condition that is there already changes nothing. *)
Class ConditionLib : Type := {
  SetStatusCondition : list v1alpha1.Condition → v1alpha1.Condition → list v1alpha1.Condition
}.

Definition has_type (t : string) (c : v1alpha1.Condition) : Prop := v1alpha1.cond_Type c = t.
#[global] Instance has_type_dec t c : Decision (has_type t c) := decide (v1alpha1.cond_Type c = t).

Class ConditionLaws `{ConditionLib} : Prop := {
  condition_set l c : c ∈ SetStatusCondition l c;
  condition_other l c t : t ≠ v1alpha1.cond_Type c →
    filter (has_type t) (SetStatusCondition l c) = filter (has_type t) l;
  condition_again l c : SetStatusCondition (SetStatusCondition l c) c = SetStatusCondition l c
}.

(** The API client for boosts. *)
Class BoostClient `{QuantityLib} `{SelectorLib} : Type := {
  BoostWorld : Type;
  client_GetBoost : BoostWorld → string → string → ApiError + v1alpha1.StartupCPUBoost;
  client_UpdateBoostStatus : BoostWorld → v1alpha1.StartupCPUBoost → option ApiError * BoostWorld
}.

Definition set_status `{QuantityLib} `{SelectorLib} (b : v1alpha1.StartupCPUBoost) (st : v1alpha1.StartupCPUBoostStatus) :
    v1alpha1.StartupCPUBoost :=
  {| v1alpha1.b_Meta := v1alpha1.b_Meta b; v1alpha1.b_Selector := v1alpha1.b_Selector b;
     v1alpha1.b_Spec := v1alpha1.b_Spec b; v1alpha1.b_Status := st |}.

(** What the API server documents of these calls: an object is returned
    under its own key, and an update of the status subresource that succeeds
    stores the status of the object and nothing else of it.  Reads go through
    the informer cache: the second law speaks of the object once the cache
    has seen the update. *)
Class BoostClientLaws `{BoostClient} : Prop := {
  get_key w name ns b : client_GetBoost w name ns = inr b →
    v1alpha1.om_Name (v1alpha1.b_Meta b) = name ∧ v1alpha1.om_Namespace (v1alpha1.b_Meta b) = ns;
  update_stores w b0 b w' name ns :
    client_GetBoost w name ns = inr b0 → client_UpdateBoostStatus w b = (None, w') →
    v1alpha1.om_Name (v1alpha1.b_Meta b) = name → v1alpha1.om_Namespace (v1alpha1.b_Meta b) = ns →
    client_GetBoost w' name ns = inr (set_status b0 (v1alpha1.b_Status b))
}.

(** [version.CompareKubeAwareVersionStrings] *)
Class VersionLib : Type := {
  CompareKubeAwareVersionStrings : string → string → Z
}.

Definition shouldUseLegacyRevertMode `{VersionLib} (serverVersion : string) : bool :=
  bool_decide (CompareKubeAwareVersionStrings WantedServerVersionForNewRevert serverVersion < 0).

Section controller.
Context `{QuantityLib} `{SelectorLib} `{AnnotationJSON} `{!PatchLib} `{MetricVecLib} `{!PodClient}.
Context `{ConditionLib} `{!BoostClient}.

(** ** Reconciliation *)

Record Result : Type := { res_Requeue : bool }.

Definition set_selector (b : v1alpha1.StartupCPUBoost) (sel : LabelSelector) :
    v1alpha1.StartupCPUBoost :=
  {| v1alpha1.b_Meta := v1alpha1.b_Meta b; v1alpha1.b_Selector := sel;
     v1alpha1.b_Spec := v1alpha1.b_Spec b; v1alpha1.b_Status := v1alpha1.b_Status b |}.

(** The status the manager's view of the boost gives the object. *)
Definition new_status (m : managerImpl) (boostObj : v1alpha1.StartupCPUBoost) :
    v1alpha1.StartupCPUBoostStatus :=
  let old := v1alpha1.b_Status boostObj in
  match GetRegularCPUBoost (v1alpha1.om_Name (v1alpha1.b_Meta boostObj))
          (v1alpha1.om_Namespace (v1alpha1.b_Meta boostObj)) m with
  | Some b =>
      let stats := b_stats (s_boosts (m_go m) b) in
      {| v1alpha1.bs_ActiveContainerBoosts := int32 (ActiveContainerBoosts stats);
         v1alpha1.bs_TotalContainerBoosts := int32 (TotalContainerBoosts stats);
         v1alpha1.bs_Conditions := SetStatusCondition (v1alpha1.bs_Conditions old)
           {| v1alpha1.cond_Type := "Active"; v1alpha1.cond_Status := ConditionTrue;
              v1alpha1.cond_Reason := BoostActiveConditionTrueReason;
              v1alpha1.cond_Message := BoostActiveConditionTrueMessage |} |}
  | None =>
      {| v1alpha1.bs_ActiveContainerBoosts := v1alpha1.bs_ActiveContainerBoosts old;
         v1alpha1.bs_TotalContainerBoosts := v1alpha1.bs_TotalContainerBoosts old;
         v1alpha1.bs_Conditions := SetStatusCondition (v1alpha1.bs_Conditions old)
           {| v1alpha1.cond_Type := "Active"; v1alpha1.cond_Status := ConditionFalse;
              v1alpha1.cond_Reason := BoostActiveConditionFalseReason;
              v1alpha1.cond_Message := BoostActiveConditionFalseMessage |} |}
  end.

Definition Reconcile (m : managerImpl) (w : BoostWorld) (req : ReconcileRequest) :
    Result * option ApiError * BoostWorld :=
  match client_GetBoost w req.1 req.2 with
  | inl err => ({| res_Requeue := false |}, IgnoreNotFound err, w)
  | inr boostObj =>
      let newBoostObj := set_status boostObj (new_status m boostObj) in
      let '(err, w) :=
        if decide (v1alpha1.b_Status newBoostObj = v1alpha1.b_Status boostObj)
        then (None, w)
        else client_UpdateBoostStatus w newBoostObj in
      match err with
      | Some err =>
          if IsConflict err then ({| res_Requeue := true |}, None, w)
          else ({| res_Requeue := false |}, IgnoreNotFound err, w)
      | None => ({| res_Requeue := false |}, None, w)
      end
  end.

(** ** The event filter *)

(** The object of an event: a boost, a pod or something else. *)
Inductive EventObject : Type :=
  | BoostObject (b : v1alpha1.StartupCPUBoost)
  | PodObject (p : PodRef)
  | OtherObject.

Definition Reconciler_Create (legacyRevertMode : bool) (rt rt' : Runtime) (obj : EventObject) :
    M managerImpl bool :=
  match obj with
  | BoostObject boostObj =>
      let! created := lift (NewStartupCPUBoost boostObj legacyRevertMode) in
      (* an error is logged; [boost] is then the nil interface *)
      let boost := match created with inr b => Some b | inl _ => None end in
      let! _ := AddRegularCPUBoost rt rt' boost in
      ret true
  | _ => ret true
  end.

Definition Reconciler_Delete (obj : EventObject) : M managerImpl bool :=
  match obj with
  | BoostObject boostObj =>
      do! DeleteRegularCPUBoost (v1alpha1.om_Namespace (v1alpha1.b_Meta boostObj))
            (v1alpha1.om_Name (v1alpha1.b_Meta boostObj)) in
      ret true
  | _ => ret true
  end.

Definition Reconciler_Update (rt rt' : Runtime) (objNew : EventObject) : M managerImpl bool :=
  match objNew with
  | BoostObject boostObj =>
      let! _ := UpdateRegularCPUBoost rt rt' boostObj in
      ret true
  | _ => ret true
  end.

Definition Reconciler_Generic (obj : EventObject) : M managerImpl bool := ret true.

(** ** Pod events

    The handlers return the requests they add to the work queue. *)

Definition enqueue (boost : option BoostRef) : M managerImpl (list ReconcileRequest) :=
  match boost with
  | Some b =>
      let! name := lift (Name b) in
      let! namespace := lift (Namespace b) in
      ret [(name, namespace)]
  | None => ret []
  end.

Definition PodHandler_Create (rt : Runtime) (obj : EventObject) :
    M managerImpl (list ReconcileRequest) :=
  match obj with
  | PodObject p =>
      let! (boost, err) := Manager_UpsertPod rt p in
      match err with
      | Some _ => ret []
      | None => enqueue boost
      end
  | _ => ret []
  end.

Definition PodHandler_Delete (rt : Runtime) (obj : EventObject) :
    M managerImpl (list ReconcileRequest) :=
  match obj with
  | PodObject p =>
      let! (boost, err) := Manager_DeletePod rt p in
      match err with
      | Some _ => ret []
      | None => enqueue boost
      end
  | _ => ret []
  end.

Definition PodHandler_Update (rt : Runtime) (objOld objNew : EventObject) :
    M managerImpl (list ReconcileRequest) :=
  match objNew, objOld with
  | PodObject p, PodObject oldPod =>
      let! same := gets (λ m, bool_decide (pod_Conditions (s_pods (m_go m) p) =
                                           pod_Conditions (s_pods (m_go m) oldPod))) in
      if same : bool then ret [] else
      let! (boost, err) := Manager_UpsertPod rt p in
      match err with
      | Some _ => ret []
      | None => enqueue boost
      end
  | _, _ => ret []
  end.

Definition PodHandler_Generic (obj : EventObject) : M managerImpl (list ReconcileRequest) := ret [].

(** The predicate of the pod watch: the boost label exists. *)
Definition GetPodLabelSelector_matches (labels : GoMap string) : bool :=
  match gm_get labels BoostLabelKey with Some _ => true | None => false end.
End controller.

(** ** Lemmas *)

Section lemmas.
Context `{QuantityLib} `{SelectorLib} `{AnnotationJSON} `{!PatchLib} `{MetricVecLib} `{!PodClient}.
Context `{!PodClientBasics}.

(** The boost that [NewStartupCPUBoost] builds. *)
Definition built_boost (legacy : bool) (boostObj : v1alpha1.StartupCPUBoost) sel rp : StartupCPUBoostImpl := {|
  b_name := v1alpha1.om_Name (v1alpha1.b_Meta boostObj);
  b_namespace := v1alpha1.om_Namespace (v1alpha1.b_Meta boostObj);
  b_selector := sel;
  b_durationPolicies := mapDurationPolicy (v1alpha1.spec_DurationPolicy (v1alpha1.b_Spec boostObj));
  b_resourcePolicies := rp; b_pods := ∅;
  b_stats := {| ActiveContainerBoosts := 0; TotalContainerBoosts := 0 |};
  b_legacyRevertMode := legacy |}.

(** The create event builds the boost behind a new pointer and registers
    it if its key is free. *)
Lemma Reconciler_Create_spec legacy rt rt' boostObj sel rp m :
  mgr_inv m →
  LabelSelectorAsSelector (v1alpha1.b_Selector boostObj) = inr sel →
  mapResourcePolicy (v1alpha1.spec_ResourcePolicy (v1alpha1.b_Spec boostObj)) = inr rp →
  let b := s_nextBoost (m_go m) in
  let m1 := m_set_go (new_boost (built_boost legacy boostObj sel rp) (m_go m)) m in
  ∃ m', Reconciler_Create legacy rt rt' (BoostObject boostObj) m = Done (true, m') ∧
    mgr_inv m' ∧ mgr_step m m' ∧
    match GetRegularCPUBoost (v1alpha1.om_Name (v1alpha1.b_Meta boostObj))
            (v1alpha1.om_Namespace (v1alpha1.b_Meta boostObj)) m with
    | Some _ => m' = m1
    | None => adopts b (m_set_timed (timed_after b m1) (registered b m1)) m'
    end.
Proof.
  intros Hinv Hsel Hrp b m1.
  assert (NewStartupCPUBoost boostObj legacy (m_go m) = Done (inr b, m_go m1)) as Hn
    by (unfold NewStartupCPUBoost; by rewrite Hsel, Hrp).
  unfold Reconciler_Create. rewrite (bind_lift _ _ _ _ _ Hn). cbn beta match zeta.
  change (m_set_go (m_go m1) m) with m1.
  assert (s_boosts (m_go m1) b = built_boost legacy boostObj sel rp) as Hb by apply fn_lookup_insert.
  pose proof (new_boost_inv m (built_boost legacy boostObj sel rp) eq_refl Hinv) as Hinv1.
  pose proof (AddRegularCPUBoost_spec rt rt' b m1 Hinv1) as Hspec. cbn zeta in Hspec. rewrite Hb in Hspec.
  unfold GetRegularCPUBoost. cbn [b_name b_namespace built_boost] in Hspec.
  change (m_regularBoosts m1) with (m_regularBoosts m) in Hspec.
  destruct (Get _ _ (m_regularBoosts m)) as [b'|].
  - specialize (Hspec ltac:(cbn; lia)). rewrite (bind_Done _ _ _ _ _ Hspec).
    eexists. split; [reflexivity|]. split_and!; [done|by eapply step_add|done].
  - destruct Hspec as (m' & Ha & Hi & Had); [cbn; lia|]. rewrite (bind_Done _ _ _ _ _ Ha).
    eexists. split; [reflexivity|]. split_and!; [done|by eapply step_add|done].
Qed.

(** The request names the boost as it is registered. *)
Lemma enqueue_registered m b n ns :
  mgr_inv m → Get n ns (m_regularBoosts m) = Some b → enqueue (Some b) m = Done ([(n, ns)], m).
Proof.
  intros Hinv Hg. unfold enqueue, Name, Namespace. rewrite !bind_lift_gets.
  by destruct (inv_key _ _ Hinv _ _ _ Hg) as (-> & -> & _).
Qed.

(** What the handlers have in common: a call of the manager that found
    [boost] for the pod, then a request for it unless the call failed. *)
Lemma upsert_requests rt p m :
  mgr_inv m → (p < s_nextPod (m_go m))%nat →
  let pod := s_pods (m_go m) p in
  ∃ boost err m', Manager_UpsertPod rt p m = Done ((boost, err), m') ∧ mgr_inv m' ∧
    (boost = None → err = None ∧ enqueue boost m' = Done ([], m')) ∧
    (∀ b, boost = Some b → ∃ n, GetRegularCPUBoost n (pod_Namespace pod) m = Some b ∧
       impl_Matches (s_boosts (m_go m) b) pod = true ∧
       enqueue boost m' = Done ([(n, pod_Namespace pod)], m')).
Proof.
  intros Hinv Hp pod.
  destruct (Manager_UpsertPod_spec rt p m Hinv Hp) as ([boost err] & m' & Hu & Hinv' & Hreg & Hc).
  exists boost, err, m'. split; [done|]. split; [done|]. fold pod in Hc. cbn [fst snd] in Hc.
  destruct (getMatchingBoost _ pod m) as [b|] eqn:Hb.
  - destruct Hc as (-> & _). split; [done|]. intros b' [= <-].
    apply getMatchingBoost_Some in Hb as [(n & Hn) Hm]. exists n. split_and!; [done|done|].
    apply enqueue_registered; [done|]. by rewrite Hreg.
  - destruct Hc as ([= -> ->] & _). by split.
Qed.
End lemmas.

(** ** Properties *)

Section properties.
Context `{QuantityLib} `{SelectorLib} `{AnnotationJSON} `{!PatchLib} `{MetricVecLib} `{!PodClient}.
Context `{!PodClientBasics}.
Context `{ConditionLaws} `{!BoostClient} `{!BoostClientLaws}.

(** C33: reconciliation brings the status in step with the manager and then
    rests.  If the object exists and writing its status does not fail, the
    stored object afterwards is the object with the new status, its Active
    condition says whether the boost is registered and, if it is, its
    counters are the boost's statistics; reconciling again with the same
    manager writes nothing. *)
Theorem reconcile_converges m w name ns boostObj :
  client_GetBoost w name ns = inr boostObj →
  let obj' := set_status boostObj (new_status m boostObj) in
  (v1alpha1.b_Status obj' ≠ v1alpha1.b_Status boostObj → (client_UpdateBoostStatus w obj').1 = None) →
  ∃ w', Reconcile m w (name, ns) = ({| res_Requeue := false |}, None, w') ∧
    client_GetBoost w' name ns = inr obj' ∧
    (∃ c, c ∈ v1alpha1.bs_Conditions (v1alpha1.b_Status obj') ∧ v1alpha1.cond_Type c = "Active" ∧
       (v1alpha1.cond_Status c = ConditionTrue ↔ is_Some (GetRegularCPUBoost name ns m))) ∧
    (∀ b, GetRegularCPUBoost name ns m = Some b →
       v1alpha1.bs_ActiveContainerBoosts (v1alpha1.b_Status obj') =
         int32 (ActiveContainerBoosts (b_stats (s_boosts (m_go m) b))) ∧
       v1alpha1.bs_TotalContainerBoosts (v1alpha1.b_Status obj') =
         int32 (TotalContainerBoosts (b_stats (s_boosts (m_go m) b)))) ∧
    Reconcile m w' (name, ns) = ({| res_Requeue := false |}, None, w').
Proof.
  intros Hget obj' Hupd. destruct (get_key _ _ _ _ Hget) as [Hn Hns].
  assert (∃ w', (if decide (v1alpha1.b_Status obj' = v1alpha1.b_Status boostObj) then (None, w)
    else client_UpdateBoostStatus w obj') = (None, w') ∧ client_GetBoost w' name ns = inr obj')
    as (w' & Hw' & Hget').
  { case_decide as Hd.
    - exists w. split; [done|]. rewrite Hget. f_equal. unfold obj', set_status in *. cbn in Hd.
      rewrite Hd. by destruct boostObj.
    - specialize (Hupd Hd). destruct (client_UpdateBoostStatus w obj') as [e w'] eqn:Hu. cbn in Hupd. subst e.
      exists w'. split; [done|]. by apply (update_stores _ _ _ _ _ _ Hget Hu). }
  assert (new_status m obj' = v1alpha1.b_Status obj') as Hfix.
  { unfold new_status, obj', set_status. cbn. unfold new_status.
    destruct (GetRegularCPUBoost _ _ m); cbn; by rewrite condition_again. }
  exists w'. split_and!.
  - unfold Reconcile. cbn [fst snd]. rewrite Hget. fold obj'. by rewrite Hw'.
  - done.
  - unfold obj', set_status, new_status. cbn. rewrite Hn, Hns.
    destruct (GetRegularCPUBoost name ns m) as [b|]; cbn; eexists;
      (split; [apply condition_set|]); split; try done; cbn; split; try done; by intros [? ?].
  - intros b Hb. unfold obj', set_status, new_status. cbn. by rewrite Hn, Hns, Hb.
  - unfold Reconcile. cbn [fst snd]. rewrite Hget'. cbn. rewrite Hfix. by rewrite decide_True.
Qed.

(** C40: an admitted object can crash the controller.  Validation does not
    look at the selector of a StartupCPUBoost: replacing the selector never
    changes the verdict.  If the selector does not convert, the handler of
    the create event logs the error, registers the nil boost it got and
    panics, in every state of the manager. *)
Theorem admitted_boost_crashes_controller legacy rt rt' boostObj sel err m :
  LabelSelectorAsSelector sel = inl err →
  let obj := set_selector boostObj sel in
  ValidateCreate obj = validate boostObj ∧
  ∃ msg, Reconciler_Create legacy rt rt' (BoostObject obj) m = Panic msg.
Proof.
  intros Hsel obj. split; [done|]. unfold Reconciler_Create.
  assert (NewStartupCPUBoost obj legacy (m_go m) = Done (inl err, m_go m)) as Hn
    by (unfold NewStartupCPUBoost; cbn; by rewrite Hsel).
  rewrite (bind_lift _ _ _ _ _ Hn). by eexists.
Qed.

(** The create event of an admitted boost whose selector converts
    registers it under its name and namespace if that is free, in every
    reachable state, with the duration and resource policies of its spec;
    otherwise the registered boosts stay as they are. *)
Theorem create_event_registers client s m legacy rt rt' boostObj sel :
  s_nextBoost s = 0%nat → rtc mgr_step (NewManagerWithTicker client s) m →
  validate boostObj = None →
  LabelSelectorAsSelector (v1alpha1.b_Selector boostObj) = inr sel →
  let name := v1alpha1.om_Name (v1alpha1.b_Meta boostObj) in
  let ns := v1alpha1.om_Namespace (v1alpha1.b_Meta boostObj) in
  ∃ m', Reconciler_Create legacy rt rt' (BoostObject boostObj) m = Done (true, m') ∧
    match GetRegularCPUBoost name ns m with
    | Some b => m_regularBoosts m' = m_regularBoosts m
    | None =>
        ∃ b, GetRegularCPUBoost name ns m' = Some b ∧
          b_selector (s_boosts (m_go m') b) = sel ∧
          b_legacyRevertMode (s_boosts (m_go m') b) = legacy ∧
          b_durationPolicies (s_boosts (m_go m') b) =
            mapDurationPolicy (v1alpha1.spec_DurationPolicy (v1alpha1.b_Spec boostObj))
    end.
Proof.
  intros Hs Hr [[_ Hone] _]%validate_valid Hsel name ns. apply reachable_inv in Hr as Hinv; [|done].
  destruct (proj2 (mapResourcePolicy_ok _) Hone) as (rp & Hrp).
  destruct (Reconciler_Create_spec legacy rt rt' boostObj sel rp m Hinv Hsel Hrp) as (m' & Hc & _ & _ & Hm).
  exists m'. split; [done|]. fold name ns in Hm.
  destruct (GetRegularCPUBoost name ns m) as [b'|]; [by rewrite Hm|].
  exists (s_nextBoost (m_go m)).
  destruct (keeps_identity _ _ _ (adopts_keeps _ _ _ Hm)) as (_ & _ & -> & -> & _ & ->).
  cbn. rewrite fn_lookup_insert. split_and!; try done. unfold GetRegularCPUBoost.
  rewrite (sr_regular _ _ (adopts_registry _ _ _ Hm)). cbn. rewrite fn_lookup_insert. cbn.
  rewrite Get_Put. by rewrite decide_True.
Qed.

(** Pod events.  In every reachable state the handlers return; an
    update whose conditions did not change does nothing; and whatever is
    added to the work queue is one request, for a boost registered in the
    pod's namespace whose selector matches the pod. *)
Theorem pod_events_enqueue client s m rt (p old : PodRef) :
  s_nextBoost s = 0%nat → rtc mgr_step (NewManagerWithTicker client s) m →
  (p < s_nextPod (m_go m))%nat →
  let pod := s_pods (m_go m) p in
  let sound reqs := reqs = [] ∨ ∃ n b, reqs = [(n, pod_Namespace pod)] ∧
    GetRegularCPUBoost n (pod_Namespace pod) m = Some b ∧
    impl_Matches (s_boosts (m_go m) b) pod = true in
  (∃ reqs m', PodHandler_Create rt (PodObject p) m = Done (reqs, m') ∧ sound reqs) ∧
  (∃ reqs m', PodHandler_Delete rt (PodObject p) m = Done (reqs, m') ∧ sound reqs) ∧
  (∃ reqs m', PodHandler_Update rt (PodObject old) (PodObject p) m = Done (reqs, m') ∧ sound reqs ∧
     (pod_Conditions pod = pod_Conditions (s_pods (m_go m) old) → reqs = [] ∧ m' = m)).
Proof.
  intros Hs Hr Hp pod sound. apply reachable_inv in Hr as Hinv; [|done].
  destruct (upsert_requests rt p m Hinv Hp) as (boost & err & m1 & Hu & Hinv1 & Hnone & Hsome).
  assert (∃ reqs m', (let! (boost, err) := Manager_UpsertPod rt p in
    match err with Some _ => ret [] | None => enqueue boost end) m = Done (reqs, m') ∧ sound reqs)
    as (reqs & m' & Hup & Hsound).
  { rewrite (bind_Done _ _ _ _ _ Hu). cbn beta match.
    destruct err as [e|]; [by eexists _, _; split; [reflexivity|left]|]. destruct boost as [b|].
    - destruct (Hsome b eq_refl) as (n & Hn & Hm & He). eexists _, _. split; [exact He|]. right. eauto.
    - destruct (Hnone eq_refl) as (_ & He). eexists _, _. split; [exact He|]. by left. }
  split_and!.
  - by exists reqs, m'.
  - destruct (Manager_DeletePod_spec rt p m Hinv) as ([bo er] & m2 & Hd & Hinv2 & Hreg & Her & Hc).
    cbn [fst snd] in *. subst er. unfold PodHandler_Delete. rewrite (bind_Done _ _ _ _ _ Hd). cbn beta match.
    fold pod in Hc. destruct (getMatchingBoost _ pod m) as [b|] eqn:Hb.
    + destruct Hc as (-> & _). apply getMatchingBoost_Some in Hb as [(n & Hn) Hm].
      eexists _, _. split; [apply (enqueue_registered _ _ n (pod_Namespace pod)); [done|by rewrite Hreg]|].
      right. by exists n, b.
    + destruct Hc as (-> & _). eexists _, _. split; [reflexivity|]. by left.
  - unfold PodHandler_Update. rewrite bind_gets. fold pod. case_bool_decide as Hcond.
    + eexists _, _. split; [reflexivity|]. split; [by left|done].
    + exists reqs, m'. done.
Qed.
End properties.

(** ** Witnesses *)

Module ConcreteBoosts.
Fixpoint set_condition (l : list v1alpha1.Condition) (c : v1alpha1.Condition) : list v1alpha1.Condition :=
  match l with
  | [] => [c]
  | d :: l => if decide (has_type (v1alpha1.cond_Type c) d) then c :: l else d :: set_condition l c
  end.

#[local] Instance conditions : ConditionLib := {| SetStatusCondition := set_condition |}.
#[local] Instance conditions_laws : ConditionLaws.
Proof.
  split.
  - intros l c. induction l as [|d l IH]; cbn; [left|]. case_decide; [left|by right].
  - intros l c t Ht. induction l as [|d l IH]; cbn [SetStatusCondition conditions set_condition].
    + rewrite filter_cons_False; [done|]. unfold has_type. congruence.
    + cbn [SetStatusCondition conditions] in IH. case_decide as Hd; rewrite !filter_cons.
      * rewrite decide_False by (unfold has_type; congruence).
        rewrite decide_False; [done|]. unfold has_type in *. congruence.
      * by rewrite IH.
  - intros l c. induction l as [|d l IH]; cbn.
    + by rewrite decide_True.
    + case_decide as Hd; cbn; [by rewrite decide_True|]. rewrite decide_False by done.
      cbn in IH. by rewrite IH.
Qed.

#[local] Existing Instances ConcreteQuantity.lib ConcreteSelector.lib.

(** Boosts by name and namespace; updates of stored objects are accepted. *)
Abbreviation store := (gmap (string * string) v1alpha1.StartupCPUBoost).

Definition boost_key (b : v1alpha1.StartupCPUBoost) : string * string :=
  (v1alpha1.om_Name (v1alpha1.b_Meta b), v1alpha1.om_Namespace (v1alpha1.b_Meta b)).

Definition get (w : store) (name ns : string) : ApiError + v1alpha1.StartupCPUBoost :=
  match w !! (name, ns) with
  | Some b => if decide (boost_key b = (name, ns)) then inr b else inl (ErrOther "corrupt")
  | None => inl (ErrNotFound name)
  end.

Definition put (w : store) (b : v1alpha1.StartupCPUBoost) : store := <[boost_key b := b]> w.

Lemma get_put w b name ns : boost_key b = (name, ns) → get (put w b) name ns = inr b.
Proof. intros Hk. unfold get, put. rewrite Hk, lookup_insert_eq. by rewrite decide_True. Qed.

#[local] Instance boosts_client : BoostClient := {|
  BoostWorld := store;
  client_GetBoost := get;
  client_UpdateBoostStatus := λ w b,
    match w !! boost_key b with
    | Some b0 => (None, put w (set_status b0 (v1alpha1.b_Status b)))
    | None => (Some (ErrNotFound (v1alpha1.om_Name (v1alpha1.b_Meta b))), w)
    end
|}.

#[local] Instance boosts_client_laws : BoostClientLaws.
Proof.
  split.
  - intros w name ns b. cbn [client_GetBoost boosts_client]. unfold get. destruct (_ !! _) as [b'|]; [|done].
    destruct (decide _) as [Hd|]; [|done]. intros [= <-]. by injection Hd.
  - intros w b0 b w' name ns. cbn [client_GetBoost client_UpdateBoostStatus boosts_client]. unfold get at 1.
    intros Hget Hu Hn Hns. assert (boost_key b = (name, ns)) as Hk by (unfold boost_key; congruence).
    rewrite Hk in Hu. destruct ((w : store) !! (name, ns)) as [b1|]; [|done].
    destruct (decide _) as [Hk1|]; [|done]. injection Hget as ->. injection Hu as <-. by apply get_put.
Qed.
End ConcreteBoosts.

Module witness.
#[local] Existing Instances ConcreteQuantity.lib ConcreteQuantity.laws ConcreteSelector.lib
  ConcreteJSON.json ConcreteVec.lib ConcreteVec.laws json_patches server server_basics
  ConcreteBoosts.conditions ConcreteBoosts.conditions_laws
  ConcreteBoosts.boosts_client ConcreteBoosts.boosts_client_laws.
Import Manager.witness.

Definition w0 : @BoostWorld _ _ ConcreteBoosts.boosts_client :=
  ConcreteBoosts.put ∅ (boost_spec "boost").

Example reconcile_converges_witness :
  ∃ w', Reconcile m3 w0 ("boost", "demo") = ({| res_Requeue := false |}, None, w') ∧
    Reconcile m3 w' ("boost", "demo") = ({| res_Requeue := false |}, None, w').
Proof.
  destruct (reconcile_converges m3 w0 "boost" "demo" (boost_spec "boost"))
    as (w' & Hr & _ & _ & _ & Hr').
  - apply ConcreteBoosts.get_put. reflexivity.
  - intros _. reflexivity.
  - exists w'. split; [exact Hr|exact Hr'].
Defined.

Example admitted_boost_crashes_controller_witness :
  let obj := set_selector (boost_spec "boost") ("app", []) in
  validate obj = None ∧ ∃ msg, Reconciler_Create false rt rt (BoostObject obj) m0 = Panic msg.
Proof.
  destruct (admitted_boost_crashes_controller false rt rt (boost_spec "boost") ("app", [])
    "for 'in', 'notin' operators, values set can't be empty" m0) as [Hv Hp]; [reflexivity|].
  split; [|exact Hp]. vm_compute; reflexivity.
Defined.

Example create_event_registers_witness :
  ∃ m', Reconciler_Create false rt rt (BoostObject (boost_spec "boost")) m2 = Done (true, m') ∧
    ∃ b, GetRegularCPUBoost "boost" "demo" m' = Some b.
Proof.
  destruct (create_event_registers true start m2 false rt rt (boost_spec "boost") ("app", ["web"])
    eq_refl reach_m2) as (m' & Hc & Hm); [vm_compute; reflexivity|reflexivity|].
  exists m'. split; [exact Hc|]. destruct Hm as (b & Hb & _). exists b. exact Hb.
Defined.

Example pod_events_enqueue_witness :
  ∃ reqs m', PodHandler_Create rt (PodObject 0%nat) m3 = Done (reqs, m') ∧
    (reqs = [] ∨ ∃ n b, reqs = [(n, "demo")] ∧ GetRegularCPUBoost n "demo" m3 = Some b).
Proof.
  destruct (pod_events_enqueue true start m3 rt 0%nat 0%nat eq_refl reach_m3) as [(reqs & m' & Hc & Hs) _];
    [vm_compute; lia|].
  exists reqs, m'. split; [exact Hc|]. destruct Hs as [->|(n & b & Hn & Hg & _)]; [by left|right].
  exists n, b. split; [exact Hn|exact Hg].
Defined.
End witness.
