(* ===== verification/Locks.v ===== *)
(** * The locks of the manager and of the boosts (internal/boost)

    The manager and every boost have a sync.RWMutex, and their methods are
    called by many goroutines: the event filter and the pod handler of the
    controller, its reconciliation, the webhook, and the producer and the
    workers of the check.  Here every method is the sequence of its lock
    operations and of its accesses to shared fields, for every way its
    control flow can go; what the fields hold is left to the other files.
    The file shows that calls never deadlock, which fields the locks protect,
    and which they do not. *)

From S2P Require Import Prelude.

(** ** Locks, fields and events *)

(** The mutex of the manager and that of the boost behind a pointer. *)
Inductive Mutex : Type := MgrLock | BoostLock (b : nat).

Inductive Field : Type :=
  | regularBoosts | timedBoosts | orphanedPods | reconciler
  | selector (b : nat) | resourcePolicies (b : nat) | durationPolicies (b : nat)
  | pods (b : nat) | stats (b : nat).

Inductive Ev : Type :=
  | Lock (l : Mutex) | Unlock (l : Mutex) | RLock (l : Mutex) | RUnlock (l : Mutex)
  | Read (f : Field) | Write (f : Field).

Inductive Mode : Type := Shared | Exclusive.

#[global] Instance Mutex_eq_dec : EqDecision Mutex.
Proof. solve_decision. Defined.
#[global] Instance Field_eq_dec : EqDecision Field.
Proof. solve_decision. Defined.
#[global] Instance Mode_eq_dec : EqDecision Mode.
Proof. solve_decision. Defined.

(** [l.Lock()] and [defer l.Unlock()] around a body; the same for readers *)
Definition locked (l : Mutex) (body : list Ev) : list Ev := Lock l :: body ++ [Unlock l].
Definition rlocked (l : Mutex) (body : list Ev) : list Ev := RLock l :: body ++ [RUnlock l].

(** ** StartupCPUBoostImpl

    The arguments besides the boost say how the control flow goes. *)

Section boost.
Implicit Types b : nat.

(** The map is read again for the wildcard. *)
Definition ev_ResourcePolicy (found : bool) b : list Ev :=
  if found then [Read (resourcePolicies b)] else [Read (resourcePolicies b); Read (resourcePolicies b)].
Definition ev_DurationPolicies b : list Ev := [Read (durationPolicies b)].
Definition ev_Pod b : list Ev := rlocked (BoostLock b) [Read (pods b)].
Definition ev_Matches b : list Ev := [Read (selector b)].
Definition ev_Stats b : list Ev := [Read (stats b)].
Definition ev_updateStats b : list Ev := [Read (pods b); Write (stats b)].

(** [ok]: the API server accepts the reversion. *)
Definition ev_revertResources (ok : bool) b : list Ev :=
  if ok then [Write (pods b)] ++ ev_updateStats b else [].

(** There is no condition policy, or the pod does not meet it, or it does. *)
Inductive Upsert : Type := NoCondition | NotMet | Met (ok : bool).

Definition ev_UpsertPod (u : Upsert) b : list Ev :=
  locked (BoostLock b) ([Read (pods b); Write (pods b)] ++ ev_updateStats b ++ [Read (durationPolicies b)] ++
    match u with Met ok => ev_revertResources ok b | _ => [] end).

Definition ev_DeletePod b : list Ev :=
  locked (BoostLock b) ([Write (pods b)] ++ ev_updateStats b).

Definition ev_ValidatePolicy (found : bool) b : list Ev :=
  rlocked (BoostLock b) (Read (durationPolicies b) :: if found then [Read (pods b)] else []).

Definition ev_RevertResources (ok : bool) b : list Ev :=
  locked (BoostLock b) (ev_revertResources ok b).

(** [ok]: the selector and the resource policies are well formed. *)
Definition ev_UpdateFromSpec (ok : bool) b : list Ev :=
  locked (BoostLock b)
    (if ok then [Write (selector b); Write (resourcePolicies b); Write (durationPolicies b)] else []).
End boost.

(** ** managerImpl *)

Section manager.

(** [bs]: the boosts asked in turn. *)
Definition ev_getMatchingBoost (bs : list nat) : list Ev := Read regularBoosts :: (bs ≫= ev_Matches).

(** One entry per orphan of the namespace: [None] if it does not match;
    those that were adopted are deleted. *)
Definition ev_mapOrphanedPods (orphans : list (option Upsert)) (mapped : nat) (b : nat) : list Ev :=
  Read orphanedPods ::
  (orphans ≫= λ o, ev_Matches b ++ match o with Some u => ev_UpsertPod u b | None => [] end) ++
  replicate mapped (Write orphanedPods).

(** One entry per listed pod: [None] if it is tracked already. *)
Definition ev_syncBoostPods (listed : list (option Upsert)) (b : nat) : list Ev :=
  listed ≫= λ o, ev_Pod b ++ match o with Some u => ev_UpsertPod u b | None => [] end.

Record PostProcess : Type := {
  pp_fixed : bool;
  pp_orphans : list (option Upsert);
  pp_mapped : nat;
  pp_listed : list (option Upsert)
}.

Definition ev_postProcessNewBoost (pp : PostProcess) (b : nat) : list Ev :=
  ev_DurationPolicies b ++ (if pp_fixed pp then [Write timedBoosts] else []) ++
  ev_mapOrphanedPods (pp_orphans pp) (pp_mapped pp) b ++ ev_syncBoostPods (pp_listed pp) b.

(** [None]: a boost with this name is registered. *)
Definition ev_AddRegularCPUBoost (pp : option PostProcess) (b : nat) : list Ev :=
  locked MgrLock (Read regularBoosts ::
    match pp with Some pp => Write regularBoosts :: ev_postProcessNewBoost pp b | None => [] end).

Definition ev_DeleteRegularCPUBoost : list Ev :=
  locked MgrLock [Write regularBoosts; Write timedBoosts].

(** Not found; an error of the boost; updated. *)
Inductive Update : Type := NotFound | Refused (b : nat) | Updated (pp : PostProcess) (b : nat).

Definition ev_UpdateRegularCPUBoost (u : Update) : list Ev :=
  locked MgrLock (Read regularBoosts ::
    match u with
    | NotFound => []
    | Refused b => ev_UpdateFromSpec false b
    | Updated pp b => ev_UpdateFromSpec true b ++ ev_postProcessNewBoost pp b
    end).

Definition ev_GetRegularCPUBoost : list Ev := rlocked MgrLock [Read regularBoosts].

Definition ev_GetCPUBoostForPod (bs : list nat) : list Ev :=
  rlocked MgrLock (ev_getMatchingBoost bs).

(** The boost that matches, how its method goes and whether it succeeds. *)
Definition ev_Manager_UpsertPod (bs : list nat) (found : option (nat * Upsert * bool)) : list Ev :=
  locked MgrLock (ev_getMatchingBoost bs ++
    match found with
    | Some (b, u, ok) => ev_UpsertPod u b ++ if ok : bool then [Write orphanedPods] else []
    | None => [Write orphanedPods]
    end).

Definition ev_Manager_DeletePod (bs : list nat) (found : option nat) : list Ev :=
  locked MgrLock (ev_getMatchingBoost bs ++
    match found with Some b => ev_DeletePod b | None => [Write orphanedPods] end).

Definition ev_SetStartupCPUBoostReconciler : list Ev := [Write reconciler].

(** *** The callers *)

(** [Reconcile] of the controller: [Some b] if the boost is registered *)
Definition ev_Reconcile (found : option nat) : list Ev :=
  ev_GetRegularCPUBoost ++ match found with Some b => ev_Stats b | None => [] end.

(** [Handle] of the pod webhook: the policies of the containers *)
Definition ev_Handle (bs : list nat) (found : option (nat * list bool)) : list Ev :=
  ev_GetCPUBoostForPod bs ++
  match found with Some (b, cs) => cs ≫= λ found, ev_ResourcePolicy found b | None => [] end.

(** [validateTimePolicyBoosts]: the snapshot, then the reconciliations at
    its end; its producer; one of its workers *)
Definition ev_check (reqs : option (list (option nat))) : list Ev :=
  rlocked MgrLock [Read timedBoosts] ++ [Read reconciler] ++
  match reqs with Some reqs => reqs ≫= λ r, Read reconciler :: ev_Reconcile r | None => [] end.
Definition ev_producer (bs : list (bool * nat)) : list Ev := bs ≫= λ x, ev_ValidatePolicy x.1 x.2.
Definition ev_worker (tasks : list (bool * nat)) : list Ev := tasks ≫= λ x, ev_RevertResources x.1 x.2.

Inductive Call : Type :=
  | CallAdd (pp : option PostProcess) (b : nat)
  | CallDelete
  | CallUpdate (u : Update)
  | CallUpsertPod (bs : list nat) (found : option (nat * Upsert * bool))
  | CallDeletePod (bs : list nat) (found : option nat)
  | CallSetReconciler
  | CallReconcile (found : option nat)
  | CallHandle (bs : list nat) (found : option (nat * list bool))
  | CallCheck (reqs : option (list (option nat)))
  | CallProducer (bs : list (bool * nat))
  | CallWorker (tasks : list (bool * nat)).

Definition events (c : Call) : list Ev :=
  match c with
  | CallAdd pp b => ev_AddRegularCPUBoost pp b
  | CallDelete => ev_DeleteRegularCPUBoost
  | CallUpdate u => ev_UpdateRegularCPUBoost u
  | CallUpsertPod bs found => ev_Manager_UpsertPod bs found
  | CallDeletePod bs found => ev_Manager_DeletePod bs found
  | CallSetReconciler => ev_SetStartupCPUBoostReconciler
  | CallReconcile found => ev_Reconcile found
  | CallHandle bs found => ev_Handle bs found
  | CallCheck reqs => ev_check reqs
  | CallProducer bs => ev_producer bs
  | CallWorker tasks => ev_worker tasks
  end.
End manager.

(** ** Goroutines

    sync.RWMutex: a goroutine that wants the lock for itself announces it,
    which keeps new readers out, and waits until nobody holds the lock. *)

Record Thread : Type := {
  th_held : list (Mutex * Mode);
  th_announced : bool;
  th_todo : list Ev
}.
Abbreviation Threads := (list Thread).

Definition announces (l : Mutex) (t : Thread) : Prop := th_announced t = true ∧ head (th_todo t) = Some (Lock l).

#[global] Instance Ev_eq_dec : EqDecision Ev.
Proof. solve_decision. Defined.
#[global] Instance announces_dec l t : Decision (announces l t).
Proof. apply and_dec; apply _. Defined.

(** Nobody holds the lock; nobody has it for itself or wants it so. *)
Definition free (l : Mutex) (ts : Threads) : Prop := Forall (λ t, l ∉ (th_held t).*1) ts.
Definition open (l : Mutex) (ts : Threads) : Prop :=
  Forall (λ t, ((l, Exclusive) ∉ th_held t) ∧ ¬ announces l t) ts.

#[global] Instance open_dec l ts : Decision (open l ts).
Proof. apply Forall_dec. intros t. apply and_dec; apply _. Defined.

(** [None] if the lock is not held. *)
Fixpoint release (h : Mutex * Mode) (held : list (Mutex * Mode)) : option (list (Mutex * Mode)) :=
  match held with
  | [] => None
  | h' :: held => if decide (h' = h) then Some held else (h' ::.) <$> release h held
  end.

Definition thread_next (held : list (Mutex * Mode)) (t : Thread) : Thread :=
  {| th_held := held; th_announced := false; th_todo := tail (th_todo t) |}.

(** The next event of a goroutine; [None] if it has to wait.  Unlocking a
    mutex that is not locked is a fatal error, which the model never passes. *)
Definition exec1 (ts : Threads) (t : Thread) : option Thread :=
  match th_todo t with
  | [] => None
  | Lock l :: todo =>
      if th_announced t then
        if decide (free l ts) then Some (thread_next ((l, Exclusive) :: th_held t) t) else None
      else Some {| th_held := th_held t; th_announced := true; th_todo := th_todo t |}
  | RLock l :: todo =>
      if decide (open l ts) then Some (thread_next ((l, Shared) :: th_held t) t) else None
  | Unlock l :: todo => (λ held, thread_next held t) <$> release (l, Exclusive) (th_held t)
  | RUnlock l :: todo => (λ held, thread_next held t) <$> release (l, Shared) (th_held t)
  | Read _ :: todo | Write _ :: todo => Some (thread_next (th_held t) t)
  end.

Definition exec (i : nat) (ts : Threads) : option Threads :=
  t ← ts !! i; t' ← exec1 ts t; Some (<[i := t']> ts).

Definition step (ts ts' : Threads) : Prop := ∃ i, exec i ts = Some ts'.

(** Goroutines, each with the calls it makes. *)
Definition start (css : list (list Call)) : Threads :=
  (λ cs, {| th_held := []; th_announced := false; th_todo := cs ≫= events |}) <$> css.

Definition finished (ts : Threads) : Prop := Forall (λ t, th_todo t = [] ∧ th_held t = []) ts.

(** Two goroutines are about to access the field, one of them to write it. *)
Definition race (f : Field) (ts : Threads) : Prop :=
  ∃ i j t t', i ≠ j ∧ ts !! i = Some t ∧ ts !! j = Some t' ∧ head (th_todo t) = Some (Write f) ∧
    (head (th_todo t') = Some (Read f) ∨ head (th_todo t') = Some (Write f)).

(** ** The discipline *)

(** Locks are taken in this order, and of the boosts one at a time. *)
Definition rank (l : Mutex) : nat := match l with MgrLock => 0 | BoostLock _ => 1 end.

Definition below (l : Mutex) (held : list (Mutex * Mode)) : Prop := Forall (λ h, (rank h.1 < rank l)%nat) held.

(** What one has to hold to access a field. *)
Definition may_write (f : Field) (held : list (Mutex * Mode)) : Prop :=
  match f with
  | regularBoosts | timedBoosts | orphanedPods | selector _ | resourcePolicies _ => (MgrLock, Exclusive) ∈ held
  | durationPolicies b => (MgrLock, Exclusive) ∈ held ∧ (BoostLock b, Exclusive) ∈ held
  | pods b | stats b => (BoostLock b, Exclusive) ∈ held
  | reconciler => True
  end.

Definition may_read (f : Field) (held : list (Mutex * Mode)) : Prop :=
  match f with
  | regularBoosts | timedBoosts | orphanedPods | selector _ => MgrLock ∈ held.*1
  | durationPolicies b => MgrLock ∈ held.*1 ∨ BoostLock b ∈ held.*1
  | pods b => BoostLock b ∈ held.*1
  | reconciler | resourcePolicies _ | stats _ => True
  end.

(** The fields that some method reads without a lock. *)
Definition unprotected (f : Field) : Prop :=
  match f with reconciler | resourcePolicies _ | stats _ => True | _ => False end.

#[global] Instance may_write_dec f held : Decision (may_write f held).
Proof. destruct f; cbn; apply _. Defined.
#[global] Instance may_read_dec f held : Decision (may_read f held).
Proof. destruct f; cbn; apply _. Defined.
#[global] Instance below_dec l held : Decision (below l held).
Proof. apply _. Defined.

(** The locks held after an event that keeps to the discipline. *)
Definition check_ev (held : list (Mutex * Mode)) (e : Ev) : option (list (Mutex * Mode)) :=
  match e with
  | Lock l => if decide (below l held) then Some ((l, Exclusive) :: held) else None
  | RLock l => if decide (below l held) then Some ((l, Shared) :: held) else None
  | Unlock l => release (l, Exclusive) held
  | RUnlock l => release (l, Shared) held
  | Read f => if decide (may_read f held) then Some held else None
  | Write f => if decide (may_write f held) then Some held else None
  end.

Fixpoint check_evs (held : list (Mutex * Mode)) (es : list Ev) : option (list (Mutex * Mode)) :=
  match es with
  | [] => Some held
  | e :: es => held' ← check_ev held e; check_evs held' es
  end.

(** ** Every call keeps to it *)

Section calls.
Implicit Types (held : list (Mutex * Mode)) (es : list Ev).

(** The events leave the locks as they were. *)
Definition balanced held es : Prop := check_evs held es = Some held.

Lemma check_evs_app held es es' : check_evs held (es ++ es') = check_evs held es ≫= λ h, check_evs h es'.
Proof.
  revert held. induction es as [|e es IH]; intros held; [done|]. cbn.
  destruct (check_ev held e); [apply IH|done].
Qed.

Lemma balanced_nil held : balanced held [].
Proof. done. Qed.

Lemma balanced_app held es es' : balanced held es → balanced held es' → balanced held (es ++ es').
Proof. unfold balanced. intros H1 H2. by rewrite check_evs_app, H1. Qed.

Lemma balanced_bind {A} held (f : A → list Ev) xs : (∀ x, balanced held (f x)) → balanced held (xs ≫= f).
Proof. intros Hf. induction xs; [done|]. by apply balanced_app. Qed.

Lemma balanced_read held f es : may_read f held → balanced held es → balanced held (Read f :: es).
Proof. intros Hf Hes. unfold balanced. cbn. by rewrite decide_True. Qed.

Lemma balanced_write held f es : may_write f held → balanced held es → balanced held (Write f :: es).
Proof. intros Hf Hes. unfold balanced. cbn. by rewrite decide_True. Qed.

(** A section between taking and releasing a lock. *)
Lemma balanced_locked held l es : below l held → balanced ((l, Exclusive) :: held) es → balanced held (locked l es).
Proof.
  intros Hl Hes. unfold balanced. cbn. rewrite decide_True by done. cbn. rewrite check_evs_app, Hes. cbn.
  by rewrite decide_True.
Qed.

Lemma balanced_rlocked held l es : below l held → balanced ((l, Shared) :: held) es → balanced held (rlocked l es).
Proof.
  intros Hl Hes. unfold balanced. cbn. rewrite decide_True by done. cbn. rewrite check_evs_app, Hes. cbn.
  by rewrite decide_True.
Qed.

Lemma below_boost b held : Forall (λ h, h.1 = MgrLock) held → below (BoostLock b) held.
Proof. intros Hh. eapply Forall_impl; [done|]. intros h ->. cbn. lia. Qed.

Lemma balanced_replicate held n e : balanced held [e] → balanced held (replicate n e).
Proof. intros He. induction n; [done|]. by apply (balanced_app held [e]). Qed.
End calls.

Create HintDb locks discriminated.
#[export] Hint Resolve balanced_nil balanced_app balanced_bind balanced_read balanced_write balanced_locked
  balanced_rlocked balanced_replicate below_boost : locks.
#[export] Hint Extern 1 (may_read _ _) => cbn; set_solver : locks.
#[export] Hint Extern 1 (may_write _ _) => cbn; set_solver : locks.
#[export] Hint Extern 1 (Forall _ _) => repeat constructor : locks.
#[export] Hint Extern 1 (balanced _ (match ?x with _ => _ end)) => destruct x : locks.
#[export] Hint Extern 1 (below MgrLock []) => constructor : locks.

Section disciplined.
Abbreviation mgr := [(MgrLock, Exclusive)].

Lemma UpsertPod_ok u b : balanced mgr (ev_UpsertPod u b).
Proof. unfold ev_UpsertPod, ev_revertResources, ev_updateStats. auto 12 with locks. Qed.
Local Hint Resolve UpsertPod_ok : locks.

Lemma postProcess_ok pp b : balanced mgr (ev_postProcessNewBoost pp b).
Proof.
  unfold ev_postProcessNewBoost, ev_mapOrphanedPods, ev_syncBoostPods, ev_DurationPolicies, ev_Matches, ev_Pod.
  auto 12 with locks.
Qed.
Local Hint Resolve postProcess_ok : locks.

Lemma getMatchingBoost_ok held bs : MgrLock ∈ held.*1 → balanced held (ev_getMatchingBoost bs).
Proof. intros Hm. unfold ev_getMatchingBoost, ev_Matches. auto 12 with locks. Qed.
Local Hint Resolve getMatchingBoost_ok : locks.
Local Hint Extern 1 (MgrLock ∈ _) => cbn; set_solver : locks.

Lemma GetRegularCPUBoost_ok : balanced [] ev_GetRegularCPUBoost.
Proof. unfold ev_GetRegularCPUBoost. auto 12 with locks. Qed.
Local Hint Resolve GetRegularCPUBoost_ok : locks.

Lemma Reconcile_ok found : balanced [] (ev_Reconcile found).
Proof. unfold ev_Reconcile, ev_Stats. auto 12 with locks. Qed.
Local Hint Resolve Reconcile_ok : locks.

Lemma call_ok c : balanced [] (events c).
Proof.
  destruct c; cbn [events].
  - unfold ev_AddRegularCPUBoost. auto 12 with locks.
  - unfold ev_DeleteRegularCPUBoost. auto 12 with locks.
  - unfold ev_UpdateRegularCPUBoost, ev_UpdateFromSpec. auto 12 with locks.
  - unfold ev_Manager_UpsertPod. auto 12 with locks.
  - unfold ev_Manager_DeletePod, ev_DeletePod, ev_updateStats. auto 12 with locks.
  - unfold ev_SetStartupCPUBoostReconciler. auto 12 with locks.
  - auto with locks.
  - unfold ev_Handle, ev_GetCPUBoostForPod, ev_ResourcePolicy. auto 12 with locks.
  - unfold ev_check. auto 12 with locks.
  - unfold ev_producer, ev_ValidatePolicy. auto 12 with locks.
  - unfold ev_worker, ev_RevertResources, ev_revertResources, ev_updateStats. auto 12 with locks.
Qed.
End disciplined.

(** ** What the discipline guarantees *)

Section guarantees.
Implicit Types (ts : Threads) (t : Thread).

(** Every goroutine keeps to the discipline until it holds nothing, and a
    lock that one has for itself no other one holds. *)
Record disciplined ts : Prop := {
  di_events t : t ∈ ts → check_evs (th_held t) (th_todo t) = Some [];
  di_excludes i j t t' l : i ≠ j → ts !! i = Some t → ts !! j = Some t' →
    (l, Exclusive) ∈ th_held t → l ∉ (th_held t').*1
}.

Lemma start_disciplined css : disciplined (start css).
Proof.
  split.
  - intros t (cs & -> & _)%list_elem_of_fmap. apply (balanced_bind []), call_ok.
  - intros i j t t' l _ Ht _. unfold start in Ht. apply list_lookup_fmap_Some in Ht as (cs & -> & _). cbn. set_solver.
Qed.

Lemma release_sub h held held' x : release h held = Some held' → x ∈ held' → x ∈ held.
Proof.
  revert held'. induction held as [|h' held IH]; intros held'; cbn; [done|].
  case_decide; [intros [= <-]; by right|]. destruct (release h held) as [k|]; [|done]. intros [= <-].
  intros [->|Hx]%elem_of_cons; [left|right]. by apply (IH k).
Qed.

(** What a step does to the locks of its goroutine. *)
Lemma exec1_held ts t t' :
  exec1 ts t = Some t' →
  (∀ h, h ∈ th_held t' → h ∈ th_held t ∨
     (∃ l, h = (l, Exclusive) ∧ free l ts) ∨ (∃ l, h = (l, Shared) ∧ open l ts)) ∧
  (check_evs (th_held t) (th_todo t) = Some [] → check_evs (th_held t') (th_todo t') = Some []).
Proof.
  unfold exec1, thread_next. destruct (th_todo t) as [|[l|l|l|l|f|f] todo] eqn:Htodo; [done|..]; cbn.
  - destruct (th_announced t).
    + case_decide as Hfree; [|done]. intros [= <-]. cbn. split.
      * intros h [->|Hh]%elem_of_cons; [right; left; eauto|by left].
      * by case_decide.
    + intros [= <-]. cbn. auto.
  - destruct (release _ _) as [held|] eqn:Hr; [|done]. intros [= <-]. cbn. split; [|done].
    intros h Hh. left. by eapply release_sub.
  - case_decide as Hopen; [|done]. intros [= <-]. cbn. split.
    + intros h [->|Hh]%elem_of_cons; [right; right; eauto|by left].
    + by case_decide.
  - destruct (release _ _) as [held|] eqn:Hr; [|done]. intros [= <-]. cbn. split; [|done].
    intros h Hh. left. by eapply release_sub.
  - intros [= <-]. cbn. split; [auto|]. by case_decide.
  - intros [= <-]. cbn. split; [auto|]. by case_decide.
Qed.

Lemma exec_inv i ts ts' :
  exec i ts = Some ts' → ∃ t t', ts !! i = Some t ∧ exec1 ts t = Some t' ∧ ts' = <[i := t']> ts.
Proof.
  unfold exec. destruct (ts !! i) as [t|] eqn:Ht; [|done]. cbn. destruct (exec1 ts t) as [t'|] eqn:He; [|done].
  cbn. intros [= <-]. eauto.
Qed.

Lemma step_disciplined ts ts' : disciplined ts → step ts ts' → disciplined ts'.
Proof.
  intros [Hev Hex] (i & (t & t' & Ht & He & ->)%exec_inv). destruct (exec1_held _ _ _ He) as [Hheld Hcheck].
  assert (∀ j u, <[i := t']> ts !! j = Some u → (j = i ∧ u = t') ∨ (j ≠ i ∧ ts !! j = Some u)) as Hlook.
  { intros j u. apply lookup_lt_Some in Ht. destruct (decide (j = i)) as [->|Hne].
    - rewrite list_lookup_insert_eq by done. naive_solver.
    - rewrite list_lookup_insert_ne by done. naive_solver. }
  split.
  - intros u (j & Hj)%list_elem_of_lookup. apply Hlook in Hj as [[-> ->]|[_ Hj]].
    + apply Hcheck, Hev. by eapply list_elem_of_lookup_2.
    + apply Hev. by eapply list_elem_of_lookup_2.
  - intros j k u u' l Hne Hj Hk Hl (h & -> & Hh)%list_elem_of_fmap.
    apply Hlook in Hj as [[-> ->]|[Hji Hj]]; apply Hlook in Hk as [[-> ->]|[Hki Hk]]; [done|..].
    + destruct (Hheld _ Hl) as [Hold|[(l' & [= <-] & Hfree)|(l' & [= _] & _)]].
      * apply (Hex i k t u' h.1 Hne Ht Hk Hold). by apply list_elem_of_fmap_2.
      * unfold free in Hfree. rewrite Forall_lookup in Hfree. apply (Hfree _ _ Hk). by apply list_elem_of_fmap_2.
    + destruct (Hheld _ Hh) as [Hold|[(l' & -> & Hfree)|(l' & -> & Hopen)]].
      * apply (Hex j i u t h.1 Hne Hj Ht Hl). by apply list_elem_of_fmap_2.
      * unfold free in Hfree. rewrite Forall_lookup in Hfree. apply (Hfree _ _ Hj). cbn in Hl.
        by apply (list_elem_of_fmap_2 fst _ (l', Exclusive)).
      * unfold open in Hopen. rewrite Forall_lookup in Hopen. by destruct (Hopen _ _ Hj).
    + by apply (Hex j k u u' h.1 Hne Hj Hk Hl), list_elem_of_fmap_2.
Qed.

Lemma reachable_disciplined css ts : rtc step (start css) ts → disciplined ts.
Proof.
  apply (rtc_ind_r (λ ts, disciplined ts) _); [apply start_disciplined|]. intros; by eapply step_disciplined.
Qed.

(** *** Nobody waits forever *)

Lemma exec_enabled ts i t t' : ts !! i = Some t → exec1 ts t = Some t' → ∃ ts', step ts ts'.
Proof. intros Ht He. eexists. exists i. unfold exec. by rewrite Ht; cbn; rewrite He. Qed.

(** Whoever wants a lock that nobody holds gets on, or somebody else who
    wants it does. *)
Lemma free_enabled ts i t l :
  ts !! i = Some t → head (th_todo t) = Some (Lock l) ∨ head (th_todo t) = Some (RLock l) →
  free l ts → ∃ ts', step ts ts'.
Proof.
  intros Ht Hhead Hfree.
  assert (∀ j u, ts !! j = Some u → head (th_todo u) = Some (Lock l) → ∃ ts', step ts ts') as Hlock.
  { intros j u Hu Hh. destruct (th_todo u) as [|e todo] eqn:Htodo; [done|]. injection Hh as ->.
    destruct (th_announced u) eqn:Ha; (eapply (exec_enabled ts j u); [done|]); unfold exec1; rewrite Htodo, Ha;
      [by rewrite decide_True|reflexivity]. }
  destruct Hhead as [Hh|Hh]; [by eapply Hlock|].
  destruct (decide (open l ts)) as [Hopen|Hclosed].
  - destruct (th_todo t) as [|e todo] eqn:Htodo; [done|]. injection Hh as ->.
    eapply (exec_enabled ts i t); [done|]. unfold exec1. rewrite Htodo. by rewrite decide_True.
  - apply not_Forall_Exists in Hclosed; [|apply _]. apply Exists_exists in Hclosed as (u & (j & Hu)%list_elem_of_lookup & Hcl).
    eapply Hlock; [done|]. destruct (decide (announces l u)) as [[_ ?]|Hno]; [done|]. destruct Hcl. split; [|done].
    intros Hin. unfold free in Hfree. rewrite Forall_lookup in Hfree. apply (Hfree _ _ Hu).
    by apply (list_elem_of_fmap_2 fst _ (l, Exclusive)).
Qed.

(** A goroutine that does not want a lock gets on. *)
Lemma busy_enabled ts i t :
  disciplined ts → ts !! i = Some t → th_todo t ≠ [] →
  (∃ ts', step ts ts') ∨ ∃ l, (head (th_todo t) = Some (Lock l) ∨ head (th_todo t) = Some (RLock l)) ∧
    below l (th_held t).
Proof.
  intros [Hev _] Ht Hne. specialize (Hev t (list_elem_of_lookup_2 _ _ _ Ht)).
  destruct (th_todo t) as [|[l|l|l|l|f|f] todo] eqn:Htodo; [done|..]; cbn in Hev.
  - case_decide; [|done]. right. exists l. auto.
  - left. destruct (release _ _) as [held|] eqn:Hr; [|done]. eapply exec_enabled; [done|].
    unfold exec1. rewrite Htodo, Hr. done.
  - case_decide; [|done]. right. exists l. auto.
  - left. destruct (release _ _) as [held|] eqn:Hr; [|done]. eapply exec_enabled; [done|].
    unfold exec1. rewrite Htodo, Hr. done.
  - left. eapply exec_enabled; [done|]. unfold exec1. by rewrite Htodo.
  - left. eapply exec_enabled; [done|]. unfold exec1. by rewrite Htodo.
Qed.

(** Whoever holds a lock has something left to do: its release. *)
Lemma holder_busy ts t l : disciplined ts → t ∈ ts → l ∈ (th_held t).*1 → th_todo t ≠ [].
Proof. intros [Hev _] Ht Hl Htodo. specialize (Hev t Ht). rewrite Htodo in Hev. injection Hev as Hev. rewrite Hev in Hl. set_solver. Qed.

Lemma not_free ts l : ¬ free l ts → ∃ i t, ts !! i = Some t ∧ l ∈ (th_held t).*1.
Proof.
  intros Hn. apply not_Forall_Exists in Hn; [|apply _].
  apply Exists_exists in Hn as (t & (i & Ht)%list_elem_of_lookup & Hl). exists i, t. split; [done|].
  by destruct (decide (l ∈ (th_held t).*1)).
Qed.

(** By the order of the locks: the holder of a boost's lock wants none, so
    it gets on; the holder of the manager's wants a boost's at most. *)
Lemma boost_holder_enabled ts i t b :
  disciplined ts → ts !! i = Some t → BoostLock b ∈ (th_held t).*1 → ∃ ts', step ts ts'.
Proof.
  intros Hd Ht Hb. destruct (busy_enabled ts i t Hd Ht) as [|(l & _ & Hbelow)]; [|done|].
  { eapply holder_busy; [done| |done]. by eapply list_elem_of_lookup_2. }
  apply list_elem_of_fmap in Hb as (h & Hh & Hin). unfold below in Hbelow. rewrite Forall_forall in Hbelow.
  specialize (Hbelow _ Hin). rewrite <-Hh in Hbelow. destruct l; cbn in Hbelow; lia.
Qed.

Lemma boost_waiter_enabled ts i t b :
  disciplined ts → ts !! i = Some t →
  head (th_todo t) = Some (Lock (BoostLock b)) ∨ head (th_todo t) = Some (RLock (BoostLock b)) →
  ∃ ts', step ts ts'.
Proof.
  intros Hd Ht Hhead. destruct (decide (free (BoostLock b) ts)) as [|(j & u & Hu & Hb)%not_free].
  - by eapply free_enabled.
  - by eapply boost_holder_enabled.
Qed.

Lemma waiter_enabled ts i t l :
  disciplined ts → ts !! i = Some t → head (th_todo t) = Some (Lock l) ∨ head (th_todo t) = Some (RLock l) →
  ∃ ts', step ts ts'.
Proof.
  intros Hd Ht Hhead. destruct l as [|b]; [|by eapply boost_waiter_enabled].
  destruct (decide (free MgrLock ts)) as [|(j & u & Hu & Hm)%not_free]; [by eapply free_enabled|].
  destruct (busy_enabled ts j u Hd Hu) as [|([|b] & Hl & Hbelow)]; [|done|..|by eapply boost_waiter_enabled].
  { eapply holder_busy; [done| |done]. by eapply list_elem_of_lookup_2. }
  apply list_elem_of_fmap in Hm as (h & Hh & Hin). unfold below in Hbelow. rewrite Forall_forall in Hbelow.
  specialize (Hbelow _ Hin). cbn in Hbelow. lia.
Qed.

Lemma locks_progress ts : disciplined ts → finished ts ∨ ∃ ts', step ts ts'.
Proof.
  intros Hd. destruct (decide (Forall (λ t, th_todo t = []) ts)) as [Hall|Hex].
  - left. apply Forall_forall. intros t Ht. rewrite Forall_forall in Hall. specialize (Hall _ Ht). split; [done|].
    pose proof (di_events _ Hd t Ht) as Hev. rewrite Hall in Hev. by injection Hev.
  - right. apply not_Forall_Exists in Hex; [|apply _].
    apply Exists_exists in Hex as (t & (i & Ht)%list_elem_of_lookup & Hne).
    destruct (busy_enabled ts i t Hd Ht Hne) as [|(l & Hl & _)]; [done|by eapply waiter_enabled].
Qed.

(** Every event is executed once, after one announcement at most. *)
Definition weight t : nat := 2 * length (th_todo t) + (if th_announced t then 0 else 1).

Lemma step_weight ts ts' : step ts ts' → (sum_nat weight ts' < sum_nat weight ts)%nat.
Proof.
  intros (i & (t & t' & Ht & He & ->)%exec_inv).
  assert (weight t' < weight t)%nat as Hw.
  { unfold exec1, thread_next in He. unfold weight.
    destruct (th_todo t) as [|[l|l|l|l|f|f] todo] eqn:Htodo; [done|..]; cbn in He.
    - destruct (th_announced t); [case_decide; [|done]|]; injection He as <-; cbn; lia.
    - destruct (release _ _); [|done]. injection He as <-. cbn. destruct (th_announced t); lia.
    - case_decide; [|done]. injection He as <-. cbn. destruct (th_announced t); lia.
    - destruct (release _ _); [|done]. injection He as <-. cbn. destruct (th_announced t); lia.
    - injection He as <-. cbn. destruct (th_announced t); lia.
    - injection He as <-. cbn. destruct (th_announced t); lia. }
  pose proof (sum_nat_insert weight ts i t t' Ht). lia.
Qed.

Lemma step_acc ts : Acc (λ ts2 ts1, step ts1 ts2) ts.
Proof.
  apply (Acc_impl (λ ts2 ts1, (sum_nat weight ts2 < sum_nat weight ts1)%nat));
    [apply (wf_projected lt (sum_nat weight)); [done|apply lt_wf]|].
  intros ts1 ts2. apply step_weight.
Qed.

(** *** No races on protected fields *)

Lemma accesses_conflict f held held' :
  ¬ unprotected f → may_write f held → may_read f held' ∨ may_write f held' →
  ∃ l, (l, Exclusive) ∈ held ∧ l ∈ held'.*1.
Proof.
  intros Hf Hw Ha.
  assert (∀ l, (l, Exclusive) ∈ held' → l ∈ held'.*1) as Hex by (intros l; apply (list_elem_of_fmap_2 fst)).
  destruct f; cbn in *; try done; naive_solver.
Qed.

Lemma access_allowed ts t f :
  disciplined ts → t ∈ ts →
  (head (th_todo t) = Some (Read f) → may_read f (th_held t)) ∧
  (head (th_todo t) = Some (Write f) → may_write f (th_held t)).
Proof.
  intros Hd Ht. pose proof (di_events _ Hd t Ht) as Hev. destruct (th_todo t) as [|e todo]; [done|]. cbn in *.
  split; intros [= ->]; cbn in Hev; by case_decide.
Qed.

Lemma disciplined_race f ts : disciplined ts → race f ts → unprotected f.
Proof.
  intros Hd (i & j & t & t' & Hne & Ht & Ht' & Hw & Ha).
  assert (Decision (unprotected f)) as Hdec by (destruct f; cbn; apply _).
  destruct (decide (unprotected f)) as [|Hf]; [done|exfalso].
  destruct (access_allowed ts t f Hd) as [_ Hmw]; [by eapply list_elem_of_lookup_2|].
  destruct (access_allowed ts t' f Hd) as [Hmr' Hmw']; [by eapply list_elem_of_lookup_2|].
  destruct (accesses_conflict f (th_held t) (th_held t') Hf) as (l & Hl & Hl'); [by auto|naive_solver|].
  by apply (di_excludes _ Hd i j t t' l Hne Ht Ht' Hl).
Qed.
End guarantees.

(** ** Properties *)

(** A schedule, as the goroutines that get the processor in turn. *)
Fixpoint run (schedule : list nat) (ts : Threads) : option Threads :=
  match schedule with
  | [] => Some ts
  | i :: schedule => exec i ts ≫= run schedule
  end.

Lemma run_steps schedule ts ts' : run schedule ts = Some ts' → rtc step ts ts'.
Proof.
  revert ts. induction schedule as [|i schedule IH]; intros ts; cbn; [by intros [= <-]|].
  destruct (exec i ts) as [ts1|] eqn:He; [|done]. intros Hr. apply (rtc_l _ _ ts1); [by exists i|by apply IH].
Qed.

(** A read without a lock in one goroutine meets the write of another one. *)
Definition racing_calls (f : Field) : list (list Call) * list nat :=
  let pp := {| pp_fixed := false; pp_orphans := []; pp_mapped := 0; pp_listed := [] |} in
  match f with
  | stats b => ([[CallWorker [(true, b)]]; [CallReconcile (Some b)]], [1; 1; 1; 0; 0; 0; 0])
  | resourcePolicies b =>
      ([[CallUpdate (Updated pp b)]; [CallHandle [] (Some (b, [true]))]], [1; 1; 1; 0; 0; 0; 0; 0; 0])
  | _ => ([[CallSetReconciler]; [CallCheck None]], [1; 1; 1])
  end%nat.

Lemma unprotected_race f :
  unprotected f → ∃ ts, run (racing_calls f).2 (start (racing_calls f).1) = Some ts ∧ race f ts.
Proof.
  intros Hf. destruct f as [| | | |b|b|b|b|b]; try by destruct Hf.
  all: eexists; split; [reflexivity|]; eexists 0%nat, 1%nat, _, _; split_and!; try reflexivity; [lia|by left].
Qed.

(** C13: calls never deadlock.  Let any number of goroutines make any
    calls: of the event filter, the pod handler, the reconciliation, the
    webhook, the checks with their producers and workers, and the set-up.
    However they are scheduled, every one of them gets every lock it asks
    for, and in the end all calls have returned and no lock is held. *)
Theorem locks_never_deadlock (css : list (list Call)) : eventually step finished (start css).
Proof.
  apply (eventually_acc _ disciplined).
  - apply step_acc.
  - apply start_disciplined.
  - intros ts ts'. apply step_disciplined.
  - apply locks_progress.
Qed.

(** C14: what the locks protect and what they do not.  In no interleaving
    of calls are two goroutines about to access a field of the manager or of
    a boost, one of them to write it, with three exceptions: the reconciler
    of the manager, which is set and read without a lock, and the resource
    policies and the statistics of a boost, which the webhook and the
    reconciliation read without a lock; for each of these some interleaving
    is a race. *)
Theorem races_characterised (f : Field) :
  (∃ css ts, rtc step (start css) ts ∧ race f ts) ↔ unprotected f.
Proof.
  split.
  - intros (css & ts & Hr%reachable_disciplined & Hrace). by eapply disciplined_race.
  - intros (ts & Hr & Hrace)%unprotected_race. exists (racing_calls f).1, ts. split; [by eapply run_steps|done].
Qed.
