(* ===== verification/Operator.v ===== *)
(** * The operator at work

    The controllers, the manager and its loop put together: the watches that
    [SetupWithManager] of internal/controller/boost_controller.go sets up
    hand the events of the API server to the event filter and the pod
    handler, while [Start] of the manager runs its checks.  The file proves
    that the registry of the manager refines the boosts of the API server:
    after any interleaving it holds exactly their configurations. *)

From stdpp Require Import functions.
From S2P Require Import Prelude Quantities Kube Api Duration Resource BoostPod Metrics Client Boost.
From S2P Require Import Namespaced Validation PodWebhook Manager ManagerTick ManagerLoop BoostController.
From S2P Require Import ConcreteServer.

(** ** The watches *)

Section watches.
Context `{QuantityLib} `{SelectorLib} `{AnnotationJSON} `{!PatchLib} `{MetricVecLib} `{!PodClient}.
Context (legacyRevertMode : bool).

Inductive WatchEvent : Type :=
  | CreateEvent (obj : EventObject)
  | UpdateEvent (objectOld objectNew : EventObject)
  | DeleteEvent (obj : EventObject)
  | GenericEvent (obj : EventObject).

(** The object that predicates look at. *)
Definition event_object (e : WatchEvent) : EventObject :=
  match e with
  | CreateEvent obj | UpdateEvent _ obj | DeleteEvent obj | GenericEvent obj => obj
  end.

Definition object_key (b : v1alpha1.StartupCPUBoost) : string * string :=
  (v1alpha1.om_Name (v1alpha1.b_Meta b), v1alpha1.om_Namespace (v1alpha1.b_Meta b)).

(** [WithEventFilter(r)]: the reconciler filters the events of both
    watches. *)
Definition event_filter (rt rt' : Runtime) (e : WatchEvent) : M managerImpl bool :=
  match e with
  | CreateEvent obj => Reconciler_Create legacyRevertMode rt rt' obj
  | UpdateEvent _ obj => Reconciler_Update rt rt' obj
  | DeleteEvent obj => Reconciler_Delete obj
  | GenericEvent obj => Reconciler_Generic obj
  end.

(** The handler of the watch of pods. *)
Definition pod_handler (rt : Runtime) (e : WatchEvent) : M managerImpl (list ReconcileRequest) :=
  match e with
  | CreateEvent obj => PodHandler_Create rt obj
  | UpdateEvent objOld objNew => PodHandler_Update rt objOld objNew
  | DeleteEvent obj => PodHandler_Delete rt obj
  | GenericEvent obj => PodHandler_Generic obj
  end.

(** What the watches of [SetupWithManager] do with an event: events of
    boosts that pass the filter are enqueued under the key of the object,
    events of pods that pass the filter and have the label go to the pod
    handler.  The result are the requests added to the work queue. *)
Definition dispatch (rt rt' : Runtime) (e : WatchEvent) : M managerImpl (list ReconcileRequest) :=
  let! pass := event_filter rt rt' e in
  if negb pass then ret [] else
  match event_object e with
  | BoostObject b => ret [object_key b]
  | PodObject p =>
      let! labelled := gets (λ m, GetPodLabelSelector_matches (pod_Labels (s_pods (m_go m) p))) in
      if negb labelled then ret [] else pod_handler rt e
  | OtherObject => ret []
  end.

(** The pods of an event were handed out by the informer. *)
Definition event_allocated (m : managerImpl) (e : WatchEvent) : Prop :=
  match event_object e with
  | PodObject p => (p < s_nextPod (m_go m))%nat
  | _ => True
  end.

(** ** The operator *)

(** The steps of the operator: an event of a watch, a step of the loop of
    the manager; around it the informer hands out a pod object, the state
    of the API server changes, the ticker fires or the context ends. *)
Inductive op_step : Loop → list WatchEvent → Loop → Prop :=
  | op_watch l rt rt' e reqs m :
      event_allocated (lp_m l) e → dispatch rt rt' e (lp_m l) = Done (reqs, m) →
      op_step l [e] (lp_set_m m l)
  | op_loop l l' : start_step l l' → op_step l [] l'
  | op_pod l pod : op_step l [] (lp_set_m (m_set_go (new_pod pod (m_go (lp_m l))) (lp_m l)) l)
  | op_world l w : op_step l [] (lp_set_m (m_set_go (set_world w (m_go (lp_m l))) (lp_m l)) l)
  | op_env l l' : env_step l l' → lp_m l' = lp_m l → op_step l [] l'.

Inductive op_run (l0 : Loop) : list WatchEvent → Loop → Prop :=
  | run_start : op_run l0 [] l0
  | run_step es es' l l' : op_run l0 es l → op_step l es' l' → op_run l0 (es ++ es') l'.
End watches.

(** ** The specification *)

Section specification.
Context `{QuantityLib} `{SelectorLib}.

(** The boosts of the API server, as far as the events tell. *)
Abbreviation Store := (gmap (string * string) v1alpha1.StartupCPUBoost).

Definition store_after (C : Store) (e : WatchEvent) : Store :=
  match e with
  | CreateEvent (BoostObject b) | UpdateEvent _ (BoostObject b) => <[object_key b := b]> C
  | DeleteEvent (BoostObject b) => delete (object_key b) C
  | _ => C
  end.

Definition store_of (es : list WatchEvent) : Store := foldl store_after ∅ es.

(** The object passed validation and its selector is well formed. *)
Definition accepted (b : v1alpha1.StartupCPUBoost) : Prop :=
  validate b = None ∧ ∃ sel, LabelSelectorAsSelector (v1alpha1.b_Selector b) = inr sel.

(** An event of an informer whose store is [C]. *)
Definition event_ok (C : Store) (e : WatchEvent) : Prop :=
  match e with
  | CreateEvent (BoostObject b) => C !! object_key b = None ∧ accepted b
  | UpdateEvent _ (BoostObject b) => is_Some (C !! object_key b) ∧ accepted b
  | _ => True
  end.

Definition stream_ok (es : list WatchEvent) : Prop :=
  ∀ es1 e es2, es = es1 ++ e :: es2 → event_ok (store_of es1) e.

(** What the spec of a boost says about pods. *)
Record BoostConfig : Type := {
  bc_selector : Selector;
  bc_durationPolicies : gmap string duration.Policy;
  bc_resourcePolicies : gmap string resource.ContainerPolicy
}.

Definition config_of (b : v1alpha1.StartupCPUBoost) : option BoostConfig :=
  match LabelSelectorAsSelector (v1alpha1.b_Selector b),
        mapResourcePolicy (v1alpha1.spec_ResourcePolicy (v1alpha1.b_Spec b)) with
  | inr sel, inr rp =>
      Some {| bc_selector := sel; bc_resourcePolicies := rp;
              bc_durationPolicies := mapDurationPolicy (v1alpha1.spec_DurationPolicy (v1alpha1.b_Spec b)) |}
  | _, _ => None
  end.

Definition impl_config (i : StartupCPUBoostImpl) : BoostConfig := {|
  bc_selector := b_selector i; bc_durationPolicies := b_durationPolicies i;
  bc_resourcePolicies := b_resourcePolicies i |}.

(** The registry holds the configurations of the boosts in [C]. *)
Definition represents `{AnnotationJSON} `{!PatchLib} `{MetricVecLib} `{!PodClient}
    (legacy : bool) (m : managerImpl) (C : Store) : Prop :=
  ∀ n ns,
    match C !! (n, ns), GetRegularCPUBoost n ns m with
    | Some obj, Some b =>
        config_of obj = Some (impl_config (s_boosts (m_go m) b)) ∧
        b_legacyRevertMode (s_boosts (m_go m) b) = legacy
    | None, None => True
    | _, _ => False
    end.
End specification.

(** ** Lemmas *)

Section lemmas.
Context `{QuantityLib} `{SelectorLib} `{AnnotationJSON} `{!PatchLib} `{MetricVecLib} `{!PodClient}.
Context `{!PodClientBasics}.
Context (legacy : bool).
Implicit Types (m : managerImpl) (C : gmap (string * string) v1alpha1.StartupCPUBoost) (l : Loop).

(** Validation guarantees a configuration. *)
Lemma accepted_config b :
  accepted b → ∃ sel rp, LabelSelectorAsSelector (v1alpha1.b_Selector b) = inr sel ∧
    mapResourcePolicy (v1alpha1.spec_ResourcePolicy (v1alpha1.b_Spec b)) = inr rp.
Proof.
  intros [[[_ Hone] _]%validate_valid (sel & Hsel)].
  destruct (proj2 (mapResourcePolicy_ok _) Hone) as (rp & Hrp). by exists sel, rp.
Qed.

Lemma config_of_eq b sel rp :
  LabelSelectorAsSelector (v1alpha1.b_Selector b) = inr sel →
  mapResourcePolicy (v1alpha1.spec_ResourcePolicy (v1alpha1.b_Spec b)) = inr rp →
  config_of b = Some (impl_config (built_boost legacy b sel rp)).
Proof. intros Hsel Hrp. unfold config_of. by rewrite Hsel, Hrp. Qed.

Lemma config_fixed b cfg :
  config_of b = Some cfg → v1alpha1.dp_Fixed (v1alpha1.spec_DurationPolicy (v1alpha1.b_Spec b)) ≠ None →
  is_Some (bc_durationPolicies cfg !! duration.FixedDurationPolicyName).
Proof.
  unfold config_of. destruct (LabelSelectorAsSelector _); [done|]. destruct (mapResourcePolicy _); [done|].
  intros [= <-] Hfix. cbn. unfold mapDurationPolicy. destruct (v1alpha1.dp_Fixed _); [|done].
  destruct (v1alpha1.dp_PodCondition _); [rewrite lookup_insert_ne by done|]; by rewrite lookup_insert_eq.
Qed.

Lemma represents_frame m m' C :
  m_regularBoosts m' = m_regularBoosts m →
  (∀ n ns b, GetRegularCPUBoost n ns m = Some b →
     same_identity (s_boosts (m_go m) b) (s_boosts (m_go m') b)) →
  represents legacy m C → represents legacy m' C.
Proof.
  intros Hreg Hid Hrep n ns. specialize (Hrep n ns). unfold GetRegularCPUBoost in *. rewrite Hreg.
  destruct (C !! (n, ns)), (Get n ns (m_regularBoosts m)) as [b|] eqn:Hb; try done.
  destruct (Hid n ns b Hb) as (_ & _ & Hs & Hd & Hr & Hl). unfold impl_config.
  by rewrite Hs, Hd, Hr, Hl.
Qed.

Lemma represents_keeps b m m' C :
  m_regularBoosts m' = m_regularBoosts m → keeps b (m_go m) (m_go m') →
  represents legacy m C → represents legacy m' C.
Proof. intros Hreg Hk. apply represents_frame; [done|]. intros ? ? ? _. by eapply keeps_identity_all. Qed.

Lemma represents_adopts b m m' C :
  adopts b m m' → represents legacy m C → represents legacy m' C.
Proof.
  intros Ha. eapply represents_keeps; [exact (sr_regular _ _ (adopts_registry _ _ _ Ha))|by apply adopts_keeps].
Qed.

(** A boost is registered behind a new pointer. *)
Lemma represents_insert b i obj m m1 C :
  mgr_inv m → represents legacy m C →
  config_of obj = Some (impl_config i) → b_legacyRevertMode i = legacy →
  (b_name i, b_namespace i) = object_key obj → (s_nextBoost (m_go m) ≤ b)%nat →
  s_boosts (m_go m1) b = i → (∀ b', b' ≠ b → s_boosts (m_go m1) b' = s_boosts (m_go m) b') →
  m_regularBoosts m1 = Put (b_name i) (b_namespace i) b (m_regularBoosts m) →
  represents legacy m1 (<[object_key obj := obj]> C).
Proof.
  intros Hinv Hrep Hcfg Hleg Hkey Hb Hi Hother Hreg n ns. unfold GetRegularCPUBoost.
  rewrite Hreg, Get_Put. rewrite <-Hkey. case_decide as Hd.
  - destruct Hd as [<- <-]. rewrite lookup_insert_eq. by rewrite Hi.
  - rewrite lookup_insert_ne by naive_solver. specialize (Hrep n ns). unfold GetRegularCPUBoost in Hrep.
    destruct (C !! (n, ns)), (Get n ns (m_regularBoosts m)) as [b'|] eqn:Hb'; try done.
    destruct (inv_key _ _ Hinv _ _ _ Hb') as (_ & _ & Hlt). by rewrite Hother by lia.
Qed.

(** A registered boost takes over the configuration of the object. *)
Lemma represents_update b obj sel rp m C :
  mgr_inv m → represents legacy m C →
  GetRegularCPUBoost (object_key obj).1 (object_key obj).2 m = Some b →
  LabelSelectorAsSelector (v1alpha1.b_Selector obj) = inr sel →
  mapResourcePolicy (v1alpha1.spec_ResourcePolicy (v1alpha1.b_Spec obj)) = inr rp →
  represents legacy (m_set_go (updated b obj sel rp (m_go m)) m) (<[object_key obj := obj]> C).
Proof.
  intros Hinv Hrep Hb Hsel Hrp n ns. unfold GetRegularCPUBoost in *. cbn [m_regularBoosts m_set_go m_go].
  unfold updated. pose proof (Hrep n ns) as Hn. unfold GetRegularCPUBoost in Hn.
  destruct (decide (object_key obj = (n, ns))) as [Hk|Hk].
  - rewrite Hk in *. cbn [fst snd] in Hb. rewrite lookup_insert_eq. rewrite Hb in *.
    rewrite s_boosts_set_boost_eq. destruct (C !! (n, ns)); [|done]. destruct Hn as [_ Hl].
    split; [|done]. unfold config_of. by rewrite Hsel, Hrp.
  - rewrite lookup_insert_ne by done.
    destruct (C !! (n, ns)), (Get n ns (m_regularBoosts m)) as [b'|] eqn:Hb'; try done.
    rewrite s_boosts_set_boost. destruct (decide (b = b')) as [->|]; [|done].
    destruct Hk. rewrite (surjective_pairing (object_key obj)).
    destruct (inv_key _ _ Hinv _ _ _ Hb) as (Hn1 & Hns1 & _).
    destruct (inv_key _ _ Hinv _ _ _ Hb') as (Hn2 & Hns2 & _). congruence.
Qed.

(** ** What an event does *)

Lemma Reconciler_Create_settings rt rt' obj : keeps_settings (Reconciler_Create legacy rt rt' obj).
Proof. pose proof AddRegularCPUBoost_settings. unfold Reconciler_Create. auto 10 with settings. Qed.

Lemma Reconciler_Update_settings rt rt' obj : keeps_settings (Reconciler_Update rt rt' obj).
Proof. pose proof UpdateRegularCPUBoost_settings. unfold Reconciler_Update. auto 10 with settings. Qed.

Lemma Reconciler_Delete_settings obj : keeps_settings (Reconciler_Delete obj).
Proof. pose proof DeleteRegularCPUBoost_settings. unfold Reconciler_Delete. auto 10 with settings. Qed.

(** What an event does to the gauge of registered boosts. *)
Definition event_gauge (v : Vec) (e : WatchEvent) : Vec :=
  match e with
  | CreateEvent (BoostObject b) => vec_inc [(object_key b).2] v
  | DeleteEvent (BoostObject b) => vec_dec [(object_key b).2] v
  | _ => v
  end.

Definition gauge_vec m : Vec := boostConfigurations (s_metrics (m_go m)).

(** A manager call on behalf of an event, with its effect on the registry
    and on the gauge. *)
Definition event_effect m m' C' (v : Vec) : Prop :=
  mgr_inv m' ∧ (m' = m ∨ mgr_step m m') ∧ settings m' = settings m ∧ represents legacy m' C' ∧
  gauge_vec m' = v.

Lemma event_effect_refl m C : mgr_inv m → represents legacy m C → event_effect m m C (gauge_vec m).
Proof. intros Hinv Hrep. split_and!; auto. Qed.

Lemma create_effect rt rt' obj m C :
  mgr_inv m → represents legacy m C → C !! object_key obj = None → accepted obj →
  ∃ m', Reconciler_Create legacy rt rt' (BoostObject obj) m = Done (true, m') ∧
    event_effect m m' (<[object_key obj := obj]> C) (vec_inc [(object_key obj).2] (gauge_vec m)).
Proof.
  intros Hinv Hrep Hfree (sel & rp & Hsel & Hrp)%accepted_config.
  destruct (Reconciler_Create_spec legacy rt rt' obj sel rp m Hinv Hsel Hrp) as (m' & Hc & Hi & Hst & Hm).
  exists m'. split; [done|]. pose proof (Hrep (object_key obj).1 (object_key obj).2) as Hkey.
  rewrite <-surjective_pairing, Hfree in Hkey. cbn in Hkey, Hm.
  destruct (GetRegularCPUBoost _ _ m); [done|].
  split_and!; [done|by right|..].
  - by eapply Reconciler_Create_settings.
  - eapply represents_adopts; [done|].
    eapply (represents_insert (s_nextBoost (m_go m)) (built_boost legacy obj sel rp) obj m);
      [done|done|by apply config_of_eq|done|done|done|..].
    + apply fn_lookup_insert.
    + intros b' Hb'. by apply fn_lookup_insert_ne.
    + cbn. rewrite fn_lookup_insert. done.
  - unfold gauge_vec. rewrite (keeps_gauge _ _ _ (adopts_keeps _ _ _ Hm)). cbn.
    by rewrite fn_lookup_insert.
Qed.

Lemma update_effect rt rt' obj m C :
  mgr_inv m → represents legacy m C → is_Some (C !! object_key obj) → accepted obj →
  ∃ m', Reconciler_Update rt rt' (BoostObject obj) m = Done (true, m') ∧
    event_effect m m' (<[object_key obj := obj]> C) (gauge_vec m).
Proof.
  intros Hinv Hrep [old Hold] (sel & rp & Hsel & Hrp)%accepted_config.
  destruct (UpdateRegularCPUBoost_spec rt rt' obj m Hinv) as (err & m' & Hu & Hi & Hreg & Hga & _ & Hup).
  assert (Reconciler_Update rt rt' (BoostObject obj) m = Done (true, m')) as Hr
    by (unfold Reconciler_Update; by rewrite (bind_Done _ _ _ _ _ Hu)).
  exists m'. split; [done|]. split_and!; [done|right; by eapply step_update|by eapply Reconciler_Update_settings|..|done].
  pose proof (Hrep (object_key obj).1 (object_key obj).2) as Hkey. rewrite <-surjective_pairing, Hold in Hkey.
  destruct (GetRegularCPUBoost _ _ m) as [b|] eqn:Hb; [|done].
  eapply represents_adopts; [by apply (Hup b sel rp)|].
  pose proof (represents_update b obj sel rp m C Hinv Hrep Hb Hsel Hrp) as Hrep'. exact Hrep'.
Qed.

Lemma delete_effect obj m C :
  mgr_inv m → represents legacy m C →
  ∃ m', Reconciler_Delete (BoostObject obj) m = Done (true, m') ∧
    event_effect m m' (delete (object_key obj) C) (vec_dec [(object_key obj).2] (gauge_vec m)).
Proof.
  intros Hinv Hrep.
  destruct (DeleteRegularCPUBoost_spec (object_key obj).2 (object_key obj).1 m)
    as (m' & Hd & Hreg & _ & _ & Hgo & Hi). cbn [object_key fst snd] in Hd.
  assert (Reconciler_Delete (BoostObject obj) m = Done (true, m')) as Hr
    by (unfold Reconciler_Delete; by rewrite (bind_Done _ _ _ _ _ Hd)).
  exists m'. split; [done|]. split_and!; [auto|right; by eapply step_delete|by eapply Reconciler_Delete_settings|..
    |unfold gauge_vec; by rewrite Hgo].
  intros n ns. specialize (Hrep n ns). unfold GetRegularCPUBoost in *. rewrite Hreg, Hgo, Get_Delete.
  case_decide as Hk.
  - destruct Hk as [<- <-]. rewrite <-surjective_pairing, lookup_delete_eq. done.
  - rewrite lookup_delete_ne by (destruct (object_key obj); naive_solver). exact Hrep.
Qed.

(** The filter lets every event pass and does its work for boosts. *)
Lemma event_filter_effect rt rt' e m C :
  mgr_inv m → represents legacy m C → event_ok C e →
  ∃ m', event_filter legacy rt rt' e m = Done (true, m') ∧ event_effect m m' (store_after C e) (event_gauge (gauge_vec m) e) ∧
    match event_object e with BoostObject _ => True | _ => m' = m end.
Proof.
  intros Hinv Hrep Hok.
  destruct e as [[b|p|]|old [b|p|]|[b|p|]|[b|p|]]; cbn in Hok |- *;
    try (exists m; split_and!; [done|by apply event_effect_refl|done]).
  - destruct Hok. destruct (create_effect rt rt' b m C) as (m' & Hc & He); eauto.
  - destruct Hok. destruct (update_effect rt rt' b m C) as (m' & Hc & He); eauto.
  - destruct (delete_effect b m C) as (m' & Hc & He); eauto.
Qed.

(** The boost that a call found for a pod. *)
Definition found (boost : option BoostRef) m : Prop :=
  ∀ b, boost = Some b → ∃ n ns, GetRegularCPUBoost n ns m = Some b.

Lemma upsert_effect rt p m C :
  mgr_inv m → represents legacy m C → (p < s_nextPod (m_go m))%nat →
  ∃ r m', Manager_UpsertPod rt p m = Done (r, m') ∧ event_effect m m' C (gauge_vec m) ∧ found r.1 m'.
Proof.
  intros Hinv Hrep Hp. destruct (Manager_UpsertPod_spec rt p m Hinv Hp) as (r & m' & Hu & Hi & Hreg & Hc).
  exists r, m'. split; [done|]. assert (mgr_step m m') as Hst by by eapply step_upsert.
  assert (settings m' = settings m) as Hset by by eapply UpsertPod_settings.
  destruct (getMatchingBoost _ _ m) as [b|] eqn:Hb.
  - destruct Hc as (Hr & Hk & _). split; [split_and!; auto; [by eapply represents_keeps|apply (keeps_gauge _ _ _ Hk)]|].
    rewrite Hr. intros b' [= <-]. apply getMatchingBoost_Some in Hb as [(n & Hn) _].
    exists n, (pod_Namespace (s_pods (m_go m) p)). unfold GetRegularCPUBoost. by rewrite Hreg.
  - destruct Hc as (Hr & Hgo & _). split; [|by destruct r; simplify_eq/=].
    split_and!; auto; [by apply (represents_keeps 0%nat m); [..|rewrite Hgo|]|]. unfold gauge_vec. by rewrite Hgo.
Qed.

Lemma delete_pod_effect rt p m C :
  mgr_inv m → represents legacy m C →
  ∃ r m', Manager_DeletePod rt p m = Done (r, m') ∧ event_effect m m' C (gauge_vec m) ∧ found r.1 m'.
Proof.
  intros Hinv Hrep. destruct (Manager_DeletePod_spec rt p m Hinv) as (r & m' & Hu & Hi & Hreg & _ & Hc).
  exists r, m'. split; [done|]. assert (mgr_step m m') as Hst by by eapply step_delete_pod.
  assert (settings m' = settings m) as Hset by by eapply DeletePod_settings.
  destruct (getMatchingBoost _ _ m) as [b|] eqn:Hb.
  - destruct Hc as (Hr & Hk & _). split; [split_and!; auto; [by eapply represents_keeps|apply (keeps_gauge _ _ _ Hk)]|].
    rewrite Hr. intros b' [= <-]. apply getMatchingBoost_Some in Hb as [(n & Hn) _].
    exists n, (pod_Namespace (s_pods (m_go m) p)). unfold GetRegularCPUBoost. by rewrite Hreg.
  - destruct Hc as (Hr & Hgo & _). split; [|by destruct r; simplify_eq/=].
    split_and!; auto; [by apply (represents_keeps 0%nat m); [..|rewrite Hgo|]|]. unfold gauge_vec. by rewrite Hgo.
Qed.

(** The requests name registered boosts. *)
Definition requested m (reqs : list ReconcileRequest) : Prop :=
  Forall (λ r, is_Some (GetRegularCPUBoost r.1 r.2 m)) reqs.

(** The end of a handler asks for the boost that was found. *)
Lemma requests_return (boost : option BoostRef) (err : option error) m :
  mgr_inv m → found boost m →
  ∃ reqs, match err with Some _ => ret [] | None => enqueue boost end m = Done (reqs, m) ∧ requested m reqs.
Proof.
  intros Hinv Hb. destruct err; [eexists; split; [reflexivity|apply Forall_nil_2]|].
  destruct boost as [b|]; [|eexists; split; [reflexivity|apply Forall_nil_2]].
  destruct (Hb b eq_refl) as (n & ns & Hn). exists [(n, ns)].
  split; [by apply enqueue_registered|]. apply Forall_singleton. by exists b.
Qed.

Lemma pod_handler_effect rt e p m C :
  mgr_inv m → represents legacy m C → event_object e = PodObject p → (p < s_nextPod (m_go m))%nat →
  ∃ reqs m', pod_handler rt e m = Done (reqs, m') ∧ event_effect m m' C (gauge_vec m) ∧ requested m' reqs.
Proof.
  intros Hinv Hrep He Hp.
  assert (∃ reqs m', ret (A := list ReconcileRequest) [] m = Done (reqs, m') ∧
    event_effect m m' C (gauge_vec m) ∧ requested m' reqs) as Hnone.
  { eexists [], m. split_and!; [reflexivity|by apply event_effect_refl|apply Forall_nil_2]. }
  destruct (upsert_effect rt p m C Hinv Hrep Hp) as ([boost err] & m1 & Hu & Heff & Hf).
  destruct (requests_return boost err m1 (proj1 Heff) Hf) as (reqs & Hreqs & Hreg).
  destruct e as [obj|old obj|obj|obj]; cbn in He; subst obj; cbn [pod_handler].
  - exists reqs, m1. unfold PodHandler_Create. rewrite (bind_Done _ _ _ _ _ Hu). by split.
  - destruct old as [b|q|]; cbn [PodHandler_Update];
      try exact Hnone.
    rewrite bind_gets. case_bool_decide; [exact Hnone|].
    exists reqs, m1. rewrite (bind_Done _ _ _ _ _ Hu). by split.
  - destruct (delete_pod_effect rt p m C Hinv Hrep) as ([boost' err'] & m2 & Hd & Heff2 & Hf2).
    destruct (requests_return boost' err' m2 (proj1 Heff2) Hf2) as (reqs2 & Hreqs2 & Hreg2).
    exists reqs2, m2. unfold PodHandler_Delete. rewrite (bind_Done _ _ _ _ _ Hd). by split.
  - exact Hnone.
Qed.

(** Every event is handled. *)
Lemma dispatch_effect rt rt' e m C :
  mgr_inv m → represents legacy m C → event_ok C e → event_allocated m e →
  ∃ reqs m', dispatch legacy rt rt' e m = Done (reqs, m') ∧ event_effect m m' (store_after C e) (event_gauge (gauge_vec m) e) ∧
    match event_object e with
    | BoostObject b => reqs = [object_key b]
    | _ => requested m' reqs
    end.
Proof.
  intros Hinv Hrep Hok Hal. unfold dispatch.
  destruct (event_filter_effect rt rt' e m C Hinv Hrep Hok) as (m1 & Hf & Heff & Hobj).
  rewrite (bind_Done _ _ _ _ _ Hf). cbn [negb]. unfold event_allocated in Hal.
  destruct (event_object e) as [b|p|] eqn:He.
  - by eexists _, m1.
  - subst m1. rewrite bind_gets. destruct (GetPodLabelSelector_matches _); cbn [negb];
      [|eexists _, m; split; [reflexivity|]; split; [done|apply Forall_nil_2]].
    assert (store_after C e = C ∧ event_gauge (gauge_vec m) e = gauge_vec m) as [-> ->]
      by (destruct e as [[]|? []|[]|[]]; done).
    by eapply pod_handler_effect.
  - eexists _, m1. split; [reflexivity|]. split; [done|apply Forall_nil_2].
Qed.

(** ** Runs *)

Record op_inv l C (v : Vec) : Prop := {
  oi_loop : loop_inv l;
  oi_registry : represents legacy (lp_m l) C;
  oi_gauge : gauge_vec (lp_m l) = v
}.

(** The loop reverts pods, which no registration depends on. *)
Lemma start_step_registry l l' C :
  loop_inv l → start_step l l' → represents legacy (lp_m l) C →
  represents legacy (lp_m l') C ∧ gauge_vec (lp_m l') = gauge_vec (lp_m l).
Proof.
  intros Hl Hs Hrep.
  destruct Hs as [l Hph|l σ τ Hph Ht|l c a c' Hph Hf|l c ρ Hph Hfin|l Hph Hcan]; try by split.
  pose proof (li_check _ Hl) as Hc. rewrite Hph in Hc. destruct Hc as [Hc _]. rewrite (li_max _ Hl) in Hf. cbn.
  destruct (fire_reverts _ a c c' (lp_m l) Hf) as [->|(σ & b & p & err & Hr)]; [done|].
  destruct (revertResources_keeps σ b p (m_go (lp_m l))) as (e & s & Hr' & Hk).
  unfold RevertResources in Hr. rewrite Hr in Hr'. injection Hr' as <- <-.
  split; [by apply (represents_keeps b (lp_m l))|apply (keeps_gauge _ _ _ Hk)].
Qed.

Lemma op_step_inv l es l' C v :
  op_inv l C v → op_step legacy l es l' → (∀ e, es = [e] → event_ok C e) →
  op_inv l' (foldl store_after C es) (foldl event_gauge v es).
Proof.
  intros [Hl Hrep <-] Hstep Hok. pose proof (li_mgr _ Hl) as Hinv.
  destruct Hstep as [l rt rt' e reqs m Hal Hd|l l' Hs|l pod|l w|l l' Hs Hm].
  - destruct (dispatch_effect rt rt' e (lp_m l) C Hinv Hrep (Hok e eq_refl) Hal)
      as (reqs' & m' & Hd' & (_ & Hst & Hset & Hrep' & Hga) & _).
    rewrite Hd in Hd'. injection Hd' as <- <-. split; [|done|done].
    destruct Hst as [->|Hst]; [by destruct l|]. eapply loop_step_inv; [exact Hl|right; apply env_call; [done|]].
    unfold settings in Hset. congruence.
  - destruct (start_step_registry l l' C Hl Hs Hrep). split; [by eapply loop_step_inv; [|left]|done..].
  - split; [eapply loop_step_inv; [exact Hl|right; apply env_call; [apply step_new_pod|done]]| |done].
    apply (represents_keeps 0%nat (lp_m l)); [done|apply alloc_keeps|done].
  - split; [eapply loop_step_inv; [exact Hl|right; apply env_call; [apply step_world|done]]|done..].
  - split; [by eapply loop_step_inv; [|right]|cbn; by rewrite Hm..].
Qed.

Lemma op_run_inv client s es l :
  s_nextBoost s = 0%nat → op_run legacy (loop_start client s) es l → stream_ok es →
  op_inv l (store_of es) (foldl event_gauge (boostConfigurations (s_metrics s)) es).
Proof.
  intros Hs Hrun. induction Hrun as [|es es' l l' _ IH Hstep]; intros Hok.
  - split; [by apply loop_start_inv| |done]. intros n ns. unfold GetRegularCPUBoost. cbn.
    by rewrite lookup_empty, Get_new.
  - unfold store_of. rewrite !foldl_app. eapply op_step_inv; [apply IH|done|].
    + intros es1 e es2 ->. apply (Hok es1 e (es2 ++ es')). by rewrite <-app_assoc.
    + intros e ->. by apply (Hok es e []).
Qed.
End lemmas.

Lemma stream_ok_nil `{QuantityLib} `{SelectorLib} : stream_ok [].
Proof. by intros [|? ?] e es2. Qed.

Lemma stream_ok_snoc `{QuantityLib} `{SelectorLib} es e :
  stream_ok es → event_ok (store_of es) e → stream_ok (es ++ [e]).
Proof.
  intros Hes He es1 e' es2 Heq. destruct es2 as [|x es2 _] using rev_ind.
  - by apply app_inj_tail in Heq as [-> ->].
  - rewrite app_comm_cons, app_assoc in Heq. apply app_inj_tail in Heq as [-> _]. by apply (Hes es1 e' es2).
Qed.

(** The objects of the store were accepted and have their own keys. *)
Lemma store_of_accepted `{QuantityLib} `{SelectorLib} es k obj :
  stream_ok es → store_of es !! k = Some obj → accepted obj ∧ object_key obj = k.
Proof.
  induction es as [|e es IH] using rev_ind; intros Hok; [done|].
  assert (stream_ok es) as Hes.
  { intros es1 e' es2 ->. apply (Hok es1 e' (es2 ++ [e])). by rewrite <-app_assoc. }
  specialize (IH Hes). pose proof (Hok es e [] eq_refl) as He.
  unfold store_of in *. rewrite foldl_app. cbn [foldl].
  destruct e as [[b|p|]|old [b|p|]|[b|p|]|[b|p|]]; try exact IH; cbn in He |- *.
  - intros [[<- <-]|[_ Hk]]%lookup_insert_Some; [tauto|auto].
  - intros [[<- <-]|[_ Hk]]%lookup_insert_Some; [tauto|auto].
  - intros [_ Hk]%lookup_delete_Some. auto.
Qed.

(** The names of the boosts of a namespace. *)
Definition names_in `{QuantityLib} `{SelectorLib} (C : gmap (string * string) v1alpha1.StartupCPUBoost)
    (ns : string) : gset string :=
  set_map fst (filter (λ k : string * string, k.2 = ns) (dom C)).

(** Deleted objects existed. *)
Definition deletes_ok `{QuantityLib} `{SelectorLib} (es : list WatchEvent) : Prop :=
  ∀ es1 b es2, es = es1 ++ DeleteEvent (BoostObject b) :: es2 → is_Some (store_of es1 !! object_key b).

Section counting.
Context `{QuantityLib} `{SelectorLib} `{MetricVecLaws}.
Implicit Types C : gmap (string * string) v1alpha1.StartupCPUBoost.

Lemma elem_of_names_in C ns n : n ∈ names_in C ns ↔ is_Some (C !! (n, ns)).
Proof.
  unfold names_in. rewrite elem_of_map. setoid_rewrite elem_of_filter. setoid_rewrite elem_of_dom. split.
  - by intros ([n' ns'] & -> & <- & Hk).
  - intros Hk. by exists (n, ns).
Qed.

Lemma names_in_insert C n ns0 b ns :
  names_in (<[(n, ns0) := b]> C) ns = if decide (ns0 = ns) then {[n]} ∪ names_in C ns else names_in C ns.
Proof.
  apply set_eq. intros n'. rewrite elem_of_names_in, lookup_insert_is_Some.
  case_decide as Hd; rewrite ?elem_of_union, ?elem_of_singleton, elem_of_names_in.
  - subst. destruct (decide (n = n')); naive_solver.
  - naive_solver.
Qed.

Lemma names_in_delete C n ns0 ns :
  names_in (delete (n, ns0) C) ns = if decide (ns0 = ns) then names_in C ns ∖ {[n]} else names_in C ns.
Proof.
  apply set_eq. intros n'. rewrite elem_of_names_in, lookup_delete_is_Some.
  case_decide as Hd; rewrite ?elem_of_difference, ?elem_of_singleton, elem_of_names_in; naive_solver.
Qed.

Lemma gauge_counts v es ns :
  (∀ l, gaugeVecValue v l = 0) → stream_ok es → deletes_ok es →
  gaugeVecValue (foldl event_gauge v es) [ns] = Z.of_nat (size (names_in (store_of es) ns)).
Proof.
  intros Hv. induction es as [|e es IH] using rev_ind; intros Hok Hdel.
  { cbn [foldl]. rewrite Hv. assert (names_in (store_of []) ns = ∅) as ->; [|done].
    apply set_eq. intros n. rewrite elem_of_names_in. split; [by intros [? ?]|set_solver]. }
  assert (stream_ok es) as Hes.
  { intros es1 e' es2 ->. apply (Hok es1 e' (es2 ++ [e])). by rewrite <-app_assoc. }
  assert (deletes_ok es) as Hdes.
  { intros es1 b es2 ->. apply (Hdel es1 b (es2 ++ [e])). by rewrite <-app_assoc. }
  specialize (IH Hes Hdes). pose proof (Hok es e [] eq_refl) as He.
  unfold store_of in *. rewrite !foldl_app. cbn [foldl].
  destruct e as [[b|p|]|old [b|p|]|[b|p|]|[b|p|]]; try exact IH; cbn in He |- *.
  - destruct He as [Hnone _]. rewrite vec_inc_value, IH. unfold object_key in *. rewrite names_in_insert.
    repeat case_decide; simplify_eq; [|lia]. rewrite size_union, size_singleton; [lia|].
    rewrite disjoint_singleton_l, elem_of_names_in. intros [? Hk]. congruence.
  - destruct He as [Hsome _]. rewrite IH. unfold object_key in *. rewrite names_in_insert.
    case_decide; subst; [|done]. do 2 f_equal. apply set_eq. intros n. rewrite elem_of_union, elem_of_singleton.
    rewrite elem_of_names_in. naive_solver.
  - specialize (Hdel es b [] eq_refl). unfold store_of in Hdel. rewrite vec_dec_value, IH.
    unfold object_key in *. rewrite names_in_delete. repeat case_decide; simplify_eq; [|lia].
    assert ({[v1alpha1.om_Name (v1alpha1.b_Meta b)]} ⊆
      names_in (foldl store_after ∅ es) (v1alpha1.om_Namespace (v1alpha1.b_Meta b))) as Hsub
      by (apply singleton_subseteq_l, elem_of_names_in; done).
    rewrite size_difference by done. apply subseteq_size in Hsub. rewrite size_singleton in *. lia.
Qed.
End counting.

(** ** Properties *)

Section properties.
Context `{QuantityLib} `{SelectorLib} `{AnnotationJSON} `{!PatchLib} `{MetricVecLib} `{!PodClient}.
Context `{!PodClientBasics}.

(** C9: the registry refines the boosts of the API server.  Let any events
    be delivered, interleaved with the loop of the manager and its checks,
    where the events of boosts are those of an informer and the objects were
    admitted with a well-formed selector.  Then a boost is registered exactly
    under the keys of the objects that exist, with the selector and the
    policies of the latest version and the revert mode of the controller;
    the webhook gets, for a pod, a boost of the pod's namespace whose latest
    selector matches the pod, and none only if there is no such object; and
    the next check validates every object with a fixed duration. *)
Theorem registry_follows_cluster legacy client s es l :
  s_nextBoost s = 0%nat → op_run legacy (loop_start client s) es l → stream_ok es →
  let m := lp_m l in
  let C := store_of es in
  represents legacy m C ∧
  (∀ σ pod,
     match @GetCPUBoostForPod _ _ (manager_boosts σ m) pod with
     | Some i => ∃ n obj, C !! (n, pod_Namespace pod) = Some obj ∧ b_name i = n ∧
         config_of obj = Some (impl_config i) ∧ SelMatches (b_selector i) (pod_Labels pod) = true
     | None => ∀ n obj c, C !! (n, pod_Namespace pod) = Some obj → config_of obj = Some c →
         SelMatches (bc_selector c) (pod_Labels pod) = false
     end) ∧
  (∀ n ns obj σ τ, C !! (n, ns) = Some obj →
     v1alpha1.dp_Fixed (v1alpha1.spec_DurationPolicy (v1alpha1.b_Spec obj)) ≠ None →
     ∃ b, GetRegularCPUBoost n ns m = Some b ∧
       b ∈ pr_boosts (t_producer (validateTimePolicyBoosts_start σ τ m))).
Proof.
  intros Hs Hrun Hok m C. destruct (op_run_inv legacy client s es l Hs Hrun Hok) as [Hl Hrep _].
  pose proof (li_mgr _ Hl) as Hinv. fold m in Hrep, Hinv. fold C in Hrep.
  split_and!; [done|..].
  - intros σ pod. cbn. unfold GetCPUBoostForPod_ref. destruct (getMatchingBoost σ pod m) as [b|] eqn:Hb; cbn.
    + apply getMatchingBoost_Some in Hb as [(n & Hn) Hm]. exists n. specialize (Hrep n (pod_Namespace pod)).
      unfold GetRegularCPUBoost in Hrep. rewrite Hn in Hrep. destruct (C !! _) as [obj|]; [|done].
      exists obj. destruct Hrep as [Hc _]. destruct (inv_key _ _ Hinv _ _ _ Hn) as (Hname & _ & _). done.
    + intros n obj c Hobj Hc. specialize (Hrep n (pod_Namespace pod)). rewrite Hobj in Hrep.
      destruct (GetRegularCPUBoost _ _ m) as [b|] eqn:Hg; [|done]. destruct Hrep as [Hcfg _].
      rewrite Hc in Hcfg. injection Hcfg as ->. exact (proj1 (getMatchingBoost_None σ pod m) Hb n b Hg).
  - intros n ns obj σ τ Hobj Hfix. specialize (Hrep n ns). rewrite Hobj in Hrep.
    destruct (GetRegularCPUBoost n ns m) as [b|] eqn:Hb; [|done]. exists b. split; [done|].
    apply elem_of_ListAll. exists n, ns. apply (inv_fixed _ _ Hinv); [done|done|].
    destruct Hrep as [Hc _]. exact (config_fixed obj _ Hc Hfix).
Qed.

(** C25: the boosts of the registry are well formed, at any time in such a
    run: each has exactly one duration policy, filed under the policy's own
    name; each resource policy comes from the last entry of the spec for its
    container, which sets exactly one kind of policy; and the tracked pods
    are filed under their own names. *)
Theorem registered_boosts_well_formed legacy client s es l n ns b :
  s_nextBoost s = 0%nat → op_run legacy (loop_start client s) es l → stream_ok es →
  GetRegularCPUBoost n ns (lp_m l) = Some b →
  let st := m_go (lp_m l) in
  let i := s_boosts st b in
  b_name i = n ∧ b_namespace i = ns ∧
  (∃ policy, b_durationPolicies i = {[duration.Name policy := policy]}) ∧
  (∃ obj, store_of es !! (n, ns) = Some obj ∧
     ∀ c policy, b_resourcePolicies i !! c = Some policy →
       ∃ entry, entry_policy entry = (Some policy, 1%nat) ∧
         last (filter (λ e, v1alpha1.cp_ContainerName e = c)
           (v1alpha1.rp_ContainerPolicies (v1alpha1.spec_ResourcePolicy (v1alpha1.b_Spec obj)))) = Some entry) ∧
  (∀ name p, b_pods i !! name = Some p → pod_Name (s_pods st p) = name).
Proof.
  intros Hs Hrun Hok Hb st i. destruct (op_run_inv legacy client s es l Hs Hrun Hok) as [Hl Hrep _].
  pose proof (li_mgr _ Hl) as Hinv. destruct (inv_key _ _ Hinv _ _ _ Hb) as (Hn & Hns & Hlt).
  specialize (Hrep n ns). rewrite Hb in Hrep. destruct (store_of es !! (n, ns)) as [obj|] eqn:Hobj; [|done].
  destruct Hrep as [Hc _]. destruct (store_of_accepted es (n, ns) obj Hok Hobj) as [Hacc _].
  destruct (accepted_config obj Hacc) as (sel & rp & Hsel & Hrp).
  rewrite (config_of_eq legacy obj sel rp Hsel Hrp) in Hc. injection Hc as _ Hd Hr. cbn in Hd, Hr.
  destruct Hacc as [[[_ Hone] Hdur]%validate_valid _].
  split_and!; [done|done|..].
  - unfold i, st. rewrite <-Hd. unfold mapDurationPolicy, valid_duration in *.
    destruct (v1alpha1.dp_Fixed _) as [f|], (v1alpha1.dp_PodCondition _) as [c|]; try (exfalso; naive_solver).
    + by exists (duration.PolicyFixed (duration.NewFixedDurationPolicy (duration.fixedPolicyToDuration f))).
    + by exists (duration.PolicyPodCondition
        (duration.NewPodConditionPolicy (v1alpha1.pcdp_Type c) (v1alpha1.pcdp_Status c))).
  - exists obj. split; [done|]. intros c policy. unfold i, st. rewrite <-Hr. intros Hpol.
    unfold mapResourcePolicy in Hrp. destruct (mapResourcePolicy_loop _ _ _) as [m' errs] eqn:E.
    apply (mapResourcePolicy_loop_last _ _ _ _ _ c Hone) in E.
    destruct (errors_Join errs); [done|]. injection Hrp as ->. rewrite E, lookup_empty in Hpol.
    destruct (last _) as [entry|] eqn:Hlast; [|done]. exists entry. split; [|done].
    apply last_Some_elem_of, list_elem_of_filter in Hlast as [_ Hin].
    apply (proj1 (Forall_forall _ _) Hone), entry_policy_one in Hin as (pol & Hentry).
    rewrite Hentry in Hpol |- *. by simplify_eq/=.
  - intros name p Hp. by apply (inv_tracked _ _ Hinv b Hlt name p) in Hp as [? _].
Qed.

(** C15: the operator does not crash on objects that the validating webhook
    admits and whose label selector converts; the webhook does not check the
    selector, and an admitted object whose selector does not convert does
    crash it (BoostController).  At any time in a run
    whose events are about such objects, every next such event is handled
    without a panic, and what it adds to the work queue is the key of the
    event's boost or, for a pod, the keys of existing boosts; and no
    goroutine of a check panics. *)
Theorem operator_never_panics legacy client s es l rt rt' e :
  s_nextBoost s = 0%nat → op_run legacy (loop_start client s) es l → stream_ok es →
  let m := lp_m l in
  let C := store_of es in
  event_ok C e → event_allocated m e →
  (∃ reqs m', dispatch legacy rt rt' e m = Done (reqs, m') ∧
     match event_object e with
     | BoostObject b => reqs = [object_key b]
     | _ => ∀ r, r ∈ reqs → is_Some (C !! r)
     end) ∧
  (∀ c a msg, lp_phase l = Checking c →
     fire (m_maxGoroutines m) a (t_set_go (m_go m) c) ≠ Some (Panic msg)).
Proof.
  intros Hs Hrun Hst m C Hok Hal. destruct (op_run_inv legacy client s es l Hs Hrun Hst) as [Hl Hrep _].
  pose proof (li_mgr _ Hl) as Hinv. fold m in Hrep, Hinv. fold C in Hrep. split.
  - destruct (dispatch_effect legacy rt rt' e m C Hinv Hrep Hok Hal)
      as (reqs & m' & Hd & (_ & _ & _ & Hrep' & _) & Hreq).
    exists reqs, m'. split; [done|].
    assert (requested m' reqs → store_after C e = C → ∀ r, r ∈ reqs → is_Some (C !! r)) as Hin.
    { intros Hall Heq [n ns] [b Hb]%(proj1 (Forall_forall _ _) Hall). specialize (Hrep' n ns).
      rewrite Heq in Hrep'. cbn in Hb. rewrite Hb in Hrep'.
      destruct (C !! (n, ns)) as [obj|] eqn:Hobj; [by exists obj|done]. }
    destruct e as [[]|? []|[]|[]]; cbn in Hreq |- *; auto.
  - intros c a msg Hph Hf. pose proof (li_check _ Hl) as Hck. rewrite Hph in Hck. destruct Hck as [Hc _].
    unfold m in Hf. rewrite (li_max _ Hl) in Hf.
    destruct (fire_cases _ _ _ _ (set_go_control _ _ _ Hc) Hf) as (? & ? & _). done.
Qed.
End properties.

Section gauge_property.
Context `{QuantityLib} `{SelectorLib} `{AnnotationJSON} `{!PatchLib} `{MetricVecLaws} `{!PodClient}.
Context `{!PodClientBasics}.

(** C29: the metric tells the truth.  In a run that starts with the initial
    metrics and in which only existing objects are deleted, the gauge of
    registered configurations of a namespace is at any time the number of
    boosts that exist in it. *)
Theorem gauge_counts_boosts legacy client s es l ns :
  s_nextBoost s = 0%nat → s_metrics s = metrics_init →
  op_run legacy (loop_start client s) es l → stream_ok es → deletes_ok es →
  BoostConfigurations ns (s_metrics (m_go (lp_m l))) = Z.of_nat (size (names_in (store_of es) ns)).
Proof.
  intros Hs Hinit Hrun Hok Hdel. destruct (op_run_inv legacy client s es l Hs Hrun Hok) as [_ _ Hga].
  unfold BoostConfigurations. unfold gauge_vec in Hga. rewrite Hga, Hinit.
  apply gauge_counts; [|done|done]. intros lb. apply vec_new_value.
Qed.
End gauge_property.

(** ** Witnesses *)

Module witness.
#[local] Existing Instances ConcreteQuantity.lib ConcreteQuantity.laws ConcreteSelector.lib
  ConcreteJSON.json ConcreteVec.lib ConcreteVec.laws json_patches server server_basics.
Import Manager.witness.

(** A boost is created, then a pod. *)
Definition created : WatchEvent := CreateEvent (BoostObject (boost_spec "boost")).
Definition pod_created : WatchEvent := CreateEvent (PodObject 0%nat).

Definition k0 : managerImpl := NewManagerWithTicker true start.
Definition k1 : managerImpl := result_state (dispatch false rt rt created k0) k0.
Definition k2 : managerImpl := m_set_go (new_pod web_pod (m_go k1)) k1.
Definition l2 : Loop := lp_set_m k2 (lp_set_m k1 (loop_start true start)).

Lemma run_l2 : op_run false (loop_start true start) [created] l2.
Proof.
  apply (run_step false (loop_start true start) [created] [] (lp_set_m k1 (loop_start true start))).
  - apply (run_step false (loop_start true start) [] [created] (loop_start true start)); [apply run_start|].
    apply (op_watch false (loop_start true start) rt rt created [("boost", "demo")] k1); [exact I|].
    apply returns_result. vm_compute; reflexivity.
  - apply (op_pod false (lp_set_m k1 (loop_start true start)) web_pod).
Defined.

Lemma stream_l2 : stream_ok [created].
Proof.
  apply (stream_ok_snoc []); [apply stream_ok_nil|]. split; [reflexivity|].
  split; [vm_compute; reflexivity|]. by exists ("app", ["web"]).
Defined.

Example registry_follows_cluster_witness :
  ∃ b, GetRegularCPUBoost "boost" "demo" (lp_m l2) = Some b ∧
    b ∈ pr_boosts (t_producer (validateTimePolicyBoosts_start order_fwd (λ _, order_fwd) (lp_m l2))).
Proof.
  destruct (registry_follows_cluster false true start [created] l2 eq_refl run_l2 stream_l2) as (_ & _ & Hfix).
  apply (Hfix "boost" "demo" (boost_spec "boost")).
  - vm_compute; reflexivity.
  - discriminate.
Defined.

Example registered_boosts_well_formed_witness :
  ∃ policy, b_durationPolicies (s_boosts (m_go (lp_m l2)) 0%nat) = {[duration.Name policy := policy]}.
Proof.
  destruct (registered_boosts_well_formed false true start [created] l2 "boost" "demo" 0%nat
    eq_refl run_l2 stream_l2) as (_ & _ & Hd & _).
  - vm_compute; reflexivity.
  - exact Hd.
Defined.

Example operator_never_panics_witness :
  ∃ reqs m', dispatch false rt rt pod_created (lp_m l2) = Done (reqs, m').
Proof.
  destruct (operator_never_panics false true start [created] l2 rt rt pod_created eq_refl run_l2 stream_l2)
    as [(reqs & m' & Hd & _) _].
  - exact I.
  - vm_compute; lia.
  - exists reqs, m'. exact Hd.
Defined.

Example gauge_counts_boosts_witness :
  BoostConfigurations "demo" (s_metrics (m_go (lp_m l2))) = 1.
Proof.
  rewrite (gauge_counts_boosts false true start [created] l2 "demo" eq_refl eq_refl run_l2 stream_l2).
  - vm_compute; reflexivity.
  - intros [|e1 es1] b es2; [discriminate|]. intros Heq. apply (f_equal length) in Heq.
    rewrite length_cons, length_app in Heq. cbn in Heq. lia.
Defined.
End witness.
