(* ===== verification/Linearizability.v ===== *)
(** * Concurrent calls are linearizable

    For its callers the manager is a registry from names and namespaces to
    configurations of boosts.  Here the concurrent manager of Concurrency is
    shown to refine that registry: every call appears to happen at the moment
    it releases the lock, with the answer the registry gives at that moment,
    and nothing else changes the registry. *)

From S2P Require Import Prelude Quantities Kube Api Duration Resource BoostPod Metrics Client Boost.
From S2P Require Import Namespaced Qos BoostServer PodWebhook ConcreteServer Manager.
From S2P Require Import Operator Sections Interleaving Concurrency.

Section specification.
Context `{QuantityLib} `{SelectorLib} `{AnnotationJSON} `{!PatchLib} `{MetricVecLib} `{!PodClient}.
Implicit Types m : managerImpl.

(** ** The registry as its callers see it *)

Definition Registry : Type := string → string → option BoostConfig.

Definition reg_set (n ns : string) (v : option BoostConfig) (R : Registry) : Registry := λ n' ns',
  if decide (ns = ns' ∧ n = n') then v else R n' ns'.

Definition same_reg : relation Registry := λ R R', ∀ n ns, R n ns = R' n ns.

Definition config m b : BoostConfig := impl_config (s_boosts (m_go m) b).
Definition registry m : Registry := λ n ns, config m <$> Get n ns (m_regularBoosts m).

(** What a call with answer [a] may do to the registry [R]; a boost in the
    answer is read in [m]. *)
Definition linear (c : Call) m (R R' : Registry) : answer c → Prop :=
  match c with
  | CallAdd _ _ b => λ err,
      let i := s_boosts (m_go m) b in
      match R (b_name i) (b_namespace i) with
      | Some _ => err = Some errStartupCPUBoostAlreadyExists ∧ same_reg R' R
      | None => err = None ∧ same_reg R' (reg_set (b_name i) (b_namespace i) (Some (config m b)) R)
      end
  | CallDelete namespace name => λ _, same_reg R' (reg_set name namespace None R)
  | CallUpdate _ _ spec => λ err,
      let name := v1alpha1.om_Name (v1alpha1.b_Meta spec) in
      let namespace := v1alpha1.om_Namespace (v1alpha1.b_Meta spec) in
      match R name namespace, config_of spec with
      | Some _, Some cfg => err = None ∧ same_reg R' (reg_set name namespace (Some cfg) R)
      | Some _, None => err ≠ None ∧ same_reg R' R
      | None, _ => err = None ∧ same_reg R' R
      end
  | CallUpsertPod _ _ | CallDeletePod _ _ => λ _, same_reg R' R
  | CallGet name namespace => λ boost, config m <$> boost = R name namespace ∧ same_reg R' R
  | CallGetForPod _ pod => λ boost, same_reg R' R ∧
      match boost with
      | Some b => (∃ n, R n (pod_Namespace pod) = Some (config m b)) ∧
          SelMatches (bc_selector (config m b)) (pod_Labels pod) = true
      | None => ∀ n cfg, R n (pod_Namespace pod) = Some cfg →
          SelMatches (bc_selector cfg) (pod_Labels pod) = false
      end
  | CallTimeBoosts _ _ => λ boosts, same_reg R' R ∧
      (∀ b, b ∈ boosts → ∃ n ns, R n ns = Some (config m b)) ∧
      (∀ n ns cfg, R n ns = Some cfg →
         is_Some (bc_durationPolicies cfg !! duration.FixedDurationPolicyName) →
         ∃ b, b ∈ boosts ∧ config m b = cfg)
  end.

(** The registry of a configuration of the system: what a call that writes
    has done so far does not count before it ends. *)
Definition committed (x : managerImpl * list thread) : managerImpl :=
  match x.2 with
  | [t] => if writes (t_call t) then t_start t else x.1
  | _ => x.1
  end.
End specification.

Section linearizability.
Context `{QuantityLib} `{SelectorLib} `{AnnotationJSON} `{!PatchLib} `{MetricVecLib} `{!PodClient}.
Context `{!PodClientBasics}.
Implicit Types m : managerImpl.

#[export] Instance same_reg_equivalence : Equivalence same_reg.
Proof. split; unfold same_reg; repeat intro; congruence. Qed.

#[export] Instance reg_set_proper n ns v : Proper (same_reg ==> same_reg) (reg_set n ns v).
Proof. intros R R' HR n' ns'. unfold reg_set. by case_decide. Qed.

(** ** The registry under interference *)

Lemma config_interferes s s' b :
  interferes s s' → (b < s_nextBoost s)%nat → impl_config (s_boosts s' b) = impl_config (s_boosts s b).
Proof.
  intros Hi Hb. unfold impl_config.
  by destruct (itf_identity _ _ Hi b Hb) as (_ & _ & -> & -> & -> & _).
Qed.

Lemma registry_interferes P m m' :
  mgr_inv_for P m → m_regularBoosts m' = m_regularBoosts m → interferes (m_go m) (m_go m') →
  same_reg (registry m') (registry m).
Proof.
  intros Hinv Hr Hi n ns. unfold registry. rewrite Hr. destruct (Get n ns _) as [b|] eqn:Hb; [|done].
  cbn. f_equal. apply config_interferes; [done|]. by apply (inv_key _ _ Hinv) in Hb as (_ & _ & ?).
Qed.

Lemma registry_rely P m m' : mgr_inv_for P m → rely m m' → same_reg (registry m') (registry m).
Proof. intros Hinv []. by eapply registry_interferes. Qed.

Lemma registry_adopting P ns m m' :
  mgr_inv_for P m → adopting ns m m' → same_reg (registry m') (registry m).
Proof. intros Hinv []. by eapply registry_interferes. Qed.

Lemma registry_registered b m :
  same_reg (registry (registered b m))
    (reg_set (b_name (s_boosts (m_go m) b)) (b_namespace (s_boosts (m_go m) b)) (Some (config m b)) (registry m)).
Proof.
  intros n ns. unfold registry, reg_set. cbn. rewrite Get_Put. by case_decide.
Qed.

Lemma registry_unregistered ns n m :
  same_reg (registry (unregistered ns n m)) (reg_set n ns None (registry m)).
Proof. intros n' ns'. unfold registry, reg_set. cbn. rewrite Get_Delete. by case_decide. Qed.

Lemma registry_updated b spec sel rp m n ns :
  mgr_inv m → Get n ns (m_regularBoosts m) = Some b →
  same_reg (registry (m_set_go (updated b spec sel rp (m_go m)) m))
    (reg_set n ns (Some {| bc_selector := sel; bc_resourcePolicies := rp;
       bc_durationPolicies := mapDurationPolicy (v1alpha1.spec_DurationPolicy (v1alpha1.b_Spec spec)) |})
      (registry m)).
Proof.
  intros Hinv Hb n' ns'. unfold registry, reg_set, config, updated. cbn [m_regularBoosts m_go m_set_go].
  destruct (Get n' ns' _) as [b'|] eqn:Hb'; cbn [fmap option_fmap option_map].
  - rewrite s_boosts_set_boost. case_decide as Hd.
    + subst b'. destruct (inv_key _ _ Hinv _ _ _ Hb) as (Hn & Hns & _).
      destruct (inv_key _ _ Hinv _ _ _ Hb') as (Hn' & Hns' & _). rewrite decide_True by (split; congruence).
      done.
    + rewrite decide_False; [done|]. intros [<- <-]. congruence.
  - rewrite decide_False; [done|]. intros [<- <-]. congruence.
Qed.

(** ** Every call follows the registry *)

Lemma registry_Some m R n ns cfg :
  same_reg R (registry m) → R n ns = Some cfg →
  ∃ b, Get n ns (m_regularBoosts m) = Some b ∧ config m b = cfg.
Proof. intros HR. rewrite HR. unfold registry. intros (b & Hb & ->)%fmap_Some. eauto. Qed.

Lemma Get_registry m R n ns b :
  same_reg R (registry m) → Get n ns (m_regularBoosts m) = Some b → R n ns = Some (config m b).
Proof. intros HR Hb. rewrite HR. unfold registry. by rewrite Hb. Qed.

Lemma Get_registry_None m R n ns :
  same_reg R (registry m) → Get n ns (m_regularBoosts m) = None → R n ns = None.
Proof. intros HR Hb. rewrite HR. unfold registry. by rewrite Hb. Qed.

Lemma add_linear rt rt' b m0 R err h m :
  mgr_inv m0 → (b < s_nextBoost (m_go m0))%nat → same_reg R (registry m0) → add_post b m0 err h m →
  linear (CallAdd rt rt' b) m R (registry m) err.
Proof.
  intros Hinv Hb HR Hpost. unfold add_post in Hpost. cbn [linear].
  assert (same_identity (s_boosts (m_go m0) b) (s_boosts (m_go m) b)) as (Hn & Hns & Hsel & Hdp & Hrp & _).
  { destruct (Get _ _ _); destruct Hpost as [_ Hm]; [by apply (rely_boost _ _ _ Hm)|].
    by apply (itf_identity _ _ (ad_go _ _ _ (pr_frame _ _ _ _ Hm))). }
  rewrite Hn, Hns. unfold config, impl_config. rewrite Hsel, Hdp, Hrp.
  destruct (Get _ _ (m_regularBoosts m0)) as [b'|] eqn:Hg; destruct Hpost as [-> Hm].
  - rewrite (Get_registry _ _ _ _ _ HR Hg). split; [done|]. rewrite HR. by eapply registry_rely.
  - rewrite (Get_registry_None _ _ _ _ HR Hg). split; [done|]. rewrite HR.
    etrans; [|apply registry_registered].
    apply pr_frame in Hm. eapply registry_adopting in Hm; [exact Hm|].
    apply (inv_timed_after b (registered b m0)); [by apply registered_inv|].
    eexists _, _. cbn. rewrite Get_Put. by rewrite decide_True.
Qed.

Lemma update_linear rt rt' spec m0 R err h m :
  mgr_inv m0 → same_reg R (registry m0) → update_post spec m0 err h m →
  linear (CallUpdate rt rt' spec) m R (registry m) err.
Proof.
  intros Hinv HR Hpost. unfold update_post in Hpost. cbn [linear]. unfold config_of.
  destruct (Get _ _ (m_regularBoosts m0)) as [b|] eqn:Hg.
  - rewrite (Get_registry _ _ _ _ _ HR Hg).
    destruct (LabelSelectorAsSelector _) as [e|sel]; [|destruct (mapResourcePolicy _) as [e|rp]];
      destruct Hpost as [He Hm]; (split; [done|]); rewrite HR; try by eapply registry_rely.
    etrans; [|by apply registry_updated]. apply pr_frame in Hm. eapply registry_adopting in Hm; [exact Hm|].
    apply inv_timed_after; [by apply updated_inv|by eauto].
  - rewrite (Get_registry_None _ _ _ _ HR Hg). destruct Hpost as [-> Hm]. split; [done|].
    rewrite HR. by eapply registry_rely.
Qed.

(** The calls for pods leave the registry alone. *)
Lemma pod_call_frame c m0 a h m :
  match c with CallUpsertPod _ _ | CallDeletePod _ _ => True | _ => False end → call_post c m0 a h m →
  m_regularBoosts m = m_regularBoosts m0 ∧ interferes (m_go m0) (m_go m).
Proof.
  destruct c as [| | |rt p|rt p| | |]; cbn [call_post answer] in *; try done; intros _.
  - unfold upsert_post. destruct (orphan_key m0 p) as [name ns].
    intros Hpost. by destruct a as [[b|] [e|]]; destruct Hpost as (_ & _ & []).
  - unfold delete_pod_post. destruct (orphan_key m0 p) as [name ns].
    intros (_ & _ & Hpost). by destruct a as [[b|] e]; [destruct Hpost as [_ []]|destruct Hpost].
Qed.

(** A boost that is registered reads the same at the end of the call. *)
Lemma config_registered m0 m n ns b :
  mgr_inv m0 → rely m0 m → Get n ns (m_regularBoosts m0) = Some b → config m b = config m0 b.
Proof.
  intros Hinv Hm Hb. apply config_interferes; [apply Hm|]. by apply (inv_key _ _ Hinv) in Hb as (_ & _ & ?).
Qed.

Lemma get_for_pod_linear σ pod m0 R boost m :
  mgr_inv m0 → same_reg R (registry m0) → boost = GetCPUBoostForPod_ref σ pod m0 → rely m0 m →
  linear (CallGetForPod σ pod) m R (registry m) boost.
Proof.
  intros Hinv HR -> Hm. cbn [linear]. split; [rewrite HR; by eapply registry_rely|].
  unfold GetCPUBoostForPod_ref. destruct (getMatchingBoost σ pod m0) as [b|] eqn:Hg.
  - apply getMatchingBoost_Some in Hg as [(n & Hn) Hmat]. rewrite (config_registered _ _ _ _ _ Hinv Hm Hn).
    split; [|done]. exists n. by apply (Get_registry _ _ _ _ _ HR).
  - intros n cfg (b & Hb & <-)%(registry_Some _ _ _ _ _ HR).
    exact (proj1 (getMatchingBoost_None _ _ _) Hg n b Hb).
Qed.

Lemma time_boosts_linear σ τ m0 R boosts m :
  mgr_inv m0 → same_reg R (registry m0) → boosts = ListAll σ τ (m_timedBoosts m0) → rely m0 m →
  linear (CallTimeBoosts σ τ) m R (registry m) boosts.
Proof.
  intros Hinv HR -> Hm. cbn [linear]. split_and!; [rewrite HR; by eapply registry_rely| |].
  - intros b (n & ns & Hb)%elem_of_ListAll. apply (inv_timed _ _ Hinv) in Hb.
    exists n, ns. rewrite (config_registered _ _ _ _ _ Hinv Hm Hb). by apply (Get_registry _ _ _ _ _ HR).
  - intros n ns cfg (b & Hb & <-)%(registry_Some _ _ _ _ _ HR) Hfix. exists b.
    split; [|by eapply config_registered]. apply elem_of_ListAll. exists n, ns. by apply (inv_fixed _ _ Hinv).
Qed.

Lemma post_linear c m0 R a h m :
  mgr_inv m0 → call_ok c m0 → same_reg R (registry m0) → call_post c m0 a h m →
  linear c m R (registry m) a.
Proof.
  intros Hinv Hok HR Hpost.
  destruct c as [rt rt' b|ns n|rt rt' spec|rt p|rt p|n ns|σ pod|σ τ]; cbn [call_post answer] in *.
  - by eapply add_linear.
  - cbn [linear]. rewrite HR, <-registry_unregistered. eapply registry_rely; [|exact Hpost].
    destruct (DeleteRegularCPUBoost_spec ns n m0) as (m1 & [= <-] & _ & _ & _ & _ & Hi). by apply Hi.
  - by eapply update_linear.
  - cbn [linear]. rewrite HR. apply (pod_call_frame (CallUpsertPod rt p)) in Hpost as []; [|done].
    by eapply registry_interferes.
  - cbn [linear]. rewrite HR. apply (pod_call_frame (CallDeletePod rt p)) in Hpost as []; [|done].
    by eapply registry_interferes.
  - destruct Hpost as [-> Hm]. cbn [linear]. split; [|rewrite HR; by eapply registry_rely].
    rewrite HR. unfold GetRegularCPUBoost, registry.
    destruct (Get n ns _) as [b|] eqn:Hb; [|done]. cbn. f_equal. by eapply config_registered.
  - destruct Hpost. by eapply get_for_pod_linear.
  - destruct Hpost. by eapply time_boosts_linear.
Qed.

(** ** Linearizability *)

Lemma committed_readers m ts : readers ts → committed (m, ts) = m.
Proof. destruct ts as [|t [|]]; try done. intros [Ht _]%Forall_cons. unfold committed. cbn. by rewrite Ht. Qed.

Lemma committed_writer m t : writes (t_call t) = true → committed (m, [t]) = t_start t.
Proof. intros Ht. unfold committed. cbn. by rewrite Ht. Qed.

Lemma reader_rely c m0 a h m : writes c = false → call_post c m0 a h m → rely m0 m.
Proof. destruct c; try done; intros _ Hpost; apply Hpost. Qed.

Lemma committed_inv x : conf_ok x → mgr_inv (committed x).
Proof.
  destruct x as [m ts]. intros [Hall [(w & Hts & Hw)|[Hinv Hr]]]; cbn in *; [|by rewrite committed_readers].
  subst ts. rewrite committed_writer by done. apply Forall_cons in Hall as [[] _]. done.
Qed.

(** The steps before the lock is released. *)
Lemma committed_stable x y :
  conf_ok x → cstep x y → (length x.2 ≤ length y.2)%nat → rely (committed x) (committed y).
Proof.
  intros Hok Hstep Hlen. pose proof (conf_step_ok _ _ Hok Hstep) as Hok'. destruct Hok as [Hall Hex].
  destruct Hstep as [[m ts] [m' ts'] [Hm Hts]|m ts c Hc Hl|x y Hs]; cbn in *.
  - subst ts'. destruct Hex as [(w & -> & Hw)|[Hinv Hr]]; [by rewrite !committed_writer|].
    rewrite !committed_readers by done. by apply env_rely.
  - assert (committed (m, ts ++ [begin c m]) = m) as ->.
    { destruct Hok' as [_ [(w & Hw & Hww)|[_ Hr]]]; cbn in *; [|by apply committed_readers].
      rewrite Hw, committed_writer by done. by apply singleton_split in Hw as (_ & _ & <-). }
    destruct Hex as [(w & -> & Hw)|[_ Hr]]; [|by rewrite committed_readers].
    unfold may_lock in Hl. destruct (writes c); [done|]. apply Forall_cons in Hl as [Hl _]. congruence.
  - destruct Hs as [m m' ts t ts' B f k z Heq Hf|m ts t ts' a Heq]; cbn in *; [|rewrite !length_app in Hlen; cbn in Hlen; lia].
    destruct Hex as [(w & (-> & -> & ->)%singleton_split & Hw)|[Hinv Hr]].
    { cbn [app]. by rewrite !committed_writer. }
    apply Forall_app in Hall as [_ [Ht _]%Forall_cons].
    destruct (thread_section m t f k Ht Heq) as (z1 & m1 & Hf1 & _ & Hread). rewrite Hf in Hf1.
    injection Hf1 as <- <-. rewrite Hread.
    + rewrite !committed_readers; [reflexivity| |done]. apply Forall_app in Hr as [Hr [Hrt Hr']%Forall_cons].
      apply Forall_app. split; [done|by apply Forall_cons].
    + by apply Forall_app in Hr as [_ [Hrt _]%Forall_cons].
Qed.

(** The release. *)
Lemma committed_release m ts t ts' a :
  conf_ok (m, ts ++ t :: ts') → t_rest t = Stop a →
  linear (t_call t) m (registry (committed (m, ts ++ t :: ts'))) (registry (committed (m, ts ++ ts'))) a.
Proof.
  intros [Hall Hex] Heq. cbn in *. apply Forall_app in Hall as [_ [Ht _]%Forall_cons].
  pose proof (thread_stop _ _ _ Ht Heq) as Hpost. destruct Ht as [Hs Hc _ _].
  destruct Hex as [(w & (-> & -> & ->)%singleton_split & Hw)|[Hinv Hr]].
  - cbn [app]. rewrite committed_writer by done. by eapply (post_linear _ (t_start w)).
  - rewrite committed_readers by done. apply Forall_app in Hr as [Hr [Hrt Hr']%Forall_cons].
    rewrite committed_readers by (by apply Forall_app). eapply (post_linear _ (t_start t)); [done|done| |done].
    eapply registry_rely; [exact Hs|]. by eapply reader_rely.
Qed.

(** C6: concurrent calls are linearizable.  Whatever calls and goroutines do
    concurrently, the registry of committed configurations changes only when
    a call releases the lock, and then as a registry that handles the calls
    one after the other: a boost is registered unless its name is taken, an
    update replaces the configuration of a registered boost unless the new
    one is not valid, a deletion removes it, and the calls that read answer
    what the registry holds at that moment. *)
Theorem registry_linearizable client s x :
  s_nextBoost s = 0%nat → rtc cstep (NewManagerWithTicker client s, []) x →
  (∀ y, cstep x y → (length x.2 ≤ length y.2)%nat →
     same_reg (registry (committed y)) (registry (committed x))) ∧
  (∀ ts t ts' a, x.2 = ts ++ t :: ts' → t_rest t = Stop a →
     linear (t_call t) x.1 (registry (committed x)) (registry (committed (x.1, ts ++ ts'))) a).
Proof.
  intros Hs Hr. apply conf_reachable in Hr as Hok; [|done]. split.
  - intros y Hy Hlen. eapply registry_rely; [by apply committed_inv|by apply committed_stable].
  - destruct x as [m us]. cbn. intros ts t ts' a ->. by apply committed_release.
Qed.
End linearizability.

(** ** A concrete run *)

Module witness.
#[local] Existing Instances ConcreteQuantity.lib ConcreteQuantity.laws ConcreteSelector.lib
  ConcreteJSON.json ConcreteVec.lib ConcreteVec.laws json_patches server server_basics.
Import Manager.witness Concurrency.witness.

(** While the registration of the boost is in progress, nothing is
    registered for its callers; a later step ends it. *)
Definition registering := Nat.iter 8 advance (building, [begin (CallAdd rt rt 0%nat) building]).

Lemma reach_registering : rtc cstep (NewManagerWithTicker true start, []) registering.
Proof. apply advance_reach, reach_building. Defined.

Example registry_linearizable_witness :
  Get "boost" "demo" (m_regularBoosts registering.1) = Some 0%nat ∧
  registry (committed registering) "boost" "demo" = None ∧
  registry (committed (advance registering)) "boost" "demo" = None.
Proof.
  assert (registry (committed registering) "boost" "demo" = None) as Hnone by (vm_compute; reflexivity).
  split_and!; [vm_compute; reflexivity|done|]. rewrite <-Hnone.
  apply (proj1 (registry_linearizable true start registering eq_refl reach_registering)).
  - apply c_call, advance_call. vm_compute; reflexivity.
  - vm_compute. lia.
Defined.
End witness.
