(* ===== verification/ConcurrentOperator.v ===== *)
(** * The registry follows the cluster, concurrently

    The operator of Operator with the concurrent manager of Concurrency: the
    events of boosts are handled one after the other, by the goroutine of
    their watch, while pod events, admission requests, reconciliations and
    checks call the manager at the same time.  After any interleaving the
    registry that callers see holds the configurations of the boosts of the
    API server, and the webhook is answered from it. *)

From stdpp Require Import functions.
From S2P Require Import Prelude Quantities Kube Api Duration Resource BoostPod Metrics Client Boost.
From S2P Require Import Namespaced Qos BoostServer PodWebhook ConcreteServer Manager Validation BoostController.
From S2P Require Import Operator Sections Interleaving Concurrency Linearizability.

Section system.
Context `{QuantityLib} `{SelectorLib} `{AnnotationJSON} `{!PatchLib} `{MetricVecLib} `{!PodClient}.
Context (legacy : bool).
Implicit Types m : managerImpl.

(** The calls that register, update and delete boosts come from the watch
    of boosts only. *)
Definition registers (c : Call) : bool :=
  match c with
  | CallAdd _ _ _ | CallDelete _ _ | CallUpdate _ _ _ => true
  | _ => false
  end.

(** The call that the event filter makes for an event, and the manager when
    it takes the lock.  A create event builds the boost first, which no other
    goroutine has before the call registers it; an accepted object can always
    be built. *)
Inductive event_call : WatchEvent → managerImpl → Call → managerImpl → Prop :=
  | ec_create m obj rt rt' b s :
      NewStartupCPUBoost obj legacy (m_go m) = Done (inr b, s) →
      event_call (CreateEvent (BoostObject obj)) m (CallAdd rt rt' b) (m_set_go s m)
  | ec_update m old obj rt rt' :
      event_call (UpdateEvent old (BoostObject obj)) m (CallUpdate rt rt' obj) m
  | ec_delete m obj :
      event_call (DeleteEvent (BoostObject obj)) m
        (CallDelete (v1alpha1.om_Namespace (v1alpha1.b_Meta obj)) (v1alpha1.om_Name (v1alpha1.b_Meta obj))) m.

(** The manager and the calls in progress, the events of boosts handled so
    far, and the one whose call is in progress. *)
Record WatchState : Type := {
  w_conf : managerImpl * list thread;
  w_handled : list WatchEvent;
  w_current : option WatchEvent
}.

Abbreviation wstate x es cur := {| w_conf := x; w_handled := es; w_current := cur |}.

Inductive wstep : WatchState → WatchState → Prop :=
  | w_event m m' es e c :
      event_ok (store_of es) e → event_call e m c m' →
      wstep (wstate (m, []) es None) (wstate (m', [begin c m']) es (Some e))
  | w_done m ts t ts' a es e :
      t_rest t = Stop a → registers (t_call t) = true →
      wstep (wstate (m, ts ++ t :: ts') es (Some e)) (wstate (m, ts ++ ts') (es ++ [e]) None)
  | w_lock m ts es cur c :
      registers c = false → call_ok c m → may_lock c ts →
      wstep (wstate (m, ts) es cur) (wstate (m, ts ++ [begin c m]) es cur)
  | w_unlock m ts t ts' a es cur :
      t_rest t = Stop a → registers (t_call t) = false →
      wstep (wstate (m, ts ++ t :: ts') es cur) (wstate (m, ts ++ ts') es cur)
  | w_section m m' ts t ts' B (f : M managerImpl B) k z es cur :
      t_rest t = Atomic f k → f m = Done (z, m') →
      wstep (wstate (m, ts ++ t :: ts') es cur) (wstate (m', ts ++ continue t m m' (k z) :: ts') es cur)
  | w_env x y es cur : interference x y → wstep (wstate x es cur) (wstate y es cur).

Definition watch_start (client : bool) (s : GoState) : WatchState :=
  wstate (NewManagerWithTicker client s, []) [] None.
End system.

Section lemmas.
Context `{QuantityLib} `{SelectorLib} `{AnnotationJSON} `{!PatchLib} `{MetricVecLib} `{!PodClient}.
Context `{!PodClientBasics}.
Context (legacy : bool).
Implicit Types (m : managerImpl) (C : gmap (string * string) v1alpha1.StartupCPUBoost).

Abbreviation wstate x es cur := {| w_conf := x; w_handled := es; w_current := cur |}.

(** ** What the registry represents *)

Lemma represents_interferes P m m' C :
  mgr_inv_for P m → m_regularBoosts m' = m_regularBoosts m → interferes (m_go m) (m_go m') →
  represents legacy m C → represents legacy m' C.
Proof.
  intros Hinv Hr Hi. apply represents_frame; [done|]. intros n ns b Hb.
  apply (inv_key _ _ Hinv) in Hb as (_ & _ & Hb). by apply (itf_identity _ _ Hi).
Qed.

Lemma represents_adopting P ns m m' C :
  mgr_inv_for P m → adopting ns m m' → represents legacy m C → represents legacy m' C.
Proof. intros Hinv []. by eapply represents_interferes. Qed.

Lemma represents_None m C n ns :
  represents legacy m C → C !! (n, ns) = None → Get n ns (m_regularBoosts m) = None.
Proof. intros Hrep HC. specialize (Hrep n ns). rewrite HC in Hrep. by destruct (GetRegularCPUBoost n ns m) eqn:?. Qed.

Lemma represents_is_Some m C n ns :
  represents legacy m C → is_Some (C !! (n, ns)) → ∃ b, Get n ns (m_regularBoosts m) = Some b.
Proof.
  intros Hrep [obj HC]. specialize (Hrep n ns). rewrite HC in Hrep.
  destruct (GetRegularCPUBoost n ns m) as [b|] eqn:Hb; [|done]. by exists b.
Qed.

(** Boost [b] was built for [obj]. *)
Definition built_for obj (b : BoostRef) m : Prop :=
  let i := s_boosts (m_go m) b in
  (b < s_nextBoost (m_go m))%nat ∧ config_of obj = Some (impl_config i) ∧
  b_legacyRevertMode i = legacy ∧ (b_name i, b_namespace i) = object_key obj.

Lemma represents_registered b obj m C :
  represents legacy m C → built_for obj b m →
  represents legacy (registered b m) (<[object_key obj := obj]> C).
Proof.
  intros Hrep (_ & Hcfg & Hleg & Hkey) n ns. unfold GetRegularCPUBoost. cbn. rewrite Get_Put, <-Hkey.
  case_decide as Hd.
  - destruct Hd as [<- <-]. by rewrite lookup_insert_eq.
  - rewrite lookup_insert_ne by naive_solver. exact (Hrep n ns).
Qed.

Lemma represents_unregistered obj m C :
  represents legacy m C →
  represents legacy (unregistered (object_key obj).2 (object_key obj).1 m) (delete (object_key obj) C).
Proof.
  intros Hrep n ns. specialize (Hrep n ns). unfold GetRegularCPUBoost in *. cbn. rewrite Get_Delete.
  case_decide as Hk.
  - destruct Hk as [<- <-]. change (delete _ C !! _) with (delete (object_key obj) C !! object_key obj).
    by rewrite lookup_delete_eq.
  - rewrite lookup_delete_ne by (unfold object_key; naive_solver). exact Hrep.
Qed.

(** ** The calls of the watch *)

(** The call in progress belongs to the event. *)
Definition started (e : WatchEvent) (c : Call) m : Prop :=
  match e, c with
  | CreateEvent (BoostObject obj), CallAdd _ _ b => built_for obj b m
  | UpdateEvent _ (BoostObject obj), CallUpdate _ _ obj' => obj' = obj
  | DeleteEvent (BoostObject obj), CallDelete namespace name => (name, namespace) = object_key obj
  | _, _ => False
  end.

Lemma event_call_started e m c m' C :
  mgr_inv m → represents legacy m C → event_call legacy e m c m' →
  started e c m' ∧ registers c = true ∧ writes c = true ∧ call_ok c m' ∧ mgr_inv m' ∧ represents legacy m' C.
Proof.
  intros Hinv Hrep Hc. destruct Hc as [m obj rt rt' b s Hnew|m old obj rt rt'|m obj]; [|by split_and!..].
  apply NewStartupCPUBoost_new in Hnew as Hn. destruct Hn as (-> & i & -> & Hi).
  assert (s_boosts (new_boost i (m_go m)) (s_nextBoost (m_go m)) = i) as Hnewb by apply fn_lookup_insert.
  split_and!; [|done|done|cbn; lia|by apply new_boost_inv|].
  - unfold NewStartupCPUBoost in Hnew. cbn [started]. unfold built_for, config_of. cbn [m_go m_set_go]. rewrite Hnewb.
    destruct (LabelSelectorAsSelector _) as [|sel]; [done|]. destruct (mapResourcePolicy _) as [|rp]; [done|].
    injection Hnew as Hs. apply (f_equal (λ f, f (s_nextBoost (m_go m)))) in Hs. rewrite !fn_lookup_insert in Hs.
    subst i. split_and!; [cbn; lia|done..].
  - eapply represents_interferes; [exact Hinv|done| |exact Hrep]. by apply new_boost_interferes.
Qed.

(** When it ends, the event has happened to the registry. *)
Lemma event_done e c m0 a h m C :
  mgr_inv m0 → represents legacy m0 C → event_ok C e → started e c m0 → call_post c m0 a h m →
  represents legacy m (store_after C e).
Proof.
  intros Hinv Hrep Hok Hst Hpost.
  destruct e as [[obj| |]|old [obj| |]|[obj| |]|]; try done; destruct c as [rt rt' b|ns n|rt rt' obj'| | | | |]; try done.
  - destruct Hok as [Hfree _]. cbn [call_post] in Hpost. unfold add_post in Hpost. pose proof Hst as (Hb & _ & _ & Hkey).
    rewrite <-Hkey in Hfree. rewrite (represents_None _ _ _ _ Hrep Hfree) in Hpost. destruct Hpost as [_ Ha].
    eapply represents_adopting; [|apply Ha|by apply (represents_registered b obj m0)].
    apply (inv_timed_after b (registered b m0)).
    + apply registered_inv; [done|done|]. by eapply represents_None.
    + eexists _, _. cbn. rewrite Get_Put. by rewrite decide_True.
  - cbn in Hst. subst obj'. destruct Hok as [Hin (sel & rp & Hsel & Hrp)%accepted_config].
    cbn [call_post] in Hpost. unfold update_post in Hpost.
    destruct (represents_is_Some _ _ _ _ Hrep Hin) as (b & Hb). rewrite Hb, Hsel, Hrp in Hpost.
    destruct Hpost as [_ Ha].
    pose proof (represents_update legacy b obj sel rp m0 C Hinv Hrep Hb Hsel Hrp) as Hrep'.
    eapply represents_adopting; [|apply Ha|exact Hrep'].
    apply inv_timed_after; [by apply updated_inv|by eauto].
  - cbn in Hst. cbn [call_post] in Hpost. pose proof (represents_unregistered obj m0 C Hrep) as Hrep'.
    rewrite <-Hst in Hrep'. cbn [fst snd] in Hrep'. cbn [store_after]. rewrite <-Hst.
    eapply represents_interferes; [|apply Hpost|apply Hpost|exact Hrep'].
    destruct (DeleteRegularCPUBoost_spec ns n m0) as (m1 & [= <-] & _ & _ & _ & _ & Hi). by apply Hi.
Qed.

(** ** The invariant *)

Record watch_ok (w : WatchState) : Prop := {
  wo_conf : conf_ok (w_conf w);
  wo_registry : represents legacy (committed (w_conf w)) (store_of (w_handled w));
  wo_current :
    match w_current w with
    | None => Forall (λ t, registers (t_call t) = false) (w_conf w).2
    | Some e => event_ok (store_of (w_handled w)) e ∧
        ∃ t, (w_conf w).2 = [t] ∧ registers (t_call t) = true ∧ started e (t_call t) (t_start t)
    end
}.

Lemma registers_writes c : registers c = true → writes c = true.
Proof. by destruct c. Qed.

Lemma pod_call c :
  writes c = true → registers c = false →
  match c with CallUpsertPod _ _ | CallDeletePod _ _ => True | _ => False end.
Proof. by destruct c. Qed.

Lemma empty_conf_ok m : mgr_inv m → conf_ok (m, []).
Proof. intros Hinv. split; [by apply Forall_nil|]. right. split; [done|by apply Forall_nil]. Qed.

Ltac wcbn := cbn [w_conf w_handled w_current fst snd] in *.

(** Steps that leave the events alone. *)
Lemma watch_stable x y es cur :
  watch_ok (wstate x es cur) → cstep x y → (length x.2 ≤ length y.2)%nat →
  represents legacy (committed y) (store_of es).
Proof.
  intros [Hok Hrep _] Hs Hlen. pose proof (committed_stable x y Hok Hs Hlen) as [].
  eapply represents_interferes; [by apply committed_inv|done|done|exact Hrep].
Qed.

Lemma watch_event_ok m m' es e c :
  watch_ok (wstate (m, []) es None) → event_ok (store_of es) e → event_call legacy e m c m' →
  watch_ok (wstate (m', [begin c m']) es (Some e)).
Proof.
  intros [Hok Hrep _] He Hc. wcbn. pose proof (committed_inv _ Hok) as Hinv.
  destruct (event_call_started e m c m' _ Hinv Hrep Hc) as (Hst & Hreg & Hw & Hcok & Hinv' & Hrep').
  split; wcbn.
  - apply (conf_step_ok (m', [])); [by apply empty_conf_ok|].
    apply (c_lock m' [] c Hcok). unfold may_lock. by rewrite Hw.
  - by rewrite committed_writer.
  - split; [done|]. by exists (begin c m').
Qed.

Lemma watch_done_ok m ts t ts' a es e :
  watch_ok (wstate (m, ts ++ t :: ts') es (Some e)) → t_rest t = Stop a →
  watch_ok (wstate (m, ts ++ ts') (es ++ [e]) None).
Proof.
  intros [Hok Hrep (He & t0 & (-> & -> & ->)%singleton_split & Hreg & Hst)] Heq. wcbn.
  pose proof (conf_call_ok _ _ Hok (c_unlock m [] t0 [] a Heq)) as Hok'.
  apply registers_writes in Hreg. cbn [app] in *. rewrite committed_writer in Hrep by done.
  destruct Hok as [[Ht _]%Forall_cons _]. wcbn. split; [done| |by apply Forall_nil].
  wcbn. unfold store_of. rewrite foldl_app. cbn. apply (event_done e (t_call t0) (t_start t0) a (t_done t0)); [apply Ht|done|done|done|].
  by apply thread_stop.
Qed.

Lemma watch_unlock_ok m ts t ts' a es cur :
  watch_ok (wstate (m, ts ++ t :: ts') es cur) → t_rest t = Stop a → registers (t_call t) = false →
  watch_ok (wstate (m, ts ++ ts') es cur).
Proof.
  intros [Hok Hrep Hcur] Heq Hreg. wcbn. split; wcbn.
  - by apply (conf_call_ok _ _ Hok), (c_unlock m ts t ts' a).
  - destruct Hok as [Hall [(w & (-> & -> & ->)%singleton_split & Hw)|[Hinv Hr]]]; wcbn.
    + cbn [app] in *. apply Forall_cons in Hall as [Ht _]. rewrite committed_writer in Hrep by done.
      pose proof (thread_stop _ _ _ Ht Heq) as Hpost.
      apply pod_call_frame in Hpost as [Hre Hi]; [|by apply pod_call].
      eapply represents_interferes; [apply Ht|done|done|done].
    + rewrite committed_readers in Hrep by done. apply Forall_app in Hr as [Hr [_ Hr']%Forall_cons].
      by rewrite committed_readers by (by apply Forall_app).
  - destruct cur as [e|].
    + destruct Hcur as (_ & t0 & (_ & _ & ->)%singleton_split & Hreg' & _). congruence.
    + apply Forall_app in Hcur as [Hc [_ Hc']%Forall_cons]. by apply Forall_app.
Qed.

Lemma watch_lock_ok m ts es cur c :
  watch_ok (wstate (m, ts) es cur) → registers c = false → call_ok c m → may_lock c ts →
  watch_ok (wstate (m, ts ++ [begin c m]) es cur).
Proof.
  intros Hok Hreg Hc Hl. pose proof (c_lock m ts c Hc Hl) as Hs. split; wcbn.
  - by eapply conf_step_ok; [apply Hok|].
  - eapply (watch_stable (m, ts)); [done|done|]. cbn. rewrite length_app. lia.
  - destruct Hok as [_ _ Hcur]. wcbn. destruct cur as [e|].
    + destruct Hcur as (_ & t0 & -> & Hreg'%registers_writes & _). unfold may_lock in Hl.
      destruct (writes c); [done|]. apply Forall_cons in Hl as [Hl _]. congruence.
    + apply Forall_app. split; [done|]. by apply Forall_singleton.
Qed.

Lemma watch_section_ok m m' ts t ts' B (f : M managerImpl B) k z es cur :
  watch_ok (wstate (m, ts ++ t :: ts') es cur) → t_rest t = Atomic f k → f m = Done (z, m') →
  watch_ok (wstate (m', ts ++ continue t m m' (k z) :: ts') es cur).
Proof.
  intros Hok Heq Hf. pose proof (c_call _ _ (c_section m m' ts t ts' B f k z Heq Hf)) as Hs. split; wcbn.
  - by eapply conf_step_ok; [apply Hok|].
  - eapply watch_stable; [done|exact Hs|]. cbn. rewrite !length_app. cbn. lia.
  - destruct Hok as [_ _ Hcur]. wcbn. destruct cur as [e|].
    + destruct Hcur as (He & t0 & (-> & -> & ->)%singleton_split & Hreg & Hst). split; [done|].
      by exists (continue t0 m m' (k z)).
    + apply Forall_app in Hcur as [Hc [Ht Hc']%Forall_cons]. apply Forall_app. split; [done|]. by apply Forall_cons.
Qed.

Lemma watch_env_ok x y es cur :
  watch_ok (wstate x es cur) → interference x y → watch_ok (wstate y es cur).
Proof.
  intros Hok Hi. split; wcbn.
  - by eapply conf_env_ok; [apply Hok|].
  - eapply watch_stable; [done|by apply c_env|]. by rewrite (proj2 Hi).
  - rewrite (proj2 Hi). apply Hok.
Qed.

Lemma watch_reachable client s w :
  s_nextBoost s = 0%nat → rtc (wstep legacy) (watch_start client s) w → watch_ok w.
Proof.
  intros Hs. apply (rtc_ind_r watch_ok _).
  - split; wcbn; [by apply empty_conf_ok, new_inv| |by apply Forall_nil].
    intros n ns. unfold GetRegularCPUBoost. cbn. by rewrite lookup_empty, Get_new.
  - intros w1 w2 _ Hstep Hok. destruct Hstep; eauto using watch_event_ok, watch_done_ok, watch_unlock_ok,
      watch_lock_ok, watch_section_ok, watch_env_ok.
Qed.
End lemmas.

(** ** What callers see *)

Section properties.
Context `{QuantityLib} `{SelectorLib} `{AnnotationJSON} `{!PatchLib} `{MetricVecLib} `{!PodClient}.
Context `{!PodClientBasics}.
Context (legacy : bool).
Implicit Types (m : managerImpl) (C : gmap (string * string) v1alpha1.StartupCPUBoost).

Lemma represents_registry m C n ns cfg :
  represents legacy m C →
  registry m n ns = Some cfg ↔ ∃ obj, C !! (n, ns) = Some obj ∧ config_of obj = Some cfg.
Proof.
  intros Hrep. specialize (Hrep n ns). unfold registry, GetRegularCPUBoost in *.
  destruct (C !! (n, ns)) as [obj|], (Get n ns (m_regularBoosts m)) as [b|]; try done; cbn.
  - destruct Hrep as [Hc _]. split; [intros [= <-]; by exists obj|].
    intros (obj' & [= <-] & Hc'). rewrite Hc in Hc'. by injection Hc' as <-.
  - by split; [|intros (? & ? & _)].
Qed.

(** The boost the webhook is given for a pod, and the boosts a check goes
    through, when the call has ended. *)
Definition follows C m (t : thread) : Prop :=
  match t_call t as c return prog managerImpl (answer c) → Prop with
  | CallGetForPod _ pod => λ r,
      match r with
      | Stop (Some b) => ∃ n obj, C !! (n, pod_Namespace pod) = Some obj ∧
          config_of obj = Some (config m b) ∧
          SelMatches (bc_selector (config m b)) (pod_Labels pod) = true
      | Stop None => ∀ n obj cfg, C !! (n, pod_Namespace pod) = Some obj → config_of obj = Some cfg →
          SelMatches (bc_selector cfg) (pod_Labels pod) = false
      | Atomic _ _ => True
      end
  | CallTimeBoosts _ _ => λ r,
      match r with
      | Stop boosts => ∀ n ns obj, C !! (n, ns) = Some obj →
          v1alpha1.dp_Fixed (v1alpha1.spec_DurationPolicy (v1alpha1.b_Spec obj)) ≠ None →
          ∃ b, b ∈ boosts ∧ config_of obj = Some (config m b)
      | Atomic _ _ => True
      end
  | _ => λ _, True
  end (t_rest t).

Lemma linear_follows C R R' m0 h m c (r : prog managerImpl (answer c)) :
  (∀ n ns cfg, R n ns = Some cfg ↔ ∃ obj, C !! (n, ns) = Some obj ∧ config_of obj = Some cfg) →
  (∀ n ns obj, C !! (n, ns) = Some obj → config_of obj ≠ None) →
  (∀ a, r = Stop a → linear c m R R' a) →
  follows C m {| t_call := c; t_start := m0; t_done := h; t_rest := r |}.
Proof.
  intros HR HC Hlin. unfold follows. cbn [t_call t_rest].
  destruct c as [rt rt' b|ns n|rt rt' spec|rt p|rt p|n ns|σ pod|σ τ]; try done.
  - destruct r as [[b|]|]; [| |done]; destruct (Hlin _ eq_refl) as [_ Ha].
    + destruct Ha as [(n & (obj & Hobj & Hc)%HR) Hm]. by exists n, obj.
    + intros n obj cfg Hobj Hc. apply (Ha n). apply HR. by exists obj.
  - destruct r as [boosts|]; [|done]. destruct (Hlin _ eq_refl) as (_ & _ & Ha).
    intros n ns obj Hobj Hfix. apply HC in Hobj as Hne. destruct (config_of obj) as [cfg|] eqn:Hc; [|done].
    destruct (Ha n ns cfg) as (b & Hb & <-); [apply HR; by exists obj|by eapply config_fixed|]. by exists b.
Qed.

(** C7: the registry follows the cluster under concurrency.  After any
    interleaving of the handling of boost events with pod events, admission
    requests, reconciliations and checks, the registry that callers see holds
    exactly the configurations of the boosts whose events were handled; the
    webhook is given a boost of the pod's namespace that the API server has
    and that selects the pod, or none if there is none, and a check goes
    through every boost with a fixed duration. *)
Theorem concurrent_registry_follows_cluster client s w :
  s_nextBoost s = 0%nat → rtc (wstep legacy) (watch_start client s) w →
  let C := store_of (w_handled w) in
  represents legacy (committed (w_conf w)) C ∧
  ∀ t, t ∈ (w_conf w).2 → follows C (w_conf w).1 t.
Proof.
  intros Hs Hr C. apply watch_reachable in Hr as [Hok Hrep _]; [|done]. split; [done|]. fold C in Hrep.
  intros [c m0 h r] (ts & ts' & Hts)%list_elem_of_split. destruct (w_conf w) as [m us]. cbn [fst snd] in *. subst us.
  eapply linear_follows; [intros n ns cfg; by apply represents_registry| |].
  { intros n ns obj Hobj. specialize (Hrep n ns). rewrite Hobj in Hrep.
    destruct (GetRegularCPUBoost n ns _); [|done]. destruct Hrep as [-> _]. done. }
  intros a Heq. exact (committed_release m ts {| t_call := c; t_start := m0; t_done := h; t_rest := r |} ts' a Hok Heq).
Qed.
End properties.

(** ** A concrete run *)

Section driving.
Context `{QuantityLib} `{SelectorLib} `{AnnotationJSON} `{!PatchLib} `{MetricVecLib} `{!PodClient}.

(** The only call in progress has a section left. *)
Definition in_section (x : managerImpl * list thread) : bool :=
  match x.2 with
  | [t] =>
      match t_rest t with
      | Stop _ => false
      | Atomic f _ => match f x.1 with Done _ => true | Panic _ => false end
      end
  | _ => false
  end.

Lemma wstep_section legacy x es cur :
  in_section x = true →
  wstep legacy {| w_conf := x; w_handled := es; w_current := cur |}
    {| w_conf := advance x; w_handled := es; w_current := cur |}.
Proof.
  destruct x as [m [|t [|t' ts]]]; try done. unfold in_section, advance. cbn.
  destruct (t_rest t) as [a|B f k] eqn:Heq; [done|]. destruct (f m) as [[z m']|] eqn:Hf; [|done].
  intros _. by apply (w_section legacy m m' [] t [] B f k z).
Qed.

Lemma wstep_sections legacy n x es cur w :
  rtc (wstep legacy) w {| w_conf := x; w_handled := es; w_current := cur |} →
  forallb (λ i, in_section (Nat.iter i advance x)) (seq 0 n) = true →
  rtc (wstep legacy) w {| w_conf := Nat.iter n advance x; w_handled := es; w_current := cur |}.
Proof.
  intros Hw. induction n as [|n IH]; [done|]. rewrite seq_S, forallb_app. intros [Hn Hlast]%andb_prop.
  eapply rtc_r; [by apply IH|]. cbn in Hlast. rewrite andb_true_r in Hlast. by apply wstep_section.
Qed.

(** It has ended. *)
Definition at_end (x : managerImpl * list thread) : bool :=
  match x.2 with
  | [t] => match t_rest t with Stop _ => registers (t_call t) | Atomic _ _ => false end
  | _ => false
  end.

Lemma wstep_done legacy x es e :
  at_end x = true →
  wstep legacy {| w_conf := x; w_handled := es; w_current := Some e |}
    {| w_conf := (x.1, []); w_handled := es ++ [e]; w_current := None |}.
Proof.
  destruct x as [m [|t [|t' ts]]]; try done. unfold at_end. cbn.
  destruct (t_rest t) as [a|] eqn:Heq; [|done]. by apply (w_done legacy m [] t [] a es e).
Qed.
End driving.

Module witness.
#[local] Existing Instances ConcreteQuantity.lib ConcreteQuantity.laws ConcreteSelector.lib
  ConcreteJSON.json ConcreteVec.lib ConcreteVec.laws json_patches server server_basics.
Import Manager.witness Operator.witness.

(** The create event of a boost is handled; then the webhook asks for a pod. *)
Definition c0 : managerImpl := built "boost" m0.
Definition c1 := Nat.iter 18 advance (c0, [begin (CallAdd rt rt 0%nat) c0]).
Definition c2 := Nat.iter 2 advance (c1.1, [begin (CallGetForPod order_fwd web_pod) c1.1]).

Lemma reach_c1 :
  rtc (wstep false) (watch_start true start)
    {| w_conf := (c1.1, []); w_handled := [created]; w_current := None |}.
Proof.
  eapply rtc_r; [|apply (wstep_done false c1 [] created); vm_compute; reflexivity].
  apply wstep_sections; [|vm_compute; reflexivity]. apply rtc_once.
  apply (w_event false m0 c0 [] created (CallAdd rt rt 0%nat)).
  - split; [reflexivity|]. split; [vm_compute; reflexivity|]. by exists ("app", ["web"]).
  - apply (ec_create false m0 (boost_spec "boost") rt rt 0%nat (m_go c0)). reflexivity.
Defined.

Definition w2 : WatchState := {| w_conf := c2; w_handled := [created]; w_current := None |}.

Lemma reach_w2 : rtc (wstep false) (watch_start true start) w2.
Proof.
  apply (wstep_sections false 2); [|vm_compute; reflexivity]. eapply rtc_r; [apply reach_c1|].
  apply (w_lock false c1.1 [] [created] None (CallGetForPod order_fwd web_pod)); [done|done|].
  apply Forall_nil_2.
Defined.

Example concurrent_registry_follows_cluster_witness :
  represents false (committed (w_conf w2)) (store_of (w_handled w2)) ∧
  ∃ t, t ∈ (w_conf w2).2 ∧ follows (store_of (w_handled w2)) (w_conf w2).1 t.
Proof.
  destruct (concurrent_registry_follows_cluster false true start w2 eq_refl reach_w2) as [Hrep Hall].
  split; [exact Hrep|]. assert (length (w_conf w2).2 = 1%nat) as Hlen by (vm_compute; reflexivity).
  destruct (w_conf w2).2 as [|t ts]; [discriminate Hlen|]. exists t. split; [left|]. apply Hall. left.
Defined.

(** The webhook was given the boost. *)
Example c2_answer :
  match c2.2 with
  | [{| t_call := CallGetForPod _ _; t_rest := Stop (Some b) |}] => b = 0%nat
  | _ => False
  end.
Proof. vm_compute. reflexivity. Qed.
End witness.
