(* ===== verification/Lifecycle.v ===== *)
(** * The life of a boosted pod

    From the admission webhook (PodWebhook) over the check of the manager
    (ManagerTick, ManagerLoop) to the API server (Client): a pod whose time
    is over gets its original resources back during the next check, however
    its goroutines are scheduled and whatever else the program does to other
    pods meanwhile. *)

From S2P Require Import Prelude Quantities Kube Api Duration Resource Qos BoostPod Metrics Client Boost BoostServer.
From S2P Require Import PodWebhook Namespaced Manager ManagerTick ManagerLoop BoostController Operator.
From S2P Require Import ConcreteServer.

(** ** Reversions and a server that serves *)

Section server.
Context `{QuantityLaws} `{SelectorLib} `{AnnotationJSON} `{!PatchLib} `{MetricVecLib} `{!PodClient}.
Context `{!PodClientBasics} `{!PodClientLaws} `{!PodServer}.
Implicit Types (s : GoState) (k : string * string).

(** Pod [k] is left alone and the server goes on serving. *)
Definition elsewhere k (w w' : World) : Prop :=
  (accepting w → accepting w') ∧ w_pods w' !! k = w_pods w !! k.

Lemma elsewhere_trans k w w' w'' : elsewhere k w w' → elsewhere k w' w'' → elsewhere k w w''.
Proof. intros [? ?] [? ?]. split; [auto|congruence]. Qed.

Lemma go_Patch_elsewhere k sub patch p s e s' :
  go_Patch sub patch p s = Done (e, s') → k ≠ key (s_pods s p) → elsewhere k (s_world s) (s_world s').
Proof.
  unfold go_Patch. destruct (client_Patch _ _ _ _) as [[[e' pod'] w']|] eqn:E; [|done].
  intros [= <- <-] Hk. apply patch_elsewhere in E as [? Ho]. split; [done|]. by apply Ho.
Qed.

Lemma go_Patch_accepting sub patch p s e s' :
  go_Patch sub patch p s = Done (e, s') → accepting (s_world s) → accepting (s_world s').
Proof.
  unfold go_Patch. destruct (client_Patch _ _ _ _) as [[[e' pod'] w']|] eqn:E; [|done].
  intros [= <- <-]. by apply patch_elsewhere in E as [? _].
Qed.

Lemma go_Update_elsewhere k p s e s' :
  go_Update p s = Done (e, s') → k ≠ key (s_pods s p) → elsewhere k (s_world s) (s_world s').
Proof.
  unfold go_Update. destruct (client_Update _ _) as [[e' pod'] w'] eqn:E.
  intros [= <- <-] Hk. apply update_elsewhere in E as [? Ho]. split; [done|]. by apply Ho.
Qed.

Lemma touches_key_eq p s s' : touches_pod p s s' → key (s_pods s' p) = key (s_pods s p).
Proof. intros [_ _ _ _ _ [Hn Hns]]. unfold key. congruence. Qed.

Lemma release_elsewhere k b p s e s' :
  release b p s = Done (e, s') → k ≠ key (s_pods s p) → elsewhere k (s_world s) (s_world s').
Proof.
  unfold release, deref_boost. go_unfold. intros Hr Hk. destruct (b_legacyRevertMode _).
  - apply bind_inv in Hr as (e1 & s1 & Hs1 & Hr).
    assert (s_world s1 = s_world s ∧ key (s_pods s1 p) = key (s_pods s p)) as [<- Hk1].
    { split; [|by eapply touches_key_eq, go_RevertResourceBoost_touches]. unfold go_RevertResourceBoost in Hs1.
      destruct (RevertResourceBoost _) as [[? ?]|]; [|done]. by injection Hs1 as <- <-. }
    destruct e1; [by injection Hr as <- <-|]. eapply go_Update_elsewhere; [done|congruence].
  - apply bind_inv in Hr as (e1 & s1 & Hs1 & Hr).
    assert (key (s_pods s1 p) = key (s_pods s p)) as Hk1 by (by eapply touches_key_eq, go_Patch_touches).
    apply (go_Patch_elsewhere k) in Hs1; [|done]. destruct e1; [by injection Hr as <- <-|].
    apply bind_inv in Hr as (e2 & s2 & Hs2 & Hr). apply (go_Patch_elsewhere k) in Hs2; [|congruence].
    destruct e2; injection Hr as <- <-; by eapply elsewhere_trans.
Qed.

Lemma revert_elsewhere k σ b p s e s' :
  RevertResources σ b p s = Done (e, s') → k ≠ key (s_pods s p) → elsewhere k (s_world s) (s_world s').
Proof.
  unfold RevertResources. rewrite revertResources_release. intros Hr Hk.
  destruct (release b p s) as [[e1 s1]|] eqn:E; [|done]. apply (release_elsewhere k) in E; [|done].
  destruct e1; by injection Hr as <- <-.
Qed.

(** The server accepts the patch of the resources, then that of the labels,
    and the update of the legacy mode. *)
Lemma Patch_resources_accepted p s a srv :
  let pod := s_pods s p in
  accepting (s_world s) → revertible pod a → w_pods (s_world s) !! key pod = Some srv → srv ≡ pod →
  ∃ s', go_Patch (Some ResizeSubResourceName) revertBoostResourcesPatch p s = Done (None, s').
Proof.
  intros pod Hacc Hrev Hsrv Heq.
  destruct (resources_patch_ok _ _ Hrev) as (j & j' & d & _ & _ & _ & Hd).
  destruct (accepting_resize (s_world s) _ _ _ _ Hacc Hsrv Heq Hd) as (obj' & w' & Hp).
  change "resize" with ResizeSubResourceName in Hp. unfold go_Patch. fold pod. rewrite Hp. eauto.
Qed.

Lemma Patch_labels_accepted p s srv :
  let pod := s_pods s p in
  accepting (s_world s) → w_pods (s_world s) !! key pod = Some srv → srv ≡ pod →
  ∃ s', go_Patch None revertBoostLabelsPatch p s = Done (None, s').
Proof.
  intros pod Hacc Hsrv Heq. destruct (labels_patch_ok pod) as (j & j' & d & Hj & Hj' & Hd' & Hd).
  destruct (accepting_labels (s_world s) _ _ _ _ Hacc Hsrv Heq Hd) as (obj' & w' & Hp).
  unfold go_Patch. fold pod. rewrite Hp. eauto.
Qed.

Lemma revert_accepted σ b p s a srv :
  let pod := s_pods s p in
  accepting (s_world s) → revertible pod a → w_pods (s_world s) !! key pod = Some srv → srv ≡ pod →
  ∃ s', RevertResources σ b p s = Done (None, s') ∧ accepting (s_world s').
Proof.
  intros pod Hacc Hrev Hsrv Heq. unfold RevertResources. rewrite revertResources_release.
  enough (∃ s1, release b p s = Done (None, s1) ∧ accepting (s_world s1)) as (s1 & -> & Hacc1) by eauto.
  unfold release, deref_boost. go_unfold. destruct (b_legacyRevertMode _).
  - unfold updateBoostPodLegacy, go_RevertResourceBoost, RevertResourceBoost. go_unfold. fold pod.
    rewrite (revertBoostResources_ok _ _ Hrev). cbn [mbind outcome_bind].
    unfold revertBoostLabels, go_Update. rewrite s_pods_set_pod_eq.
    destruct (accepting_Update (s_world s) pod (unlabelled (restored a pod)) _ Hacc Hsrv Heq) as (obj' & w' & Hu).
    { unfold RevertResourceBoost. by rewrite (revertBoostResources_ok _ _ Hrev). }
    cbn [s_world set_pod]. fold (unlabelled (restored a pod)). rewrite Hu. eexists. split; [done|].
    by apply update_elsewhere in Hu as [? _]; auto.
  - unfold updateBoostPod.
    destruct (Patch_resources_accepted p s a srv Hacc Hrev Hsrv Heq) as (s1 & Hp1).
    destruct (go_Patch_resources _ _ _ _ _ Hrev Hsrv Heq Hp1) as [Hpod Hw].
    rewrite (bind_Done _ _ _ _ _ Hp1).
    assert (accepting (s_world s1)) as Hacc1 by (by eapply go_Patch_accepting).
    destruct (Patch_labels_accepted p s1 (s_pods s1 p) Hacc1) as (s2 & Hp2); [|done|].
    + by rewrite (touches_key_eq p s s1), Hw, lookup_insert_eq by (by eapply go_Patch_touches).
    + rewrite (bind_Done _ _ _ _ _ Hp2). exists s2. split; [done|]. by eapply go_Patch_accepting.
Qed.
End server.

(** ** How often a task is handed out *)

Section times.
Context {A : Type} `{EqDecision A}.

Definition times (x : A) (l : list A) : nat := length (filter (λ y, y = x) l).

Lemma times_app x l l' : times x (l ++ l') = (times x l + times x l')%nat.
Proof. unfold times. by rewrite filter_app, length_app. Qed.

Lemma times_perm x l l' : l ≡ₚ l' → times x l = times x l'.
Proof. intros Hl. unfold times. by rewrite Hl. Qed.

Lemma times_in x l : x ∈ l → (1 ≤ times x l)%nat.
Proof.
  intros Hx. unfold times. destruct (filter _ l) eqn:Hf; [|cbn; lia].
  assert (x ∈ filter (λ y, y = x) l) as Hin by (by apply list_elem_of_filter).
  rewrite Hf in Hin. by apply elem_of_nil in Hin.
Qed.

Lemma times_notin x l : x ∉ l → times x l = 0%nat.
Proof.
  intros Hx. unfold times. induction l as [|y l IH]; [done|]. apply not_elem_of_cons in Hx as [Hy Hx].
  rewrite filter_cons_False by congruence. auto.
Qed.

Lemma times_NoDup x l : NoDup l → (times x l ≤ 1)%nat.
Proof.
  induction 1 as [|y l Hy _ IH]; [cbn; lia|]. change (y :: l) with ([y] ++ l). rewrite times_app.
  destruct (decide (y = x)) as [->|Hne].
  - rewrite (times_notin x l) by done. unfold times. rewrite filter_cons_True by done. cbn. lia.
  - rewrite (times_notin x [y]); [lia|]. set_solver.
Qed.
End times.

(** A value with one key is met at most once among those a map holds. *)
Lemma times_range {A} `{EqDecision A} (σ : RangeOrder) (m : gmap string A) (n : string) (x : A)
    (P : string * A → Prop) `{!∀ e, Decision (P e)} :
  (∀ n', m !! n' = Some x → n' = n) → (times x (filter P (go_range σ m)).*2 ≤ 1)%nat.
Proof.
  intros Hx. etrans; [|apply (times_NoDup (n, x)), (NoDup_go_range σ m)].
  assert (∀ n', (n', x) ∈ go_range σ m → n' = n) as Hl by (intros n' ?%elem_of_go_range; auto).
  revert Hl. generalize (go_range σ m). unfold times. induction l as [|[n' y] l IH]; intros Hl; [cbn; lia|].
  rewrite (filter_cons P), (filter_cons (λ z, z = (n, x))).
  assert (length (filter (λ z, z = x) (filter P l).*2) ≤ length (filter (λ z, z = (n, x)) l))%nat as IHl
    by (apply IH; intros ? ?; apply Hl; by right).
  destruct (decide (P (n', y))); [|case_decide; cbn; lia]. rewrite fmap_cons, filter_cons. cbn [snd].
  destruct (decide (y = x)) as [->|Hne].
  - rewrite (Hl n') in * by left. rewrite decide_True by done. cbn. lia.
  - rewrite decide_False by naive_solver. done.
Qed.

(** ** A pod that waits for its reversion, and afterwards *)

Section life.
Context `{QuantityLaws} `{SelectorLib} `{AnnotationJSONLaws} `{!PatchLib} `{MetricVecLib} `{!PodClient}.
Context `{!PodClientBasics} `{!PodClientLaws} `{!PodServer}.
(** The pod as it was admitted, and as the webhook changed it; the boost and
    the copy it tracks; an instant at which the boost is over; the pod's
    namespace and name. *)
Context (pod pod' : Pod) (b : BoostRef) (p : PodRef) (t0 : Z) (k : string * string).
Implicit Types (s : GoState) (c : Tick) (t : podRevertTask).

(** Reverting [t] concerns the pod, or the boost's entry for its name. *)
Definition contends s t : Prop :=
  t.2 = p ∨ key (s_pods s t.2) = k ∨ t.1 = b ∧ pod_Name (s_pods s t.2) = k.2.

(** The time of the pod is over.  The copy is what the server stores, with
    the containers and the annotation the webhook gave it; only the boost
    tracks the pod; the server serves. *)
Record waiting s : Prop := {
  wt_expired : expired t0 b p s;
  wt_key : key (s_pods s p) = k;
  wt_containers : pod_Containers (s_pods s p) = pod_Containers pod';
  wt_annotation : gm_get (pod_Annotations (s_pods s p)) BoostAnnotationKey =
                  gm_get (pod_Annotations pod') BoostAnnotationKey;
  wt_stored : ∃ srv, w_pods (s_world s) !! k = Some srv ∧ srv ≡ s_pods s p;
  wt_server : accepting (s_world s);
  wt_owner b' n p' : b_pods (s_boosts s b') !! n = Some p' → contends s (b', p') →
    b' = b ∧ p' = p ∧ n = k.2
}.

(** The server stores the pod with its original containers, without the
    label and the annotation, and no boost tracks it. *)
Record reverted s : Prop := {
  rv_stored : ∃ stored, w_pods (s_world s) !! k = Some stored ∧
    pod_Containers stored ≡ pod_Containers pod ∧
    gm_get (pod_Labels stored) BoostLabelKey = None ∧
    gm_get (pod_Annotations stored) BoostAnnotationKey = None;
  rv_untracked b' n p' : b_pods (s_boosts s b') !! n = Some p' → ¬ contends s (b', p')
}.

(** A step of the check after instant [t0].  What the rest of the program
    does before it lets the pod wait, or leaves it reverted, and renames no
    pod that was handed out. *)
Definition undisturbed_step (N : nat) c c' : Prop :=
  ∃ s a, (waiting (t_go c) → waiting s) ∧ (reverted (t_go c) → reverted s) ∧
    (∀ t, t ∈ t_produced c → same_key (s_pods (t_go c) t.2) (s_pods s t.2)) ∧
    (∀ σ now, a = RunProducer σ now → ∀ n, t0 ≤ now n) ∧
    fire N a (t_set_go s c) = Some (Done c').

Lemma contends_same s s' t :
  same_key (s_pods s t.2) (s_pods s' t.2) → contends s' t → contends s t.
Proof. intros [Hn Hns]. unfold contends, key. by rewrite Hn, Hns. Qed.

(** What a reversion leaves of the boosts. *)
Lemma revert_pods σ t s err s' :
  RevertResources σ t.1 t.2 s = Done (err, s') →
  (∀ b', b_durationPolicies (s_boosts s' b') = b_durationPolicies (s_boosts s b')) ∧
  (∀ b' n p', b_pods (s_boosts s' b') !! n = Some p' → b_pods (s_boosts s b') !! n = Some p' ∧
     (err = None → ¬ (b' = t.1 ∧ n = pod_Name (s_pods s t.2)))) ∧
  (∀ b' n p', b_pods (s_boosts s b') !! n = Some p' → ¬ (b' = t.1 ∧ n = pod_Name (s_pods s t.2)) →
     b_pods (s_boosts s' b') !! n = Some p') ∧
  (∀ p', p' ≠ t.2 → s_pods s' p' = s_pods s p') ∧ (∀ p', same_key (s_pods s p') (s_pods s' p')).
Proof.
  unfold RevertResources. intros Hr.
  assert (∀ p', same_key (s_pods s p') (s_pods s' p')) as Hkey by (by eapply frame_key, revertResources_frame).
  destruct (revertResources_cases σ t.1 t.2 s) as (e & s1 & Hr' & Hc). rewrite Hr' in Hr. injection Hr as -> ->.
  destruct err as [e|].
  - destruct Hc as [Hb _ _ _ Ho _]. rewrite Hb. naive_solver.
  - destruct Hc as ([Ho Hid Hp _] & _ & Hpo).
    assert (∀ b' n, b_pods (s_boosts s' b') !! n =
      if decide (b' = t.1 ∧ n = pod_Name (s_pods s t.2)) then None else b_pods (s_boosts s b') !! n) as Hl.
    { intros b' n. destruct (decide (b' = t.1)) as [->|Hne].
      - rewrite Hp, lookup_delete. repeat case_decide; naive_solver.
      - rewrite Ho by done. rewrite decide_False by naive_solver. done. }
    split_and!; [|..|done|done].
    + intros b'. destruct (decide (b' = t.1)) as [->|Hne]; [|by rewrite Ho]. by destruct Hid as (_ & _ & _ & -> & _).
    + intros b' n p'. rewrite Hl. case_decide; [done|]. naive_solver.
    + intros b' n p' Hn Hne. by rewrite Hl, decide_False.
Qed.

(** Other reversions change nothing about the pod. *)
Lemma waiting_other σ t s err s' :
  waiting s → ¬ contends s t → RevertResources σ t.1 t.2 s = Done (err, s') → waiting s'.
Proof.
  intros [Hexp Hk Hcs Han Hst Hacc Hown] Hno Hr.
  destruct (revert_elsewhere k _ _ _ _ _ _ Hr) as [Hacc' Hw'].
  { intros Hk'. apply Hno. right. by left. }
  destruct (revert_pods _ _ _ _ _ Hr) as (Hdp & Hold & Hnew & Hpo & Hkey).
  assert (s_pods s' p = s_pods s p) as Hp by (apply Hpo; intros ->; apply Hno; by left).
  split; rewrite ?Hp, ?Hw'; try done; [|by auto|].
  - destruct Hexp as (n & pol & Hpol & Hn & Hv). exists n, pol. rewrite Hdp, Hp. split_and!; [done| |done].
    apply Hnew; [done|]. intros [-> ->]. destruct (Hown _ _ _ Hn) as (_ & _ & Hn2); [by left|].
    apply Hno. by right; right.
  - intros b' n p' [Hn _]%Hold Hc%(contends_same s); [|apply Hkey]. by eapply Hown.
Qed.

Lemma reverted_other σ t s err s' :
  reverted s → ¬ contends s t → RevertResources σ t.1 t.2 s = Done (err, s') → reverted s'.
Proof.
  intros [Hst Hun] Hno Hr. destruct (revert_elsewhere k _ _ _ _ _ _ Hr) as [_ Hw'].
  { intros Hk'. apply Hno. right. by left. }
  destruct (revert_pods _ _ _ _ _ Hr) as (_ & Hold & _ & _ & Hkey).
  split; [by rewrite Hw'|]. intros b' n p' [Hn _]%Hold Hc%(contends_same s); [|apply Hkey]. by eapply Hun.
Qed.

Section boosted.
Context (h : podCPUBoostHandler) (σw : nat → nat → RangeOrder) (nw : Z) (bi : StartupCPUBoostImpl).
Context (Hnd : NoDup (c_Name <$> pod_Containers pod)) (Hdec : Forall decoded (pod_Containers pod)).
Context (Hboosts : boosts h bi pod) (Hpod' : boostContainerResources h σw nw bi pod = Done pod').

(** Its own reversion succeeds. *)
Lemma waiting_revert σ s err s' :
  waiting s → RevertResources σ b p s = Done (err, s') → err = None ∧ reverted s'.
Proof.
  intros [Hexp Hk Hcs Han (srv & Hsrv & Heq) Hacc Hown] Hr. rewrite <-Hk in Hsrv.
  destruct (boosted_pod_revertible h σw nw bi pod pod' _ Hnd Hdec Hboosts Hpod' Hcs Han) as (a & Hrev & _).
  destruct (revert_accepted σ b p s a srv Hacc Hrev Hsrv Heq) as (s1 & Hr1 & _).
  rewrite Hr in Hr1. injection Hr1 as -> <-. split; [done|].
  destruct (boosted_pod_restored h σw nw bi pod pod' σ b p s s' srv Hnd Hdec Hboosts Hpod' Hcs Han Hsrv Heq Hr)
    as (stored & Hw & Hcont & Hlab & Hann & _).
  destruct (revert_pods σ (b, p) s None s' Hr) as (_ & Hold & _ & _ & Hkey). split.
  - exists stored. rewrite Hw, Hk, lookup_insert_eq. done.
  - intros b' n p' [Hn Hne]%Hold Hc%(contends_same s); [|apply Hkey].
    destruct (Hown _ _ _ Hn Hc) as (-> & -> & ->). apply (Hne eq_refl). by rewrite <-Hk.
Qed.

(** ** The check *)

(** Where the pod is during a check: it waits and its task is still to be
    handed out or carried out, or it is reverted. *)
Record life c : Prop := {
  lf_nodup : NoDup (pr_boosts (t_producer c));
  lf_later t : t ∈ t_produced c → t.1 ∉ pr_boosts (t_producer c);
  lf_tasks t : t ∈ t_produced c → contends (t_go c) t → t = (b, p);
  lf_once : (times (b, p) (t_produced c) ≤ 1)%nat;
  lf_state :
    (((b, p) ∉ (t_done c).*1) ∧ waiting (t_go c) ∧
      ((b, p) ∈ t_produced c ∨ b ∈ pr_boosts (t_producer c))) ∨
    ((b, p) ∈ (t_done c).*1 ∧ reverted (t_go c))
}.

Lemma life_interfere s c :
  (waiting (t_go c) → waiting s) → (reverted (t_go c) → reverted s) →
  (∀ t, t ∈ t_produced c → same_key (s_pods (t_go c) t.2) (s_pods s t.2)) →
  life c → life (t_set_go s c).
Proof.
  intros Hwt Hrv Hkey [Hnd' Hlat Htasks Honce Hst]. split; cbn; try done; [|naive_solver].
  intros t Ht Hc. apply Htasks; [done|]. eapply contends_same; [by apply Hkey|done].
Qed.

(** What a boost hands out contends for the pod only if it is the pod. *)
Lemma validated_task σ now b1 pods s p' :
  waiting s ∨ reverted s →
  ValidatePolicy σ now b1 duration.FixedDurationPolicyName s = Done (pods, s) →
  p' ∈ pods → contends s (b1, p') → waiting s ∧ (b1, p') = (b, p).
Proof.
  intros Hst Hv Hp' Hc.
  destruct (ValidatePolicy_spec σ now b1 duration.FixedDurationPolicyName s) as (l & Hv' & Hl).
  rewrite Hv in Hv'. injection Hv' as <-. apply Hl in Hp' as (_ & n & _ & Hn & _).
  destruct Hst as [Hwt|Hrv]; [|by destruct (rv_untracked _ Hrv _ _ _ Hn)].
  split; [done|]. by destruct (wt_owner _ Hwt _ _ _ Hn Hc) as (-> & -> & _).
Qed.

Lemma validated_once σ now pods s :
  waiting s ∨ reverted s →
  ValidatePolicy σ now b duration.FixedDurationPolicyName s = Done (pods, s) → (times p pods ≤ 1)%nat.
Proof.
  intros Hst. unfold ValidatePolicy, deref_boost. go_unfold.
  destruct (b_durationPolicies _ !! _) as [pol|]; intros [= <-]; [|cbn; lia].
  apply (times_range _ _ k.2). intros n Hn.
  destruct Hst as [Hwt|Hrv].
  - by destruct (wt_owner _ Hwt _ _ _ Hn) as (_ & _ & ->); [left|].
  - destruct (rv_untracked _ Hrv _ _ _ Hn). by left.
Qed.

Lemma times_tasks b1 pods :
  times (b, p) ((λ q, (b1, q)) <$> pods : list podRevertTask) = if decide (b1 = b) then times p pods else 0%nat.
Proof.
  case_decide as Hb.
  - subst b1. unfold times. induction pods as [|q pods IH]; [done|]. rewrite fmap_cons, !filter_cons.
    repeat case_decide; cbn; naive_solver.
  - apply times_notin. intros (q & ? & _)%list_elem_of_fmap. naive_solver.
Qed.

(** A task that was handed out once is not carried out twice. *)
Lemma reverting_not_done c i t :
  data_inv c → t_workers c !! i = Some (Reverting t) → (times t (t_produced c) ≤ 1)%nat →
  t ∈ (t_done c).*1 → False.
Proof.
  intros Hd Hi Honce Hdone. rewrite (times_perm _ _ _ (di_tasks _ Hd)), !times_app in Honce.
  assert (t ∈ t_workers c ≫= w_task) as Hw%times_in.
  { apply list_elem_of_bind. exists (Reverting t). split; [left|]. by eapply list_elem_of_lookup_2. }
  apply times_in in Hdone. lia.
Qed.

Lemma life_progress a c c' :
  (∀ σ now, a = RunProducer σ now → ∀ n, t0 ≤ now n) →
  data_inv c → progressed a c c' → life c → life c'.
Proof.
  intros Hnow Hd [Hb Hp Hdn Hg|σ now b1 pods Ha Hb Hv Hp Hdn Hg|i σ t err Hi Hr Hb Hp Hdn]
    [Hnd' Hlat Htasks Honce Hst].
  - split; rewrite ?Hb, ?Hp, ?Hdn, ?Hg; done.
  - assert (waiting (t_go c) ∨ reverted (t_go c)) as Hst' by naive_solver.
    rewrite Hb in *. apply NoDup_cons in Hnd' as [Hb1 Hnd']. split; rewrite ?Hp, ?Hdn, ?Hg; [done|..].
    + intros t [Ht%Hlat|Ht]%elem_of_app; [by intros ?; apply Ht; right|].
      apply list_elem_of_fmap in Ht as (p' & -> & _). done.
    + intros t [Ht|(p' & -> & Hp')%list_elem_of_fmap]%elem_of_app Hc; [by apply Htasks|].
      by eapply validated_task.
    + rewrite times_app, times_tasks. case_decide; [subst b1|lia].
      rewrite (times_notin (b, p) (t_produced c)); [by eapply validated_once|].
      intros Hin%Hlat. apply Hin. left.
    + destruct Hst as [(Hno & Hwt & Hin)|]; [left|by right]. split_and!; [done|done|].
      destruct Hin as [|[<-|]%elem_of_cons]; [left; apply elem_of_app; by left| |by right].
      left. apply elem_of_app. right. apply list_elem_of_fmap. exists p. split; [done|].
      eapply validate_hands_out; [done|by eapply Hnow|apply (wt_expired _ Hwt)].
  - assert (∀ t', contends (t_go c') t' → contends (t_go c) t') as Hcont.
    { intros t'. apply contends_same. by apply (revert_pods _ _ _ _ _ Hr). }
    pose proof (reverting_produced _ _ _ Hd Hi) as Ht.
    split; rewrite ?Hb, ?Hp, ?Hdn, ?fmap_app; [done|done|by auto|done|]. cbn [fmap list_fmap fst].
    destruct (decide (t = (b, p))) as [->|Hne].
    + right. split; [apply elem_of_app; right; left|].
      destruct Hst as [(_ & Hwt & _)|[Hin _]]; [by eapply waiting_revert|].
      exfalso. by eapply reverting_not_done.
    + assert (¬ contends (t_go c) t) as Hno by auto.
      destruct Hst as [(Hnot & Hwt & Hin)|[Hin Hrv]]; [left|right].
      * split_and!; [|by eapply waiting_other|done]. rewrite elem_of_app, list_elem_of_singleton. naive_solver.
      * split; [apply elem_of_app; by left|by eapply reverted_other].
Qed.

Lemma life_step N c c' : data_inv c → undisturbed_step N c c' → life c → life c'.
Proof.
  intros Hd (s & a & Hwt & Hrv & Hkey & Hnow & Hf%fire_progressed) Hlf.
  apply (life_progress _ _ _ Hnow (set_go_data s _ Hd) Hf). by apply life_interfere.
Qed.

Lemma undisturbed_progress N c :
  (0 < N)%nat → control_inv N c → finished c ∨ ∃ c', undisturbed_step N c c'.
Proof.
  intros HN Hc. destruct (prompt_progress N t0 c HN Hc) as [|(a & c' & Ha & Hf)]; [by left|right].
  by exists c', (t_go c), a.
Qed.

Lemma life_finished boosts s c :
  rtc (tick_step DefaultMaxGoroutines) (tick_start boosts DefaultMaxGoroutines s) c →
  finished c → life c → reverted (t_go c).
Proof.
  intros Hr Hfin Hlf. destruct (finished_result _ _ _ Hr Hfin) as (Hbs & Hp & _).
  destruct (lf_state _ Hlf) as [(Hnot & _ & [Hin|Hin])|[_ Hrv]]; [|by rewrite Hbs in Hin; apply elem_of_nil in Hin|done].
  by rewrite Hp in Hin.
Qed.
End boosted.
End life.

(** ** A pod that meets the condition of its boost *)

Section condition.
Context `{QuantityLaws} `{SelectorLib} `{AnnotationJSONLaws} `{!PatchLib} `{MetricVecLib} `{!PodClient}.
Context `{!PodClientBasics} `{!PodClientLaws} `{!PodServer}.

Lemma upsert_restores h σw nw bi pod pod' σ σ' now b p s srv :
  NoDup (c_Name <$> pod_Containers pod) → Forall decoded (pod_Containers pod) →
  boosts h bi pod → boostContainerResources h σw nw bi pod = Done pod' →
  let cur := s_pods s p in
  pod_Containers cur = pod_Containers pod' →
  gm_get (pod_Annotations cur) BoostAnnotationKey = gm_get (pod_Annotations pod') BoostAnnotationKey →
  condition_met now (s_boosts s b) cur = true →
  accepting (s_world s) → w_pods (s_world s) !! key cur = Some srv → srv ≡ cur →
  ∃ s' stored, UpsertPod σ σ' now b p s = Done (None, s') ∧
    w_pods (s_world s') = <[key cur := stored]> (w_pods (s_world s)) ∧
    pod_Containers stored ≡ pod_Containers pod ∧
    gm_get (pod_Labels stored) BoostLabelKey = None ∧
    gm_get (pod_Annotations stored) BoostAnnotationKey = None ∧
    b_pods (s_boosts s' b) !! pod_Name cur = None.
Proof.
  intros Hnd Hdec Hboosts Hpod' cur Hcs Han Hmet Hacc Hsrv Heq. rewrite UpsertPod_eq. cbn zeta.
  fold cur. rewrite Hmet. set (e := match b_pods (s_boosts s b) !! pod_Name cur with Some _ => _ | None => _ end).
  destruct (track_effect b e p (<[pod_Name cur := p]> (b_pods (s_boosts s b))) s) as (_ & _ & Hp & Hw).
  cbn zeta in Hp, Hw. set (s2 := stats_state b e p _) in *.
  assert (s_pods s2 p = cur) as Hcur by (by rewrite Hp).
  rewrite <-Hcur in Hcs, Han, Hsrv, Heq. rewrite <-Hw in Hacc, Hsrv.
  destruct (boosted_pod_revertible h σw nw bi pod pod' _ Hnd Hdec Hboosts Hpod' Hcs Han) as (a & Hrev & _).
  destruct (revert_accepted σ' b p s2 a srv Hacc Hrev Hsrv Heq) as (s' & Hr & _).
  destruct (boosted_pod_restored h σw nw bi pod pod' σ' b p s2 s' srv Hnd Hdec Hboosts Hpod' Hcs Han Hsrv Heq Hr)
    as (stored & Hst). rewrite Hcur, Hw in Hst. exists s', stored. unfold RevertResources in Hr. by rewrite Hr.
Qed.
End condition.

(** ** Properties *)

Section properties.
Context `{QuantityLaws} `{SelectorLib} `{AnnotationJSONLaws} `{!PatchLib} `{MetricVecLib} `{!PodClient}.
Context `{!PodClientBasics} `{!PodClientLaws} `{!PodServer}.

(** C1: from admission to the end of the boost, through every component.
    Let the webhook have boosted some container of a pod, and let a
    registered boost with a fixed duration track a copy of it that is up to
    date, that no other boost tracks, and whose time is over.  Then under
    every scheduling of the goroutines of the next check, and with any
    interference that leaves this pod alone, the check eventually ends, and
    when it does the API server stores the pod with the containers it was
    admitted with, resources included, and without the label and the
    annotation of the boost, and no boost tracks it any more. *)
Theorem expired_pods_restored h σw nw bi pod pod' client s m σ τ n ns b p t0 k :
  NoDup (c_Name <$> pod_Containers pod) → Forall decoded (pod_Containers pod) →
  boosts h bi pod → boostContainerResources h σw nw bi pod = Done pod' →
  s_nextBoost s = 0%nat → rtc mgr_step (NewManagerWithTicker client s) m →
  GetRegularCPUBoost n ns m = Some b → waiting pod' b p t0 k (m_go m) →
  eventually (undisturbed_step pod pod' b p t0 k (m_maxGoroutines m))
    (λ c, finished c ∧ reverted pod b p k (t_go c)) (validateTimePolicyBoosts_start σ τ m).
Proof.
  intros Hnd Hdec Hboosts Hpod' Hs Hm Hb Hwt. pose proof (reachable_max _ _ _ Hm) as HN.
  pose proof (Manager.reachable_inv _ _ _ Hs Hm) as Hinv.
  unfold validateTimePolicyBoosts_start. rewrite HN. set (c0 := tick_start _ _ _).
  apply (eventually_acc _ (λ c, rtc (tick_step DefaultMaxGoroutines) c0 c ∧ life pod pod' b p t0 k c)).
  - apply (Acc_impl (λ c2 c1, tick_step DefaultMaxGoroutines c1 c2)); [apply tick_acc, start_control|].
    intros c c' (s' & a & _ & _ & _ & _ & Hf). by exists s', a.
  - split; [done|]. split; cbn; [by apply timed_listed|by intros t ?%elem_of_nil..|lia|].
    left. split_and!; [by intros ?%elem_of_nil|done|right]. apply elem_of_ListAll. exists n, ns.
    apply (inv_fixed _ _ Hinv); [done|done|]. by destruct (wt_expired _ _ _ _ _ _ Hwt) as (_ & pol & -> & _).
  - intros c c' [Hr Hlf] Hstep. destruct (tick_reachable _ _ _ _ Hr) as [_ Hd].
    split; [|by eapply life_step]. destruct Hstep as (s' & a & _ & _ & _ & _ & Hf).
    eapply rtc_r; [exact Hr|by exists s', a].
  - intros c [Hr Hlf]. destruct (tick_reachable _ _ _ _ Hr) as [Hc _].
    destruct (undisturbed_progress pod pod' b p t0 k DefaultMaxGoroutines c) as [Hfin|];
      [unfold DefaultMaxGoroutines; lia|done|left|by right].
    split; [done|]. by eapply life_finished.
Qed.

(** C2: the other end of a boost.  Let the webhook have boosted some
    container of a pod, and let the watch report that its conditions changed.
    If the boost that matches the pod has a condition for its end that the
    pod now meets, if the reported object is what the server stores and the
    server serves, then handling the event leaves the stored pod with the
    containers it was admitted with, resources included, and without the
    label and the annotation of the boost; the boost does not track the pod,
    the manager does not wait for a boost for it, and the boost is to be
    reconciled.  No other stored pod changes. *)
Theorem ready_pods_restored h σw nw bi pod pod' legacy client s m rt rt' old p b srv :
  NoDup (c_Name <$> pod_Containers pod) → Forall decoded (pod_Containers pod) →
  boosts h bi pod → boostContainerResources h σw nw bi pod = Done pod' →
  s_nextBoost s = 0%nat → rtc mgr_step (NewManagerWithTicker client s) m →
  (p < s_nextPod (m_go m))%nat →
  let cur := s_pods (m_go m) p in
  pod_Containers cur = pod_Containers pod' →
  gm_get (pod_Annotations cur) BoostAnnotationKey = gm_get (pod_Annotations pod') BoostAnnotationKey →
  is_Some (gm_get (pod_Labels cur) BoostLabelKey) →
  pod_Conditions cur ≠ pod_Conditions (s_pods (m_go m) old) →
  GetCPUBoostForPod_ref (rt_order rt 0) cur m = Some b →
  condition_met (rt_now rt 0) (s_boosts (m_go m) b) cur = true →
  accepting (s_world (m_go m)) → w_pods (s_world (m_go m)) !! key cur = Some srv → srv ≡ cur →
  ∃ m' stored,
    dispatch legacy rt rt' (UpdateEvent (PodObject old) (PodObject p)) m =
      Done ([(b_name (s_boosts (m_go m) b), b_namespace (s_boosts (m_go m) b))], m') ∧
    w_pods (s_world (m_go m')) = <[key cur := stored]> (w_pods (s_world (m_go m))) ∧
    pod_Containers stored ≡ pod_Containers pod ∧
    gm_get (pod_Labels stored) BoostLabelKey = None ∧
    gm_get (pod_Annotations stored) BoostAnnotationKey = None ∧
    b_pods (s_boosts (m_go m') b) !! pod_Name cur = None ∧
    Get (pod_Name cur) (pod_Namespace cur) (m_orphanedPods m') = None.
Proof.
  intros Hnd Hdec Hboosts Hpod' Hs Hm Hlt cur Hcs Han [l Hlab] Hconds Hb Hmet Hacc Hsrv Heq.
  pose proof (Manager.reachable_inv _ _ _ Hs Hm) as Hinv.
  destruct (Manager_UpsertPod_spec rt p m Hinv Hlt) as ([r err] & m' & Hu & Hinv' & Hreg & Hr).
  fold cur in Hr. unfold GetCPUBoostForPod_ref in Hb. rewrite Hb in Hr. destruct Hr as (Hr1 & Hk & Hup & Ho).
  cbn [fst snd] in *. subst r.
  destruct (upsert_restores h σw nw bi pod pod' (rt_order rt 1) (rt_order rt 2) (rt_now rt 0) b p (m_go m) srv
    Hnd Hdec Hboosts Hpod' Hcs Han Hmet Hacc Hsrv Heq) as (s' & stored & Hup' & Hst).
  rewrite Hup in Hup'. injection Hup' as -> <-. exists m', stored. split; [|split_and!; try apply Hst].
  - apply getMatchingBoost_Some in Hb as [(n & Hn) _].
    destruct (inv_key _ _ Hinv _ _ _ Hn) as (-> & -> & _). rewrite <-Hreg in Hn.
    unfold dispatch, event_filter, Reconciler_Update. rewrite (bind_Done _ _ m true m) by done. cbn [negb event_object].
    rewrite (bind_Done _ _ m true m) by (unfold gets, GetPodLabelSelector_matches; fold cur; by rewrite Hlab).
    cbn [negb pod_handler PodHandler_Update]. unfold PodHandler_Update.
    rewrite (bind_Done _ _ m false m) by (unfold gets; fold cur; by rewrite bool_decide_false).
    rewrite (bind_Done _ _ _ _ _ Hu). by apply enqueue_registered.
  - by rewrite Ho, Get_Delete, decide_True.
Qed.
End properties.

(** ** Witness *)

Module witness.
#[local] Existing Instances ConcreteQuantity.lib ConcreteQuantity.laws ConcreteSelector.lib
  ConcreteJSON.json ConcreteJSON.json_laws ConcreteVec.lib ConcreteVec.laws json_patches server
  server_basics server_laws server_serves.
Import PodWebhook.witness.

(** The pod of the webhook, with conditions. *)
Definition pod_with (conditions : list PodCondition) : Pod := {|
  pod_Name := pod_Name boosted_two; pod_Namespace := pod_Namespace boosted_two;
  pod_Labels := Some {[BoostLabelKey := "boost"; "app" := "web"]}; pod_Annotations := pod_Annotations boosted_two;
  pod_Containers := pod_Containers boosted_two; pod_InitContainers := []; pod_Resources := None;
  pod_Conditions := conditions
|}.

Definition scheduled : PodCondition :=
  plain_condition PodScheduled ConditionTrue 0.
Definition running_pod : Pod := pod_with [scheduled].

Definition start : GoState := {|
  s_pods := λ _, two_containers; s_nextPod := 0%nat; s_boosts := λ _, doubling; s_nextBoost := 0%nat;
  s_metrics := s_metrics Manager.witness.start;
  s_world := {| stored := ∅; refusals := [] |}
|}.

(** A boost of a minute is created, then the pod, which the boost tracks
    from then on. *)
Definition rt : Runtime := Manager.witness.rt.
Definition m0 : managerImpl := NewManagerWithTicker true start.
Definition m1 : managerImpl :=
  result_state (AddRegularCPUBoost rt rt (Some 0%nat) (Manager.witness.built "boost" m0))
    (Manager.witness.built "boost" m0).
Definition m2 : managerImpl :=
  m_set_go (set_world {| stored := {[("demo", "web-1") := running_pod]}; refusals := [] |} (m_go m1)) m1.
Definition m3 : managerImpl := m_set_go (new_pod running_pod (m_go m2)) m2.
Definition m4 : managerImpl := result_state (Manager_UpsertPod rt 0%nat m3) m3.

Lemma reach_m4 : rtc mgr_step (NewManagerWithTicker true start) m4.
Proof.
  apply (rtc_l _ _ m1).
  { apply (step_add m0 (Manager.witness.boost_spec "boost") false 0%nat
      (m_go (Manager.witness.built "boost" m0)) rt rt None).
    - reflexivity.
    - apply succeeds_result. vm_compute; reflexivity. }
  apply (rtc_l _ _ m2); [apply step_world|].
  apply (rtc_l _ _ m3); [apply step_new_pod|].
  apply rtc_once. apply (step_upsert m3 rt 0%nat (Some 0%nat, None)); [vm_compute; lia|].
  apply returns_result. vm_compute; reflexivity.
Defined.

(** In the memory of [m4] there is one boost, which tracks one pod. *)
Lemma tracked_m4 b n p :
  b_pods (s_boosts (m_go m4) b) !! n = Some p → b = 0%nat ∧ p = 0%nat ∧ n = "web-1".
Proof.
  destruct b as [|b].
  - assert (b_pods (s_boosts (m_go m4) 0%nat) = {["web-1" := 0%nat]}) as -> by (vm_compute; reflexivity).
    by intros [<- <-]%lookup_singleton_Some.
  - assert (b_pods (s_boosts (m_go m4) (S b)) = ∅) as -> by (vm_compute; reflexivity). done.
Qed.

Definition two_minutes : Z := 120 * 1000000000.

Lemma waiting_m4 : waiting boosted_two 0%nat 0%nat two_minutes ("demo", "web-1") (m_go m4).
Proof.
  assert (s_pods (m_go m4) 0%nat = running_pod) as Hp by reflexivity.
  split; rewrite ?Hp; try reflexivity.
  - exists "web-1", (duration.PolicyFixed (duration.NewFixedDurationPolicy (60 * 1000000000))).
    split; [vm_compute; reflexivity|]. split; vm_compute; reflexivity.
  - exists running_pod. split; [|reflexivity].
    assert (s_world (m_go m4) = s_world (m_go m2)) as -> by reflexivity. apply lookup_singleton_eq.
  - intros b n p (-> & -> & ->)%tracked_m4 _. split_and!; reflexivity.
Defined.

Example expired_pods_restored_witness :
  eventually (undisturbed_step two_containers boosted_two 0%nat 0%nat two_minutes ("demo", "web-1")
                (m_maxGoroutines m4))
    (λ c, finished c ∧ reverted two_containers 0%nat 0%nat ("demo", "web-1") (t_go c))
    (validateTimePolicyBoosts_start order_fwd (λ _, order_rev) m4).
Proof.
  apply (expired_pods_restored removing orders 7 doubling two_containers boosted_two true start m4
    order_fwd (λ _, order_rev) "boost" "demo" 0%nat 0%nat two_minutes ("demo", "web-1")).
  - repeat constructor; set_solver.
  - apply two_containers_decoded.
  - apply boosts_test. vm_compute; reflexivity.
  - apply boosted_two_result.
  - reflexivity.
  - exact reach_m4.
  - vm_compute; reflexivity.
  - exact waiting_m4.
Defined.

(** A boost until the pod is ready; the pod becomes ready. *)
Definition ready_pod : Pod :=
  pod_with [scheduled; plain_condition "Ready" ConditionTrue 5].

Definition until_ready : v1alpha1.StartupCPUBoost :=
  let spec := Manager.witness.boost_spec "boost" in {|
  v1alpha1.b_Meta := v1alpha1.b_Meta spec; v1alpha1.b_Selector := v1alpha1.b_Selector spec;
  v1alpha1.b_Spec := {|
    v1alpha1.spec_ResourcePolicy := v1alpha1.spec_ResourcePolicy (v1alpha1.b_Spec spec);
    v1alpha1.spec_DurationPolicy := {| v1alpha1.dp_Fixed := None; v1alpha1.dp_PodCondition :=
      Some {| v1alpha1.pcdp_Type := "Ready"; v1alpha1.pcdp_Status := "True" |} |} |};
  v1alpha1.b_Status := v1alpha1.b_Status spec |}.

Definition q0 : managerImpl :=
  m_set_go (result_state (NewStartupCPUBoost until_ready false (m_go m0)) (m_go m0)) m0.
Definition q1 : managerImpl := result_state (AddRegularCPUBoost rt rt (Some 0%nat) q0) q0.
Definition q2 : managerImpl :=
  m_set_go (set_world {| stored := {[("demo", "web-1") := ready_pod]}; refusals := [] |} (m_go q1)) q1.
Definition q3 : managerImpl := m_set_go (new_pod running_pod (m_go q2)) q2.
Definition q4 : managerImpl := m_set_go (new_pod ready_pod (m_go q3)) q3.

Lemma reach_q4 : rtc mgr_step (NewManagerWithTicker true start) q4.
Proof.
  apply (rtc_l _ _ q1).
  { apply (step_add m0 until_ready false 0%nat (m_go q0) rt rt None).
    - reflexivity.
    - apply succeeds_result. vm_compute; reflexivity. }
  apply (rtc_l _ _ q2); [apply step_world|].
  apply (rtc_l _ _ q3); [apply step_new_pod|].
  apply rtc_once, step_new_pod.
Defined.

Example ready_pods_restored_witness :
  ∃ m' stored,
    dispatch false rt rt (UpdateEvent (PodObject 0%nat) (PodObject 1%nat)) q4 = Done ([("boost", "demo")], m') ∧
    w_pods (s_world (m_go m')) !! ("demo", "web-1") = Some stored ∧
    pod_Containers stored ≡ pod_Containers two_containers.
Proof.
  destruct (ready_pods_restored removing orders 7 doubling two_containers boosted_two false true start q4
    rt rt 0%nat 1%nat 0%nat ready_pod) as (m' & stored & Hd & Hw & Hcs & _).
  - repeat constructor; set_solver.
  - apply two_containers_decoded.
  - apply boosts_test. vm_compute; reflexivity.
  - apply boosted_two_result.
  - reflexivity.
  - exact reach_q4.
  - vm_compute; lia.
  - reflexivity.
  - reflexivity.
  - exists "boost". reflexivity.
  - discriminate.
  - vm_compute; reflexivity.
  - vm_compute; reflexivity.
  - reflexivity.
  - assert (s_world (m_go q4) = s_world (m_go q2)) as -> by reflexivity. apply lookup_singleton_eq.
  - reflexivity.
  - exists m', stored. split; [exact Hd|]. split; [|exact Hcs]. rewrite Hw. apply lookup_insert_eq.
Defined.
End witness.
