(* ===== verification/Config.v ===== *)
(** * The operator's configuration (internal/config)

    [Config] with its defaults and [EnvConfigProvider], which reads the
    environment variables.  The parsers [strconv.Atoi] and
    [strconv.ParseBool] belong to Go's standard library and are modelled
    with their results on malformed input, because the loaders store the
    parsed value before they look at the error. *)

From stdpp Require Import strings pretty.
From S2P Require Import Prelude.

(** ** strconv *)

Module strconv.
Inductive Cause : Type := ErrSyntax | ErrRange.

Record NumError : Type := {
  Func : string;
  Num : string;
  Err : Cause
}.

Definition cutoff : Z := 2 ^ 63.
Definition maxVal : Z := 2 ^ 64 - 1.

Definition digit (c : ascii) : option Z :=
  let d := Z.of_N (Ascii.N_of_ascii c) - 48 in
  if decide (0 ≤ d ≤ 9) then Some d else None.

(** The loop of [ParseUint] in base 10: it stops at the first byte that is
    no digit or that makes the number too large. *)
Fixpoint ParseUint_loop (n : Z) (s : string) : Z * option Cause :=
  match s with
  | EmptyString => (n, None)
  | String c s =>
      match digit c with
      | None => (0, Some ErrSyntax)
      | Some d =>
          if decide (maxVal / 10 + 1 ≤ n) then (maxVal, Some ErrRange) else
          if decide (maxVal < n * 10 + d) then (maxVal, Some ErrRange) else
          ParseUint_loop (n * 10 + d) s
      end
  end.

Definition ParseUint (s : string) : Z * option Cause :=
  match s with
  | EmptyString => (0, Some ErrSyntax)
  | _ => ParseUint_loop 0 s
  end.

Definition sign (s : string) : bool * string :=
  match s with
  | String "+" s => (false, s)
  | String "-" s => (true, s)
  | _ => (false, s)
  end.

Definition Atoi (s : string) : Z * option NumError :=
  let fail c := Some {| Func := "Atoi"; Num := s; Err := c |} in
  let '(neg, digits) := sign s in
  match ParseUint digits with
  | (_, Some ErrSyntax) => (0, fail ErrSyntax)
  | (un, _) =>
      if negb neg && bool_decide (cutoff ≤ un) then (cutoff - 1, fail ErrRange) else
      if neg && bool_decide (cutoff < un) then (- cutoff, fail ErrRange) else
      (if neg then - un else un, None)
  end.

Definition ParseBool (s : string) : bool * option NumError :=
  if decide (s ∈ ["1"; "t"; "T"; "true"; "TRUE"; "True"]) then (true, None) else
  if decide (s ∈ ["0"; "f"; "F"; "false"; "FALSE"; "False"]) then (false, None) else
  (false, Some {| Func := "ParseBool"; Num := s; Err := ErrSyntax |}).

(** Writing a number and reading it back. *)
Lemma ParseUint_loop_app n s t k :
  ParseUint_loop n s = (k, None) → ParseUint_loop n (s +:+ t) = ParseUint_loop k t.
Proof.
  revert n. induction s as [|c s IH]; intros n; [by intros [= ->]|].
  change (String c s +:+ t) with (String c (s +:+ t)). cbn [ParseUint_loop].
  destruct (digit c); [|done]. repeat case_decide; try done. apply IH.
Qed.

Lemma digit_pretty x : (x < 10)%N → digit (pretty_N_char x) = Some (Z.of_N x).
Proof.
  intros Hx. assert (x ∈ [0; 1; 2; 3; 4; 5; 6; 7; 8; 9]%N) as Hin by (rewrite !elem_of_cons; lia).
  revert Hin. clear Hx. rewrite !elem_of_cons, elem_of_nil. naive_solver.
Qed.

Lemma pretty_N_go_app x s : pretty_N_go x s = pretty_N_go x "" +:+ s.
Proof.
  revert s. induction (N.lt_wf_0 x) as [x _ IH]. intros s.
  destruct (decide (x = 0)%N) as [->|Hx]; [done|].
  rewrite !(pretty_N_go_step x) by lia.
  assert (x `div` 10 < x)%N as Hlt by (apply N.div_lt; lia).
  rewrite (IH _ Hlt (String _ s)), (IH _ Hlt (String _ "")).
  induction (pretty_N_go (x `div` 10) "") as [|c t IHt]; [done|]. by apply (f_equal (String c)) in IHt.
Qed.

Lemma ParseUint_loop_pretty_go x :
  Z.of_N x ≤ cutoff → ParseUint_loop 0 (pretty_N_go x "") = (Z.of_N x, None).
Proof.
  induction (N.lt_wf_0 x) as [x _ IH]. intros Hb.
  destruct (decide (x = 0)%N) as [->|Hx]; [done|].
  rewrite pretty_N_go_step by lia. rewrite pretty_N_go_app.
  assert (x `div` 10 < x)%N as Hlt by (apply N.div_lt; lia).
  pose proof (N.div_mod x 10 ltac:(done)) as Hdm.
  pose proof (N.mod_lt x 10 ltac:(done)) as Hmod.
  specialize (IH _ Hlt ltac:(lia)). rewrite (ParseUint_loop_app _ _ _ _ IH).
  cbn [ParseUint_loop]. rewrite digit_pretty by done.
  change cutoff with 9223372036854775808 in Hb. change maxVal with 18446744073709551615.
  change (18446744073709551615 / 10) with 1844674407370955161.
  generalize dependent (x `div` 10)%N. generalize dependent (x `mod` 10)%N. intros r Hr q _ _ ->.
  repeat case_decide; [lia..|]. f_equal. lia.
Qed.

Lemma ParseUint_pretty (n : N) : Z.of_N n ≤ cutoff → ParseUint (pretty n) = (Z.of_N n, None).
Proof.
  intros Hb. unfold pretty, pretty_N. case_decide as Hn; [by subst|].
  pose proof (ParseUint_loop_pretty_go n Hb) as Hl. unfold ParseUint.
  destruct (pretty_N_go n "") as [|c s]; [|done]. cbn in Hl. injection Hl as Hl. lia.
Qed.

Lemma sign_ParseUint s k : ParseUint s = (k, None) → sign s = (false, s).
Proof.
  destruct s as [|c s]; [done|]. cbn [ParseUint ParseUint_loop].
  destruct (digit c) as [d|] eqn:Hd; [|done]. intros _.
  destruct c as [[] [] [] [] [] [] [] []]; done.
Qed.

Lemma Atoi_pretty (z : Z) : in_int64 z → Atoi (pretty z) = (z, None).
Proof.
  unfold in_int64. intros Hz. unfold Atoi.
  destruct z as [|p|p]; [done|..].
  - change (pretty (Z.pos p)) with (pretty (N.pos p)). pose proof (ParseUint_pretty (N.pos p) ltac:(unfold cutoff; lia)) as Hp.
    rewrite (sign_ParseUint _ _ Hp), Hp. cbn [negb andb].
    rewrite bool_decide_false by (unfold cutoff; lia). done.
  - pose proof (ParseUint_pretty (N.pos p) ltac:(unfold cutoff; lia)) as Hp.
    change (sign (pretty (Z.neg p))) with (true, pretty (N.pos p)). cbv beta iota zeta.
    rewrite Hp. cbn [negb andb].
    rewrite bool_decide_false by (unfold cutoff; lia). done.
Qed.

(** Every result of [Atoi] fits the machine integer, errors included. *)
Lemma ParseUint_loop_nonneg n s : 0 ≤ n → 0 ≤ (ParseUint_loop n s).1.
Proof.
  revert n. induction s as [|c s IH]; intros n Hn; cbn; [done|].
  destruct (digit c) as [d|] eqn:Hd; [|done]. repeat case_decide; try done.
  apply IH. unfold digit in Hd. case_decide; simplify_eq/=. lia.
Qed.

Lemma Atoi_in_int64 s : in_int64 (Atoi s).1.
Proof.
  unfold Atoi, in_int64. destruct (sign s) as [neg ds].
  assert (0 ≤ (ParseUint ds).1) as Hpos by (destruct ds; [done|by apply ParseUint_loop_nonneg]).
  destruct (ParseUint ds) as [un [[]|]]; cbn in *; try lia;
    destruct neg; cbn [negb andb]; try case_bool_decide; cbn; unfold cutoff in *; lia.
Qed.
End strconv.
Import strconv.

(** ** config.go *)

Definition PodNamespaceDefault : string := "kube-startup-cpu-boost-system".
Definition MgrCheckIntervalSecDefault : Z := 5.
Definition LeaderElectionDefault : bool := false.
Definition MetricsProbeBindAddrDefault : string := ":8080".
Definition HealthProbeBindAddrDefault : string := ":8081".
Definition SecureMetricsDefault : bool := false.
Definition ZapLogLevelDefault : Z := 0.
Definition ZapDevelopmentDefault : bool := false.
Definition HTTP2Default : bool := false.
Definition RemoveLimitsDefault : bool := true.
Definition ValidateFeatureEnabledDefault : bool := true.

Record Config : Type := {
  cfg_Namespace : string;
  cfg_MgrCheckIntervalSec : Z;
  cfg_LeaderElection : bool;
  cfg_MetricsProbeBindAddr : string;
  cfg_HealthProbeBindAddr : string;
  cfg_SecureMetrics : bool;
  cfg_ZapLogLevel : Z;
  cfg_ZapDevelopment : bool;
  cfg_HTTP2 : bool;
  cfg_RemoveLimits : bool;
  cfg_ValidateFeatureEnabled : bool
}.

(** Assignments to the fields. *)
Definition set_Namespace (c : Config) (v : string) : Config :=
  let (_, mi, le, ma, ha, sm, zl, zd, h2, rl, vf) := c in
  Build_Config v mi le ma ha sm zl zd h2 rl vf.
Definition set_MgrCheckIntervalSec (c : Config) (v : Z) : Config :=
  let (ns, _, le, ma, ha, sm, zl, zd, h2, rl, vf) := c in
  Build_Config ns v le ma ha sm zl zd h2 rl vf.
Definition set_LeaderElection (c : Config) (v : bool) : Config :=
  let (ns, mi, _, ma, ha, sm, zl, zd, h2, rl, vf) := c in
  Build_Config ns mi v ma ha sm zl zd h2 rl vf.
Definition set_MetricsProbeBindAddr (c : Config) (v : string) : Config :=
  let (ns, mi, le, _, ha, sm, zl, zd, h2, rl, vf) := c in
  Build_Config ns mi le v ha sm zl zd h2 rl vf.
Definition set_HealthProbeBindAddr (c : Config) (v : string) : Config :=
  let (ns, mi, le, ma, _, sm, zl, zd, h2, rl, vf) := c in
  Build_Config ns mi le ma v sm zl zd h2 rl vf.
Definition set_SecureMetrics (c : Config) (v : bool) : Config :=
  let (ns, mi, le, ma, ha, _, zl, zd, h2, rl, vf) := c in
  Build_Config ns mi le ma ha v zl zd h2 rl vf.
Definition set_ZapLogLevel (c : Config) (v : Z) : Config :=
  let (ns, mi, le, ma, ha, sm, _, zd, h2, rl, vf) := c in
  Build_Config ns mi le ma ha sm v zd h2 rl vf.
Definition set_ZapDevelopment (c : Config) (v : bool) : Config :=
  let (ns, mi, le, ma, ha, sm, zl, _, h2, rl, vf) := c in
  Build_Config ns mi le ma ha sm zl v h2 rl vf.
Definition set_HTTP2 (c : Config) (v : bool) : Config :=
  let (ns, mi, le, ma, ha, sm, zl, zd, _, rl, vf) := c in
  Build_Config ns mi le ma ha sm zl zd v rl vf.
Definition set_RemoveLimits (c : Config) (v : bool) : Config :=
  let (ns, mi, le, ma, ha, sm, zl, zd, h2, _, vf) := c in
  Build_Config ns mi le ma ha sm zl zd h2 v vf.
Definition set_ValidateFeatureEnabled (c : Config) (v : bool) : Config :=
  let (ns, mi, le, ma, ha, sm, zl, zd, h2, rl, _) := c in
  Build_Config ns mi le ma ha sm zl zd h2 rl v.

(** [LoadDefaults] assigns every field, whatever was there. *)
Definition LoadDefaults (c : Config) : Config :=
  let c := set_Namespace c PodNamespaceDefault in
  let c := set_MgrCheckIntervalSec c MgrCheckIntervalSecDefault in
  let c := set_LeaderElection c LeaderElectionDefault in
  let c := set_MetricsProbeBindAddr c MetricsProbeBindAddrDefault in
  let c := set_HealthProbeBindAddr c HealthProbeBindAddrDefault in
  let c := set_SecureMetrics c SecureMetricsDefault in
  let c := set_ZapLogLevel c ZapLogLevelDefault in
  let c := set_ZapDevelopment c ZapDevelopmentDefault in
  let c := set_HTTP2 c HTTP2Default in
  let c := set_RemoveLimits c RemoveLimitsDefault in
  let c := set_ValidateFeatureEnabled c ValidateFeatureEnabledDefault in
  c.

(** ** env_provider.go *)

Definition PodNamespaceEnvVar : string := "POD_NAMESPACE".
Definition MgrCheckIntervalSecEnvVar : string := "MGR_CHECK_INTERVAL".
Definition LeaderElectionEnvVar : string := "LEADER_ELECTION".
Definition MetricsProbeBindAddrEnvVar : string := "METRICS_PROBE_BIND_ADDR".
Definition HealthProbeBindAddrEnvVar : string := "HEALTH_PROBE_BIND_ADDR".
Definition SecureMetricsEnvVar : string := "SECURE_METRICS".
Definition ZapLogLevelEnvVar : string := "ZAP_LOG_LEVEL".
Definition ZapDevelopmentEnvVar : string := "ZAP_DEVELOPMENT".
Definition HTTP2EnvVar : string := "HTTP2".
Definition RemoveLimitsEnvVar : string := "REMOVE_LIMITS".
Definition ValidateFeatureEnabledEnvVar : string := "VALIDATE_FEATURE_ENABLED".

(** The wrapped errors: the variable and the parser's error. *)
Inductive ConfigError : Type :=
  | NotAnInt (var : string) (err : NumError)
  | NotABool (var : string) (err : NumError).

(** [LookupEnvFunc] *)
Abbreviation LookupEnvFunc := (string → option string).

(** The zero value of [var config Config]. *)
Definition zero_Config : Config := {|
  cfg_Namespace := "";
  cfg_MgrCheckIntervalSec := 0;
  cfg_LeaderElection := false;
  cfg_MetricsProbeBindAddr := "";
  cfg_HealthProbeBindAddr := "";
  cfg_SecureMetrics := false;
  cfg_ZapLogLevel := 0;
  cfg_ZapDevelopment := false;
  cfg_HTTP2 := false;
  cfg_RemoveLimits := false;
  cfg_ValidateFeatureEnabled := false
|}.

Definition loadPodNamespace (lookup : LookupEnvFunc) (config : Config) : Config :=
  match lookup PodNamespaceEnvVar with
  | Some v => set_Namespace config v
  | None => config
  end.

Definition loadMgrCheckIntervalSec (lookup : LookupEnvFunc) (config : Config)
    (curErrs : list ConfigError) : Config * list ConfigError :=
  let errs := [] in
  match lookup MgrCheckIntervalSecEnvVar with
  | Some v =>
      let '(intVal, err) := Atoi v in
      let config := set_MgrCheckIntervalSec config intVal in
      match err with
      | Some err => (config, curErrs ++ [NotAnInt MgrCheckIntervalSecEnvVar err])
      | None => (config, errs)
      end
  | None => (config, errs)
  end.

Definition loadLeaderElection (lookup : LookupEnvFunc) (config : Config)
    (curErrs : list ConfigError) : Config * list ConfigError :=
  let errs := [] in
  match lookup LeaderElectionEnvVar with
  | Some v =>
      let '(boolVal, err) := ParseBool v in
      let config := set_LeaderElection config boolVal in
      match err with
      | Some err => (config, curErrs ++ [NotABool LeaderElectionEnvVar err])
      | None => (config, errs)
      end
  | None => (config, errs)
  end.

Definition loadMetricsProbeBindAddr (lookup : LookupEnvFunc) (config : Config) : Config :=
  match lookup MetricsProbeBindAddrEnvVar with
  | Some v => set_MetricsProbeBindAddr config v
  | None => config
  end.

Definition loadHealthProbeBindAddr (lookup : LookupEnvFunc) (config : Config) : Config :=
  match lookup HealthProbeBindAddrEnvVar with
  | Some v => set_HealthProbeBindAddr config v
  | None => config
  end.

Definition loadSecureMetrics (lookup : LookupEnvFunc) (config : Config)
    (curErrs : list ConfigError) : Config * list ConfigError :=
  let errs := [] in
  match lookup SecureMetricsEnvVar with
  | Some v =>
      let '(boolVal, err) := ParseBool v in
      let config := set_SecureMetrics config boolVal in
      match err with
      | Some err => (config, curErrs ++ [NotABool SecureMetricsEnvVar err])
      | None => (config, errs)
      end
  | None => (config, errs)
  end.

Definition loadZapLogLevel (lookup : LookupEnvFunc) (config : Config)
    (curErrs : list ConfigError) : Config * list ConfigError :=
  let errs := [] in
  match lookup ZapLogLevelEnvVar with
  | Some v =>
      let '(intVal, err) := Atoi v in
      let config := set_ZapLogLevel config intVal in
      match err with
      | Some err => (config, curErrs ++ [NotAnInt ZapLogLevelEnvVar err])
      | None => (config, errs)
      end
  | None => (config, errs)
  end.

Definition loadZapDevelopment (lookup : LookupEnvFunc) (config : Config)
    (curErrs : list ConfigError) : Config * list ConfigError :=
  let errs := [] in
  match lookup ZapDevelopmentEnvVar with
  | Some v =>
      let '(boolVal, err) := ParseBool v in
      let config := set_ZapDevelopment config boolVal in
      match err with
      | Some err => (config, curErrs ++ [NotABool ZapDevelopmentEnvVar err])
      | None => (config, errs)
      end
  | None => (config, errs)
  end.

Definition loadHTTP2 (lookup : LookupEnvFunc) (config : Config)
    (curErrs : list ConfigError) : Config * list ConfigError :=
  let errs := [] in
  match lookup HTTP2EnvVar with
  | Some v =>
      let '(boolVal, err) := ParseBool v in
      let config := set_HTTP2 config boolVal in
      match err with
      | Some err => (config, curErrs ++ [NotABool HTTP2EnvVar err])
      | None => (config, errs)
      end
  | None => (config, errs)
  end.

Definition loadRemoveLimits (lookup : LookupEnvFunc) (config : Config)
    (curErrs : list ConfigError) : Config * list ConfigError :=
  let errs := [] in
  match lookup RemoveLimitsEnvVar with
  | Some v =>
      let '(boolVal, err) := ParseBool v in
      let config := set_RemoveLimits config boolVal in
      match err with
      | Some err => (config, curErrs ++ [NotABool RemoveLimitsEnvVar err])
      | None => (config, errs)
      end
  | None => (config, errs)
  end.

Definition loadValidateFeatureEnabled (lookup : LookupEnvFunc) (config : Config)
    (curErrs : list ConfigError) : Config * list ConfigError :=
  let errs := [] in
  match lookup ValidateFeatureEnabledEnvVar with
  | Some v =>
      let '(boolVal, err) := ParseBool v in
      let config := set_ValidateFeatureEnabled config boolVal in
      match err with
      | Some err => (config, curErrs ++ [NotABool ValidateFeatureEnabledEnvVar err])
      | None => (config, errs)
      end
  | None => (config, errs)
  end.

(** [LoadConfig]; the joined error is the list of its parts, nil when the
    list is empty. *)
Definition LoadConfig (lookup : LookupEnvFunc) : Config * option (list ConfigError) :=
  let errs := [] in
  let config := LoadDefaults zero_Config in
  let config := loadPodNamespace lookup config in
  let '(config, errs) := loadMgrCheckIntervalSec lookup config errs in
  let '(config, errs) := loadLeaderElection lookup config errs in
  let config := loadMetricsProbeBindAddr lookup config in
  let config := loadHealthProbeBindAddr lookup config in
  let '(config, errs) := loadSecureMetrics lookup config errs in
  let '(config, errs) := loadZapLogLevel lookup config errs in
  let '(config, errs) := loadZapDevelopment lookup config errs in
  let '(config, errs) := loadHTTP2 lookup config errs in
  let '(config, errs) := loadRemoveLimits lookup config errs in
  let '(config, errs) := loadValidateFeatureEnabled lookup config errs in
  (config, match errs with [] => None | _ => Some errs end).

(** ** logger.go

    What [Logger] passes to zap, whose levels are 8-bit integers, and the
    names of the levels in production logs. *)

Record LoggerOptions : Type := {
  lo_Development : bool;
  lo_Level : Z;
  lo_ProdEncoder : bool
}.

Definition Logger (development : bool) (level : Z) : LoggerOptions :=
  {| lo_Development := development; lo_Level := wrap 8 level; lo_ProdEncoder := negb development |}.

Definition InfoLevel : Z := 0.
Definition WarnLevel : Z := 1.
Definition ErrorLevel : Z := 2.
Definition DPanicLevel : Z := 3.
Definition PanicLevel : Z := 4.
Definition FatalLevel : Z := 5.

(** [EncodeLevel] of [logEncoderOptionsProd]. *)
Definition EncodeLevel (l : Z) : string :=
  if decide (l = InfoLevel) then "info" else
  if decide (l = WarnLevel) then "warning" else
  if decide (l = ErrorLevel) then "error" else
  if decide (l = DPanicLevel) then "critical" else
  if decide (l = PanicLevel) then "alert" else
  if decide (l = FatalLevel) then "emergency" else
  "debug".

(** The level is the configured one exactly if that fits eight bits; the
    name of a level tells it apart from every other but those below info
    and above fatal. *)
Lemma Logger_level development level :
  lo_Level (Logger development level) = level ↔ - 2 ^ 7 ≤ level < 2 ^ 7.
Proof.
  cbn. split.
  - unfold wrap. pose proof (Z.mod_pos_bound (level + 2 ^ (8 - 1)) (2 ^ 8)). lia.
  - intros Hl. by apply wrap_id.
Qed.

Lemma EncodeLevel_inj l l' :
  0 ≤ l ≤ 5 → EncodeLevel l = EncodeLevel l' → l = l'.
Proof.
  intros Hl. assert (l ∈ [0; 1; 2; 3; 4; 5]) as Hin by (rewrite !elem_of_cons; lia).
  unfold EncodeLevel, InfoLevel, WarnLevel, ErrorLevel, DPanicLevel, PanicLevel, FatalLevel.
  rewrite !elem_of_cons, elem_of_nil in Hin. repeat case_decide; intros [=]; lia.
Qed.

(** ** What a single loader does

    The value it stores and the error it finds depend on its variable alone;
    the errors found before survive only if it finds another one. *)

Definition parsed {A} (parse : string → A * option NumError) (old : A) (v : option string) : A :=
  match v with Some s => (parse s).1 | None => old end.

Definition var_error {A} (parse : string → A * option NumError)
    (wrap_error : NumError → ConfigError) (v : option string) : option ConfigError :=
  match v with Some s => wrap_error <$> (parse s).2 | None => None end.

Definition next_errors (errs : list ConfigError) (e : option ConfigError) : list ConfigError :=
  match e with Some e => errs ++ [e] | None => [] end.

(** The errors of the eight parsing loaders, in the order of the calls. *)
Definition all_errors (lookup : LookupEnvFunc) : list (option ConfigError) := [
  var_error Atoi (NotAnInt MgrCheckIntervalSecEnvVar) (lookup MgrCheckIntervalSecEnvVar);
  var_error ParseBool (NotABool LeaderElectionEnvVar) (lookup LeaderElectionEnvVar);
  var_error ParseBool (NotABool SecureMetricsEnvVar) (lookup SecureMetricsEnvVar);
  var_error Atoi (NotAnInt ZapLogLevelEnvVar) (lookup ZapLogLevelEnvVar);
  var_error ParseBool (NotABool ZapDevelopmentEnvVar) (lookup ZapDevelopmentEnvVar);
  var_error ParseBool (NotABool HTTP2EnvVar) (lookup HTTP2EnvVar);
  var_error ParseBool (NotABool RemoveLimitsEnvVar) (lookup RemoveLimitsEnvVar);
  var_error ParseBool (NotABool ValidateFeatureEnabledEnvVar) (lookup ValidateFeatureEnabledEnvVar)
].

(** The configuration the environment describes. *)
Definition env_config (lookup : LookupEnvFunc) : Config := {|
  cfg_Namespace := default PodNamespaceDefault (lookup PodNamespaceEnvVar);
  cfg_MgrCheckIntervalSec := parsed Atoi MgrCheckIntervalSecDefault (lookup MgrCheckIntervalSecEnvVar);
  cfg_LeaderElection := parsed ParseBool LeaderElectionDefault (lookup LeaderElectionEnvVar);
  cfg_MetricsProbeBindAddr := default MetricsProbeBindAddrDefault (lookup MetricsProbeBindAddrEnvVar);
  cfg_HealthProbeBindAddr := default HealthProbeBindAddrDefault (lookup HealthProbeBindAddrEnvVar);
  cfg_SecureMetrics := parsed ParseBool SecureMetricsDefault (lookup SecureMetricsEnvVar);
  cfg_ZapLogLevel := parsed Atoi ZapLogLevelDefault (lookup ZapLogLevelEnvVar);
  cfg_ZapDevelopment := parsed ParseBool ZapDevelopmentDefault (lookup ZapDevelopmentEnvVar);
  cfg_HTTP2 := parsed ParseBool HTTP2Default (lookup HTTP2EnvVar);
  cfg_RemoveLimits := parsed ParseBool RemoveLimitsDefault (lookup RemoveLimitsEnvVar);
  cfg_ValidateFeatureEnabled :=
    parsed ParseBool ValidateFeatureEnabledDefault (lookup ValidateFeatureEnabledEnvVar)
|}.

(** A parsing loader as a function of the variable's value. *)
Lemma loader_eq {A} (parse : string → A * option NumError) wrap_error (set : Config → A → Config)
    (field : Config → A) (v : option string) c errs :
  set c (field c) = c →
  match v with
  | Some v =>
      let '(val, err) := parse v in
      match err with
      | Some err => (set c val, errs ++ [wrap_error err])
      | None => (set c val, [])
      end
  | None => (c, [])
  end = (set c (parsed parse (field c) v), next_errors errs (var_error parse wrap_error v)).
Proof.
  intros Hset. destruct v as [v|]; cbn; [|by rewrite Hset].
  by destruct (parse v) as [val [err|]].
Qed.

Ltac loader := cbv zeta; match goal with |- match ?v with _ => _ end = (?set ?c (parsed ?p (?f _) _), _) =>
  apply (loader_eq p _ set f v c); by destruct c end.

Section loaders.
Context (lookup : LookupEnvFunc) (c : Config) (errs : list ConfigError).

Lemma loadMgrCheckIntervalSec_eq : loadMgrCheckIntervalSec lookup c errs =
  (set_MgrCheckIntervalSec c (parsed Atoi (cfg_MgrCheckIntervalSec c) (lookup MgrCheckIntervalSecEnvVar)),
   next_errors errs (var_error Atoi (NotAnInt MgrCheckIntervalSecEnvVar) (lookup MgrCheckIntervalSecEnvVar))).
Proof. unfold loadMgrCheckIntervalSec. loader. Qed.
Lemma loadLeaderElection_eq : loadLeaderElection lookup c errs =
  (set_LeaderElection c (parsed ParseBool (cfg_LeaderElection c) (lookup LeaderElectionEnvVar)),
   next_errors errs (var_error ParseBool (NotABool LeaderElectionEnvVar) (lookup LeaderElectionEnvVar))).
Proof. unfold loadLeaderElection. loader. Qed.
Lemma loadSecureMetrics_eq : loadSecureMetrics lookup c errs =
  (set_SecureMetrics c (parsed ParseBool (cfg_SecureMetrics c) (lookup SecureMetricsEnvVar)),
   next_errors errs (var_error ParseBool (NotABool SecureMetricsEnvVar) (lookup SecureMetricsEnvVar))).
Proof. unfold loadSecureMetrics. loader. Qed.
Lemma loadZapLogLevel_eq : loadZapLogLevel lookup c errs =
  (set_ZapLogLevel c (parsed Atoi (cfg_ZapLogLevel c) (lookup ZapLogLevelEnvVar)),
   next_errors errs (var_error Atoi (NotAnInt ZapLogLevelEnvVar) (lookup ZapLogLevelEnvVar))).
Proof. unfold loadZapLogLevel. loader. Qed.
Lemma loadZapDevelopment_eq : loadZapDevelopment lookup c errs =
  (set_ZapDevelopment c (parsed ParseBool (cfg_ZapDevelopment c) (lookup ZapDevelopmentEnvVar)),
   next_errors errs (var_error ParseBool (NotABool ZapDevelopmentEnvVar) (lookup ZapDevelopmentEnvVar))).
Proof. unfold loadZapDevelopment. loader. Qed.
Lemma loadHTTP2_eq : loadHTTP2 lookup c errs =
  (set_HTTP2 c (parsed ParseBool (cfg_HTTP2 c) (lookup HTTP2EnvVar)),
   next_errors errs (var_error ParseBool (NotABool HTTP2EnvVar) (lookup HTTP2EnvVar))).
Proof. unfold loadHTTP2. loader. Qed.
Lemma loadRemoveLimits_eq : loadRemoveLimits lookup c errs =
  (set_RemoveLimits c (parsed ParseBool (cfg_RemoveLimits c) (lookup RemoveLimitsEnvVar)),
   next_errors errs (var_error ParseBool (NotABool RemoveLimitsEnvVar) (lookup RemoveLimitsEnvVar))).
Proof. unfold loadRemoveLimits. loader. Qed.
Lemma loadValidateFeatureEnabled_eq : loadValidateFeatureEnabled lookup c errs =
  (set_ValidateFeatureEnabled c
     (parsed ParseBool (cfg_ValidateFeatureEnabled c) (lookup ValidateFeatureEnabledEnvVar)),
   next_errors errs
     (var_error ParseBool (NotABool ValidateFeatureEnabledEnvVar) (lookup ValidateFeatureEnabledEnvVar))).
Proof. unfold loadValidateFeatureEnabled. loader. Qed.
End loaders.

Lemma set_default {A} (set : Config → A → Config) (field : Config → A) c v :
  set c (field c) = c →
  match v with Some v => set c v | None => c end = set c (default (field c) v).
Proof. intros Hset. by destruct v. Qed.

Lemma LoadConfig_eq lookup :
  let errs := foldl next_errors [] (all_errors lookup) in
  LoadConfig lookup = (env_config lookup, match errs with [] => None | _ => Some errs end).
Proof.
  cbv zeta. unfold LoadConfig, loadPodNamespace, loadMetricsProbeBindAddr, loadHealthProbeBindAddr.
  rewrite (set_default set_Namespace cfg_Namespace) by done. cbv zeta.
  rewrite loadMgrCheckIntervalSec_eq, loadLeaderElection_eq.
  rewrite (set_default set_MetricsProbeBindAddr cfg_MetricsProbeBindAddr) by done.
  rewrite (set_default set_HealthProbeBindAddr cfg_HealthProbeBindAddr) by done.
  rewrite loadSecureMetrics_eq, loadZapLogLevel_eq, loadZapDevelopment_eq, loadHTTP2_eq,
    loadRemoveLimits_eq, loadValidateFeatureEnabled_eq.
  reflexivity.
Qed.

Lemma next_errors_suffix l :
  ∃ pre, l = pre ++ (Some <$> foldl next_errors [] l) ∧ ∀ e, last pre ≠ Some (Some e).
Proof.
  induction l as [|[e|] l (pre & Hl & Hpre)] using rev_ind.
  - by exists [].
  - exists pre. rewrite foldl_snoc. cbn. split; [|done].
    rewrite fmap_app, (assoc_L (++)). by rewrite <-Hl.
  - exists (l ++ [None]). rewrite foldl_snoc. cbn. rewrite app_nil_r. split; [done|].
    intros e. by rewrite last_snoc.
Qed.

(** The environment that describes a configuration. *)
Definition show_bool (b : bool) : string := if b then "true" else "false".

Definition env_of (c : Config) : LookupEnvFunc := λ var,
  if (var =? PodNamespaceEnvVar)%string then Some (cfg_Namespace c) else
  if (var =? MgrCheckIntervalSecEnvVar)%string then Some (pretty (cfg_MgrCheckIntervalSec c)) else
  if (var =? LeaderElectionEnvVar)%string then Some (show_bool (cfg_LeaderElection c)) else
  if (var =? MetricsProbeBindAddrEnvVar)%string then Some (cfg_MetricsProbeBindAddr c) else
  if (var =? HealthProbeBindAddrEnvVar)%string then Some (cfg_HealthProbeBindAddr c) else
  if (var =? SecureMetricsEnvVar)%string then Some (show_bool (cfg_SecureMetrics c)) else
  if (var =? ZapLogLevelEnvVar)%string then Some (pretty (cfg_ZapLogLevel c)) else
  if (var =? ZapDevelopmentEnvVar)%string then Some (show_bool (cfg_ZapDevelopment c)) else
  if (var =? HTTP2EnvVar)%string then Some (show_bool (cfg_HTTP2 c)) else
  if (var =? RemoveLimitsEnvVar)%string then Some (show_bool (cfg_RemoveLimits c)) else
  if (var =? ValidateFeatureEnabledEnvVar)%string then Some (show_bool (cfg_ValidateFeatureEnabled c)) else
  None.

Lemma ParseBool_show b : ParseBool (show_bool b) = (b, None).
Proof. by destruct b. Qed.

(** ** Properties *)

(** C34: what LoadConfig returns for any environment.  Every field is the
    default if its variable is unset and otherwise what the parser returns
    for the variable, which for a malformed boolean is false and for a
    malformed number 0 or the nearest bound of int64.  The error joins the
    errors of the variables read after the last one that is unset or well
    formed; so there is an error exactly if VALIDATE_FEATURE_ENABLED, which
    is read last, is malformed. *)
Theorem load_config_spec lookup :
  let '(config, err) := LoadConfig lookup in
  config = env_config lookup ∧
  in_int64 (cfg_MgrCheckIntervalSec config) ∧ in_int64 (cfg_ZapLogLevel config) ∧
  (∃ pre, all_errors lookup = pre ++ (Some <$> default [] err) ∧ ∀ e, last pre ≠ Some (Some e)) ∧
  (err = None ↔
   ∀ v, lookup ValidateFeatureEnabledEnvVar = Some v → (ParseBool v).2 = None).
Proof.
  rewrite LoadConfig_eq. cbv beta iota. split; [done|].
  assert (∀ old v, in_int64 old → in_int64 (parsed Atoi old v)) as Hint.
  { intros old [v|] Ho; cbn; [apply Atoi_in_int64|done]. }
  split; [by apply Hint|]. split; [by apply Hint|]. split.
  - destruct (next_errors_suffix (all_errors lookup)) as (pre & Hl & Hpre). exists pre.
    split; [|done]. rewrite Hl at 1. by destruct (foldl _ _ _).
  - change (all_errors lookup) with (removelast (all_errors lookup) ++ [var_error ParseBool
      (NotABool ValidateFeatureEnabledEnvVar) (lookup ValidateFeatureEnabledEnvVar)]).
    rewrite foldl_snoc. generalize (foldl next_errors [] (removelast (all_errors lookup))).
    intros errs. unfold var_error.
    destruct (lookup ValidateFeatureEnabledEnvVar) as [v|]; cbn; [|done].
    destruct (ParseBool v).2 as [e|] eqn:He; cbn.
    + split; [by destruct errs|]. intros Hv. specialize (Hv v eq_refl). congruence.
    + split; [|done]. intros _ ? [= <-]. done.
Qed.

(** Writing a configuration to the environment and loading it gives it
    back without an error, if its numbers are machine integers. *)
Theorem load_config_roundtrip config :
  in_int64 (cfg_MgrCheckIntervalSec config) → in_int64 (cfg_ZapLogLevel config) →
  LoadConfig (env_of config) = (config, None).
Proof.
  intros Hm Hz. rewrite LoadConfig_eq. unfold all_errors, env_config, env_of.
  cbn -[ParseBool show_bool Atoi pretty]. unfold parsed, var_error. rewrite !ParseBool_show, !Atoi_pretty by done. by destruct config.
Qed.

Module witness.
Example load_config_roundtrip_witness :
  LoadConfig (env_of (set_ZapLogLevel (LoadDefaults zero_Config) (-5))) =
    (set_ZapLogLevel (LoadDefaults zero_Config) (-5), None).
Proof. apply load_config_roundtrip; vm_compute; split; done. Defined.

(** A malformed REMOVE_LIMITS silently keeps the limits. *)
Example malformed_value_unreported :
  let env := λ var, if decide (var = RemoveLimitsEnvVar) then Some "yes" else None in
  LoadConfig env = (set_RemoveLimits (LoadDefaults zero_Config) false, None).
Proof. reflexivity. Qed.
End witness.
