(* ===== verification/FeatureGates.v ===== *)
(** * Cluster information (internal/util)

    [FeatureGates] and the validator that reads them from the metrics of
    the API server (fg_validator.go), and the cached cluster version
    (cluster_info.go).  The REST client and the parser of the metrics text
    are interfaces; a gauge value is a binary64 number of [SpecFloat]. *)

From Stdlib Require Import SpecFloat.
From stdpp Require Import strings.
From S2P Require Import Prelude.

Definition k8sFeatureEnabledMetricName : string := "kubernetes_feature_enabled".
Definition k8sFeatureEnabledNameLabel : string := "name".
Definition k8sFeatureEnabledStageLabel : string := "stage".

Abbreviation FeatureGates := (gmap string (gmap string bool)).

(** [strings.ToUpper] on ASCII text. *)
Definition upper (c : ascii) : ascii :=
  let n := Ascii.nat_of_ascii c in
  if decide (97 ≤ n ≤ 122)%nat then Ascii.ascii_of_nat (n - 32) else c.
Fixpoint ToUpper (s : string) : string :=
  match s with
  | EmptyString => EmptyString
  | String c s => String (upper c) (ToUpper s)
  end.

(** ** Queries *)

(** The first entry of the range that satisfies the condition decides. *)
Fixpoint first_stage (stage : string) (stages : list (string * bool)) : bool :=
  match stages with
  | [] => false
  | (stageName, enabled) :: stages =>
      if (ToUpper stageName =? stage)%string then enabled else first_stage stage stages
  end.

Definition IsEnabled (σ : RangeOrder) (f : FeatureGates) (featureGate stage : string) : bool :=
  match f !! featureGate with
  | Some stages => first_stage stage (go_range σ stages)
  | None => false
  end.

Fixpoint any_enabled (stages : list bool) : bool :=
  match stages with
  | [] => false
  | enabled :: stages => if enabled then true else any_enabled stages
  end.

Definition IsEnabledAnyStage (σ : RangeOrder) (f : FeatureGates) (featureGate : string) : bool :=
  match f !! featureGate with
  | Some stages => any_enabled (range_values σ stages)
  | None => false
  end.

(** ** Reading the metrics *)

(** A nil string pointer reads as the empty string through its getter. *)
Record LabelPair : Type := {
  label_Name : option string;
  label_Value : option string
}.
Definition GetName (l : LabelPair) : string := default "" (label_Name l).
Definition GetValue (l : LabelPair) : string := default "" (label_Value l).

Record Metric : Type := {
  metric_Label : list LabelPair;
  metric_Gauge : option spec_float
}.

(** [metric.GetGauge().GetValue() == 1]; without a gauge the value is 0. *)
Definition float_one : spec_float := S754_finite false 4503599627370496 (-52).
Definition is_one (m : Metric) : bool :=
  SFeqb (default (S754_zero false) (metric_Gauge m)) float_one.

Fixpoint getNameAndStage_loop (name : string) (stagePtr : option string) (labels : list LabelPair) :
    string * option string :=
  match labels with
  | [] => (name, stagePtr)
  | label :: labels =>
      let name := if (GetName label =? k8sFeatureEnabledNameLabel)%string
                  then GetValue label else name in
      let stagePtr := if (GetName label =? k8sFeatureEnabledStageLabel)%string
                      then label_Value label else stagePtr in
      getNameAndStage_loop name stagePtr labels
  end.

Definition getNameAndStage (labels : list LabelPair) : result (string * string) :=
  let '(name, stagePtr) := getNameAndStage_loop "" None labels in
  match stagePtr with
  | Some stage => if (name =? "")%string then inl "missing name and stage label" else inr (name, stage)
  | None => inl "missing name and stage label"
  end.

(** One metric of the family; the inner map is made on first use. *)
Definition add_metric (featureGates : FeatureGates) (metric : Metric) : FeatureGates :=
  match getNameAndStage (metric_Label metric) with
  | inl _ => featureGates
  | inr (name, stage) =>
      let stages := default ∅ (featureGates !! name) in
      let stages := <[stage := false]> stages in
      let stages := if is_one metric then <[stage := true]> stages else stages in
      <[name := stages]> featureGates
  end.

Definition add_family (featureGates : FeatureGates) (entry : string * list Metric) : FeatureGates :=
  let '(name, family) := entry in
  if (name =? k8sFeatureEnabledMetricName)%string
  then foldl add_metric featureGates family
  else featureGates.

(** The stream of the metrics endpoint and the text parser. *)
Class MetricsEndpoint : Type := {
  Reader : Type;
  stream_metrics : result Reader;
  TextToMetricFamilies : Reader → result (gmap string (list Metric))
}.

Definition GetFeatureGates `{MetricsEndpoint} (σ : RangeOrder) : result FeatureGates :=
  match stream_metrics with
  | inl err => inl err
  | inr reader =>
      match TextToMetricFamilies reader with
      | inl err => inl err
      | inr metricFamilies => inr (foldl add_family ∅ (go_range σ metricFamilies))
      end
  end.

(** ** The cached cluster version *)

Record clusterInfo : Type := { ci_clusterVersion : option string }.

Definition NewClusterInfo : clusterInfo := {| ci_clusterVersion := None |}.

(** [server] is what the discovery call would answer now; the flag says
    whether it is called. *)
Definition GetClusterVersion (server : result string) (c : clusterInfo) :
    result string * bool * clusterInfo :=
  match ci_clusterVersion c with
  | Some v => (inr v, false, c)
  | None =>
      match server with
      | inl err => (inl err, true, c)
      | inr v => (inr v, true, {| ci_clusterVersion := Some v |})
      end
  end.

(** ** Lemmas *)

Lemma any_enabled_true l : any_enabled l = true ↔ true ∈ l.
Proof.
  induction l as [|[] l IH]; cbn.
  - by rewrite elem_of_nil.
  - split; [left|done].
  - rewrite IH, elem_of_cons. naive_solver.
Qed.

Lemma IsEnabledAnyStage_true σ f gate :
  IsEnabledAnyStage σ f gate = true ↔ ∃ stages stage, f !! gate = Some stages ∧ stages !! stage = Some true.
Proof.
  unfold IsEnabledAnyStage. destruct (f !! gate) as [stages|]; [|naive_solver].
  rewrite any_enabled_true, elem_of_range_values. naive_solver.
Qed.

Lemma first_stage_true stage l :
  first_stage stage l = true → ∃ s, (s, true) ∈ l ∧ ToUpper s = stage.
Proof.
  induction l as [|[s e] l IH]; cbn; [done|]. case_match eqn:Hs.
  - apply String.eqb_eq in Hs. intros ->. exists s. split; [left|done].
  - intros (s' & Hin & Heq)%IH. exists s'. split; [by right|done].
Qed.

Lemma first_stage_found stage l s e :
  (s, e) ∈ l → ToUpper s = stage →
  (∀ s' e', (s', e') ∈ l → ToUpper s' = stage → e' = e) → first_stage stage l = e.
Proof.
  intros Hin Hs Hu. induction l as [|[s' e'] l IH]; [by apply elem_of_nil in Hin|]. cbn.
  case_match eqn:Hs'.
  - apply String.eqb_eq in Hs'. by apply (Hu s'); [left|].
  - apply IH; [|intros; eapply Hu; [by right|done]].
    apply elem_of_cons in Hin as [[= -> ->]|]; [|done]. by rewrite Hs, String.eqb_refl in Hs'.
Qed.

(** The value the metrics give a stage of a gate: that of the last metric
    with these labels. *)
Definition labelled (name stage : string) (m : Metric) : Prop :=
  getNameAndStage (metric_Label m) = inr (name, stage).
#[global] Instance labelled_dec name stage m : Decision (labelled name stage m).
Proof. unfold labelled. solve_decision. Defined.

Definition gate_value (family : list Metric) (name stage : string) : option bool :=
  is_one <$> last (filter (labelled name stage) family).

Definition gate_lookup (f : FeatureGates) (name stage : string) : option bool :=
  f !! name ≫= λ stages, stages !! stage.

Lemma add_metric_lookup f m name stage :
  gate_lookup (add_metric f m) name stage =
    if decide (labelled name stage m) then Some (is_one m) else gate_lookup f name stage.
Proof.
  unfold gate_lookup. case_decide as Hl.
  - unfold labelled in Hl. unfold add_metric. rewrite Hl, lookup_insert_eq. cbn.
    destruct (is_one m); by rewrite lookup_insert_eq.
  - unfold labelled in Hl. unfold add_metric.
    destruct (getNameAndStage _) as [err|[n st]]; [done|].
    destruct (decide (n = name)) as [->|Hn]; [|by rewrite lookup_insert_ne].
    rewrite lookup_insert_eq. cbn. assert (st ≠ stage) by congruence.
    destruct (is_one m); rewrite !lookup_insert_ne by done; by destruct (f !! name).
Qed.

Lemma add_metrics_lookup f family name stage :
  gate_lookup (foldl add_metric f family) name stage =
    match gate_value family name stage with Some b => Some b | None => gate_lookup f name stage end.
Proof.
  induction family as [|m family IH] using rev_ind; [done|].
  rewrite foldl_snoc, add_metric_lookup, IH. unfold gate_value. rewrite filter_app, filter_cons, filter_nil.
  case_decide; [by rewrite last_snoc|]. by rewrite app_nil_r.
Qed.

(** Only one entry of the families counts, so their order does not. *)
Lemma add_families_skip f l :
  (∀ family, (k8sFeatureEnabledMetricName, family) ∉ l) → foldl add_family f l = f.
Proof.
  revert f. induction l as [|[n fam] l IH]; intros f Hl; [done|]. cbn.
  rewrite IH by (intros fam' Hin; apply (Hl fam'); by right).
  case_match eqn:Hn; [|done]. apply String.eqb_eq in Hn. subst. exfalso. apply (Hl fam). left.
Qed.

Lemma add_families_eq σ families :
  foldl add_family ∅ (go_range σ families) =
    foldl add_metric ∅ (default [] (families !! k8sFeatureEnabledMetricName)).
Proof.
  destruct (families !! k8sFeatureEnabledMetricName) as [family|] eqn:Hf.
  - pose proof Hf as Hin. rewrite <-(elem_of_go_range σ) in Hin.
    apply list_elem_of_split in Hin as (l1 & l2 & Hl).
    pose proof (NoDup_go_range_keys σ families) as Hnd. rewrite Hl in Hnd |- *.
    rewrite fmap_app, fmap_cons in Hnd. cbn in Hnd. apply NoDup_app in Hnd as (_ & Hd & Hnd).
    apply NoDup_cons in Hnd as [Hn2 _]. rewrite foldl_app. cbn [foldl].
    rewrite (add_families_skip _ l1).
    2:{ intros fam Hin. apply (Hd k8sFeatureEnabledMetricName); [|left].
        apply list_elem_of_fmap. by exists (k8sFeatureEnabledMetricName, fam). }
    cbn [add_family]. rewrite String.eqb_refl. apply add_families_skip. intros fam Hin. apply Hn2.
    apply list_elem_of_fmap. by exists (k8sFeatureEnabledMetricName, fam).
  - apply add_families_skip. intros fam Hin%elem_of_go_range. congruence.
Qed.

(** [IsEnabled] is well defined where no two stages of the gate differ in
    case only; otherwise the order of the range decides. *)
Lemma IsEnabled_true σ f gate stages stage :
  f !! gate = Some stages →
  (∀ s s' e e', stages !! s = Some e → stages !! s' = Some e' → ToUpper s = ToUpper s' → s = s') →
  IsEnabled σ f gate stage = true ↔ ∃ s, ToUpper s = stage ∧ stages !! s = Some true.
Proof.
  intros Hf Hinj. unfold IsEnabled. rewrite Hf. split.
  - intros (s & Hin & Hs)%first_stage_true. exists s. by rewrite elem_of_go_range in Hin.
  - intros (s & Hs & Hl). apply (first_stage_found _ _ s); [by apply elem_of_go_range|done|].
    intros s' e' Hl'%elem_of_go_range Hs'. assert (s' = s) as -> by (eapply Hinj; eauto; congruence).
    congruence.
Qed.

(** A version once read is kept and the server not asked again; a failure
    is not kept. *)
Lemma GetClusterVersion_cached server server' c v asked c' :
  GetClusterVersion server c = (inr v, asked, c') → GetClusterVersion server' c' = (inr v, false, c').
Proof.
  unfold GetClusterVersion. destruct (ci_clusterVersion c) as [v'|] eqn:Hc.
  - intros [= -> _ <-]. by rewrite Hc.
  - destruct server; by intros [= -> _ <-].
Qed.

Lemma GetClusterVersion_retry server c err asked c' :
  GetClusterVersion server c = (inl err, asked, c') → asked = true ∧ c' = c.
Proof.
  unfold GetClusterVersion. destruct (ci_clusterVersion c); [done|]. destruct server; naive_solver.
Qed.

(** ** Properties *)

Section properties.
Context `{MetricsEndpoint}.

(** C35: what the validator reads from the metrics, for every order in which
    maps are iterated.  A stage of a gate is known exactly if a metric of
    the family kubernetes_feature_enabled carries both labels, and it is
    enabled exactly if the last such metric has the value 1; a gate counts
    as enabled if one of its stages is. *)
Theorem feature_gates_spec σ σ' reader families :
  stream_metrics = inr reader → TextToMetricFamilies reader = inr families →
  let family := default [] (families !! k8sFeatureEnabledMetricName) in
  ∃ f, GetFeatureGates σ = inr f ∧
    (∀ name stage, gate_lookup f name stage = gate_value family name stage) ∧
    ∀ gate, IsEnabledAnyStage σ' f gate = true ↔ ∃ stage, gate_value family gate stage = Some true.
Proof.
  intros Hr Hp family. unfold GetFeatureGates. rewrite Hr, Hp, add_families_eq. fold family.
  assert (∀ name stage, gate_lookup (foldl add_metric ∅ family) name stage = gate_value family name stage)
    as Hlookup.
  { intros name stage. rewrite add_metrics_lookup. by destruct (gate_value family name stage). }
  eexists. split; [done|]. split; [exact Hlookup|]. intros gate. rewrite IsEnabledAnyStage_true.
  setoid_rewrite <-Hlookup. unfold gate_lookup. split.
  - intros (stages & stage & Hf & Hs). exists stage. by rewrite Hf.
  - intros (stage & Hs). destruct (_ !! gate) as [stages|]; [|done]. exists stages, stage. done.
Qed.
End properties.

(** ** Witnesses *)

Module ConcreteEndpoint.
Definition gauge (labels : list (string * string)) (value : spec_float) : Metric := {|
  metric_Label := (λ l, {| label_Name := Some l.1; label_Value := Some l.2 |}) <$> labels;
  metric_Gauge := Some value |}.

(** An API server that reports the given gates. *)
Definition families (gates : list (string * string * bool)) : gmap string (list Metric) :=
  {[ k8sFeatureEnabledMetricName :=
       (λ g, gauge [("name", g.1.1); ("stage", g.1.2)] (if g.2 : bool then float_one else S754_zero false))
         <$> gates;
     "process_start_time_seconds" := [gauge [] (S754_zero false)] ]}.

Definition endpoint (gates : list (string * string * bool)) : MetricsEndpoint :=
  {| Reader := unit; stream_metrics := inr tt; TextToMetricFamilies := λ _, inr (families gates) |}.
End ConcreteEndpoint.

Module witness.
Import ConcreteEndpoint.
#[local] Instance server : MetricsEndpoint :=
  endpoint [("InPlacePodVerticalScaling", "BETA", true); ("PodLevelResources", "ALPHA", false)].

Example feature_gates_spec_witness :
  ∃ f, GetFeatureGates order_rev = inr f ∧
    IsEnabledAnyStage order_fwd f "InPlacePodVerticalScaling" = true ∧
    IsEnabledAnyStage order_fwd f "PodLevelResources" ≠ true.
Proof.
  destruct (feature_gates_spec order_rev order_fwd (tt : @Reader server) (families
    [("InPlacePodVerticalScaling", "BETA", true); ("PodLevelResources", "ALPHA", false)])
    eq_refl eq_refl) as (f & Hf & Hl & Ha).
  exists f. split; [exact Hf|]. split.
  - apply Ha. exists "BETA". reflexivity.
  - intros (stage & Hs)%Ha. revert Hs. destruct (decide (stage = "ALPHA")) as [->|Hne]; [by vm_compute|].
    unfold gate_value. replace (default [] _) with
      [gauge [("name", "InPlacePodVerticalScaling"); ("stage", "BETA")] float_one;
       gauge [("name", "PodLevelResources"); ("stage", "ALPHA")] (S754_zero false)] by reflexivity.
    rewrite !filter_cons, filter_nil, !decide_False; [done|..]; unfold labelled; cbn; congruence.
Defined.

(** Two stages that differ in case: the iteration order decides. *)
Example is_enabled_depends_on_order :
  let f := {[ "Gate" := {[ "beta" := true; "Beta" := false ]} ]} in
  IsEnabled order_fwd f "Gate" "BETA" ≠ IsEnabled order_rev f "Gate" "BETA".
Proof. vm_compute. done. Qed.
End witness.
