(* ===== verification/GlobalController.v ===== *)
(** * The controller of GlobalStartupCPUBoost (internal/controller)

    [GlobalStartupCPUBoostReconciler] distributes the template of a cluster
    wide boost: it keeps one child StartupCPUBoost in every namespace that
    its selector matches and that has no boosts of its own, removes the
    children elsewhere, cleans up when the object is deleted and reports
    the namespaces in the status.  The API client is an interface whose
    calls may fail at any time; what an API server guarantees about the
    stored boosts is stated separately. *)

From stdpp Require Import strings sorting.
From S2P Require Import Prelude Quantities Kube Api Validation BoostController.

Module Global.

Definition GlobalBoostActiveConditionTrueReason : string := "Ready".
Definition GlobalBoostActiveConditionTrueMessage : string :=
  "Distributing StartupCPUBoost to matching namespaces".
Definition GlobalBoostActiveConditionFalseReason : string := "NotReady".
Definition GlobalBoostActiveConditionFalseMessage : string := "GlobalStartupCPUBoost is not active".
Definition global_boost_uid : string := "autoscaling.x-k8s.io/global-boost-uid".

(** ** Interfaces *)

Record Namespace : Type := {
  ns_Name : string;
  ns_Labels : GoMap string;
  ns_DeletionTimestamp : option Z
}.

(** [controllerutil]'s functions on the list of finalizers. *)
Class FinalizerLib : Type := {
  ContainsFinalizer : list string → string → bool;
  AddFinalizer : list string → string → list string;
  RemoveFinalizer : list string → string → list string
}.

(** [equality.Semantic.DeepEqual] at the types it is used with. *)
Class SemanticLib `{QuantityLib} `{SelectorLib} : Type := {
  selector_DeepEqual : LabelSelector → LabelSelector → bool;
  spec_DeepEqual : v1alpha1.StartupCPUBoostSpec → v1alpha1.StartupCPUBoostSpec → bool
}.

(** The list options in use: one namespace, or one value of the label. *)
Inductive ListOption : Type :=
  | InNamespace (namespace : string)
  | MatchingLabel (value : string).

Class GlobalClient `{QuantityLib} `{SelectorLib} : Type := {
  World : Type;
  GetGlobal : string → World → (ApiError + v1alpha1.GlobalStartupCPUBoost) * World;
  UpdateGlobal : v1alpha1.GlobalStartupCPUBoost → World → option ApiError * World;
  UpdateGlobalStatus : v1alpha1.GlobalStartupCPUBoost → World → option ApiError * World;
  ListGlobals : World → (ApiError + list v1alpha1.GlobalStartupCPUBoost) * World;
  GetNamespace : string → World → (ApiError + Namespace) * World;
  ListNamespaces : Selector → World → (ApiError + list Namespace) * World;
  GetBoost : string → string → World → (ApiError + v1alpha1.StartupCPUBoost) * World;
  ListBoosts : ListOption → World → (ApiError + list v1alpha1.StartupCPUBoost) * World;
  CreateBoost : v1alpha1.StartupCPUBoost → World → option ApiError * World;
  UpdateBoost : v1alpha1.StartupCPUBoost → World → option ApiError * World;
  DeleteBoost : v1alpha1.StartupCPUBoost → World → option ApiError * World
}.

Section controller.
Context `{QuantityLib} `{SelectorLib} `{ConditionLib} `{FinalizerLib} `{!SemanticLib} `{!GlobalClient}.
Implicit Types (globalBoost : v1alpha1.GlobalStartupCPUBoost) (boost : v1alpha1.StartupCPUBoost).

Definition call {A} (op : World → A * World) : M World A := λ w, Done (op w).

(** Errors of the reconciler. *)
Inductive GlobalError : Type :=
  | SelectorError (err : error)
  | ClientError (err : ApiError)
  | ListManagedFailed (err : ApiError)
  | CreateChildFailed (err : ApiError)
  | GetChildFailed (err : ApiError)
  | ChildNotManaged (namespace childName : string)
  | UpdateChildFailed (err : ApiError)
  | DeleteChildFailed (namespace name : string) (err : ApiError).

Definition boost_name boost : string := v1alpha1.om_Name (v1alpha1.b_Meta boost).
Definition boost_namespace boost : string := v1alpha1.om_Namespace (v1alpha1.b_Meta boost).
Definition boost_label boost : option string :=
  gm_get (v1alpha1.om_Labels (v1alpha1.b_Meta boost)) v1alpha1.ManagedByGlobalBoostLabel.
Definition global_name globalBoost : string := v1alpha1.om_Name (v1alpha1.gb_Meta globalBoost).

(** [boost.Labels[ManagedByGlobalBoostLabel]]: empty when missing. *)
Definition managedBy boost : string := default "" (boost_label boost).

Definition childBoostName (globalBoostName : string) : string :=
  (v1alpha1.GlobalBoostChildPrefix +:+ globalBoostName)%string.

(** ** Children *)

Definition buildChildBoost globalBoost (namespace childName : string) : v1alpha1.StartupCPUBoost := {|
  v1alpha1.b_Meta := {|
    v1alpha1.om_Name := childName;
    v1alpha1.om_Namespace := namespace;
    v1alpha1.om_UID := "";
    v1alpha1.om_Labels := Some {[ v1alpha1.ManagedByGlobalBoostLabel := global_name globalBoost ]};
    v1alpha1.om_Annotations :=
      Some {[ global_boost_uid := v1alpha1.om_UID (v1alpha1.gb_Meta globalBoost) ]};
    v1alpha1.om_Finalizers := [];
    v1alpha1.om_DeletionTimestamp := None
  |};
  v1alpha1.b_Selector := v1alpha1.tmpl_Selector (v1alpha1.gspec_Template (v1alpha1.gb_Spec globalBoost));
  v1alpha1.b_Spec := v1alpha1.tmpl_Spec (v1alpha1.gspec_Template (v1alpha1.gb_Spec globalBoost));
  v1alpha1.b_Status := {|
    v1alpha1.bs_ActiveContainerBoosts := 0;
    v1alpha1.bs_TotalContainerBoosts := 0;
    v1alpha1.bs_Conditions := []
  |}
|}.

Fixpoint any_unmanaged (globalBoostName : string) (boosts : list v1alpha1.StartupCPUBoost) : bool :=
  match boosts with
  | [] => false
  | boost :: boosts =>
      if negb (managedBy boost =? globalBoostName)%string then true
      else any_unmanaged globalBoostName boosts
  end.

Definition hasUnmanagedBoosts (namespace globalBoostName : string) : M World (ApiError + bool) :=
  let! boostList := call (ListBoosts (InNamespace namespace)) in
  match boostList with
  | inl err => ret (inl err)
  | inr items => ret (inr (any_unmanaged globalBoostName items))
  end.

(** The existing child with the selector and the spec of the desired one. *)
Definition set_child_spec (existing desired : v1alpha1.StartupCPUBoost) : v1alpha1.StartupCPUBoost := {|
  v1alpha1.b_Meta := v1alpha1.b_Meta existing;
  v1alpha1.b_Selector := v1alpha1.b_Selector desired;
  v1alpha1.b_Spec := v1alpha1.b_Spec desired;
  v1alpha1.b_Status := v1alpha1.b_Status existing
|}.

Definition ensureChild globalBoost (namespace childName : string) : M World (option GlobalError) :=
  let desired := buildChildBoost globalBoost namespace childName in
  let! existing := call (GetBoost childName namespace) in
  match existing with
  | inl err =>
      if IsNotFound err then
        let! err := call (CreateBoost desired) in
        ret (CreateChildFailed <$> err)
      else ret (Some (GetChildFailed err))
  | inr existing =>
      if negb (managedBy existing =? global_name globalBoost)%string
      then ret (Some (ChildNotManaged namespace childName)) else
      if negb (selector_DeepEqual (v1alpha1.b_Selector existing) (v1alpha1.b_Selector desired))
         || negb (spec_DeepEqual (v1alpha1.b_Spec existing) (v1alpha1.b_Spec desired))
      then
        let! err := call (UpdateBoost (set_child_spec existing desired)) in
        ret (UpdateChildFailed <$> err)
      else ret None
  end.

(** Errors are only logged. *)
Definition deleteChildIfExists (childName namespace : string) : M World unit :=
  let! existing := call (GetBoost childName namespace) in
  match existing with
  | inl _ => ret tt
  | inr existing =>
      match boost_label existing with
      | None => ret tt
      | Some _ => let! _ := call (DeleteBoost existing) in ret tt
      end
  end.

Fixpoint delete_stale (activeSet : list string) (boosts : list v1alpha1.StartupCPUBoost) :
    M World unit :=
  match boosts with
  | [] => ret tt
  | boost :: boosts =>
      if bool_decide (boost_namespace boost ∈ activeSet) then delete_stale activeSet boosts
      else
        let! _ := call (DeleteBoost boost) in
        delete_stale activeSet boosts
  end.

(** The parameter [desiredNamespaces] of the code is not used. *)
Definition cleanupStaleChildren (globalBoostName : string) (activeNamespaces : list string) :
    M World (option GlobalError) :=
  let! allBoosts := call (ListBoosts (MatchingLabel globalBoostName)) in
  match allBoosts with
  | inl err => ret (Some (ListManagedFailed err))
  | inr items => do! delete_stale activeNamespaces items in ret None
  end.

Fixpoint delete_all (boosts : list v1alpha1.StartupCPUBoost) : M World (option GlobalError) :=
  match boosts with
  | [] => ret None
  | boost :: boosts =>
      let! err := call (DeleteBoost boost) in
      match err with
      | Some err =>
          if IsNotFound err then delete_all boosts
          else ret (Some (DeleteChildFailed (boost_namespace boost) (boost_name boost) err))
      | None => delete_all boosts
      end
  end.

Definition deleteAllChildren (globalBoostName : string) : M World (option GlobalError) :=
  let! allBoosts := call (ListBoosts (MatchingLabel globalBoostName)) in
  match allBoosts with
  | inl err => ret (Some (ListManagedFailed err))
  | inr items => delete_all items
  end.

(** ** Status *)

Definition set_global_status globalBoost (st : v1alpha1.GlobalStartupCPUBoostStatus) :
    v1alpha1.GlobalStartupCPUBoost :=
  {| v1alpha1.gb_Meta := v1alpha1.gb_Meta globalBoost; v1alpha1.gb_Spec := v1alpha1.gb_Spec globalBoost;
     v1alpha1.gb_Status := st |}.

Definition active_condition (activeNamespaces : list string) : v1alpha1.Condition :=
  match activeNamespaces with
  | [] => {| v1alpha1.cond_Type := "Active"; v1alpha1.cond_Status := ConditionFalse;
             v1alpha1.cond_Reason := GlobalBoostActiveConditionFalseReason;
             v1alpha1.cond_Message := GlobalBoostActiveConditionFalseMessage |}
  | _ => {| v1alpha1.cond_Type := "Active"; v1alpha1.cond_Status := ConditionTrue;
            v1alpha1.cond_Reason := GlobalBoostActiveConditionTrueReason;
            v1alpha1.cond_Message := GlobalBoostActiveConditionTrueMessage |}
  end.

Definition new_global_status globalBoost (activeNamespaces skippedNamespaces : list string) :
    v1alpha1.GlobalStartupCPUBoostStatus := {|
  v1alpha1.gs_NamespaceCount := int32 (Z.of_nat (length activeNamespaces));
  v1alpha1.gs_ActiveNamespaces := activeNamespaces;
  v1alpha1.gs_SkippedNamespaces := skippedNamespaces;
  v1alpha1.gs_Conditions := SetStatusCondition
    (v1alpha1.gs_Conditions (v1alpha1.gb_Status globalBoost)) (active_condition activeNamespaces)
|}.

Definition no_requeue : Result := {| res_Requeue := false |}.
Definition requeue : Result := {| res_Requeue := true |}.

Definition updateStatus globalBoost (activeNamespaces skippedNamespaces : list string) :
    M World (Result * option GlobalError) :=
  let newStatus := set_global_status globalBoost
    (new_global_status globalBoost activeNamespaces skippedNamespaces) in
  if decide (v1alpha1.gb_Status newStatus = v1alpha1.gb_Status globalBoost)
  then ret (no_requeue, None)
  else
    let! err := call (UpdateGlobalStatus newStatus) in
    match err with
    | Some err =>
        if IsConflict err then ret (requeue, None)
        else ret (no_requeue, ClientError <$> IgnoreNotFound err)
    | None => ret (no_requeue, None)
    end.

(** ** Reconciliation *)

Fixpoint desired_namespaces (m : gmap string bool) (items : list Namespace) : gmap string bool :=
  match items with
  | [] => m
  | ns :: items =>
      match ns_DeletionTimestamp ns with
      | Some _ => desired_namespaces m items
      | None => desired_namespaces (<[ns_Name ns := true]> m) items
      end
  end.

(** One namespace; the lists are the active and the skipped ones so far. *)
Definition process_namespace globalBoost (childName nsName : string) (acc : list string * list string) :
    M World (list string * list string) :=
  let '(activeNamespaces, skippedNamespaces) := acc in
  let! hasUnmanaged := hasUnmanagedBoosts nsName (global_name globalBoost) in
  match hasUnmanaged with
  | inl _ => ret acc
  | inr true =>
      do! deleteChildIfExists childName nsName in
      ret (activeNamespaces, skippedNamespaces ++ [nsName])
  | inr false =>
      let! err := ensureChild globalBoost nsName childName in
      match err with
      | Some _ => ret acc
      | None => ret (activeNamespaces ++ [nsName], skippedNamespaces)
      end
  end.

Fixpoint process_namespaces globalBoost (childName : string) (acc : list string * list string)
    (namespaces : list string) : M World (list string * list string) :=
  match namespaces with
  | [] => ret acc
  | nsName :: namespaces =>
      let! acc := process_namespace globalBoost childName nsName acc in
      process_namespaces globalBoost childName acc namespaces
  end.

Definition sort_Strings (l : list string) : list string := merge_sort String.le l.

Definition reconcile (σ : RangeOrder) globalBoost : M World (Result * option GlobalError) :=
  match LabelSelectorAsSelector (v1alpha1.gspec_NamespaceSelector (v1alpha1.gb_Spec globalBoost)) with
  | inl err => ret (no_requeue, Some (SelectorError err))
  | inr nsSelector =>
      let! namespaceList := call (ListNamespaces nsSelector) in
      match namespaceList with
      | inl err => ret (no_requeue, Some (ClientError err))
      | inr items =>
          let childName := childBoostName (global_name globalBoost) in
          let desiredNamespaces := desired_namespaces ∅ items in
          let! (activeNamespaces, skippedNamespaces) :=
            process_namespaces globalBoost childName ([], []) (go_range σ desiredNamespaces).*1 in
          (* an error is logged *)
          let! _ := cleanupStaleChildren (global_name globalBoost) activeNamespaces in
          updateStatus globalBoost (sort_Strings activeNamespaces) (sort_Strings skippedNamespaces)
      end
  end.

Definition set_finalizers globalBoost (finalizers : list string) : v1alpha1.GlobalStartupCPUBoost :=
  let m := v1alpha1.gb_Meta globalBoost in
  {| v1alpha1.gb_Meta := {|
       v1alpha1.om_Name := v1alpha1.om_Name m;
       v1alpha1.om_Namespace := v1alpha1.om_Namespace m;
       v1alpha1.om_UID := v1alpha1.om_UID m;
       v1alpha1.om_Labels := v1alpha1.om_Labels m;
       v1alpha1.om_Annotations := v1alpha1.om_Annotations m;
       v1alpha1.om_Finalizers := finalizers;
       v1alpha1.om_DeletionTimestamp := v1alpha1.om_DeletionTimestamp m |};
     v1alpha1.gb_Spec := v1alpha1.gb_Spec globalBoost;
     v1alpha1.gb_Status := v1alpha1.gb_Status globalBoost |}.

Definition global_finalizers globalBoost : list string :=
  v1alpha1.om_Finalizers (v1alpha1.gb_Meta globalBoost).

Definition handleDeletion globalBoost : M World (Result * option GlobalError) :=
  if negb (ContainsFinalizer (global_finalizers globalBoost) v1alpha1.GlobalBoostFinalizer)
  then ret (no_requeue, None) else
  let! err := deleteAllChildren (global_name globalBoost) in
  match err with
  | Some err => ret (no_requeue, Some err)
  | None =>
      let globalBoost := set_finalizers globalBoost
        (RemoveFinalizer (global_finalizers globalBoost) v1alpha1.GlobalBoostFinalizer) in
      let! err := call (UpdateGlobal globalBoost) in
      ret (no_requeue, ClientError <$> err)
  end.

Definition Reconcile (σ : RangeOrder) (name : string) : M World (Result * option GlobalError) :=
  let! got := call (GetGlobal name) in
  match got with
  | inl err => ret (no_requeue, ClientError <$> IgnoreNotFound err)
  | inr globalBoost =>
      match v1alpha1.om_DeletionTimestamp (v1alpha1.gb_Meta globalBoost) with
      | Some _ => handleDeletion globalBoost
      | None =>
          if negb (ContainsFinalizer (global_finalizers globalBoost) v1alpha1.GlobalBoostFinalizer)
          then
            let globalBoost := set_finalizers globalBoost
              (AddFinalizer (global_finalizers globalBoost) v1alpha1.GlobalBoostFinalizer) in
            let! err := call (UpdateGlobal globalBoost) in
            match err with
            | Some err => ret (no_requeue, Some (ClientError err))
            | None => ret (requeue, None)
            end
          else reconcile σ globalBoost
      end
  end.

(** ** Watches

    The names of the global boosts to reconcile. *)

Fixpoint matching_globals (labels : GoMap string) (items : list v1alpha1.GlobalStartupCPUBoost) :
    list string :=
  match items with
  | [] => []
  | gb :: items =>
      match LabelSelectorAsSelector (v1alpha1.gspec_NamespaceSelector (v1alpha1.gb_Spec gb)) with
      | inl _ => matching_globals labels items
      | inr nsSelector =>
          if SelMatches nsSelector labels then global_name gb :: matching_globals labels items
          else matching_globals labels items
      end
  end.

(** The object of a watch event; the type assertions of the map functions
    panic on the wrong type. *)
Inductive WatchedObject : Type :=
  | WatchedNamespace (ns : Namespace)
  | WatchedBoost (boost : v1alpha1.StartupCPUBoost).

Definition mapNamespaceToGlobalBoosts (obj : WatchedObject) : M World (list string) :=
  let! globalBoostList := call ListGlobals in
  match globalBoostList with
  | inl _ => ret []
  | inr items =>
      match obj with
      | WatchedNamespace ns => ret (matching_globals (ns_Labels ns) items)
      | WatchedBoost _ => panic "interface conversion: client.Object is not *v1.Namespace"
      end
  end.

Definition mapBoostToGlobalBoosts (obj : WatchedObject) : M World (list string) :=
  match obj with
  | WatchedNamespace _ => panic "interface conversion: client.Object is not *v1alpha1.StartupCPUBoost"
  | WatchedBoost boost =>
      let! ns := call (GetNamespace (boost_namespace boost)) in
      match ns with
      | inl _ => ret []
      | inr ns =>
          let! globalBoostList := call ListGlobals in
          match globalBoostList with
          | inl _ => ret []
          | inr items => ret (matching_globals (ns_Labels ns) items)
          end
      end
  end.
End controller.

(** ** What the API server guarantees *)

Section laws.
Context `{QuantityLib} `{SelectorLib}.
Abbreviation Boosts := (gmap (string * string) v1alpha1.StartupCPUBoost).

(** Boosts are stored by namespace and name. *)
Definition boost_key (b : v1alpha1.StartupCPUBoost) : string * string := (boost_namespace b, boost_name b).

(** [b'] is [b] as the server stores it: with the metadata it assigns and
    in the serialized form of its fields. *)
Definition stored_as `{!SemanticLib} (b b' : v1alpha1.StartupCPUBoost) : Prop :=
  boost_key b' = boost_key b ∧ boost_label b' = boost_label b ∧
  v1alpha1.om_Finalizers (v1alpha1.b_Meta b') = v1alpha1.om_Finalizers (v1alpha1.b_Meta b) ∧
  selector_DeepEqual (v1alpha1.b_Selector b') (v1alpha1.b_Selector b) = true ∧
  spec_DeepEqual (v1alpha1.b_Spec b') (v1alpha1.b_Spec b) = true.

Definition selected (o : ListOption) (b : v1alpha1.StartupCPUBoost) : Prop :=
  match o with
  | InNamespace ns => boost_namespace b = ns
  | MatchingLabel v => boost_label b = Some v
  end.

Class SemanticLaws `{!SemanticLib} : Prop := {
  selector_refl s : selector_DeepEqual s s = true;
  spec_refl s : spec_DeepEqual s s = true
}.

Class FinalizerLaws `{FinalizerLib} : Prop := {
  contains_finalizer l f : ContainsFinalizer l f = true ↔ f ∈ l;
  add_finalizer l f f' : f' ∈ AddFinalizer l f ↔ f' = f ∨ f' ∈ l;
  remove_finalizer l f f' : f' ∈ RemoveFinalizer l f ↔ f' ≠ f ∧ f' ∈ l
}.

(** A deletion marks an object that has finalizers: it stays, with a deletion
    timestamp, until the last finalizer is removed. *)
Definition marks (b b' : v1alpha1.StartupCPUBoost) : Prop :=
  boost_label b' = boost_label b ∧
  v1alpha1.om_Finalizers (v1alpha1.b_Meta b') = v1alpha1.om_Finalizers (v1alpha1.b_Meta b) ∧
  is_Some (v1alpha1.om_DeletionTimestamp (v1alpha1.b_Meta b')).

(** What is left of an object that was deleted. *)
Definition being_deleted (b : option v1alpha1.StartupCPUBoost) : Prop :=
  match b with
  | None => True
  | Some b => v1alpha1.om_Finalizers (v1alpha1.b_Meta b) ≠ [] ∧
      is_Some (v1alpha1.om_DeletionTimestamp (v1alpha1.b_Meta b))
  end.

(** The boosts stored in a world, and how the calls change them.  A call
    that fails may or may not have had its effect. *)
Class GlobalClientLaws `{!SemanticLib} `{!GlobalClient} : Type := {
  stored : World → Boosts;
  stored_key w k b : stored w !! k = Some b → boost_key b = k;
  get_global_name w n g : (GetGlobal n w).1 = inr g → global_name g = n;
  get_global_stored w n : stored (GetGlobal n w).2 = stored w;
  update_global_stored w g : stored (UpdateGlobal g w).2 = stored w;
  update_status_stored w g : stored (UpdateGlobalStatus g w).2 = stored w;
  list_namespaces_stored w s : stored (ListNamespaces s w).2 = stored w;
  get_stored w name ns : stored (GetBoost name ns w).2 = stored w;
  list_stored w o : stored (ListBoosts o w).2 = stored w;
  create_other w b k : k ≠ boost_key b → stored (CreateBoost b w).2 !! k = stored w !! k;
  create_effect w b :
    ((CreateBoost b w).1 ≠ None ∧ stored (CreateBoost b w).2 !! boost_key b = stored w !! boost_key b) ∨
    (stored w !! boost_key b = None ∧
     ∃ b', stored_as b b' ∧ stored (CreateBoost b w).2 !! boost_key b = Some b');
  update_other w b k : k ≠ boost_key b → stored (UpdateBoost b w).2 !! k = stored w !! k;
  update_effect w b :
    ((UpdateBoost b w).1 ≠ None ∧ stored (UpdateBoost b w).2 !! boost_key b = stored w !! boost_key b) ∨
    ∃ b', stored_as b b' ∧ stored (UpdateBoost b w).2 !! boost_key b = Some b';
  delete_other w b k : k ≠ boost_key b → stored (DeleteBoost b w).2 !! k = stored w !! k;
  (* an object with finalizers is only marked *)
  delete_effect w b :
    stored (DeleteBoost b w).2 !! boost_key b = stored w !! boost_key b ∨
    stored (DeleteBoost b w).2 !! boost_key b = None ∨
    ∃ b0 b', stored w !! boost_key b = Some b0 ∧ marks b0 b' ∧
      stored (DeleteBoost b w).2 !! boost_key b = Some b';
  delete_stores w b : (DeleteBoost b w).1 = None →
    being_deleted (stored (DeleteBoost b w).2 !! boost_key b);
  delete_not_found w b e : (DeleteBoost b w).1 = Some e → IsNotFound e = true →
    stored (DeleteBoost b w).2 !! boost_key b = None
}.

(** Reads are current.  The controller reads through the informer cache of
    the controller manager, which follows the server with a delay: what
    assumes this class speaks of a cache that has caught up and of no other
    writer acting meanwhile. *)
Class FreshReads `{!SemanticLib} `{!GlobalClient} `{!GlobalClientLaws} : Prop := {
  get_found w name ns b : (GetBoost name ns w).1 = inr b → stored w !! (ns, name) = Some b;
  get_not_found w name ns e : (GetBoost name ns w).1 = inl e → IsNotFound e = true →
    stored w !! (ns, name) = None;
  list_found w o l : (ListBoosts o w).1 = inr l →
    ∀ b, b ∈ l ↔ stored w !! boost_key b = Some b ∧ selected o b
}.

(** A client without faults: reads succeed, an object is created where none
    is stored and updated or deleted where one is, provided the admission
    webhook accepts it. *)
Class ReliableClient `{!SemanticLib} `{!GlobalClient} `{!GlobalClientLaws} : Prop := {
  get_reliable w name ns :
    match (GetBoost name ns w).1 with
    | inl e => IsNotFound e = true
    | inr _ => True
    end;
  list_reliable w o : ∃ l, (ListBoosts o w).1 = inr l;
  create_reliable w b : stored w !! boost_key b = None → validate b = None → (CreateBoost b w).1 = None;
  update_reliable w b b0 : stored w !! boost_key b = Some b0 → validate b = None → (UpdateBoost b w).1 = None;
  delete_reliable w b : stored w !! boost_key b = Some b → (DeleteBoost b w).1 = None
}.
End laws.
End Global.
