(* ===== verification/ConcreteCluster.v ===== *)
(** * A concrete cluster for the global controller

    Instances of the interfaces of GlobalController: an API server that
    stores boosts by namespace and name and asks the admission webhook
    before it stores one, and whose list calls can be made to fail.  They
    show that the assumed laws can hold and let runs be evaluated. *)

From S2P Require Import Prelude Quantities Kube Api Validation BoostController GlobalController.
Import Global.

Module ConcreteCluster.
#[local] Existing Instances ConcreteQuantity.lib ConcreteQuantity.laws ConcreteSelector.lib.

(** ** Finalizers *)

#[local] Instance finalizers : FinalizerLib := {|
  ContainsFinalizer := λ l f, bool_decide (f ∈ l);
  AddFinalizer := λ l f, if decide (f ∈ l) then l else l ++ [f];
  RemoveFinalizer := λ l f, filter (λ x, x ≠ f) l
|}.

#[local] Instance finalizers_laws : FinalizerLaws.
Proof.
  split; intros l f; cbn.
  - apply bool_decide_eq_true.
  - intros f'. case_decide; [naive_solver|]. rewrite elem_of_app, list_elem_of_singleton. tauto.
  - intros f'. by rewrite list_elem_of_filter.
Qed.

(** ** Semantic equality: quantities by value, the rest as it is *)

#[local] Instance FixedDurationPolicy_eq_dec : EqDecision v1alpha1.FixedDurationPolicy.
Proof. solve_decision. Defined.
#[local] Instance PodConditionDurationPolicy_eq_dec : EqDecision v1alpha1.PodConditionDurationPolicy.
Proof. solve_decision. Defined.
#[local] Instance DurationPolicy_eq_dec : EqDecision v1alpha1.DurationPolicy.
Proof. solve_decision. Defined.
#[local] Instance PercentageIncrease_eq_dec : EqDecision v1alpha1.PercentageIncrease.
Proof. solve_decision. Defined.

Definition fixed_eqb (a b : option v1alpha1.FixedResources) : bool :=
  match a, b with
  | Some a, Some b =>
      (QCmp (v1alpha1.fr_Requests a) (v1alpha1.fr_Requests b) =? 0) &&
      (QCmp (v1alpha1.fr_Limits a) (v1alpha1.fr_Limits b) =? 0)
  | None, None => true
  | _, _ => false
  end.

Definition policy_eqb (a b : v1alpha1.ContainerPolicy) : bool :=
  (v1alpha1.cp_ContainerName a =? v1alpha1.cp_ContainerName b)%string &&
  bool_decide (v1alpha1.cp_PercentageIncrease a = v1alpha1.cp_PercentageIncrease b) &&
  fixed_eqb (v1alpha1.cp_FixedResources a) (v1alpha1.cp_FixedResources b).

Fixpoint policies_eqb (l l' : list v1alpha1.ContainerPolicy) : bool :=
  match l, l' with
  | [], [] => true
  | a :: l, b :: l' => policy_eqb a b && policies_eqb l l'
  | _, _ => false
  end.

#[local] Instance semantic : SemanticLib := {|
  selector_DeepEqual := λ a b, bool_decide (a = b);
  spec_DeepEqual := λ a b,
    policies_eqb (v1alpha1.rp_ContainerPolicies (v1alpha1.spec_ResourcePolicy a))
      (v1alpha1.rp_ContainerPolicies (v1alpha1.spec_ResourcePolicy b)) &&
    bool_decide (v1alpha1.spec_DurationPolicy a = v1alpha1.spec_DurationPolicy b)
|}.

Lemma QCmp_refl (q : Quantity) : (QCmp q q =? 0) = true.
Proof. apply Z.eqb_eq. by apply QCmp_eq. Qed.

Lemma policies_eqb_refl l : policies_eqb l l = true.
Proof.
  induction l as [|a l IH]; cbn [policies_eqb]; [done|]. rewrite IH, andb_true_r.
  unfold policy_eqb, fixed_eqb. rewrite String.eqb_refl, bool_decide_true by done.
  destruct (v1alpha1.cp_FixedResources a); [|done]. by rewrite !QCmp_refl.
Qed.

#[local] Instance semantic_laws : SemanticLaws.
Proof.
  split; intros s; cbn [selector_DeepEqual spec_DeepEqual semantic].
  - by apply bool_decide_true.
  - by rewrite policies_eqb_refl, bool_decide_true.
Qed.

(** ** The server *)

Abbreviation boosts := (gmap (string * string) v1alpha1.StartupCPUBoost).

Record Cluster : Type := {
  cl_boosts : boosts;
  cl_globals : list v1alpha1.GlobalStartupCPUBoost;
  cl_namespaces : list Namespace;
  (* which of the next list calls fail *)
  cl_faults : list bool
}.

(** Every boost is stored under its own key. *)
Definition cluster_stored (w : Cluster) : boosts := filter (λ kb, boost_key kb.2 = kb.1) (cl_boosts w).

Definition set_boosts (w : Cluster) (st : boosts) : Cluster :=
  {| cl_boosts := st; cl_globals := cl_globals w; cl_namespaces := cl_namespaces w; cl_faults := cl_faults w |}.
Definition set_globals (w : Cluster) (gs : list v1alpha1.GlobalStartupCPUBoost) : Cluster :=
  {| cl_boosts := cl_boosts w; cl_globals := gs; cl_namespaces := cl_namespaces w; cl_faults := cl_faults w |}.
Definition next_fault (w : Cluster) : bool * Cluster :=
  (default false (head (cl_faults w)),
   {| cl_boosts := cl_boosts w; cl_globals := cl_globals w; cl_namespaces := cl_namespaces w;
      cl_faults := tail (cl_faults w) |}).

#[local] Instance selected_dec o b : Decision (selected o b).
Proof. destruct o; cbn; apply _. Defined.

Definition listed (o : ListOption) (w : Cluster) : list v1alpha1.StartupCPUBoost :=
  filter (selected o) (map_to_list (cluster_stored w)).*2.

Definition replace_global (g : v1alpha1.GlobalStartupCPUBoost) (gs : list v1alpha1.GlobalStartupCPUBoost) :=
  (λ g', if decide (global_name g' = global_name g) then g else g') <$> gs.

Definition denied (b : v1alpha1.StartupCPUBoost) : option ApiError :=
  match validate b with Some _ => Some (ErrOther "denied") | None => None end.

Definition find_global (n : string) (w : Cluster) : ApiError + v1alpha1.GlobalStartupCPUBoost :=
  match filter (λ g, global_name g = n) (cl_globals w) with
  | g :: _ => inr g
  | [] => inl (ErrNotFound n)
  end.

(** An object with finalizers is marked. *)
Definition mark (b : v1alpha1.StartupCPUBoost) : v1alpha1.StartupCPUBoost := {|
  v1alpha1.b_Meta := {|
    v1alpha1.om_Name := v1alpha1.om_Name (v1alpha1.b_Meta b);
    v1alpha1.om_Namespace := v1alpha1.om_Namespace (v1alpha1.b_Meta b);
    v1alpha1.om_UID := v1alpha1.om_UID (v1alpha1.b_Meta b);
    v1alpha1.om_Labels := v1alpha1.om_Labels (v1alpha1.b_Meta b);
    v1alpha1.om_Annotations := v1alpha1.om_Annotations (v1alpha1.b_Meta b);
    v1alpha1.om_Finalizers := v1alpha1.om_Finalizers (v1alpha1.b_Meta b);
    v1alpha1.om_DeletionTimestamp := Some 0 |};
  v1alpha1.b_Selector := v1alpha1.b_Selector b;
  v1alpha1.b_Spec := v1alpha1.b_Spec b;
  v1alpha1.b_Status := v1alpha1.b_Status b
|}.

(** With [faulty], list calls fail as the world says. *)
Definition cluster (faulty : bool) : GlobalClient := {|
  World := Cluster;
  GetGlobal := λ n w, (find_global n w, w);
  UpdateGlobal := λ g w, (None, set_globals w (replace_global g (cl_globals w)));
  UpdateGlobalStatus := λ g w, (None, set_globals w (replace_global g (cl_globals w)));
  ListGlobals := λ w, (inr (cl_globals w), w);
  GetNamespace := λ n w, (match filter (λ ns, ns_Name ns = n) (cl_namespaces w) with
    | ns :: _ => inr ns | [] => inl (ErrNotFound n) end, w);
  ListNamespaces := λ s w, (inr (filter (λ ns, SelMatches s (ns_Labels ns) = true) (cl_namespaces w)), w);
  GetBoost := λ name ns w, (match cluster_stored w !! (ns, name) with
    | Some b => inr b | None => inl (ErrNotFound name) end, w);
  ListBoosts := λ o w,
    let '(fault, w) := next_fault w in
    (if faulty && fault then inl (ErrOther "timeout") else inr (listed o w), w);
  CreateBoost := λ b w,
    match denied b with
    | Some e => (Some e, w)
    | None =>
        match cluster_stored w !! boost_key b with
        | Some _ => (Some (ErrAlreadyExists (boost_name b)), w)
        | None => (None, set_boosts w (<[boost_key b := b]> (cl_boosts w)))
        end
    end;
  UpdateBoost := λ b w,
    match denied b with
    | Some e => (Some e, w)
    | None =>
        match cluster_stored w !! boost_key b with
        | Some _ => (None, set_boosts w (<[boost_key b := b]> (cl_boosts w)))
        | None => (Some (ErrNotFound (boost_name b)), w)
        end
    end;
  DeleteBoost := λ b w,
    match cluster_stored w !! boost_key b with
    | Some b0 => (None, set_boosts w
        (if decide (v1alpha1.om_Finalizers (v1alpha1.b_Meta b0) = []) then delete (boost_key b) (cl_boosts w)
         else <[boost_key b := mark b0]> (cl_boosts w)))
    | None => (Some (ErrNotFound (boost_name b)), w)
    end
|}.

Lemma stored_insert w b :
  cluster_stored (set_boosts w (<[boost_key b := b]> (cl_boosts w))) = <[boost_key b := b]> (cluster_stored w).
Proof. unfold cluster_stored. cbn. by rewrite map_filter_insert_True. Qed.

Lemma stored_delete w k :
  cluster_stored (set_boosts w (delete k (cl_boosts w))) = delete k (cluster_stored w).
Proof. unfold cluster_stored. cbn. by rewrite map_filter_delete. Qed.

Lemma stored_as_refl b : stored_as b b.
Proof. split_and!; [done..|apply selector_refl|apply spec_refl]. Qed.

Lemma elem_of_listed o w b : b ∈ listed o w ↔ cluster_stored w !! boost_key b = Some b ∧ selected o b.
Proof.
  unfold listed. rewrite list_elem_of_filter, list_elem_of_fmap. split.
  - intros (Hs & [k b'] & -> & Hin). cbn in *. apply elem_of_map_to_list in Hin.
    pose proof Hin as [_ Hk]%map_lookup_filter_Some. cbn in Hk. by rewrite Hk.
  - intros [Hb Hs]. split; [done|]. exists (boost_key b, b). by rewrite elem_of_map_to_list.
Qed.

(** The outcomes of a write. *)
Ltac write_cases w b :=
  destruct (denied b) eqn:?; destruct (cluster_stored w !! boost_key b) eqn:?; cbn [fst snd] in *;
  rewrite ?stored_insert, ?stored_delete, ?lookup_insert_eq, ?lookup_delete_eq;
  eauto 6 using stored_as_refl.

Lemma stored_mark w b b0 :
  cluster_stored w !! boost_key b = Some b0 →
  cluster_stored (set_boosts w (<[boost_key b := mark b0]> (cl_boosts w))) =
    <[boost_key b := mark b0]> (cluster_stored w).
Proof.
  intros [_ Hk]%map_lookup_filter_Some. unfold cluster_stored. cbn. by rewrite map_filter_insert_True.
Qed.

(** The store after a deletion. *)
Lemma stored_DeleteBoost faulty w b :
  cluster_stored (@DeleteBoost _ _ (cluster faulty) b w).2 =
    match cluster_stored w !! boost_key b with
    | Some b0 =>
        if decide (v1alpha1.om_Finalizers (v1alpha1.b_Meta b0) = []) then delete (boost_key b) (cluster_stored w)
        else <[boost_key b := mark b0]> (cluster_stored w)
    | None => cluster_stored w
    end.
Proof.
  cbn. destruct (cluster_stored w !! boost_key b) as [b0|] eqn:Hb; [|done]. cbn.
  case_decide; [apply stored_delete|by apply stored_mark].
Qed.

Lemma deleted_being_deleted faulty w b :
  is_Some (cluster_stored w !! boost_key b) →
  being_deleted (cluster_stored (@DeleteBoost _ _ (cluster faulty) b w).2 !! boost_key b).
Proof.
  intros [b0 Hb]. rewrite stored_DeleteBoost, Hb. case_decide as Hf.
  - by rewrite lookup_delete_eq.
  - rewrite lookup_insert_eq. split; [done|]. by exists 0.
Qed.

Ltac cluster_cbn := cbn [World CreateBoost UpdateBoost cluster fst snd].

#[local] Instance cluster_laws (faulty : bool) : @GlobalClientLaws _ _ semantic (cluster faulty).
Proof.
  refine (@Build_GlobalClientLaws _ _ semantic (cluster faulty) cluster_stored
    _ _ _ _ _ _ _ _ _ _ _ _ _ _ _ _);
    try done.
  - by intros w k b [_ Hk]%map_lookup_filter_Some.
  - intros w n g. cbn [GetGlobal cluster fst]. unfold find_global. destruct (filter _ _) as [|g' l] eqn:Hf; [done|]. intros [= ->].
    assert (g ∈ filter (λ g, global_name g = n) (cl_globals w)) as Hin by (rewrite Hf; left).
    by apply list_elem_of_filter in Hin as [? _].
  - intros w b k Hk. cluster_cbn. write_cases w b. by rewrite lookup_insert_ne.
  - intros w b. cluster_cbn. write_cases w b; left; split; congruence.
  - intros w b k Hk. cluster_cbn. write_cases w b. by rewrite lookup_insert_ne.
  - intros w b. cluster_cbn. write_cases w b; left; split; congruence.
  - intros w b k Hk. rewrite stored_DeleteBoost. destruct (cluster_stored w !! boost_key b); [|done].
    case_decide; [by rewrite lookup_delete_ne|by rewrite lookup_insert_ne].
  - intros w b. rewrite stored_DeleteBoost. destruct (cluster_stored w !! boost_key b) as [b0|] eqn:Hb; [|by left].
    right. case_decide as Hf; [left; apply lookup_delete_eq|right].
    exists b0, (mark b0). split_and!; [done| |apply lookup_insert_eq]. split_and!; [done|done|]. by exists 0.
  - intros w b Hd. apply deleted_being_deleted. cbn in Hd. by destruct (cluster_stored w !! boost_key b).
  - intros w b e. rewrite stored_DeleteBoost. cbn. by destruct (cluster_stored w !! boost_key b) eqn:Hb.
Defined.

#[local] Instance cluster_fresh (faulty : bool) : @FreshReads _ _ semantic (cluster faulty) (cluster_laws faulty).
Proof.
  split; cbn [World GetBoost ListBoosts cluster fst snd stored cluster_laws].
  - intros w name ns b. destruct (_ !! _); [|done]. by intros [= ->].
  - intros w name ns e. by destruct (_ !! _).
  - intros w o l. cbn. case_match; [done|]. intros [= <-] b. apply (elem_of_listed o w b).
Qed.

Lemma not_denied b : validate b = None → denied b = None.
Proof. unfold denied. by intros ->. Qed.

#[local] Instance cluster_reliable : @ReliableClient _ _ semantic (cluster false) (cluster_laws false).
Proof.
  split; cbn [stored cluster_laws GetBoost ListBoosts CreateBoost UpdateBoost DeleteBoost cluster fst snd].
  - intros w name ns. by destruct (_ !! _).
  - intros w o. cbn. eauto.
  - intros w b Hb Hv. by rewrite (not_denied _ Hv), Hb.
  - intros w b b0 Hb Hv. by rewrite (not_denied _ Hv), Hb.
  - intros w b Hb. by rewrite Hb.
Qed.

(** ** A cluster with three matching namespaces

    One of them is empty, one has a boost of its own, one holds an old
    child, and a child is left in a namespace that does not match. *)

Definition namespace (name : string) (labels : list (string * string)) : Namespace :=
  {| ns_Name := name; ns_Labels := Some (list_to_map labels); ns_DeletionTimestamp := None |}.

Definition boost_in (ns name : string) (label : option string) : v1alpha1.StartupCPUBoost := {|
  v1alpha1.b_Meta := {|
    v1alpha1.om_Name := name; v1alpha1.om_Namespace := ns; v1alpha1.om_UID := "";
    v1alpha1.om_Labels := (λ l, {[ v1alpha1.ManagedByGlobalBoostLabel := l ]}) <$> label;
    v1alpha1.om_Annotations := None; v1alpha1.om_Finalizers := []; v1alpha1.om_DeletionTimestamp := None |};
  v1alpha1.b_Selector := ("app", ["old"]);
  v1alpha1.b_Spec := Validation.witness.a_spec;
  v1alpha1.b_Status := {| v1alpha1.bs_ActiveContainerBoosts := 0; v1alpha1.bs_TotalContainerBoosts := 0;
    v1alpha1.bs_Conditions := [] |}
|}.

Definition a_global (deleted : option Z) : v1alpha1.GlobalStartupCPUBoost := {|
  v1alpha1.gb_Meta := {|
    v1alpha1.om_Name := "all"; v1alpha1.om_Namespace := ""; v1alpha1.om_UID := "u1";
    v1alpha1.om_Labels := None; v1alpha1.om_Annotations := None;
    v1alpha1.om_Finalizers := [v1alpha1.GlobalBoostFinalizer]; v1alpha1.om_DeletionTimestamp := deleted |};
  v1alpha1.gb_Spec := {|
    v1alpha1.gspec_NamespaceSelector := ("env", ["prod"]);
    v1alpha1.gspec_Template := {| v1alpha1.tmpl_Selector := ("app", ["web"]);
      v1alpha1.tmpl_Spec := Validation.witness.a_spec |} |};
  v1alpha1.gb_Status := {| v1alpha1.gs_NamespaceCount := 0; v1alpha1.gs_ActiveNamespaces := [];
    v1alpha1.gs_SkippedNamespaces := []; v1alpha1.gs_Conditions := [] |}
|}.

Definition put (b : v1alpha1.StartupCPUBoost) (st : boosts) : boosts := <[boost_key b := b]> st.

Definition a_cluster (g : v1alpha1.GlobalStartupCPUBoost) (faults : list bool) : Cluster := {|
  cl_boosts := put (boost_in "busy" "own" None) (put (boost_in "stale" "global-all" (Some "all"))
    (put (boost_in "old" "global-all" (Some "all")) ∅));
  cl_globals := [g];
  cl_namespaces := [namespace "busy" [("env", "prod")]; namespace "empty" [("env", "prod")];
    namespace "old" [("env", "prod")]; namespace "stale" [("env", "test")]];
  cl_faults := faults
|}.
End ConcreteCluster.
