(* ===== verification/GlobalDistribution.v ===== *)
(** * Correctness of the distribution of global boosts

    Lemmas and theorems about [Global.reconcile] and [Global.Reconcile]
    of GlobalController: what a run does to the stored boosts, with and
    without faults of the API client. *)

From stdpp Require Import strings sorting.
From S2P Require Import Prelude Quantities Kube Api Validation BoostController GlobalController ConcreteCluster.
Import Global.

(** ** Safety under faults *)

Section safety.
Context `{QuantityLib} `{SelectorLib} `{ConditionLib} `{FinalizerLib} `{!SemanticLib} `{!GlobalClient}.
Context `{!GlobalClientLaws} `{!FreshReads}.
Implicit Types (g : v1alpha1.GlobalStartupCPUBoost) (b : v1alpha1.StartupCPUBoost) (w : World).
Implicit Types st : gmap (string * string) v1alpha1.StartupCPUBoost.

Lemma wp_call {A} (op : World → A * World) (Q : A → World → Prop) w :
  Q (op w).1 (op w).2 → wp (call op) Q w.
Proof. unfold wp, call. by destruct (op w). Qed.

(** The boosts that carry no label of a global boost are the same. *)
Definition same_user_boosts st st' : Prop :=
  ∀ k b, boost_label b = None → st !! k = Some b ↔ st' !! k = Some b.

#[global] Instance same_user_boosts_equiv : Equivalence same_user_boosts.
Proof.
  split.
  - done.
  - intros st st' Hs k b Hb. by rewrite (Hs k b).
  - intros st st' st'' Hs Hs' k b Hb. by rewrite (Hs k b), (Hs' k b).
Qed.

(** A change at one key, from and to labelled or absent boosts. *)
Lemma same_user_boosts_at st st' k :
  (∀ k', k' ≠ k → st' !! k' = st !! k') →
  (∀ b, st !! k = Some b → is_Some (boost_label b)) →
  (∀ b, st' !! k = Some b → is_Some (boost_label b)) →
  same_user_boosts st st'.
Proof.
  intros Ho Hk Hk' k' b Hb. destruct (decide (k' = k)) as [->|Hne]; [|by rewrite Ho].
  split; intros Hl; [destruct (Hk _ Hl)|destruct (Hk' _ Hl)]; congruence.
Qed.

Lemma same_user_boosts_refl_at st st' k :
  (∀ k', k' ≠ k → st' !! k' = st !! k') → st' !! k = st !! k → same_user_boosts st st'.
Proof.
  intros Ho Hk k' b Hb. destruct (decide (k' = k)) as [->|Hne]; [by rewrite Hk|by rewrite Ho].
Qed.

Lemma create_keeps w b :
  is_Some (boost_label b) → same_user_boosts (stored w) (stored (CreateBoost b w).2).
Proof.
  intros Hb. pose proof (create_other w b) as Ho.
  destruct (create_effect w b) as [[_ Hk]|(Hn & b' & (_ & Hl & _) & Hk)].
  - by apply (same_user_boosts_refl_at _ _ (boost_key b)).
  - apply (same_user_boosts_at _ _ (boost_key b)); [done|congruence|].
    rewrite Hk. intros ? [= <-]. by rewrite Hl.
Qed.

Lemma update_keeps w b b0 :
  stored w !! boost_key b = Some b0 → is_Some (boost_label b0) → is_Some (boost_label b) →
  same_user_boosts (stored w) (stored (UpdateBoost b w).2).
Proof.
  intros Hst Hb0 Hb. pose proof (update_other w b) as Ho.
  destruct (update_effect w b) as [[_ Hk]|(b' & (_ & Hl & _) & Hk)].
  - by apply (same_user_boosts_refl_at _ _ (boost_key b)).
  - apply (same_user_boosts_at _ _ (boost_key b)); [done|congruence|].
    rewrite Hk. intros ? [= <-]. by rewrite Hl.
Qed.

(** Without finalizers, a deletion that succeeds removes the object. *)
Lemma delete_gone w b b0 :
  (DeleteBoost b w).1 = None → stored w !! boost_key b = Some b0 →
  v1alpha1.om_Finalizers (v1alpha1.b_Meta b0) = [] → stored (DeleteBoost b w).2 !! boost_key b = None.
Proof.
  intros Hd%delete_stores Hb0 Hf. destruct (delete_effect w b) as [Hk|[Hk|(b1 & b' & Hb1 & (_ & Hf' & _) & Hk)]].
  - rewrite Hk, Hb0 in Hd. by destruct Hd.
  - done.
  - rewrite Hk in Hd. destruct Hd as [Hd _]. simplify_eq. congruence.
Qed.

Lemma delete_keeps w b :
  (∀ b0, stored w !! boost_key b = Some b0 → is_Some (boost_label b0)) →
  same_user_boosts (stored w) (stored (DeleteBoost b w).2).
Proof.
  intros Hst. pose proof (delete_other w b) as Ho.
  apply (same_user_boosts_at _ _ (boost_key b)); [done|done|].
  destruct (delete_effect w b) as [Hk|[Hk|(b0 & b' & Hb0 & (Hl & _) & Hk)]]; rewrite Hk; [done|done|].
  intros ? [= <-]. rewrite Hl. by apply Hst.
Qed.

(** An absent or labelled entry stays so. *)
Lemma same_user_boosts_labelled st st' k b b' :
  same_user_boosts st st' → st !! k = Some b → is_Some (boost_label b) → st' !! k = Some b' →
  is_Some (boost_label b').
Proof.
  intros Hs Hb Hl Hb'. destruct (boost_label b') as [l|] eqn:Hl'; [done|].
  apply (Hs k b' Hl') in Hb'. destruct Hl. congruence.
Qed.

Lemma managedBy_label b name : managedBy b = name → name ≠ "" → boost_label b = Some name.
Proof. unfold managedBy. destruct (boost_label b); cbn; congruence. Qed.

(** What the individual operations do, whatever fails. *)
Abbreviation keeps m w := (wp m (λ _ w', same_user_boosts (stored w) (stored w')) w).

Lemma hasUnmanagedBoosts_wp w ns name :
  wp (hasUnmanagedBoosts ns name) (λ _ w', stored w' = stored w) w.
Proof.
  apply wp_bind, wp_call. destruct (ListBoosts _ w).1; apply wp_ret; apply list_stored.
Qed.

Lemma ensureChild_keeps w g ns child : global_name g ≠ "" → keeps (ensureChild g ns child) w.
Proof.
  intros Hg. apply wp_bind, wp_call. pose proof (get_stored w child ns) as Hw.
  destruct (GetBoost child ns w) as [[e|b] w1] eqn:Hget; cbn [fst snd] in *.
  - destruct (IsNotFound e); [|by apply wp_ret; rewrite Hw].
    apply wp_bind, wp_call, wp_ret. rewrite <-Hw. apply create_keeps.
    exists (global_name g). apply lookup_singleton_eq.
  - case_match eqn:Hm; [by apply wp_ret; rewrite Hw|].
    case_match; [|by apply wp_ret; rewrite Hw].
    apply wp_bind, wp_call, wp_ret. rewrite <-Hw.
    apply negb_false_iff, String.eqb_eq in Hm. apply managedBy_label in Hm; [|done].
    assert (stored w1 !! (ns, child) = Some b) as Hb by (rewrite Hw; apply get_found; by rewrite Hget).
    apply (update_keeps _ _ b); [|by exists (global_name g)|by exists (global_name g)].
    by rewrite <-Hb, <-(stored_key _ _ _ Hb).
Qed.

Lemma deleteChildIfExists_keeps w ns child : keeps (deleteChildIfExists child ns) w.
Proof.
  apply wp_bind, wp_call. pose proof (get_stored w child ns) as Hw.
  destruct (GetBoost child ns w) as [[e|b] w1] eqn:Hget; cbn [fst snd] in *; [by apply wp_ret; rewrite Hw|].
  destruct (boost_label b) as [l|] eqn:Hl; [|by apply wp_ret; rewrite Hw].
  apply wp_bind, wp_call, wp_ret. rewrite <-Hw. apply delete_keeps.
  assert (stored w1 !! (ns, child) = Some b) as Hb by (rewrite Hw; apply get_found; by rewrite Hget).
  rewrite (stored_key _ _ _ Hb), Hb. intros ? [= <-]. by exists l.
Qed.

(** Both loops delete boosts that were labelled when they were listed. *)
Definition listed_labelled w (l : list v1alpha1.StartupCPUBoost) : Prop :=
  ∀ b, b ∈ l → ∀ b0, stored w !! boost_key b = Some b0 → is_Some (boost_label b0).

Lemma delete_listed_keeps w b l :
  listed_labelled w (b :: l) →
  same_user_boosts (stored w) (stored (DeleteBoost b w).2) ∧ listed_labelled (DeleteBoost b w).2 l.
Proof.
  intros Hl. assert (same_user_boosts (stored w) (stored (DeleteBoost b w).2)) as Hs.
  { apply delete_keeps. apply Hl. left. }
  split; [done|]. intros b' Hb' b0 Hb0. destruct (boost_label b0) as [x|] eqn:Hx; [done|].
  apply (Hs _ b0 Hx) in Hb0. apply Hl in Hb0; [|by right]. by rewrite Hx in Hb0.
Qed.

Lemma delete_stale_keeps w active l : listed_labelled w l → keeps (delete_stale active l) w.
Proof.
  revert w. induction l as [|b l IH]; intros w Hl; cbn; [by apply wp_ret|].
  destruct (delete_listed_keeps w b l Hl) as [Hs Hl'].
  case_bool_decide; [apply IH; intros b' Hb'; apply Hl; by right|].
  apply wp_bind, wp_call. wp_use IH. intros ? w' Hs'. by etrans.
Qed.

Lemma delete_all_keeps w l : listed_labelled w l → keeps (delete_all l) w.
Proof.
  revert w. induction l as [|b l IH]; intros w Hl; cbn; [by apply wp_ret|].
  destruct (delete_listed_keeps w b l Hl) as [Hs Hl']. apply wp_bind, wp_call.
  assert (keeps (delete_all l) (DeleteBoost b w).2) as Hk by by apply IH.
  destruct (DeleteBoost b w).1 as [e|]; [destruct (IsNotFound e)|];
    (eapply wp_mono; [done|]; intros ? w' Hs'; by etrans) || by apply wp_ret.
Qed.

Lemma list_labelled w name l w' :
  ListBoosts (MatchingLabel name) w = (inr l, w') → stored w' = stored w ∧ listed_labelled w' l.
Proof.
  intros Hl. pose proof (list_stored w (MatchingLabel name)) as Hw. rewrite Hl in Hw. cbn in Hw.
  split; [done|]. intros b Hb b0 Hb0. rewrite Hw in Hb0.
  destruct (proj1 (list_found w (MatchingLabel name) l ltac:(by rewrite Hl) b) Hb) as [Hs Hsel].
  cbn in Hsel. exists name. congruence.
Qed.

Lemma cleanup_keeps w name active : keeps (cleanupStaleChildren name active) w.
Proof.
  apply wp_bind, wp_call. pose proof (list_stored w (MatchingLabel name)) as Hw.
  destruct (ListBoosts (MatchingLabel name) w) as [[e|l] w'] eqn:Hl; cbn [fst snd] in *.
  - apply wp_ret. by rewrite Hw.
  - destruct (list_labelled _ _ _ _ Hl) as [_ Hll]. apply wp_bind. rewrite <-Hw.
    wp_use delete_stale_keeps. intros ? w2 Hs. by apply wp_ret.
Qed.

Lemma deleteAllChildren_keeps w name : keeps (deleteAllChildren name) w.
Proof.
  apply wp_bind, wp_call. pose proof (list_stored w (MatchingLabel name)) as Hw.
  destruct (ListBoosts (MatchingLabel name) w) as [[e|l] w'] eqn:Hl; cbn [fst snd] in *.
  - apply wp_ret. by rewrite Hw.
  - destruct (list_labelled _ _ _ _ Hl) as [_ Hll]. rewrite <-Hw. by apply delete_all_keeps.
Qed.

Lemma process_namespace_keeps w g child ns acc :
  global_name g ≠ "" → keeps (process_namespace g child ns acc) w.
Proof.
  intros Hg. destruct acc as [act skip]. apply wp_bind.
  wp_use hasUnmanagedBoosts_wp. intros r w1 Hw. rewrite <-Hw.
  destruct r as [e|[]]; [by apply wp_ret|..]; apply wp_bind.
  - wp_use deleteChildIfExists_keeps. intros ? w2 Hs. by apply wp_ret.
  - wp_use ensureChild_keeps. intros err w2 Hs. destruct err; by apply wp_ret.
Qed.

Lemma process_namespaces_keeps w g child acc nss :
  global_name g ≠ "" → keeps (process_namespaces g child acc nss) w.
Proof.
  intros Hg. revert w acc. induction nss as [|ns nss IH]; intros w acc; cbn; [by apply wp_ret|].
  apply wp_bind. wp_use process_namespace_keeps. intros acc' w1 Hs.
  wp_use IH. intros ? w2 Hs'. by etrans.
Qed.

Lemma updateStatus_wp w g act skip :
  wp (updateStatus g act skip) (λ _ w', stored w' = stored w) w.
Proof.
  unfold updateStatus. case_decide; [by apply wp_ret|]. apply wp_bind, wp_call.
  destruct (UpdateGlobalStatus _ w).1 as [e|]; [destruct (IsConflict e)|]; apply wp_ret, update_status_stored.
Qed.

Lemma reconcile_keeps σ g w : global_name g ≠ "" → keeps (reconcile σ g) w.
Proof.
  intros Hg. unfold reconcile. destruct (LabelSelectorAsSelector _) as [e|sel]; [by apply wp_ret|].
  apply wp_bind, wp_call. pose proof (list_namespaces_stored w sel) as Hw.
  destruct (ListNamespaces sel w).1 as [e|items]; [apply wp_ret; by rewrite Hw|]. rewrite <-Hw.
  apply wp_bind. wp_use process_namespaces_keeps. intros [act skip] w1 Hs.
  apply wp_bind. wp_use cleanup_keeps. intros ? w2 Hs2.
  wp_use updateStatus_wp. intros ? w3 Hs3. rewrite Hs3. by etrans.
Qed.

Lemma handleDeletion_keeps g w : keeps (handleDeletion g) w.
Proof.
  unfold handleDeletion. case_match; [by apply wp_ret|]. apply wp_bind.
  wp_use deleteAllChildren_keeps. intros err w1 Hs.
  destruct err; [by apply wp_ret|]. apply wp_bind, wp_call, wp_ret. by rewrite update_global_stored.
Qed.

Lemma Reconcile_keeps σ name w : name ≠ "" → keeps (Reconcile σ name) w.
Proof.
  intros Hname. apply wp_bind, wp_call. pose proof (get_global_stored w name) as Hw.
  destruct (GetGlobal name w).1 as [e|g] eqn:Hget; [apply wp_ret; by rewrite Hw|]. rewrite <-Hw.
  destruct (v1alpha1.om_DeletionTimestamp _); [apply handleDeletion_keeps|].
  case_match; [|apply reconcile_keeps; by rewrite (get_global_name _ _ _ Hget)].
  apply wp_bind, wp_call. destruct (UpdateGlobal _ _).1; apply wp_ret; by rewrite update_global_stored.
Qed.
End safety.

(** ** Runs without faults *)

Section distribution.
Context `{QuantityLib} `{SelectorLib} `{ConditionLib} `{FinalizerLib} `{!SemanticLib} `{!GlobalClient}.
Context `{!GlobalClientLaws} `{!FreshReads} `{!SemanticLaws} `{!ReliableClient}.
Context (g : v1alpha1.GlobalStartupCPUBoost).
Implicit Types (b : v1alpha1.StartupCPUBoost) (w : World).
Implicit Types st : gmap (string * string) v1alpha1.StartupCPUBoost.

Abbreviation child := (childBoostName (global_name g)).

(** A boost of the namespace that does not belong to [g]. *)
Definition unmanaged st (ns : string) : Prop :=
  map_Exists (λ k b, k.1 = ns ∧ managedBy b ≠ global_name g) st.

#[global] Instance unmanaged_dec st ns : Decision (unmanaged st ns).
Proof. unfold unmanaged. apply _. Defined.

(** A child in step with the template. *)
Definition is_child b : Prop :=
  boost_label b = Some (global_name g) ∧
  selector_DeepEqual (v1alpha1.b_Selector b)
    (v1alpha1.tmpl_Selector (v1alpha1.gspec_Template (v1alpha1.gb_Spec g))) = true ∧
  spec_DeepEqual (v1alpha1.b_Spec b)
    (v1alpha1.tmpl_Spec (v1alpha1.gspec_Template (v1alpha1.gb_Spec g))) = true.

(** Labelled boosts carry no finalizers, and the name of the children is
    not taken by the child of another global boost. *)
Definition children_ok st : Prop := ∀ k b, st !! k = Some b →
  (is_Some (boost_label b) → v1alpha1.om_Finalizers (v1alpha1.b_Meta b) = []) ∧
  (k.2 = child → is_Some (boost_label b) → boost_label b = Some (global_name g)).

Lemma unmanaged_spec st ns :
  unmanaged st ns ↔ ∃ name b, st !! (ns, name) = Some b ∧ managedBy b ≠ global_name g.
Proof.
  unfold unmanaged, map_Exists. split.
  - intros ([ns' name] & b & Hb & Hns & Hm). cbn in Hns. subst. eauto.
  - intros (name & b & Hb & Hm). exists (ns, name), b. done.
Qed.

Lemma unmanaged_frame st st' ns :
  (∀ name, st' !! (ns, name) = st !! (ns, name)) → unmanaged st' ns ↔ unmanaged st ns.
Proof. intros Hs. rewrite !unmanaged_spec. by setoid_rewrite Hs. Qed.

Lemma any_unmanaged_true name l : any_unmanaged name l = true ↔ ∃ b, b ∈ l ∧ managedBy b ≠ name.
Proof.
  induction l as [|b l IH]; cbn.
  - split; [done|]. intros (b & Hb & _). by apply elem_of_nil in Hb.
  - destruct (String.eqb_spec (managedBy b) name) as [Heq|Hne]; cbn.
    + rewrite IH. setoid_rewrite elem_of_cons. naive_solver.
    + split; [|done]. intros _. exists b. split; [left|done].
Qed.

Lemma hasUnmanagedBoosts_reliable w ns :
  wp (hasUnmanagedBoosts ns (global_name g))
    (λ r w', r = inr (bool_decide (unmanaged (stored w) ns)) ∧ stored w' = stored w) w.
Proof.
  apply wp_bind, wp_call. destruct (list_reliable w (InNamespace ns)) as (l & Hl). rewrite Hl.
  apply wp_ret. split; [|apply list_stored]. f_equal. apply eq_true_iff_eq.
  rewrite any_unmanaged_true, bool_decide_eq_true, unmanaged_spec.
  setoid_rewrite (list_found _ _ _ Hl). cbn. split.
  - intros (b & [Hb Hns] & Hm). exists (boost_name b), b. subst ns. done.
  - intros (name & b & Hb & Hm). pose proof (stored_key _ _ _ Hb) as Hk. exists b.
    rewrite Hk. split_and!; [done| |done]. by injection Hk.
Qed.

(** The webhook accepts the children of an admitted global boost. *)
Context (Hvalid : validateGlobal g = None) (Hname : global_name g ≠ "").

Lemma template_valid b :
  v1alpha1.b_Spec b = v1alpha1.tmpl_Spec (v1alpha1.gspec_Template (v1alpha1.gb_Spec g)) → validate b = None.
Proof using Hvalid.
  intros Hb. apply validate_valid. rewrite Hb. by destruct (proj1 (validateGlobal_valid g) Hvalid) as (_ & _ & ?).
Qed.

Lemma stored_as_child b b' : stored_as b b' →
  boost_label b = Some (global_name g) →
  v1alpha1.b_Selector b = v1alpha1.tmpl_Selector (v1alpha1.gspec_Template (v1alpha1.gb_Spec g)) →
  v1alpha1.b_Spec b = v1alpha1.tmpl_Spec (v1alpha1.gspec_Template (v1alpha1.gb_Spec g)) →
  is_child b'.
Proof. intros (_ & Hl & _ & Hsel & Hspec) Hb Hs Hp. unfold is_child. by rewrite <-Hs, <-Hp, Hl. Qed.

(** The result of [ensureChild] where only own boosts are in the namespace. *)
Definition child_ensured st ns st' : Prop :=
  (∀ k, k ≠ (ns, child) → st' !! k = st !! k) ∧
  (∃ b, st' !! (ns, child) = Some b ∧ is_child b) ∧
  (∀ b, st !! (ns, child) = Some b → is_child b → st' = st).

Lemma ensureChild_reliable w ns :
  ¬ unmanaged (stored w) ns →
  wp (ensureChild g ns child) (λ err w', err = None ∧ child_ensured (stored w) ns (stored w')) w.
Proof using Type*.
  intros Hu. apply wp_bind, wp_call. pose proof (get_stored w child ns) as Hw.
  pose proof (get_reliable w child ns) as Hr. pose proof (get_found w child ns) as Hf.
  pose proof (get_not_found w child ns) as Hnf. unfold child_ensured.
  destruct (GetBoost child ns w) as [[e|b] w1]; cbn [fst snd] in *.
  - rewrite Hr. specialize (Hnf e eq_refl Hr). rewrite <-Hw in *.
    set (d := buildChildBoost g ns child). apply wp_bind, wp_call, wp_ret.
    assert (validate d = None) as Hv by by apply template_valid.
    pose proof (create_reliable w1 d Hnf Hv) as Hc. rewrite Hc. split; [done|]. split_and!.
    + intros k Hk. by apply create_other.
    + destruct (create_effect w1 d) as [[]|(_ & b' & Hb' & Hs)]; [congruence|].
      exists b'. split; [done|]. apply (stored_as_child d); [done| |done|done]. apply lookup_singleton_eq.
    + intros b Hb. change (boost_key d) with (ns, child) in Hnf. congruence.
  - specialize (Hf b eq_refl). rewrite <-Hw in *. pose proof (stored_key _ _ _ Hf) as Hk.
    assert (managedBy b = global_name g) as Hm.
    { destruct (decide (managedBy b = global_name g)); [done|]. destruct Hu. apply unmanaged_spec. eauto. }
    pose proof (managedBy_label _ _ Hm Hname) as Hl. rewrite Hm, String.eqb_refl. cbn [negb].
    set (d := buildChildBoost g ns child). set (u := set_child_spec b d).
    destruct (selector_DeepEqual (v1alpha1.b_Selector b) (v1alpha1.b_Selector d)
      && spec_DeepEqual (v1alpha1.b_Spec b) (v1alpha1.b_Spec d)) eqn:Heq.
    + apply andb_prop in Heq as [Hsel Hspec]. rewrite Hsel, Hspec. cbn. apply wp_ret. split; [done|]. split_and!; [done| |done].
      exists b. done.
    + assert (negb (selector_DeepEqual (v1alpha1.b_Selector b) (v1alpha1.b_Selector d))
        || negb (spec_DeepEqual (v1alpha1.b_Spec b) (v1alpha1.b_Spec d)) = true) as ->.
      { by rewrite <-negb_andb, Heq. }
      apply wp_bind, wp_call, wp_ret. assert (validate u = None) as Hv by by apply template_valid.
      assert (boost_key u = (ns, child)) as Hku by exact Hk.
      rewrite (update_reliable w1 u b) by (by rewrite ?Hku). split; [done|]. split_and!.
      * intros k Hne. apply update_other. by rewrite Hku.
      * destruct (update_effect w1 u) as [[Hc _]|(b' & Hb' & Hs)].
        { by rewrite (update_reliable w1 u b) in Hc by (by rewrite ?Hku). }
        exists b'. rewrite Hku in Hs. split; [done|]. by apply (stored_as_child u).
      * intros b0 Hb0 (_ & Hsel & Hspec). assert (b0 = b) as -> by congruence.
        exfalso. revert Heq. unfold d, buildChildBoost. cbn. by rewrite Hsel, Hspec.
Qed.

Definition no_finalizers_at st (ns : string) : Prop := ∀ b, st !! (ns, child) = Some b →
  is_Some (boost_label b) → v1alpha1.om_Finalizers (v1alpha1.b_Meta b) = [].

Lemma deleteChildIfExists_reliable w ns :
  no_finalizers_at (stored w) ns →
  wp (deleteChildIfExists child ns) (λ _ w',
    (∀ k, k ≠ (ns, child) → stored w' !! k = stored w !! k) ∧
    (∀ b, stored w' !! (ns, child) = Some b → stored w !! (ns, child) = Some b ∧ boost_label b = None) ∧
    ((∀ b, stored w !! (ns, child) = Some b → boost_label b = None) → stored w' = stored w)) w.
Proof using Type*.
  intros Hok. apply wp_bind, wp_call. pose proof (get_stored w child ns) as Hw.
  pose proof (get_reliable w child ns) as Hr. pose proof (get_found w child ns) as Hf.
  pose proof (get_not_found w child ns) as Hnf.
  destruct (GetBoost child ns w) as [[e|b] w1]; cbn [fst snd] in *.
  - specialize (Hnf e eq_refl Hr). apply wp_ret. rewrite Hw. split; [done|]. split; [|done]. congruence.
  - specialize (Hf b eq_refl). rewrite <-Hw in *. pose proof (stored_key _ _ _ Hf) as Hk.
    destruct (boost_label b) as [l|] eqn:Hl.
    + pose proof (Hok _ Hf ltac:(by rewrite Hl)) as Hfin.
      apply wp_bind, wp_call, wp_ret. split; [|split].
      * intros k Hne. apply delete_other. by rewrite Hk.
      * assert (stored (DeleteBoost b w1).2 !! (ns, child) = None) as Hd.
        { rewrite <-Hk. apply (delete_gone _ _ b); [apply delete_reliable| |done]; by rewrite Hk. }
        congruence.
      * intros Hn. specialize (Hn b Hf). congruence.
    + apply wp_ret. split; [done|]. split; [|done]. intros b' Hb'. assert (b' = b) as -> by congruence. done.
Qed.

(** What processing the namespaces [nss] makes of the store: only children
    in these namespaces change. *)
Definition child_present st (ns : string) : Prop := ∃ b, st !! (ns, child) = Some b ∧ is_child b.

Definition settled st (ns : string) : Prop :=
  (¬ unmanaged st ns → child_present st ns) ∧
  (unmanaged st ns → ∀ b, st !! (ns, child) = Some b → boost_label b = None).

Record processed (nss : list string) st st' : Prop := {
  processed_other k : (k.2 = child → k.1 ∉ nss) → st' !! k = st !! k;
  processed_active ns : ns ∈ nss → ¬ unmanaged st ns → child_present st' ns;
  processed_skipped ns b : ns ∈ nss → unmanaged st ns → st' !! (ns, child) = Some b →
    st !! (ns, child) = Some b ∧ boost_label b = None;
  processed_settled : (∀ ns, ns ∈ nss → settled st ns) → st' = st
}.

Lemma process_namespace_reliable w ns acc :
  no_finalizers_at (stored w) ns →
  wp (process_namespace g child ns acc) (λ acc' w',
    acc' = (if decide (unmanaged (stored w) ns) then (acc.1, acc.2 ++ [ns]) else (acc.1 ++ [ns], acc.2)) ∧
    processed [ns] (stored w) (stored w')) w.
Proof using Type*.
  intros Hfin. destruct acc as [act skip]. apply wp_bind.
  wp_use hasUnmanagedBoosts_reliable. intros r w1 [-> Hw]. cbn [fst snd].
  assert (∀ k : string * string, (k.2 = child → k.1 ∉ [ns]) → k ≠ (ns, child)) as Hkey.
  { intros k Hk ->. by apply Hk; [|left]. }
  case_bool_decide as Hu; rewrite <-Hw in *.
  - apply wp_bind. wp_use deleteChildIfExists_reliable. intros _ w2 (Ho & Hd & Hset). apply wp_ret.
    split; [by rewrite decide_True|]. split.
    + intros k Hk. by apply Ho, Hkey.
    + by intros ns' ->%list_elem_of_singleton.
    + intros ns' b ->%list_elem_of_singleton _ Hb. by apply Hd.
    + intros Hs. apply Hset. apply Hs; [left|done].
  - apply wp_bind. wp_use ensureChild_reliable. intros err w2 (-> & Ho & Hc & Hset). apply wp_ret.
    split; [by rewrite decide_False|]. split.
    + intros k Hk. by apply Ho, Hkey.
    + by intros ns' ->%list_elem_of_singleton.
    + by intros ns' b ->%list_elem_of_singleton.
    + intros Hs. destruct (Hs ns) as [Hp _]; [left|]. destruct (Hp Hu) as (b & Hb & Hb'). by apply (Hset b).
Qed.

Lemma processed_cons ns nss st st1 st' :
  ns ∉ nss → processed [ns] st st1 → processed nss st1 st' → processed (ns :: nss) st st'.
Proof.
  intros Hns Hp1 Hp2.
  assert (∀ ns', ns' ≠ ns → ∀ name, st1 !! (ns', name) = st !! (ns', name)) as Hfr1.
  { intros ns' Hne name. apply (processed_other _ _ _ Hp1). cbn. by rewrite list_elem_of_singleton. }
  assert (∀ name, st' !! (ns, name) = st1 !! (ns, name)) as Hfr2.
  { intros name. by apply (processed_other _ _ _ Hp2). }
  assert (∀ ns', ns' ∈ nss → ns' ≠ ns) as Hne by (intros ? ? ->; done).
  split.
  - intros k Hk. rewrite (processed_other _ _ _ Hp2), (processed_other _ _ _ Hp1); [done|..];
      intros Hc; specialize (Hk Hc); rewrite elem_of_cons in Hk; rewrite ?list_elem_of_singleton; tauto.
  - intros ns' [->|Hin]%elem_of_cons Hu.
    + destruct (processed_active _ _ _ Hp1 ns) as (b & Hb); [left|done|]. exists b. by rewrite Hfr2.
    + apply (processed_active _ _ _ Hp2); [done|]. by rewrite (unmanaged_frame st) by auto.
  - intros ns' b [->|Hin]%elem_of_cons Hu Hb.
    + rewrite Hfr2 in Hb. apply (processed_skipped _ _ _ Hp1); [left|done..].
    + rewrite <-Hfr1 by auto. apply (processed_skipped _ _ _ Hp2); [done| |done].
      by rewrite (unmanaged_frame st) by auto.
  - intros Hs. assert (st1 = st) as ->.
    { apply (processed_settled _ _ _ Hp1). intros ? ->%list_elem_of_singleton. apply Hs. left. }
    apply (processed_settled _ _ _ Hp2). intros ns' Hin. apply Hs. by right.
Qed.

Lemma filter_ext_in {A} (P Q : A → Prop) `{∀ x, Decision (P x), ∀ x, Decision (Q x)} (l : list A) :
  (∀ x, x ∈ l → P x ↔ Q x) → filter P l = filter Q l.
Proof.
  induction l as [|x l IH]; intros Hpq; [done|]. rewrite !filter_cons.
  rewrite IH by (intros y Hy; apply Hpq; by right). specialize (Hpq x ltac:(left)).
  repeat case_decide; tauto.
Qed.

Lemma process_namespaces_reliable w acc nss :
  NoDup nss → (∀ ns, ns ∈ nss → no_finalizers_at (stored w) ns) →
  wp (process_namespaces g child acc nss) (λ acc' w',
    acc' = (acc.1 ++ filter (λ ns, ¬ unmanaged (stored w) ns) nss,
            acc.2 ++ filter (unmanaged (stored w)) nss) ∧
    processed nss (stored w) (stored w')) w.
Proof using Type*.
  revert w acc. induction nss as [|ns nss IH]; intros w acc Hnd Hfin; cbn [process_namespaces].
  - apply wp_ret. destruct acc. rewrite !app_nil_r. split; [done|]. split; [done|..].
    + intros ns Hin. by apply elem_of_nil in Hin.
    + intros ns b Hin. by apply elem_of_nil in Hin.
    + done.
  - apply NoDup_cons in Hnd as [Hns Hnd]. apply wp_bind.
    wp_use process_namespace_reliable; [apply Hfin; left|]. intros acc1 w1 [-> Hp1].
    assert (∀ ns', ns' ∈ nss → ∀ name, stored w1 !! (ns', name) = stored w !! (ns', name)) as Hfr.
    { intros ns' Hin name. apply (processed_other _ _ _ Hp1). cbn. rewrite list_elem_of_singleton.
      intros _ ->. done. }
    wp_use IH. { intros ns' Hin b. rewrite Hfr by done. apply Hfin. by right. }
    intros acc2 w2 [-> Hp2]. split; [|by apply (processed_cons _ _ _ (stored w1))].
    rewrite !filter_cons.
    rewrite (filter_ext_in (unmanaged (stored w1)) (unmanaged (stored w)))
      by (intros x Hx; apply unmanaged_frame; auto).
    rewrite (filter_ext_in (λ ns, ¬ unmanaged (stored w1) ns) (λ ns, ¬ unmanaged (stored w) ns))
      by (intros x Hx; rewrite unmanaged_frame; auto).
    destruct (decide (unmanaged (stored w) ns)) as [Hu|Hu].
    + rewrite (decide_False (P := ¬ _)) by tauto. cbn. by rewrite <-(assoc_L (++)).
    + rewrite (decide_True (P := ¬ _)) by tauto. cbn. by rewrite <-(assoc_L (++)).
Qed.

(** Deleting the boosts of a list: those in it are gone, others stay. *)
Definition deletable st (b : v1alpha1.StartupCPUBoost) : Prop :=
  ∀ b0, st !! boost_key b = Some b0 → b0 = b ∧ v1alpha1.om_Finalizers (v1alpha1.b_Meta b) = [].

Lemma delete_reliable_gone w b :
  deletable (stored w) b → stored (DeleteBoost b w).2 !! boost_key b = None.
Proof using Type*.
  intros Hd. destruct (stored w !! boost_key b) as [b0|] eqn:Hb.
  - destruct (Hd _ Hb) as [-> Hfin]. apply (delete_gone _ _ b); [by apply delete_reliable|done|done].
  - destruct (delete_effect w b) as [Hk|[Hk|(b0 & b' & Hb0 & _)]]; congruence.
Qed.

Lemma deletable_after w b b' :
  deletable (stored w) b → deletable (stored w) b' → deletable (stored (DeleteBoost b w).2) b'.
Proof using Type*.
  intros Hb Hb' b0. destruct (decide (boost_key b' = boost_key b)) as [->|Hne].
  - by rewrite delete_reliable_gone.
  - rewrite delete_other by done. apply Hb'.
Qed.

Lemma delete_stale_reliable w active l :
  (∀ b, b ∈ l → boost_namespace b ∉ active → deletable (stored w) b) →
  wp (delete_stale active l) (λ _ w',
    (∀ k, (∀ b, b ∈ l → boost_namespace b ∉ active → boost_key b ≠ k) → stored w' !! k = stored w !! k) ∧
    (∀ k, stored w !! k = None → stored w' !! k = None) ∧
    (∀ b, b ∈ l → boost_namespace b ∉ active → stored w' !! boost_key b = None)) w.
Proof using Type*.
  revert w. induction l as [|b l IH]; intros w Hl; cbn [delete_stale].
  - apply wp_ret. split_and!; [done..|]. intros b Hb. by apply elem_of_nil in Hb.
  - case_bool_decide as Ha.
    + wp_use IH; [intros; apply Hl; [by right|done]|]. intros _ w' (Ho & Hn & Hg). split_and!; [|done|].
      * intros k Hk. apply Ho. intros b' Hb'. apply Hk. by right.
      * intros b' [->|Hb']%elem_of_cons Hna; [done|by apply Hg].
    + apply wp_bind, wp_call. assert (deletable (stored w) b) as Hb by (apply Hl; [left|done]).
      pose proof (delete_reliable_gone w b Hb) as Hgone.
      wp_use IH. { intros b' Hb' Hna. apply deletable_after; [done|]. apply Hl; [by right|done]. }
      intros _ w' (Ho & Hn & Hg). split_and!.
      * intros k Hk. rewrite Ho; [apply delete_other; intros ->; by apply (Hk b); [left| |]|].
        intros b' Hb'. apply Hk. by right.
      * intros k Hk. apply Hn. destruct (decide (k = boost_key b)) as [->|]; [done|]. by rewrite delete_other.
      * intros b' [->|Hb']%elem_of_cons Hna; [by apply Hn|by apply Hg].
Qed.

(** Stale: a boost of [g] outside the active namespaces. *)
Definition stale st (active : list string) (k : string * string) : Prop :=
  ∃ b, st !! k = Some b ∧ boost_label b = Some (global_name g) ∧ k.1 ∉ active.

Lemma cleanup_reliable w active :
  (∀ k b, stored w !! k = Some b → boost_label b = Some (global_name g) → k.1 ∉ active →
    v1alpha1.om_Finalizers (v1alpha1.b_Meta b) = []) →
  wp (cleanupStaleChildren (global_name g) active) (λ err w', err = None ∧
    (∀ k, stale (stored w) active k → stored w' !! k = None) ∧
    (∀ k, ¬ stale (stored w) active k → stored w' !! k = stored w !! k)) w.
Proof using Type*.
  intros Hfin. apply wp_bind, wp_call. destruct (list_reliable w (MatchingLabel (global_name g))) as (l & Hl).
  rewrite Hl. pose proof (list_stored w (MatchingLabel (global_name g))) as Hw. rewrite <-Hw in Hfin |- *.
  assert (∀ b, b ∈ l ↔ stored w !! boost_key b = Some b ∧ boost_label b = Some (global_name g)) as Hlist.
  { apply (list_found _ _ _ Hl). }
  rewrite <-Hw in Hlist. apply wp_bind. wp_use delete_stale_reliable.
  { intros b [Hb Hlab]%Hlist Hna b0 Hb0. assert (b0 = b) as -> by congruence. split; [done|].
    by apply (Hfin (boost_key b)). }
  intros _ w' (Ho & _ & Hg). apply wp_ret. split_and!; [done|..].
  - intros k (b & Hb & Hlab & Hna). pose proof (stored_key _ _ _ Hb) as <-. apply Hg; [|done]. by apply Hlist.
  - intros k Hns. apply Ho. intros b [Hb Hlab]%Hlist Hna <-. destruct Hns. by exists b.
Qed.

(** ** A whole run *)

Definition desired (items : list Namespace) (ns : string) : Prop :=
  ∃ n, n ∈ items ∧ ns_Name n = ns ∧ ns_DeletionTimestamp n = None.

Lemma desired_namespaces_lookup m items ns :
  is_Some (desired_namespaces m items !! ns) ↔ is_Some (m !! ns) ∨ desired items ns.
Proof.
  unfold desired. revert m. induction items as [|n items IH]; intros m; cbn.
  - setoid_rewrite elem_of_nil. naive_solver.
  - setoid_rewrite elem_of_cons. destruct (ns_DeletionTimestamp n) as [t|] eqn:Hd; rewrite IH.
    + naive_solver.
    + destruct (decide (ns_Name n = ns)) as [<-|Hne].
      * rewrite lookup_insert_eq. naive_solver.
      * rewrite lookup_insert_ne by done. naive_solver.
Qed.

Lemma elem_of_desired σ items ns :
  ns ∈ (go_range σ (desired_namespaces ∅ items)).*1 ↔ desired items ns.
Proof.
  rewrite list_elem_of_fmap.
  transitivity (is_Some (desired_namespaces ∅ items !! ns)).
  - split.
    + intros ([k x] & -> & Hin). apply elem_of_go_range in Hin. by exists x.
    + intros (x & Hx). exists (ns, x). by rewrite elem_of_go_range.
  - rewrite desired_namespaces_lookup, lookup_empty. split; [|by right]. by intros [[]|].
Qed.

(** The goal of the controller: a child in step with the template in every
    matching namespace without boosts of others, and no boost of [g]
    anywhere else. *)
Definition distributed (items : list Namespace) st : Prop :=
  (∀ ns, desired items ns → ¬ unmanaged st ns → child_present st ns) ∧
  (∀ k b, st !! k = Some b → boost_label b = Some (global_name g) →
     desired items k.1 ∧ ¬ unmanaged st k.1).

Lemma children_ok_at st ns : children_ok st → no_finalizers_at st ns.
Proof. intros Hok b Hb. by destruct (Hok _ _ Hb). Qed.

(** Processing keeps track of who has boosts of others. *)
Lemma processed_unmanaged nss st st' st1 :
  children_ok st → processed nss st st' → same_user_boosts st st' →
  (∀ k, stale st' (filter (λ ns, ¬ unmanaged st ns) nss) k → st1 !! k = None) →
  (∀ k, ¬ stale st' (filter (λ ns, ¬ unmanaged st ns) nss) k → st1 !! k = st' !! k) →
  ∀ ns, unmanaged st1 ns ↔ unmanaged st ns.
Proof using Hname.
  intros Hok Hp Hsame Hgone Hkeep ns. rewrite unmanaged_spec. split.
  - intros (name & b & Hb & Hm). destruct (decide (unmanaged st ns)) as [|Hu]; [done|exfalso].
    assert (st' !! (ns, name) = Some b) as Hb'.
    { destruct (decide (boost_label b = Some (global_name g))) as [Hl|Hl].
      - exfalso. apply Hm. unfold managedBy. by rewrite Hl.
      - destruct (st' !! (ns, name)) as [b'|] eqn:Heq.
        + destruct (decide (boost_label b' = Some (global_name g) ∧
            ns ∉ filter (λ ns, ¬ unmanaged st ns) nss)) as [[Hl' Hn']|Hns].
          * rewrite Hgone in Hb; [done|]. by exists b'.
          * rewrite Hkeep in Hb; [congruence|]. intros (b'' & Hb'' & Hl'' & Hn''). apply Hns.
            by assert (b'' = b') as -> by congruence.
        + rewrite Hkeep in Hb; [congruence|]. intros (b'' & Hb'' & _). congruence. }
    destruct (decide (name = child ∧ ns ∈ nss)) as [[-> Hin]|Hno].
    + destruct (processed_active _ _ _ Hp ns Hin Hu) as (b' & Hb2 & Hl & _).
      assert (b' = b) as -> by congruence. apply Hm. unfold managedBy. by rewrite Hl.
    + rewrite (processed_other _ _ _ Hp) in Hb' by (cbn; tauto). apply Hu, unmanaged_spec. eauto.
  - intros (name & b & Hb & Hm)%unmanaged_spec. exists name, b. split; [|done].
    assert (unmanaged st ns) as Hu by (apply unmanaged_spec; eauto).
    assert (boost_label b ≠ Some (global_name g)) as Hl.
    { intros Hl. apply Hm. unfold managedBy. by rewrite Hl. }
    assert (st' !! (ns, name) = Some b) as Hb'.
    { destruct (boost_label b) as [l|] eqn:Hlab; [|by apply (Hsame (ns, name) b Hlab)].
      rewrite (processed_other _ _ _ Hp); [done|]. cbn. intros ->. destruct (Hok _ _ Hb) as [_ Hc].
      rewrite Hlab in Hc. destruct Hl. by apply Hc. }
    rewrite Hkeep; [done|]. intros (b' & Hb2 & Hl' & _). congruence.
Qed.

Lemma sort_Strings_spec l : Sorted String.le (sort_Strings l) ∧ sort_Strings l ≡ₚ l.
Proof. split; [apply Sorted_merge_sort, _|apply merge_sort_Permutation]. Qed.

(** The lists the run reports. *)
Definition reports (items : list Namespace) st (act skip : list string) : Prop :=
  Sorted String.le act ∧ Sorted String.le skip ∧ NoDup act ∧ NoDup skip ∧
  (∀ ns, ns ∈ act ↔ desired items ns ∧ ¬ unmanaged st ns) ∧
  (∀ ns, ns ∈ skip ↔ desired items ns ∧ unmanaged st ns).

Lemma reports_filter σ items st :
  let nss := (go_range σ (desired_namespaces ∅ items)).*1 in
  reports items st (sort_Strings (filter (λ ns, ¬ unmanaged st ns) nss))
    (sort_Strings (filter (unmanaged st) nss)).
Proof.
  cbv zeta. set (nss := _.*1). assert (NoDup nss) as Hnd by apply NoDup_go_range_keys.
  destruct (sort_Strings_spec (filter (λ ns, ¬ unmanaged st ns) nss)) as [Hs1 Hp1].
  destruct (sort_Strings_spec (filter (unmanaged st) nss)) as [Hs2 Hp2].
  split_and!; [done|done|..].
  - rewrite Hp1. by apply NoDup_filter.
  - rewrite Hp2. by apply NoDup_filter.
  - intros ns. rewrite Hp1, list_elem_of_filter. unfold nss. rewrite elem_of_desired. tauto.
  - intros ns. rewrite Hp2, list_elem_of_filter. unfold nss. rewrite elem_of_desired. tauto.
Qed.

(** What processing and the clean-up after it make of the store. *)
Section run.
Context (items : list Namespace) (nss : list string) (st st2 st1 : gmap (string * string) v1alpha1.StartupCPUBoost).
Context (Hnss : ∀ ns, ns ∈ nss ↔ desired items ns) (Hok : children_ok st) (Hp : processed nss st st2).
Abbreviation act := (filter (λ ns, ¬ unmanaged st ns) nss).

Lemma run_active ns : ns ∈ act ↔ desired items ns ∧ ¬ unmanaged st ns.
Proof using Hnss. rewrite list_elem_of_filter, Hnss. tauto. Qed.

Lemma run_finalizers k b :
  st2 !! k = Some b → boost_label b = Some (global_name g) → k.1 ∉ act →
  v1alpha1.om_Finalizers (v1alpha1.b_Meta b) = [].
Proof using Hnss Hok Hp.
  destruct k as [ns name]. cbn [fst]. intros Hb Hl Hna.
  assert (st !! (ns, name) = Some b) as Hb0.
  { destruct (decide (name = child ∧ ns ∈ nss)) as [[-> Hin]|Hno].
    - apply (processed_skipped _ _ _ Hp ns b Hin); [|done].
      destruct (decide (unmanaged st ns)); [done|]. destruct Hna. apply run_active. by rewrite <-Hnss.
    - by rewrite <-(processed_other _ _ _ Hp) by (cbn; tauto). }
  apply (proj1 (Hok _ _ Hb0)). by rewrite Hl.
Qed.

Context (Hgone : ∀ k, stale st2 act k → st1 !! k = None).
Context (Hkeep : ∀ k, ¬ stale st2 act k → st1 !! k = st2 !! k).

Lemma run_distributed : same_user_boosts st st2 → distributed items st1.
Proof using Hname Hnss Hok Hp Hgone Hkeep.
  intros Hsame. pose proof (processed_unmanaged nss _ _ _ Hok Hp Hsame Hgone Hkeep) as Hun. split.
  - intros ns Hd Hu. rewrite Hun in Hu. unfold child_present. rewrite Hkeep.
    + apply (processed_active _ _ _ Hp); [|done]. by apply Hnss.
    + intros (b & Hb & _ & Hna). by apply Hna, run_active.
  - intros k b Hb Hl. rewrite Hun, <-run_active.
    destruct (decide (k.1 ∈ act)) as [|Hna]; [done|]. exfalso.
    destruct (st2 !! k) as [b'|] eqn:Hb'.
    + destruct (decide (boost_label b' = Some (global_name g))) as [Hl'|Hl'].
      * rewrite Hgone in Hb; [done|]. by exists b'.
      * rewrite Hkeep in Hb; [congruence|]. intros (b'' & ? & ? & _). congruence.
    + rewrite Hkeep in Hb; [congruence|]. intros (b'' & ? & _). congruence.
Qed.

Lemma run_settled : distributed items st → st1 = st.
Proof using Hnss Hok Hp Hkeep.
  intros [Hd1 Hd2]. assert (st2 = st) as Heq.
  { apply (processed_settled _ _ _ Hp). intros ns Hin. split; [by apply Hd1, Hnss|].
    intros Hu b Hb. destruct (boost_label b) as [l|] eqn:Hl; [|done]. exfalso.
    destruct (Hok _ _ Hb) as [_ Hc]. rewrite Hl in Hc. specialize (Hc eq_refl ltac:(done)).
    by destruct (Hd2 _ b Hb ltac:(congruence)) as [_ []]. }
  rewrite Heq in Hkeep. apply map_eq. intros k. apply Hkeep. intros (b & Hb & Hl & Hna).
  apply Hna, run_active. by apply (Hd2 k b).
Qed.
End run.

Lemma reconcile_reliable σ w sel items :
  children_ok (stored w) →
  LabelSelectorAsSelector (v1alpha1.gspec_NamespaceSelector (v1alpha1.gb_Spec g)) = inr sel →
  (ListNamespaces sel w).1 = inr items →
  ∃ act skip w1, reconcile σ g w = updateStatus g act skip w1 ∧ reports items (stored w) act skip ∧
    same_user_boosts (stored w) (stored w1) ∧ distributed items (stored w1) ∧
    (∀ ns, unmanaged (stored w1) ns ↔ unmanaged (stored w) ns) ∧
    (distributed items (stored w) → stored w1 = stored w).
Proof using Type*.
  intros Hok Hsel Hitems. unfold reconcile. rewrite Hsel.
  pose proof (list_namespaces_stored w sel) as Hw0.
  set (nss := (go_range σ (desired_namespaces ∅ items)).*1).
  assert (NoDup nss) as Hnd by apply NoDup_go_range_keys.
  assert (∀ ns, ns ∈ nss ↔ desired items ns) as Hnss by apply elem_of_desired.
  erewrite bind_Done by (unfold call; by rewrite (surjective_pairing (ListNamespaces sel w))).
  rewrite Hitems. set (w0 := (ListNamespaces sel w).2) in *. rewrite <-Hw0 in *.
  destruct (wp_elim _ _ _ (wp_and _ _ _ _
    (process_namespaces_reliable w0 ([], []) nss Hnd (λ ns _, children_ok_at _ ns Hok))
    (process_namespaces_keeps w0 g child ([], []) nss Hname))) as (acc & w2 & Hrun & [-> Hp] & Hsame).
  fold nss. rewrite (bind_Done _ _ _ _ _ Hrun). cbn [fst snd app].
  destruct (wp_elim _ _ _ (wp_and _ _ _ _
    (cleanup_reliable w2 _ (run_finalizers items nss _ _ Hnss Hok Hp))
    (cleanup_keeps w2 (global_name g) _))) as (err & w1 & Hclean & (-> & Hgone & Hkeep) & Hsame').
  rewrite (bind_Done _ _ _ _ _ Hclean).
  eexists _, _, w1. split_and!; [done|apply reports_filter|by etrans|..].
  - by eapply run_distributed.
  - by eapply processed_unmanaged.
  - by eapply run_settled.
Qed.
End distribution.

(** ** Deletion, whatever fails *)

Section deletion.
Context `{QuantityLib} `{SelectorLib} `{ConditionLib} `{FinalizerLib} `{!SemanticLib} `{!GlobalClient}.
Context `{!GlobalClientLaws} `{!FinalizerLaws}.
Implicit Types (b : v1alpha1.StartupCPUBoost) (w : World).

(** Whatever is deleted next, what is gone stays gone and what is marked
    stays marked. *)
Lemma being_deleted_after w b k :
  being_deleted (stored w !! k) → being_deleted (stored (DeleteBoost b w).2 !! k).
Proof.
  intros Hk. destruct (decide (k = boost_key b)) as [->|Hne]; [|by rewrite delete_other].
  destruct (delete_effect w b) as [->|[->|(b0 & b' & Hb0 & (_ & Hf & Hd) & ->)]]; [done|done|].
  rewrite Hb0 in Hk. cbn. rewrite Hf. split; [apply Hk|done].
Qed.

Lemma delete_accepted w b :
  match (DeleteBoost b w).1 with None => True | Some e => IsNotFound e = true end →
  being_deleted (stored (DeleteBoost b w).2 !! boost_key b).
Proof.
  intros Hd. destruct (DeleteBoost b w).1 as [e|] eqn:Hr; [|by apply delete_stores].
  by rewrite (delete_not_found _ _ e).
Qed.

Lemma delete_all_wp w l :
  wp (delete_all l) (λ err w', (∀ k, being_deleted (stored w !! k) → being_deleted (stored w' !! k)) ∧
    (∀ k, (∀ b, b ∈ l → boost_key b ≠ k) → stored w' !! k = stored w !! k) ∧
    (err = None → ∀ b, b ∈ l → being_deleted (stored w' !! boost_key b))) w.
Proof.
  revert w. induction l as [|b l IH]; intros w; cbn [delete_all].
  - apply wp_ret. split_and!; [done|done|]. intros _ b Hb. by apply elem_of_nil in Hb.
  - apply wp_bind, wp_call.
    set (goes_on := match (DeleteBoost b w).1 with None => True | Some e => IsNotFound e = true end).
    assert (goes_on → wp (delete_all l) (λ err w', (∀ k, being_deleted (stored w !! k) → being_deleted (stored w' !! k)) ∧
      (∀ k, (∀ b', b' ∈ b :: l → boost_key b' ≠ k) → stored w' !! k = stored w !! k) ∧
      (err = None → ∀ b', b' ∈ b :: l → being_deleted (stored w' !! boost_key b'))) (DeleteBoost b w).2)
      as Hrest.
    { intros Hgo. wp_use IH. intros err w' (Hn & Hkeep & Herr). split_and!.
      - intros k Hk. by apply Hn, being_deleted_after.
      - intros k Hk. rewrite Hkeep; [apply delete_other; intros ->; by apply (Hk b); [left|]|].
        intros b' Hb'. apply Hk. by right.
      - intros He b' [->|Hb']%elem_of_cons; [by apply Hn, delete_accepted|by apply Herr]. }
    unfold goes_on in Hrest. destruct (DeleteBoost b w).1 as [e|] eqn:Hd; [|by apply Hrest].
    destruct (IsNotFound e) eqn:He; [by apply Hrest|].
    apply wp_ret. split_and!; [|  |done].
    + intros k Hk. by apply being_deleted_after.
    + intros k Hk. apply delete_other. intros ->. by apply (Hk b); [left|].
Qed.

(** What the listing returned is deleted, and nothing else. *)
Lemma deleteAllChildren_wp w name :
  wp (deleteAllChildren name) (λ err w', err = None →
    ∃ l, (ListBoosts (MatchingLabel name) w).1 = inr l ∧
      (∀ b, b ∈ l → being_deleted (stored w' !! boost_key b)) ∧
      ∀ k, (∀ b, b ∈ l → boost_key b ≠ k) → stored w' !! k = stored w !! k) w.
Proof.
  apply wp_bind, wp_call. pose proof (list_stored w (MatchingLabel name)) as Hw.
  destruct (ListBoosts (MatchingLabel name) w) as [[e|l] w1]; cbn [fst snd] in *; [by apply wp_ret|].
  rewrite <-Hw. wp_use delete_all_wp. intros err w' (_ & Hkeep & Herr) ->. exists l. auto.
Qed.
End deletion.

(** ** Properties *)

Section properties.
Context `{QuantityLib} `{SelectorLib} `{ConditionLib} `{FinalizerLib} `{!SemanticLib} `{!GlobalClient}.
Context `{!GlobalClientLaws} `{!FreshReads} `{!SemanticLaws} `{!FinalizerLaws}.
Implicit Types (g : v1alpha1.GlobalStartupCPUBoost) (w : World).

(** C18: the boosts of users are safe.  Whatever calls of the client fail and
    in whatever order namespaces are visited, a reconciliation of a global
    boost returns, and the boosts without the label of a global boost are
    the same before and after it: none is changed, deleted or created.  A
    read that succeeds is current. *)
Theorem user_boosts_untouched σ name w :
  name ≠ "" →
  ∃ res w', Global.Reconcile σ name w = Done (res, w') ∧
    ∀ k b, boost_label b = None → stored w !! k = Some b ↔ stored w' !! k = Some b.
Proof. intros Hname. apply wp_elim, Reconcile_keeps, Hname. Qed.


(** C30: a distributed boost is left alone.  Where every child is in step and
    none is stale, a reconciliation without faults changes no stored boost,
    in whatever order it visits the namespaces.  Reads are current, and
    labelled boosts are as [children_ok] says. *)
Theorem distribution_stable `{!ReliableClient} σ g w sel items :
  validateGlobal g = None → global_name g ≠ "" → children_ok g (stored w) →
  LabelSelectorAsSelector (v1alpha1.gspec_NamespaceSelector (v1alpha1.gb_Spec g)) = inr sel →
  (ListNamespaces sel w).1 = inr items →
  distributed g items (stored w) →
  ∃ res w', reconcile σ g w = Done (res, w') ∧ stored w' = stored w.
Proof.
  intros Hv Hn Hok Hsel Hitems Hdist.
  destruct (reconcile_reliable g Hv Hn σ w sel items Hok Hsel Hitems)
    as (act & skip & w1 & Hrec & _ & _ & _ & _ & Hst).
  destruct (wp_elim _ _ _ (updateStatus_wp w1 g act skip)) as (res & w' & Hupd & Hw).
  exists res, w'. by rewrite Hw, Hrec, Hst.
Qed.

(** C31: the finalizer goes last.  Whatever fails, and however stale the list
    of children is, the deletion of a global boost that carries the finalizer
    either reports an error of the clean-up and leaves the object alone, or
    the server has accepted the deletion of every child that was listed: each
    is gone, or it has finalizers of its own and is marked for deletion, and
    every boost that was not listed is as it was; and only then the object is
    updated, without the finalizer and with its other finalizers.  A child
    with finalizers of its own can thus outlive the global boost. *)
Theorem finalizer_removed_last g w :
  ContainsFinalizer (global_finalizers g) v1alpha1.GlobalBoostFinalizer = true →
  ∃ err w1, deleteAllChildren (global_name g) w = Done (err, w1) ∧
    match err with
    | Some e => handleDeletion g w = Done ((no_requeue, Some e), w1)
    | None =>
        (∃ l, (ListBoosts (MatchingLabel (global_name g)) w).1 = inr l ∧
          (∀ b, b ∈ l → being_deleted (stored w1 !! boost_key b)) ∧
          ∀ k, (∀ b, b ∈ l → boost_key b ≠ k) → stored w1 !! k = stored w !! k) ∧
        ∃ g', handleDeletion g w =
            Done ((no_requeue, ClientError <$> (UpdateGlobal g' w1).1), (UpdateGlobal g' w1).2) ∧
          global_name g' = global_name g ∧ v1alpha1.gb_Spec g' = v1alpha1.gb_Spec g ∧
          ∀ f, f ∈ global_finalizers g' ↔ f ≠ v1alpha1.GlobalBoostFinalizer ∧ f ∈ global_finalizers g
    end.
Proof.
  intros Hc. destruct (wp_elim _ _ _ (deleteAllChildren_wp w (global_name g))) as (err & w1 & Hdel & Hgone).
  exists err, w1. split; [done|]. unfold handleDeletion. rewrite Hc. cbn [negb].
  rewrite (bind_Done _ _ _ _ _ Hdel). destruct err as [e|]; [done|]. split; [by apply Hgone|].
  exists (set_finalizers g (RemoveFinalizer (global_finalizers g) v1alpha1.GlobalBoostFinalizer)).
  split; [|split; [done|split; [done|intros f; apply remove_finalizer]]].
  unfold bind, call. by destruct (UpdateGlobal _ w1).
Qed.

(** The global boost [g] with selector [sel] wants a child in [ns], unless
    there are boosts of others. *)
Definition wants (sel : Selector) (ns : Namespace) : Prop :=
  SelMatches sel (ns_Labels ns) = true ∧ ns_DeletionTimestamp ns = None.

Lemma elem_of_matching_globals labels items n :
  n ∈ matching_globals labels items ↔
    ∃ g sel, g ∈ items ∧ global_name g = n ∧
      LabelSelectorAsSelector (v1alpha1.gspec_NamespaceSelector (v1alpha1.gb_Spec g)) = inr sel ∧
      SelMatches sel labels = true.
Proof.
  induction items as [|g items IH]; cbn [matching_globals].
  - setoid_rewrite elem_of_nil. naive_solver.
  - setoid_rewrite elem_of_cons. destruct (LabelSelectorAsSelector _) as [e|sel] eqn:Hsel; [naive_solver congruence|].
    destruct (SelMatches sel labels) eqn:Hm; rewrite ?elem_of_cons, IH; naive_solver congruence.
Qed.

(** C32: the watches miss no change.  For a namespace event the controller
    asks for exactly the global boosts that select the namespace by its
    labels, and for an event of a boost for exactly those that select the
    boost's namespace.  As an update event is mapped with the old and with
    the new object, every global boost that wants a child in one of the two
    versions and not in the other is reconciled. *)
Theorem watches_complete w items old new g sel :
  (ListGlobals w).1 = inr items → g ∈ items →
  LabelSelectorAsSelector (v1alpha1.gspec_NamespaceSelector (v1alpha1.gb_Spec g)) = inr sel →
  let selects ns n := ∃ g sel, g ∈ items ∧ global_name g = n ∧
    LabelSelectorAsSelector (v1alpha1.gspec_NamespaceSelector (v1alpha1.gb_Spec g)) = inr sel ∧
    SelMatches sel (ns_Labels ns) = true in
  ∃ reqs reqs' w',
    mapNamespaceToGlobalBoosts (WatchedNamespace old) w = Done (reqs, w') ∧
    mapNamespaceToGlobalBoosts (WatchedNamespace new) w = Done (reqs', w') ∧
    (∀ n, n ∈ reqs ↔ selects old n) ∧ (∀ n, n ∈ reqs' ↔ selects new n) ∧
    (¬ (wants sel old ↔ wants sel new) → global_name g ∈ reqs ++ reqs') ∧
    (∀ boost w0 ns, GetNamespace (boost_namespace boost) w0 = (inr ns, w) →
       ∃ reqs, mapBoostToGlobalBoosts (WatchedBoost boost) w0 = Done (reqs, w') ∧
         ∀ n, n ∈ reqs ↔ selects ns n).
Proof.
  intros Hitems Hg Hsel selects. destruct (ListGlobals w) as [r w'] eqn:Hl. cbn in Hitems. subst r.
  assert (∀ ns, mapNamespaceToGlobalBoosts (WatchedNamespace ns) w =
    Done (matching_globals (ns_Labels ns) items, w')) as Hmap.
  { intros ns. unfold mapNamespaceToGlobalBoosts, bind, call. by rewrite Hl. }
  exists (matching_globals (ns_Labels old) items), (matching_globals (ns_Labels new) items), w'.
  split_and!; [apply Hmap|apply Hmap|intros n; apply elem_of_matching_globals..| |].
  - intros Hdiff. rewrite elem_of_app, !elem_of_matching_globals.
    destruct (SelMatches sel (ns_Labels old)) eqn:Ho; [left; by exists g, sel|].
    destruct (SelMatches sel (ns_Labels new)) eqn:Hn; [right; by exists g, sel|].
    destruct Hdiff. unfold wants. rewrite Ho, Hn. naive_solver.
  - intros boost w0 ns Hns. exists (matching_globals (ns_Labels ns) items).
    split; [|intros n; apply elem_of_matching_globals].
    unfold mapBoostToGlobalBoosts, bind, call. by rewrite Hns, Hl.
Qed.
End properties.

(** ** Witnesses *)

Module witness.
Import ConcreteCluster.
#[local] Existing Instances ConcreteQuantity.lib ConcreteQuantity.laws ConcreteSelector.lib
  ConcreteBoosts.conditions finalizers finalizers_laws semantic semantic_laws
  cluster_laws cluster_fresh cluster_reliable.

(** Tests on the stored boosts that evaluate. *)
Definition child_state (w : Cluster) (ns name : string) : option (option string * LabelSelector) :=
  (λ b, (boost_label b, v1alpha1.b_Selector b)) <$> cluster_stored w !! (ns, name).

Definition final (o : outcome ((Result * option GlobalError) * Cluster)) : Cluster :=
  match o with Done (_, w) => w | Panic _ => a_cluster (a_global None) [] end.

(** One run on the cluster: children are created and updated, the stale one
    goes, the namespace with its own boost is skipped. *)
Example distribution_run :
  let w := final (@reconcile _ _ _ _ (cluster false) order_rev (a_global None)
                    (a_cluster (a_global None) [])) in
  child_state w "empty" "global-all" = Some (Some "all", ("app", ["web"])) ∧
  child_state w "old" "global-all" = Some (Some "all", ("app", ["web"])) ∧
  child_state w "stale" "global-all" = None ∧ child_state w "busy" "global-all" = None ∧
  child_state w "busy" "own" = Some (None, ("app", ["old"])) ∧
  (v1alpha1.gs_ActiveNamespaces ∘ v1alpha1.gb_Status <$> cl_globals w) = [["empty"; "old"]] ∧
  (v1alpha1.gs_SkippedNamespaces ∘ v1alpha1.gb_Status <$> cl_globals w) = [["busy"]].
Proof. vm_compute. split_and!; reflexivity. Qed.

#[local] Instance reliable_client : GlobalClient := cluster false.
Abbreviation g0 := (a_global None).
Definition w0 : @World _ _ reliable_client := a_cluster (a_global None) [].
Abbreviation prod_namespaces := [namespace "busy" [("env", "prod")]; namespace "empty" [("env", "prod")];
  namespace "old" [("env", "prod")]].

(** [children_ok] evaluates. *)
Lemma children_ok_test (st : ConcreteCluster.boosts) :
  bool_decide (map_Forall (λ k b, (is_Some (boost_label b) → v1alpha1.om_Finalizers (v1alpha1.b_Meta b) = []) ∧
    (k.2 = childBoostName (global_name g0) → is_Some (boost_label b) → boost_label b = Some (global_name g0)))
    st) = true → children_ok g0 st.
Proof. intros Ht k b Hb. by apply bool_decide_eq_true_1 in Ht as Hf; apply (Hf k b). Qed.

Example user_boosts_untouched_witness :
  ∃ res w', @Global.Reconcile _ _ _ _ _ (cluster true) order_fwd "all" (a_cluster g0 [true]) = Done (res, w') ∧
    cluster_stored w' !! ("busy", "own") = Some (boost_in "busy" "own" None).
Proof.
  destruct (@user_boosts_untouched _ _ _ _ _ (cluster true) (cluster_laws true) (cluster_fresh true) order_fwd "all"
    (a_cluster g0 [true])) as (res & w' & Hrun & Hsame); [done|].
  exists res, w'. split; [exact Hrun|]. apply Hsame; reflexivity.
Defined.


Example distribution_stable_witness :
  let w : @World _ _ reliable_client := final (reconcile order_fwd g0 w0) in
  ∃ res w', reconcile order_rev g0 w = Done (res, w') ∧ stored w' = stored w.
Proof.
  intros w. apply (distribution_stable order_rev g0 w ("env", ["prod"]) prod_namespaces).
  - vm_compute; reflexivity.
  - done.
  - apply children_ok_test. vm_compute; reflexivity.
  - reflexivity.
  - vm_compute; reflexivity.
  - destruct (reconcile_reliable g0 ltac:(vm_compute; reflexivity) ltac:(done) order_fwd w0 ("env", ["prod"])
      prod_namespaces) as (act & skip & w1 & Hrec & _ & _ & Hd & _).
    + apply children_ok_test. vm_compute; reflexivity.
    + reflexivity.
    + vm_compute; reflexivity.
    + destruct (wp_elim _ _ _ (updateStatus_wp w1 g0 act skip)) as (res & w' & Hupd & Hw).
      rewrite Hupd in Hrec. pose proof (f_equal final Hrec) as Hf. change (final (Done (res, w'))) with w' in Hf.
      unfold w. rewrite Hf, Hw. exact Hd.
Defined.

Definition wd : @World _ _ reliable_client := a_cluster (a_global (Some 1)) [].

(** One of the two children is gone, the other has a finalizer and is only
    marked, and the finalizer of the global boost is removed. *)
Definition held_child : v1alpha1.StartupCPUBoost := {|
  v1alpha1.b_Meta := {|
    v1alpha1.om_Name := "global-all"; v1alpha1.om_Namespace := "held"; v1alpha1.om_UID := "";
    v1alpha1.om_Labels := Some {[ v1alpha1.ManagedByGlobalBoostLabel := "all" ]};
    v1alpha1.om_Annotations := None; v1alpha1.om_Finalizers := ["example.com/hold"];
    v1alpha1.om_DeletionTimestamp := None |};
  v1alpha1.b_Selector := ("app", ["old"]);
  v1alpha1.b_Spec := Validation.witness.a_spec;
  v1alpha1.b_Status := {| v1alpha1.bs_ActiveContainerBoosts := 0; v1alpha1.bs_TotalContainerBoosts := 0;
    v1alpha1.bs_Conditions := [] |}
|}.

Definition wh : @World _ _ reliable_client :=
  set_boosts (a_cluster (a_global (Some 1)) []) (put held_child (cl_boosts (a_cluster (a_global (Some 1)) []))).

Example finalizer_removed_last_witness :
  ∃ w1 res w', deleteAllChildren "all" wh = Done (None, w1) ∧
    child_state w1 "old" "global-all" = None ∧
    option_map (λ b, v1alpha1.om_DeletionTimestamp (v1alpha1.b_Meta b)) (stored w1 !! ("held", "global-all")) =
      Some (Some 0) ∧
    handleDeletion (a_global (Some 1)) wh = Done (res, w').
Proof.
  destruct (finalizer_removed_last (a_global (Some 1)) wh) as (err & w1 & Hdel & Hcase).
  - vm_compute; reflexivity.
  - pose proof (f_equal (λ o, match o with Done (e, _) => e | Panic _ => None end) Hdel) as Herr.
    cbn beta match in Herr. vm_compute in Herr. subst err.
    destruct Hcase as (_ & g' & Hrun & _). exists w1. eexists _, _. split; [exact Hdel|].
    pose proof (f_equal (λ o, match o with Done (_, w) => w | Panic _ => w0 end) Hdel) as Hw1.
    cbn beta match in Hw1. split; [rewrite <-Hw1; vm_compute; reflexivity|].
    split; [rewrite <-Hw1; vm_compute; reflexivity|exact Hrun].
Defined.

Example watches_complete_witness :
  ∃ reqs w', mapNamespaceToGlobalBoosts (WatchedNamespace (namespace "empty" [("env", "prod")])) w0 =
      Done (reqs, w') ∧ "all" ∈ reqs.
Proof.
  destruct (watches_complete w0 [g0] (namespace "empty" [("env", "prod")]) (namespace "empty" []) g0 ("env", ["prod"]))
    as (reqs & reqs' & w' & Hold & _ & Hreqs & _).
  - reflexivity.
  - left.
  - reflexivity.
  - exists reqs, w'. split; [exact Hold|]. apply Hreqs. exists g0, ("env", ["prod"]).
    split_and!; [left|reflexivity|reflexivity|vm_compute; reflexivity].
Defined.

(** A namespace without a boost of a user, but with the child of another
    global boost, gets no child and is reported as skipped. *)
Definition shared_cluster : @World _ _ reliable_client := {|
  cl_boosts := put (boost_in "shared" "global-other" (Some "other")) ∅;
  cl_globals := [g0]; cl_namespaces := [namespace "shared" [("env", "prod")]]; cl_faults := []
|}.

Theorem other_global_child_skips :
  let w' : @World _ _ reliable_client := final (reconcile order_fwd g0 shared_cluster) in
  map_to_list (stored shared_cluster) = [(("shared", "global-other"), boost_in "shared" "global-other" (Some "other"))] ∧
  stored w' !! ("shared", "global-all") = None ∧
  (λ g, v1alpha1.gs_SkippedNamespaces (v1alpha1.gb_Status g)) <$> cl_globals w' = [["shared"]].
Proof. split_and!; vm_compute; reflexivity. Qed.

(** A single failed list call deletes a child that is in step.  The
    namespace matches, has no boosts of others and holds the right child;
    the check for other boosts fails once, the namespace is not counted as
    active and the clean-up of the same run removes its child. *)
Theorem transient_error_deletes_child :
  let w : @World _ _ reliable_client := final (reconcile order_fwd g0 w0) in
  let faulty : @World _ _ (cluster true) := {| cl_boosts := cl_boosts w; cl_globals := cl_globals w;
                   cl_namespaces := cl_namespaces w; cl_faults := [true] |} in
  let w' := final (@reconcile _ _ _ _ (cluster true) order_fwd g0 faulty) in
  child_state w "old" "global-all" = Some (Some "all", ("app", ["web"])) ∧
  child_state w' "old" "global-all" = None ∧
  child_state w' "empty" "global-all" = Some (Some "all", ("app", ["web"])).
Proof. vm_compute. split_and!; reflexivity. Qed.
End witness.
