(* ===== verification/Setup.v ===== *)
(** * Registration with the libraries (api/v1alpha1/groupversion_info.go, the
      [init] functions, SetupWithManager, internal/webhook/webhooks.go)

    Before anything runs, the program tells the libraries what it consists
    of: the Go types of the API group go into the runtime scheme, the metric
    vectors into the Prometheus registry, and the webhooks and controllers,
    with what they watch, to the controller manager.  The libraries refuse
    what does not fit together; the theorem says that nothing is refused. *)

From S2P Require Import Prelude Kube BoostPod Metrics BoostController.

(** ** The libraries *)

(** The Go types of Kubernetes objects that the program uses. *)
Inductive ObjectType : Type :=
  | StartupCPUBoostType | StartupCPUBoostListType
  | GlobalStartupCPUBoostType | GlobalStartupCPUBoostListType
  | PodType | PodListType | NamespaceType | NamespaceListType.

#[global] Instance ObjectType_eq_dec : EqDecision ObjectType.
Proof. solve_decision. Defined.

(** The types that are part of Kubernetes. *)
Definition kubernetes_type (T : ObjectType) : bool :=
  match T with PodType | PodListType | NamespaceType | NamespaceListType => true | _ => false end.

(** [schema.GroupVersion] *)
Record GroupVersion : Type := { gv_Group : string; gv_Version : string }.

(** [metav1.LabelSelectorRequirement] *)
Record LabelSelectorRequirement : Type := { lsr_Key : string; lsr_Operator : string; lsr_Values : list string }.
Definition LabelSelectorOpExists : string := "Exists".

(** What handles the events of a watch. *)
Inductive WatchHandler : Type := BoostPodHandler | mapNamespaceToGlobalBoosts | mapBoostToGlobalBoosts.

(** [builder.WithPredicates] of label predicates *)
Abbreviation LabelPredicate := (GoMap string → bool).

(** The arguments of a controller builder. *)
Record ControllerBuilder : Type := {
  cb_For : ObjectType;
  cb_Watches : list (ObjectType * WatchHandler * list LabelPredicate);
  (* WithEventFilter(r) *)
  cb_EventFilter : bool
}.

(** A webhook builder and its validator. *)
Inductive Validator : Type := StartupCPUBoostWebhook | GlobalStartupCPUBoostWebhook.
Record WebhookBuilder : Type := { wb_For : ObjectType; wb_WithValidator : Validator }.

(** ** The names of Prometheus *)

(** [prometheus.BuildFQName] without a namespace, which the program does not
    set. *)
Definition BuildFQName (o : VecOpts) : string :=
  if (vo_Name o =? "")%string then ""
  else if (vo_Subsystem o =? "")%string then vo_Name o
  else (vo_Subsystem o +:+ "_" +:+ vo_Name o)%string.

Definition in_range (lo hi : N) (c : Ascii.ascii) : bool :=
  ((lo <=? Ascii.N_of_ascii c) && (Ascii.N_of_ascii c <=? hi))%N.
Definition letter (c : Ascii.ascii) : bool :=
  in_range 65 90 c || in_range 97 122 c || Ascii.eqb c "_"%char.
Definition digit (c : Ascii.ascii) : bool := in_range 48 57 c.

Definition starts_and_goes_on (start rest : Ascii.ascii → bool) (s : string) : bool :=
  match String.list_ascii_of_string s with
  | [] => false
  | c :: cs => start c && forallb rest cs
  end.

(** A metric name matches [a-zA-Z_:][a-zA-Z0-9_:]*, a label name
    [a-zA-Z_][a-zA-Z0-9_]* and does not begin with two underscores, and the
    labels of a metric differ. *)
Definition IsValidMetricName (s : string) : bool :=
  starts_and_goes_on (λ c, letter c || Ascii.eqb c ":"%char) (λ c, letter c || digit c || Ascii.eqb c ":"%char) s.
Definition checkLabelName (s : string) : bool :=
  starts_and_goes_on letter (λ c, letter c || digit c) s && negb (String.prefix "__" s).
Definition valid_desc (o : VecOpts) (labels : list string) : bool :=
  IsValidMetricName (BuildFQName o) && forallb checkLabelName labels && bool_decide (NoDup labels).

Class RuntimeLib `{MetricVecLib} : Type := {
  (* k8s.io/apimachinery and controller-runtime/pkg/scheme *)
  Scheme : Type;
  NewScheme : Scheme;
  Recognizes : Scheme → ObjectType → bool;
  SchemeBuilder : Type;
  NewSchemeBuilder : GroupVersion → SchemeBuilder;
  Register : list ObjectType → SchemeBuilder → SchemeBuilder;
  AddToScheme : SchemeBuilder → Scheme → option error * Scheme;
  clientgo_AddToScheme : Scheme → option error * Scheme;
  (* the registry of Prometheus *)
  Registry : Type;
  MustRegister : list Vec → Registry → outcome Registry;
  (* controller-runtime *)
  CtrlManager : Type;
  GetScheme : CtrlManager → Scheme;
  LabelSelectorPredicate : list LabelSelectorRequirement → result LabelPredicate;
  CompleteController : ControllerBuilder → CtrlManager → option error * CtrlManager;
  CompleteWebhook : WebhookBuilder → CtrlManager → option error * CtrlManager
}.

(** What their documentation promises. *)
Class RuntimeLaws `{RuntimeLib} : Type := {
  (** a builder adds what was registered with it, unless a type is there twice *)
  builder_types : SchemeBuilder → list ObjectType;
  builder_version : SchemeBuilder → GroupVersion;
  builder_new gv : builder_types (NewSchemeBuilder gv) = [] ∧ builder_version (NewSchemeBuilder gv) = gv;
  builder_register ts b :
    builder_types (Register ts b) = builder_types b ++ ts ∧ builder_version (Register ts b) = builder_version b;
  builder_adds b s :
    gv_Version (builder_version b) ≠ "" → NoDup (builder_types b) →
    (∀ T, T ∈ builder_types b → Recognizes s T = false) →
    ∃ s', AddToScheme b s = (None, s') ∧
      ∀ T, Recognizes s' T = true ↔ T ∈ builder_types b ∨ Recognizes s T = true;
  (** client-go brings the types of Kubernetes *)
  clientgo_adds : ∃ s, clientgo_AddToScheme NewScheme = (None, s) ∧
    ∀ T, Recognizes s T = kubernetes_type T;
  (** vectors with valid descriptions and new fully qualified names can be
      registered *)
  registry_names : Registry → list string;
  registry_adds (ds : list (VecOpts * list string)) r :
    let names := (λ d, BuildFQName d.1) <$> ds in
    Forall (λ d, valid_desc d.1 d.2 = true) ds → NoDup names → (∀ n, n ∈ names → n ∉ registry_names r) →
    ∃ r', MustRegister ((λ d, vec_new d.1 d.2) <$> ds) r = Done r' ∧
      ∀ n, n ∈ registry_names r' ↔ n ∈ registry_names r ∨ n ∈ names;
  (** a selector that asks for a label is one *)
  exists_predicate k : ∃ f, LabelSelectorPredicate
      [{| lsr_Key := k; lsr_Operator := LabelSelectorOpExists; lsr_Values := [] |}] = inr f ∧
    ∀ labels, f labels = bool_decide (is_Some (gm_get labels k));
  (** a controller is named after the type it is for; it and the types it
      watches must be known and the name free *)
  controllers : CtrlManager → list ControllerBuilder;
  webhooks : CtrlManager → list WebhookBuilder;
  controller_completes b m :
    (∀ T, T = cb_For b ∨ T ∈ (cb_Watches b).*1.*1 → Recognizes (GetScheme m) T = true) →
    (∀ b', b' ∈ controllers m → cb_For b' ≠ cb_For b) →
    ∃ m', CompleteController b m = (None, m') ∧ GetScheme m' = GetScheme m ∧
      controllers m' = controllers m ++ [b] ∧ webhooks m' = webhooks m;
  webhook_completes b m :
    Recognizes (GetScheme m) (wb_For b) = true →
    (∀ b', b' ∈ webhooks m → wb_For b' ≠ wb_For b) →
    ∃ m', CompleteWebhook b m = (None, m') ∧ GetScheme m' = GetScheme m ∧
      controllers m' = controllers m ∧ webhooks m' = webhooks m ++ [b]
}.

(** ** The program *)

Section setup.
Context `{RuntimeLib} `{VersionLib}.

(** The variables of api/v1alpha1 and its two [init] functions, in the
    order of their files. *)
Definition GroupVersion_v1alpha1 : GroupVersion :=
  {| gv_Group := "autoscaling.x-k8s.io"; gv_Version := "v1alpha1" |}.
Definition SchemeBuilder_v1alpha1 : SchemeBuilder := NewSchemeBuilder GroupVersion_v1alpha1.
Definition init_global (b : SchemeBuilder) : SchemeBuilder :=
  Register [GlobalStartupCPUBoostType; GlobalStartupCPUBoostListType] b.
Definition init_boost (b : SchemeBuilder) : SchemeBuilder :=
  Register [StartupCPUBoostType; StartupCPUBoostListType] b.

(** [utilruntime.Must] *)
Definition Must {A} (r : option error * A) : outcome A :=
  match r with
  | (Some err, _) => Panic err
  | (None, a) => Done a
  end.

(** [init] of the main package, which runs after those it imports *)
Definition main_init : outcome Scheme :=
  s ← Must (clientgo_AddToScheme NewScheme);
  Must (AddToScheme (init_boost (init_global SchemeBuilder_v1alpha1)) s).

(** [metrics.Register] *)
Definition Metrics_Register (m : Metrics) (r : Registry) : outcome Registry :=
  MustRegister [boostConfigurations m; boostContainersTotal m; boostContainersActive m] r.

Definition GetPodLabelSelector : list LabelSelectorRequirement :=
  [{| lsr_Key := BoostLabelKey; lsr_Operator := LabelSelectorOpExists; lsr_Values := [] |}].

(** [SetupWithManager] of both reconcilers; the first one also returns
    whether it sets the legacy mode. *)
Definition Boost_SetupWithManager (serverVersion : string) (mgr : CtrlManager) :
    option error * option bool * CtrlManager :=
  match LabelSelectorPredicate GetPodLabelSelector with
  | inl err => (Some err, None, mgr)
  | inr lsPredicate =>
      let legacyRevertMode := shouldUseLegacyRevertMode serverVersion in
      let '(err, mgr) := CompleteController {|
        cb_For := StartupCPUBoostType;
        cb_Watches := [(PodType, BoostPodHandler, [lsPredicate])];
        cb_EventFilter := true |} mgr in
      (err, Some legacyRevertMode, mgr)
  end.

Definition Global_SetupWithManager (mgr : CtrlManager) : option error * CtrlManager :=
  CompleteController {|
    cb_For := GlobalStartupCPUBoostType;
    cb_Watches := [(NamespaceType, mapNamespaceToGlobalBoosts, []);
                   (StartupCPUBoostType, mapBoostToGlobalBoosts, [])];
    cb_EventFilter := false |} mgr.

Definition setupWebhookForStartupCPUBoost (mgr : CtrlManager) : option error * CtrlManager :=
  CompleteWebhook {| wb_For := StartupCPUBoostType; wb_WithValidator := StartupCPUBoostWebhook |} mgr.

Definition setupWebhookForGlobalStartupCPUBoost (mgr : CtrlManager) : option error * CtrlManager :=
  CompleteWebhook {| wb_For := GlobalStartupCPUBoostType; wb_WithValidator := GlobalStartupCPUBoostWebhook |} mgr.

(** [Setup] of the webhook package: the name of the webhook that failed *)
Definition webhook_Setup (mgr : CtrlManager) : string * option error * CtrlManager :=
  let '(err, mgr) := setupWebhookForStartupCPUBoost mgr in
  match err with
  | Some err => ("StartupCPUBoost", Some err, mgr)
  | None =>
      let '(err, mgr) := setupWebhookForGlobalStartupCPUBoost mgr in
      match err with
      | Some err => ("GlobalStartupCPUBoost", Some err, mgr)
      | None => ("", None, mgr)
      end
  end.

(** The calls of [setupControllers] that can fail, in their order; the
    result is the error it exits with and the legacy mode of the boost
    controller. *)
Definition setup_calls (serverVersion : string) (mgr : CtrlManager) :
    option error * option bool * CtrlManager :=
  match webhook_Setup mgr with
  | (_, Some err, mgr) => (Some err, None, mgr)
  | (_, None, mgr) =>
      match Boost_SetupWithManager serverVersion mgr with
      | (Some err, legacy, mgr) => (Some err, legacy, mgr)
      | (None, legacy, mgr) =>
          let '(err, mgr) := Global_SetupWithManager mgr in (err, legacy, mgr)
      end
  end.
End setup.

(** ** Property *)

Section property.
Context `{RuntimeLaws} `{VersionLib}.

Lemma main_init_recognizes : ∃ s, main_init = Done s ∧ ∀ T, Recognizes s T = true.
Proof.
  destruct clientgo_adds as (s & Hs & Hk). unfold main_init, init_boost, init_global, SchemeBuilder_v1alpha1.
  rewrite Hs. cbn [Must mbind outcome_bind]. set (b := Register _ _).
  assert (builder_types b = [GlobalStartupCPUBoostType; GlobalStartupCPUBoostListType;
    StartupCPUBoostType; StartupCPUBoostListType] ∧ builder_version b = GroupVersion_v1alpha1) as [Hb Hv].
  { unfold b. destruct (builder_new GroupVersion_v1alpha1) as [Ht0 Hv0].
    by rewrite !(proj1 (builder_register _ _)), !(proj2 (builder_register _ _)), Ht0, Hv0. }
  destruct (builder_adds b s) as (s' & -> & Hrec).
  - by rewrite Hv.
  - rewrite Hb. repeat constructor; set_solver.
  - rewrite Hb. intros T HT. rewrite Hk. repeat (apply elem_of_cons in HT as [->|HT]; [done|]).
    by apply elem_of_nil in HT.
  - exists s'. split; [done|]. intros T. apply Hrec. rewrite Hb, Hk. destruct T; set_solver.
Qed.

Lemma webhooks_set_up mgr :
  (∀ T, Recognizes (GetScheme mgr) T = true) → webhooks mgr = [] →
  ∃ mgr', webhook_Setup mgr = ("", None, mgr') ∧ GetScheme mgr' = GetScheme mgr ∧
    controllers mgr' = controllers mgr ∧
    webhooks mgr' =
      [{| wb_For := StartupCPUBoostType; wb_WithValidator := StartupCPUBoostWebhook |};
       {| wb_For := GlobalStartupCPUBoostType; wb_WithValidator := GlobalStartupCPUBoostWebhook |}].
Proof.
  intros Hrec Hw.
  unfold webhook_Setup, setupWebhookForStartupCPUBoost, setupWebhookForGlobalStartupCPUBoost.
  destruct (webhook_completes {| wb_For := StartupCPUBoostType; wb_WithValidator := StartupCPUBoostWebhook |} mgr)
    as (m1 & -> & Hs1 & Hc1 & Hw1); [done|rewrite Hw; set_solver|].
  destruct (webhook_completes
    {| wb_For := GlobalStartupCPUBoostType; wb_WithValidator := GlobalStartupCPUBoostWebhook |} m1)
    as (m2 & -> & Hs2 & Hc2 & Hw2); [by rewrite Hs1|rewrite Hw1, Hw; set_solver|].
  exists m2. rewrite Hw2, Hw1, Hw, Hs2, Hs1, Hc2, Hc1. done.
Qed.

Lemma boost_controller_set_up serverVersion mgr :
  (∀ T, Recognizes (GetScheme mgr) T = true) →
  (∀ b, b ∈ controllers mgr → cb_For b ≠ StartupCPUBoostType) →
  ∃ mgr' f, Boost_SetupWithManager serverVersion mgr =
      (None, Some (shouldUseLegacyRevertMode serverVersion), mgr') ∧
    GetScheme mgr' = GetScheme mgr ∧
    controllers mgr' = controllers mgr ++ [{| cb_For := StartupCPUBoostType;
      cb_Watches := [(PodType, BoostPodHandler, [f])]; cb_EventFilter := true |}] ∧
    webhooks mgr' = webhooks mgr ∧
    ∀ labels, f labels = GetPodLabelSelector_matches labels.
Proof.
  intros Hrec Hfree. unfold Boost_SetupWithManager, GetPodLabelSelector.
  destruct (exists_predicate BoostLabelKey) as (f & -> & Hf).
  destruct (controller_completes {| cb_For := StartupCPUBoostType;
    cb_Watches := [(PodType, BoostPodHandler, [f])]; cb_EventFilter := true |} mgr)
    as (m' & -> & Hs & Hc & Hw); [by auto|done|].
  exists m', f. split_and!; try done. intros labels. rewrite Hf. unfold GetPodLabelSelector_matches.
  by destruct (gm_get labels BoostLabelKey).
Qed.

Lemma global_controller_set_up mgr :
  (∀ T, Recognizes (GetScheme mgr) T = true) →
  (∀ b, b ∈ controllers mgr → cb_For b ≠ GlobalStartupCPUBoostType) →
  ∃ mgr', Global_SetupWithManager mgr = (None, mgr') ∧
    controllers mgr' = controllers mgr ++ [{| cb_For := GlobalStartupCPUBoostType;
      cb_Watches := [(NamespaceType, mapNamespaceToGlobalBoosts, []);
                     (StartupCPUBoostType, mapBoostToGlobalBoosts, [])]; cb_EventFilter := false |}] ∧
    webhooks mgr' = webhooks mgr.
Proof.
  intros Hrec Hfree. unfold Global_SetupWithManager.
  match goal with |- context [CompleteController ?b _] =>
    destruct (controller_completes b mgr) as (m' & -> & _ & Hc & Hw); [by auto|done|] end.
  by exists m'.
Qed.

(** The metrics that the README documents. *)
Definition documented_metrics : list string :=
  ["boost_configurations"; "boost_containers_total"; "boost_containers_active"].

Lemma metrics_registered r :
  (∀ n, n ∈ documented_metrics → n ∉ registry_names r) →
  ∃ r', Metrics_Register metrics_init r = Done r' ∧
    ∀ n, n ∈ registry_names r' ↔ n ∈ registry_names r ∨ n ∈ documented_metrics.
Proof.
  intros Hr. assert (∃ ds : list (VecOpts * list string),
    [boostConfigurations metrics_init; boostContainersTotal metrics_init; boostContainersActive metrics_init] =
      ((λ d, vec_new d.1 d.2) <$> ds) ∧
    forallb (λ d, valid_desc d.1 d.2) ds = true ∧ ((λ d, BuildFQName d.1) <$> ds) = documented_metrics)
    as (ds & Hds & Hv & Hn) by (eexists [(_, _); (_, _); (_, _)]; split_and!; [reflexivity|vm_compute; reflexivity|reflexivity]).
  destruct (registry_adds ds r) as (r' & Hr' & Hnames); rewrite ?Hn in *.
  - apply Forall_forall. intros d Hd. rewrite forallb_forall in Hv. apply Hv. by apply list_elem_of_In.
  - repeat constructor; set_solver.
  - done.
  - exists r'. unfold Metrics_Register. by rewrite Hds.
Qed.

(** The controllers and webhooks for a type. *)
Definition controllers_for (T : ObjectType) (m : CtrlManager) : list ControllerBuilder :=
  filter (λ b, cb_For b = T) (controllers m).
Definition webhooks_for (T : ObjectType) (m : CtrlManager) : list WebhookBuilder :=
  filter (λ b, wb_For b = T) (webhooks m).

(** A pod event passes the watches of the controller. *)
Definition pod_passes (b : ControllerBuilder) (labels : GoMap string) : bool :=
  existsb (λ w, match w with (PodType, _, fs) => forallb (λ f : LabelPredicate, f labels) fs | _ => false end)
    (cb_Watches b).

(** C38: the program registers everything it needs before it uses it, and no
    library has a reason to refuse.  In a registry that has none of them yet,
    the metrics can be registered, their names and labels being valid and
    distinct, and appear under the names that the README documents.  The
    initialisation of the packages does not panic, and the scheme afterwards
    knows the type of every object that the program handles.  With a manager
    that has this scheme, the set-up of webhooks and controllers reports no
    error and the revert mode is the one for the version of the server; each
    of the two API types then has exactly one validating webhook, its own
    validator, and exactly one controller; a change of a boost also reaches
    the controller of global boosts, and the event of a pod reaches the
    controller of boosts exactly if the pod has the label of a boost. *)
Theorem registration_complete serverVersion r :
  (∀ n, n ∈ documented_metrics → n ∉ registry_names r) →
  (∃ r', Metrics_Register metrics_init r = Done r' ∧
     ∀ n, n ∈ registry_names r' ↔ n ∈ registry_names r ∨ n ∈ documented_metrics) ∧
  ∃ s, main_init = Done s ∧ (∀ T, Recognizes s T = true) ∧
    ∀ mgr, GetScheme mgr = s → controllers mgr = [] → webhooks mgr = [] →
    ∃ mgr' boostCtrl globalCtrl,
      setup_calls serverVersion mgr = (None, Some (shouldUseLegacyRevertMode serverVersion), mgr') ∧
      wb_WithValidator <$> webhooks_for StartupCPUBoostType mgr' = [StartupCPUBoostWebhook] ∧
      wb_WithValidator <$> webhooks_for GlobalStartupCPUBoostType mgr' = [GlobalStartupCPUBoostWebhook] ∧
      controllers_for StartupCPUBoostType mgr' = [boostCtrl] ∧
      controllers_for GlobalStartupCPUBoostType mgr' = [globalCtrl] ∧
      StartupCPUBoostType ∈ (cb_Watches globalCtrl).*1.*1 ∧
      ∀ labels, pod_passes boostCtrl labels = GetPodLabelSelector_matches labels.
Proof.
  intros Hr. split; [by apply metrics_registered|].
  destruct main_init_recognizes as (s & Hs & Hrec). exists s. split_and!; [done|done|]. intros mgr Hsch Hc Hw.
  destruct (webhooks_set_up mgr) as (m1 & Hm1 & Hs1 & Hc1 & Hw1); [by rewrite Hsch|done|].
  destruct (boost_controller_set_up serverVersion m1) as (m2 & f & Hm2 & Hs2 & Hc2 & Hw2 & Hf);
    [by rewrite Hs1, Hsch|rewrite Hc1, Hc; set_solver|].
  destruct (global_controller_set_up m2) as (m3 & Hm3 & Hc3 & Hw3);
    [by rewrite Hs2, Hs1, Hsch|rewrite Hc2, Hc1, Hc; set_solver|].
  exists m3. eexists _, _. split; [by unfold setup_calls; rewrite Hm1, Hm2, Hm3|].
  unfold webhooks_for, controllers_for. rewrite Hw3, Hw2, Hw1, Hc3, Hc2, Hc1, Hc.
  split_and!; [reflexivity..|cbn; set_solver|]. intros labels. unfold pod_passes. cbn.
  by rewrite andb_true_r, orb_false_r.
Qed.
End property.

(** ** Witness *)

Module witness.
(** Vectors that are their description, and libraries that keep lists of
    what they were given and check it. *)
#[local] Instance vecs : MetricVecLib := {|
  Vec := VecOpts * list string; vec_new := pair; vec_samples := λ _ _, inr [];
  vec_inc := λ _ v, v; vec_dec := λ _ v, v; vec_set := λ _ _ v, v; vec_add := λ _ _ v, v;
  vec_reset := λ v, v; vec_delete := λ _ v, v |}.
#[local] Instance versions : VersionLib := {| CompareKubeAwareVersionStrings := λ _ _, 1 |}.

Definition Fresh {A} `{EqDecision A} (l l' : list A) : Prop := NoDup l ∧ Forall (λ x, x ∉ l') l.
#[local] Instance Fresh_dec {A} `{EqDecision A} (l l' : list A) : Decision (Fresh l l').
Proof. apply and_dec; apply _. Defined.

Record TheManager : Type := {
  tm_scheme : list ObjectType; tm_controllers : list ControllerBuilder; tm_webhooks : list WebhookBuilder }.

Definition names (vs : list (VecOpts * list string)) : list string := (λ d, BuildFQName d.1) <$> vs.

Definition has_key (k : string) (labels : GoMap string) : bool := bool_decide (is_Some (gm_get labels k)).

Definition types_of (b : ControllerBuilder) : list ObjectType := cb_For b :: (cb_Watches b).*1.*1.

#[local] Instance lib : RuntimeLib := {|
  Scheme := list ObjectType; NewScheme := []; Recognizes := λ s T, bool_decide (T ∈ s);
  SchemeBuilder := GroupVersion * list ObjectType; NewSchemeBuilder := λ gv, (gv, []);
  Register := λ ts b, (b.1, b.2 ++ ts);
  AddToScheme := λ b s,
    if decide (gv_Version b.1 ≠ "" ∧ Fresh b.2 s) then (None, b.2 ++ s) else (Some "double registration", s);
  clientgo_AddToScheme := λ s, (None, [PodType; PodListType; NamespaceType; NamespaceListType] ++ s);
  Registry := list string;
  MustRegister := λ vs r,
    if decide (Forall (λ d, valid_desc d.1 d.2 = true) vs ∧ Fresh (names vs) r) then Done (r ++ names vs)
    else Panic "duplicate metrics collector registration";
  CtrlManager := TheManager;
  GetScheme := tm_scheme;
  LabelSelectorPredicate := λ l,
    match l with
    | [r] => if (lsr_Operator r =? LabelSelectorOpExists)%string then inr (has_key (lsr_Key r)) else inl "unsupported"
    | _ => inl "unsupported"
    end;
  CompleteController := λ b m,
    if decide (Forall (λ T, T ∈ tm_scheme m) (types_of b) ∧ cb_For b ∉ cb_For <$> tm_controllers m)
    then (None, {| tm_scheme := tm_scheme m; tm_controllers := tm_controllers m ++ [b];
                   tm_webhooks := tm_webhooks m |})
    else (Some "no kind is registered", m);
  CompleteWebhook := λ b m,
    if decide (wb_For b ∈ tm_scheme m ∧ wb_For b ∉ wb_For <$> tm_webhooks m)
    then (None, {| tm_scheme := tm_scheme m; tm_controllers := tm_controllers m;
                   tm_webhooks := tm_webhooks m ++ [b] |})
    else (Some "no kind is registered", m)
|}.

Lemma not_in_fmap {A B} (f : A → B) (l : list A) y : (∀ x, x ∈ l → f x ≠ y) → y ∉ f <$> l.
Proof. intros Hx (x & -> & Hin)%list_elem_of_fmap. by apply (Hx x). Qed.

#[local] Instance laws : RuntimeLaws.
Proof.
  refine {| builder_types := snd : @SchemeBuilder _ lib → _; builder_version := fst : @SchemeBuilder _ lib → _;
    registry_names := id : @Registry _ lib → _; controllers := tm_controllers : @CtrlManager _ lib → _;
    webhooks := tm_webhooks : @CtrlManager _ lib → _ |}; cbn.
  - done.
  - done.
  - intros b s Hv Hnd Hf. rewrite decide_True.
    + eexists. split; [done|]. intros T. rewrite !bool_decide_eq_true. apply elem_of_app.
    + split; [done|]. split; [done|]. apply Forall_forall. intros T HT. by eapply bool_decide_eq_false_1, Hf.
  - eexists. split; [reflexivity|]. by intros [].
  - intros ds r Hv Hnd Hf. assert (((λ d, (d.1, d.2)) <$> ds) = ds) as Hn.
    { rewrite <-(list_fmap_id ds) at 2. apply list_fmap_ext. by intros _ [] _. }
    rewrite Hn, decide_True; [|split; [done|split; [done|by apply Forall_forall]]].
    eexists. split; [done|]. intros n. apply elem_of_app.
  - intros k. exists (has_key k). done.
  - intros b m Hrec Hfree. rewrite decide_True; [eauto|]. split; [|by apply not_in_fmap].
    apply Forall_forall. intros T HT. eapply bool_decide_eq_true_1, Hrec. by apply elem_of_cons in HT.
  - intros b m Hrec Hfree. rewrite decide_True; [eauto|]. split; [by eapply bool_decide_eq_true_1|by apply not_in_fmap].
Defined.

Definition the_scheme : list ObjectType :=
  match main_init with Done s => s | Panic _ => [] end.
Definition mgr : @CtrlManager _ lib := {| tm_scheme := the_scheme; tm_controllers := []; tm_webhooks := [] |}.

(** The registry has the metrics of the Go runtime already. *)
Definition default_registry : @Registry _ lib := ["go_goroutines"].

Example registration_complete_witness :
  (∃ r', Metrics_Register metrics_init default_registry = Done r' ∧ "boost_containers_total" ∈ r') ∧
  ∃ mgr', setup_calls "v1.33.1" mgr = (None, Some false, mgr').
Proof.
  destruct (registration_complete "v1.33.1" default_registry) as ((r' & Hm & Hn) & s & Hs & _ & Hall).
  - intros n Hn Hin. apply list_elem_of_singleton in Hin as ->. revert Hn. unfold documented_metrics.
    rewrite !elem_of_cons, elem_of_nil. by intros [?|[?|[?|[]]]].
  - split.
    + exists r'. split; [exact Hm|]. apply (Hn "boost_containers_total"). right. unfold documented_metrics.
      rewrite !elem_of_cons. auto.
    + destruct (Hall mgr) as (mgr' & b & g & Hsetup & _).
      * cbn. unfold the_scheme. rewrite Hs. reflexivity.
      * reflexivity.
      * reflexivity.
      * exists mgr'. exact Hsetup.
Defined.
End witness.
