(* ===== verification/Startup.v ===== *)
(** * The start of the operator (cmd/main.go, internal/util/cert.go,
      internal/webhook/webhooks.go)

    [main] up to the start of the goroutine [setupControllers] is a function
    of what the environment answers; then the two run concurrently, the
    controller manager takes part in the leader election and runs the boost
    manager, a signal may end it, and the kubelet asks the readiness check at
    any time.  The libraries that the
    code calls are the answers in [StartupEnv] and the errors in the events
    of the process. *)

From stdpp Require Import strings.
From S2P Require Import Prelude Config FeatureGates BoostController PodWebhook.

Definition InPlacePodVerticalScalingFeatureGateName : string := "InPlacePodVerticalScaling".
Definition PodLevelResourcesFeatureGateName : string := "PodLevelResources".
Definition leaderElectionID : string := "8fd077db.x-k8s.io".

(** ** main, up to the goroutine *)

(** The calls of os.Exit. *)
Inductive ExitReason : Type :=
  | ConfigNotLoaded (errs : list ConfigError)
  | NoRestConfig (err : error)
  | NoClusterInfo (err : error)
  | NoClusterVersion (err : error)
  | RequiredGateDisabled (gate : string)
  | ManagerNotCreated (err : error)
  | NoCertificates (err : error)
  | NoHealthCheck (err : error)
  | NoReadyCheck (err : error)
  | ManagerFailed (err : error)
  | WebhookNotCreated (name : string) (err : error)
  | ControllerNotCreated (name : string) (err : error).

(** The options of the controller manager that depend on the configuration. *)
Record ManagerOptions : Type := {
  mo_TLSNextProtos : list string;
  mo_MetricsBindAddress : string;
  mo_SecureServing : bool;
  mo_HealthProbeBindAddress : string;
  mo_LeaderElection : bool;
  mo_LeaderElectionID : string
}.

(** The certificate rotator, as [util.ManageCerts] configures it. *)
Inductive WebhookType : Type := Mutating | Validating.

Record CertRotator : Type := {
  cr_SecretKey : string * string;      (* namespace and name *)
  cr_CertDir : string;
  cr_CAName : string;
  cr_CAOrganization : string;
  cr_DNSName : string;
  cr_Webhooks : list (WebhookType * string);
  cr_RequireLeaderElection : bool
}.

Definition certDir : string := "/tmp/k8s-webhook-server/serving-certs".
Definition boostMutatingWebHookName : string := "kube-startup-cpu-boost-mutating-webhook-configuration".
Definition boostValidatingWebHookName : string := "kube-startup-cpu-boost-validating-webhook-configuration".
Definition caName : string := "kube-startup-cpu-boost-ca".
Definition caOrganization : string := "kube-startup-cpu-boost".
Definition webhookServiceName : string := "kube-startup-cpu-boost-webhook-service".
Definition webhookSecretName : string := "kube-startup-cpu-boost-webhook-secret".

Definition ManageCerts (AddRotator : CertRotator → option error) (namespace : string) : option error :=
  let dnsName := (webhookServiceName +:+ "." +:+ namespace +:+ ".svc")%string in
  AddRotator {|
    cr_SecretKey := (namespace, webhookSecretName);
    cr_CertDir := certDir;
    cr_CAName := caName;
    cr_CAOrganization := caOrganization;
    cr_DNSName := dnsName;
    cr_Webhooks := [(Mutating, boostMutatingWebHookName); (Validating, boostValidatingWebHookName)];
    cr_RequireLeaderElection := false
  |}.

(** What the environment and the libraries answer. *)
Record StartupEnv : Type := {
  se_LookupEnv : LookupEnvFunc;
  se_GetConfig : option error;
  se_NewClusterInfo : option error;
  se_ServerVersion : result string;
  se_NewManager : ManagerOptions → option error;
  se_AddRotator : CertRotator → option error
}.

(** What [main] hands to the goroutine. *)
Record Setup : Type := {
  su_cfg : Config;
  su_podLevelResourcesEnabled : bool;
  su_serverVersion : string;
  su_options : ManagerOptions;
  su_logger : LoggerOptions
}.

Section main.
Context `{MetricsEndpoint} (σ : RangeOrder).

Definition validateRequiredFeatureGates (featureGates : FeatureGates) : option ExitReason :=
  if negb (IsEnabledAnyStage σ featureGates InPlacePodVerticalScalingFeatureGateName)
  then Some (RequiredGateDisabled InPlacePodVerticalScalingFeatureGateName)
  else None.

(** The check of the feature gates: the flag for pod level resources. *)
Definition check_features (cfg : Config) : ExitReason + bool :=
  if cfg_ValidateFeatureEnabled cfg then
    match GetFeatureGates σ with
    | inr featureGates =>
        match validateRequiredFeatureGates featureGates with
        | Some e => inl e
        | None => inr (IsEnabledAnyStage σ featureGates PodLevelResourcesFeatureGateName)
        end
    | inl _ => inr false
    end
  else inr false.

Definition manager_options (cfg : Config) : ManagerOptions := {|
  mo_TLSNextProtos := if negb (cfg_HTTP2 cfg) then ["http/1.1"] else [];
  mo_MetricsBindAddress := cfg_MetricsProbeBindAddr cfg;
  mo_SecureServing := cfg_SecureMetrics cfg;
  mo_HealthProbeBindAddress := cfg_HealthProbeBindAddr cfg;
  mo_LeaderElection := cfg_LeaderElection cfg;
  mo_LeaderElectionID := leaderElectionID
|}.

Definition main_setup (env : StartupEnv) : ExitReason + Setup :=
  match LoadConfig (se_LookupEnv env) with
  | (_, Some errs) => inl (ConfigNotLoaded errs)
  | (cfg, None) =>
  match se_GetConfig env with
  | Some err => inl (NoRestConfig err)
  | None =>
  match se_NewClusterInfo env with
  | Some err => inl (NoClusterInfo err)
  | None =>
  match GetClusterVersion (se_ServerVersion env) NewClusterInfo with
  | (inl err, _, _) => inl (NoClusterVersion err)
  | (inr versionInfo, _, _) =>
  match check_features cfg with
  | inl e => inl e
  | inr podLevelResourcesEnabled =>
  let options := manager_options cfg in
  match se_NewManager env options with
  | Some err => inl (ManagerNotCreated err)
  | None =>
  match ManageCerts (se_AddRotator env) (cfg_Namespace cfg) with
  | Some err => inl (NoCertificates err)
  | None => inr {| su_cfg := cfg; su_podLevelResourcesEnabled := podLevelResourcesEnabled;
                   su_serverVersion := versionInfo; su_options := options;
                   su_logger := Logger (cfg_ZapDevelopment cfg) (cfg_ZapLogLevel cfg) |}
  end end end end end end end.
End main.

(** ** The process *)

(** The next statement of [main] and of [setupControllers]. *)
Inductive MainPC : Type := MHealthz | MReadyz | MAdd | MStart | MServing.
Inductive SetupPC : Type :=
  SWait | SBoostWebhook | SGlobalWebhook | SPodWebhook | SSetReconciler | SBoostCtrl | SGlobalCtrl | SDone.

Record Process : Type := {
  pr_exited : option ExitReason;
  pr_main : MainPC;
  pr_setup : SetupPC;
  pr_certsReady : bool;
  pr_controllersReady : bool;
  (* the resources whose validating webhook is registered *)
  pr_webhooks : list string;
  pr_podHandler : option podCPUBoostHandler;
  pr_reconcilerSet : bool;
  (* the boost controller with its revert mode *)
  pr_boostCtrl : option bool;
  pr_globalCtrl : bool;
  pr_readyzInstalled : bool;
  pr_managerAdded : bool;
  pr_managerRunning : bool;
  (* this process holds the lease of the leader election *)
  pr_elected : bool;
  (* the context of the controller manager is cancelled *)
  pr_cancelled : bool
}.

Definition start_process : Process := {|
  pr_exited := None; pr_main := MHealthz; pr_setup := SWait; pr_certsReady := false;
  pr_controllersReady := false; pr_webhooks := []; pr_podHandler := None; pr_reconcilerSet := false;
  pr_boostCtrl := None; pr_globalCtrl := false; pr_readyzInstalled := false; pr_managerAdded := false;
  pr_managerRunning := false; pr_elected := false; pr_cancelled := false
|}.

Definition exit (p : Process) (e : ExitReason) : Process := {|
  pr_exited := Some e; pr_main := pr_main p; pr_setup := pr_setup p; pr_certsReady := pr_certsReady p;
  pr_controllersReady := pr_controllersReady p; pr_webhooks := pr_webhooks p;
  pr_podHandler := pr_podHandler p; pr_reconcilerSet := pr_reconcilerSet p; pr_boostCtrl := pr_boostCtrl p;
  pr_globalCtrl := pr_globalCtrl p; pr_readyzInstalled := pr_readyzInstalled p;
  pr_managerAdded := pr_managerAdded p; pr_managerRunning := pr_managerRunning p;
  pr_elected := pr_elected p; pr_cancelled := pr_cancelled p
|}.

(** [main] moves on, with the effects on the manager. *)
Definition main_next (p : Process) (pc : MainPC) (readyz added running : bool) : Process := {|
  pr_exited := pr_exited p; pr_main := pc; pr_setup := pr_setup p; pr_certsReady := pr_certsReady p;
  pr_controllersReady := pr_controllersReady p; pr_webhooks := pr_webhooks p;
  pr_podHandler := pr_podHandler p; pr_reconcilerSet := pr_reconcilerSet p; pr_boostCtrl := pr_boostCtrl p;
  pr_globalCtrl := pr_globalCtrl p; pr_readyzInstalled := readyz; pr_managerAdded := added;
  pr_managerRunning := running; pr_elected := pr_elected p; pr_cancelled := pr_cancelled p
|}.

(** [setupControllers] moves on, with what it registers. *)
Definition setup_next (p : Process) (pc : SetupPC) (ready : bool) (webhooks : list string)
    (handler : option podCPUBoostHandler) (reconciler : bool) (boost : option bool) (global : bool) : Process := {|
  pr_exited := pr_exited p; pr_main := pr_main p; pr_setup := pc; pr_certsReady := pr_certsReady p;
  pr_controllersReady := ready; pr_webhooks := webhooks; pr_podHandler := handler;
  pr_reconcilerSet := reconciler; pr_boostCtrl := boost; pr_globalCtrl := global;
  pr_readyzInstalled := pr_readyzInstalled p; pr_managerAdded := pr_managerAdded p;
  pr_managerRunning := pr_managerRunning p;
  pr_elected := pr_elected p; pr_cancelled := pr_cancelled p
|}.

Definition certs_generated (p : Process) : Process := {|
  pr_exited := pr_exited p; pr_main := pr_main p; pr_setup := pr_setup p; pr_certsReady := true;
  pr_controllersReady := pr_controllersReady p; pr_webhooks := pr_webhooks p;
  pr_podHandler := pr_podHandler p; pr_reconcilerSet := pr_reconcilerSet p; pr_boostCtrl := pr_boostCtrl p;
  pr_globalCtrl := pr_globalCtrl p; pr_readyzInstalled := pr_readyzInstalled p;
  pr_managerAdded := pr_managerAdded p; pr_managerRunning := pr_managerRunning p;
  pr_elected := pr_elected p; pr_cancelled := pr_cancelled p
|}.

(** The lease, the context and the boost manager under the controller
    manager. *)
Definition run_next (p : Process) (running elected cancelled : bool) : Process := {|
  pr_exited := pr_exited p; pr_main := pr_main p; pr_setup := pr_setup p; pr_certsReady := pr_certsReady p;
  pr_controllersReady := pr_controllersReady p; pr_webhooks := pr_webhooks p;
  pr_podHandler := pr_podHandler p; pr_reconcilerSet := pr_reconcilerSet p; pr_boostCtrl := pr_boostCtrl p;
  pr_globalCtrl := pr_globalCtrl p; pr_readyzInstalled := pr_readyzInstalled p;
  pr_managerAdded := pr_managerAdded p; pr_managerRunning := running; pr_elected := elected;
  pr_cancelled := cancelled
|}.

Section process.
Context `{VersionLib} (su : Setup).

(** The rest of [main]; [err] is what the call of the statement returns.
    The failure to add the boost manager is only logged.  When mgr.Start
    returns without an error the process ends, and there is no next step. *)
Definition main_step (err : option error) (p : Process) : option Process :=
  match pr_main p, err with
  | MHealthz, Some e => Some (exit p (NoHealthCheck e))
  | MHealthz, None =>
      Some (main_next p MReadyz (pr_readyzInstalled p) (pr_managerAdded p) (pr_managerRunning p))
  | MReadyz, Some e => Some (exit p (NoReadyCheck e))
  | MReadyz, None => Some (main_next p MAdd true (pr_managerAdded p) (pr_managerRunning p))
  | MAdd, Some _ => Some (main_next p MStart (pr_readyzInstalled p) (pr_managerAdded p) (pr_managerRunning p))
  | MAdd, None => Some (main_next p MStart (pr_readyzInstalled p) true (pr_managerRunning p))
  | MStart, _ => Some (main_next p MServing (pr_readyzInstalled p) (pr_managerAdded p) (pr_managerRunning p))
  | MServing, Some e => Some (exit p (ManagerFailed e))
  | MServing, None => None
  end.

Definition NewPodCPUBoostWebHook (removeLimits podLevelResourcesEnabled : bool) : podCPUBoostHandler :=
  {| PodWebhook.removeLimits := removeLimits;
     PodWebhook.podLevelResourcesEnabled := podLevelResourcesEnabled |}.

(** [Setup] of the webhook package and the exit of its caller. *)
Definition webhook_setup (err : option error) (p : Process) : option Process :=
  match pr_setup p, err with
  | SBoostWebhook, Some e => Some (exit p (WebhookNotCreated "StartupCPUBoost" e))
  | SBoostWebhook, None =>
      Some (setup_next p SGlobalWebhook (pr_controllersReady p) (pr_webhooks p ++ ["StartupCPUBoost"])
              (pr_podHandler p) (pr_reconcilerSet p) (pr_boostCtrl p) (pr_globalCtrl p))
  | SGlobalWebhook, Some e => Some (exit p (WebhookNotCreated "GlobalStartupCPUBoost" e))
  | SGlobalWebhook, None =>
      Some (setup_next p SPodWebhook (pr_controllersReady p) (pr_webhooks p ++ ["GlobalStartupCPUBoost"])
              (pr_podHandler p) (pr_reconcilerSet p) (pr_boostCtrl p) (pr_globalCtrl p))
  | _, _ => None
  end.

(** [setupControllers]; it blocks until the certificates are ready, and the
    deferred close of the channel happens when it returns. *)
Definition setup_step (err : option error) (p : Process) : option Process :=
  match pr_setup p, err with
  | SWait, _ =>
      if pr_certsReady p then
        Some (setup_next p SBoostWebhook (pr_controllersReady p) (pr_webhooks p) (pr_podHandler p)
                (pr_reconcilerSet p) (pr_boostCtrl p) (pr_globalCtrl p))
      else None
  | SBoostWebhook, _ | SGlobalWebhook, _ => webhook_setup err p
  | SPodWebhook, _ =>
      Some (setup_next p SSetReconciler (pr_controllersReady p) (pr_webhooks p)
              (Some (NewPodCPUBoostWebHook (cfg_RemoveLimits (su_cfg su)) (su_podLevelResourcesEnabled su)))
              (pr_reconcilerSet p) (pr_boostCtrl p) (pr_globalCtrl p))
  | SSetReconciler, _ =>
      Some (setup_next p SBoostCtrl (pr_controllersReady p) (pr_webhooks p) (pr_podHandler p)
              true (pr_boostCtrl p) (pr_globalCtrl p))
  | SBoostCtrl, Some e => Some (exit p (ControllerNotCreated "StartupCPUBoost" e))
  | SBoostCtrl, None =>
      Some (setup_next p SGlobalCtrl (pr_controllersReady p) (pr_webhooks p) (pr_podHandler p)
              (pr_reconcilerSet p) (Some (shouldUseLegacyRevertMode (su_serverVersion su))) (pr_globalCtrl p))
  | SGlobalCtrl, Some e => Some (exit p (ControllerNotCreated "GlobalStartupCPUBoost" e))
  | SGlobalCtrl, None =>
      Some (setup_next p SDone true (pr_webhooks p) (pr_podHandler p) (pr_reconcilerSet p)
              (pr_boostCtrl p) true)
  | SDone, _ => None
  end.

(** What can happen next: a statement of either goroutine with the result
    of its call, or the certificates are there.  Once the controller manager
    serves, it can win the leader election if that is enabled, a signal can
    cancel its context, and it runs the boost manager that it was given.  The
    boost manager does not say that it needs no leader election, so with
    leader election it is run on the leader only; its [Start] first sets it
    running, and when the context is cancelled it returns and the deferred
    call sets it not running.  When the lease is lost, mgr.Start returns an
    error. *)
Inductive Event : Type :=
  | MainEvent (err : option error)
  | SetupEvent (err : option error)
  | CertsEvent
  | ElectedEvent
  | RunManagerEvent
  | CancelEvent
  | StopManagerEvent.

Definition leads (p : Process) : bool := negb (mo_LeaderElection (su_options su)) || pr_elected p.

(** The controller manager and the boost manager under it. *)
Definition serving_step (e : Event) (p : Process) : option Process :=
  match e with
  | ElectedEvent =>
      if mo_LeaderElection (su_options su)
      then Some (run_next p (pr_managerRunning p) true (pr_cancelled p)) else None
  | RunManagerEvent =>
      if pr_managerAdded p && leads p && negb (pr_cancelled p) && negb (pr_managerRunning p)
      then Some (run_next p true (pr_elected p) (pr_cancelled p)) else None
  | CancelEvent => Some (run_next p (pr_managerRunning p) (pr_elected p) true)
  | StopManagerEvent =>
      if pr_managerRunning p && pr_cancelled p
      then Some (run_next p false (pr_elected p) (pr_cancelled p)) else None
  | _ => None
  end.

Definition fire (e : Event) (p : Process) : option Process :=
  match pr_exited p with
  | Some _ => None
  | None =>
      match e with
      | MainEvent err => main_step err p
      | SetupEvent err => setup_step err p
      | CertsEvent => Some (certs_generated p)
      | _ => match pr_main p with MServing => serving_step e p | _ => None end
      end
  end.

Inductive reachable : Process → Prop :=
  | reach_start : reachable start_process
  | reach_step e p p' : reachable p → fire e p = Some p' → reachable p'.

(** The readiness check; nothing answers before it is installed. *)
Definition readyz (p : Process) : option error :=
  if negb (pr_controllersReady p) then Some "controllers are not ready"
  else if negb (pr_managerRunning p) then Some "boost manager is not running"
  else None.
End process.

(** ** Lemmas *)

Section lemmas.
Context `{VersionLib} (su : Setup).

Definition the_handler : podCPUBoostHandler :=
  NewPodCPUBoostWebHook (cfg_RemoveLimits (su_cfg su)) (su_podLevelResourcesEnabled su).

(** How far [setupControllers] is. *)
Definition setup_rank (pc : SetupPC) : nat :=
  match pc with
  | SWait => 0 | SBoostWebhook => 1 | SGlobalWebhook => 2 | SPodWebhook => 3 | SSetReconciler => 4
  | SBoostCtrl => 5 | SGlobalCtrl => 6 | SDone => 7
  end.

(** What is registered follows from how far it is. *)
Record setup_inv (p : Process) : Prop := {
  inv_certs : (1 ≤ setup_rank (pr_setup p))%nat → pr_certsReady p = true;
  inv_webhooks : pr_webhooks p = take (setup_rank (pr_setup p) - 1) ["StartupCPUBoost"; "GlobalStartupCPUBoost"];
  inv_handler : (3 < setup_rank (pr_setup p))%nat → pr_podHandler p = Some the_handler;
  inv_reconciler : (4 < setup_rank (pr_setup p))%nat → pr_reconcilerSet p = true;
  inv_boost : (5 < setup_rank (pr_setup p))%nat →
    pr_boostCtrl p = Some (shouldUseLegacyRevertMode (su_serverVersion su));
  inv_global : (6 < setup_rank (pr_setup p))%nat → pr_globalCtrl p = true;
  inv_ready : pr_controllersReady p = true → pr_setup p = SDone;
  inv_running : pr_managerRunning p = true →
    pr_main p = MServing ∧ pr_managerAdded p = true ∧ leads su p = true
}.

(** Events of the controller manager, not of a goroutine of [main]. *)
Definition of_manager (e : Event) : bool :=
  match e with MainEvent _ | SetupEvent _ | CertsEvent => false | _ => true end.

(** An event of the controller manager, with its guard. *)
Lemma serving_inv e p p' :
  of_manager e = true →
  fire su e p = Some p' →
  pr_exited p = None ∧ pr_main p = MServing ∧ ∃ running elected cancelled,
    p' = run_next p running elected cancelled ∧
    (pr_elected p = true → elected = true) ∧ (pr_cancelled p = true → cancelled = true) ∧
    (running = true → pr_managerRunning p = true ∨ pr_managerAdded p = true ∧ leads su p = true ∧ pr_cancelled p = false) ∧
    (e ≠ ElectedEvent → elected = pr_elected p) ∧ (e ≠ CancelEvent → cancelled = pr_cancelled p) ∧
    (pr_managerRunning p = true → e ≠ StopManagerEvent → running = true) ∧
    (e = StopManagerEvent → pr_cancelled p = true ∧ running = false).
Proof.
  intros He. unfold fire. destruct (pr_exited p); [done|].
  destruct e as [err|err| | | | |]; try done; destruct (pr_main p); try done; cbn.
  - destruct (mo_LeaderElection _); [|done]. intros [= <-]. split_and!; [done|done|].
    eexists _, _, _. split; [reflexivity|]. split_and!; auto; done.
  - destruct (pr_managerAdded p) eqn:Ha; [|done]. destruct (leads su p) eqn:Hl; [|done].
    destruct (pr_cancelled p) eqn:Hc; [done|]. destruct (pr_managerRunning p); [done|]. intros [= <-].
    split_and!; [done|done|]. eexists _, _, _. split; [reflexivity|]. split_and!; auto; done.
  - intros [= <-]. split_and!; [done|done|]. eexists _, _, _. split; [reflexivity|]. split_and!; auto; done.
  - destruct (pr_managerRunning p); [|done]. destruct (pr_cancelled p) eqn:Hc; [|done]. intros [= <-].
    split_and!; [done|done|]. eexists _, _, _. split; [reflexivity|]. split_and!; auto; done.
Qed.

(** The other events leave the lease, the context and the boost manager
    alone. *)
Lemma goroutine_frame e p p' :
  of_manager e = false →
  fire su e p = Some p' →
  pr_managerRunning p' = pr_managerRunning p ∧ pr_elected p' = pr_elected p ∧
  pr_cancelled p' = pr_cancelled p ∧ (pr_controllersReady p = true → pr_controllersReady p' = true).
Proof.
  intros He. unfold fire. destruct (pr_exited p); [done|]. destruct e as [err|err| | | | |]; try done.
  - unfold main_step. by destruct (pr_main p), err; intros; simplify_eq/=.
  - unfold setup_step, webhook_setup. destruct (pr_setup p), err; intros; simplify_eq/=;
      try (destruct (pr_certsReady p); [|done]); by simplify_eq/=.
  - by intros [= <-].
Qed.

Lemma leads_mono p p' : leads su p = true → (pr_elected p = true → pr_elected p' = true) → leads su p' = true.
Proof. unfold leads. destruct (mo_LeaderElection _); cbn; auto. Qed.

Lemma process_inv p : reachable su p → setup_inv p.
Proof.
  induction 1 as [|e p p' _ [Hce Hwe Hha Hre Hbo Hgl Hrd Hru] Hf]; [split; cbn; lia || done|].
  destruct (of_manager e) eqn:He.
  { apply serving_inv in Hf as (_ & Hm & r & el & c & -> & Hel & _ & Hr & _); [|done].
    split; try done. intros Hrun. destruct (Hr Hrun) as [Hold|(Ha & Hl & _)].
    - destruct (Hru Hold) as (? & ? & Hl). split_and!; [done|done|]. by apply (leads_mono p).
    - split_and!; [done|done|]. by apply (leads_mono p). }
  unfold fire in Hf. destruct (pr_exited p); [done|]. destruct e as [err|err| | | | |]; try done.
  - unfold main_step in Hf. destruct (pr_main p) eqn:Hm, err; simplify_eq/=; split; cbn; try done;
      intros Hr; destruct (Hru Hr) as (? & ? & ?); split_and!; first [done|congruence].
  - unfold setup_step, webhook_setup in Hf. destruct (pr_setup p) eqn:Hs, err; cbn in *; simplify_eq/=;
      try (destruct (pr_certsReady p) eqn:Hcr; [|done]); simplify_eq/=; split; cbn;
      rewrite ?Hs, ?Hwe; cbn; try done; try lia; intros; auto with lia; by specialize (Hrd ltac:(done)).
  - simplify_eq/=. by split.
Qed.

(** A step in which no call fails, no signal arrives and something changes. *)
Definition succeeding (e : Event) : bool :=
  match e with MainEvent (Some _) | SetupEvent (Some _) | CancelEvent => false | _ => true end.

Definition progress_step (p p' : Process) : Prop :=
  ∃ e, succeeding e = true ∧ fire su e p = Some p' ∧ p' ≠ p.

Definition main_rank (pc : MainPC) : nat :=
  match pc with MHealthz => 0 | MReadyz => 1 | MAdd => 2 | MStart => 3 | MServing => 4 end.

(** The statements left, the certificates, the election and the start of the
    boost manager, or its end. *)
Definition remaining (p : Process) : nat :=
  (4 - main_rank (pr_main p)) + (7 - setup_rank (pr_setup p)) +
  (if pr_certsReady p then 0 else 1) + (if pr_elected p then 0 else 1) +
  (if Bool.eqb (pr_managerRunning p) (pr_cancelled p) then 1 else 0).

(** As long as no call fails and no signal arrives, the process runs and
    what was done is there. *)
Record healthy (p : Process) : Prop := {
  he_alive : pr_exited p = None;
  he_context : pr_cancelled p = false;
  he_added : (2 < main_rank (pr_main p))%nat → pr_managerAdded p = true;
  he_ready : pr_setup p = SDone → pr_controllersReady p = true
}.

Lemma progress_remaining p p' : progress_step p p' → (remaining p' < remaining p)%nat.
Proof.
  intros (e & Hok & Hf & Hne). unfold fire in Hf.
  destruct p as [[] pc spc certs ready wh ph rs bc gc rz ad run el can]; cbn in Hf; [done|].
  unfold remaining. destruct e as [[]|[]| | | | |]; cbn in Hok; try done.
  - destruct pc; cbn in Hf; simplify_eq/=; lia.
  - destruct spc; cbn in Hf; try (destruct certs; [|done]); simplify_eq/=; lia.
  - simplify_eq/=. destruct certs; [done|]. lia.
  - destruct pc; try done. cbn in Hf. destruct (mo_LeaderElection _); [|done]. simplify_eq/=. destruct el; [done|]. lia.
  - destruct pc; try done. cbn in Hf. destruct ad; [|done]. destruct (leads _ _); [|done].
    destruct can, run; try done. simplify_eq/=. lia.
  - destruct pc; try done. cbn in Hf. destruct can, run; try done. simplify_eq/=. lia.
Qed.

Lemma progress_healthy p p' : healthy p → progress_step p p' → healthy p'.
Proof.
  intros [Ha Hc Hd Hr] (e & Hok & Hf & _).
  destruct (of_manager e) eqn:He.
  { apply serving_inv in Hf as (_ & Hm & r & el & c & -> & _ & _ & _ & _ & Hcan & _); [|done].
    split; try done. cbn. rewrite Hcan; [done|]. by intros ->. }
  unfold fire in Hf. rewrite Ha in Hf. destruct e as [[]|[]| | | | |]; cbn in Hok; try done.
  - unfold main_step in Hf. destruct (pr_main p) eqn:Hm; cbn in *; simplify_eq/=; split; cbn; auto with lia.
  - unfold setup_step, webhook_setup in Hf. destruct (pr_setup p) eqn:Hm; cbn in *; try (destruct (pr_certsReady p); [|done]);
      simplify_eq/=; split; cbn; auto with lia; done.
  - simplify_eq/=. by split.
Qed.

Lemma progress_acc p : Acc (λ p' p, progress_step p p') p.
Proof.
  apply (Acc_impl (λ p' p, (remaining p' < remaining p)%nat));
    [apply (wf_projected lt remaining); [done|apply lt_wf]|].
  intros p1 p2. apply progress_remaining.
Qed.

Lemma healthy_progress p : healthy p → readyz p = None ∨ ∃ p', progress_step p p'.
Proof.
  intros [Ha Hcan Hd Hr]. assert (∀ e p', succeeding e = true → fire su e p = Some p' →
    remaining p' ≠ remaining p → readyz p = None ∨ ∃ p', progress_step p p') as Hgo.
  { intros e p' Hok Hf Hne. right. exists p', e. split_and!; [done|done|]. by intros ->. }
  destruct p as [ex pc spc certs ready wh ph rs bc gc rz ad run el can]; cbn in *. subst ex can.
  destruct certs; [|apply (Hgo CertsEvent _ eq_refl eq_refl); unfold remaining; cbn; lia].
  destruct pc; try (eapply (Hgo (MainEvent None)); [done|reflexivity|unfold remaining; cbn; lia]).
  destruct spc; try (eapply (Hgo (SetupEvent None)); [done|reflexivity|unfold remaining; cbn; lia]).
  rewrite Hd in * by (cbn; lia). destruct run; [left; unfold readyz; cbn; by rewrite Hr|].
  destruct (mo_LeaderElection (su_options su)) eqn:Hle, el.
  all: try (eapply (Hgo RunManagerEvent); [done|cbn; unfold leads; rewrite Hle; reflexivity|unfold remaining; cbn; lia]).
  eapply (Hgo ElectedEvent); [done|cbn; rewrite Hle; reflexivity|unfold remaining; cbn; lia].
Qed.

Lemma readyz_None p : readyz p = None ↔ pr_controllersReady p = true ∧ pr_managerRunning p = true.
Proof. unfold readyz. by destruct (pr_controllersReady p), (pr_managerRunning p); cbn; intuition. Qed.

(** Only a signal ends readiness. *)
Lemma ready_stable e p p' :
  e ≠ CancelEvent → pr_cancelled p = false → readyz p = None → fire su e p = Some p' →
  pr_cancelled p' = false ∧ readyz p' = None.
Proof.
  rewrite !readyz_None. intros He Hc [Hr Hm] Hf.
  destruct (of_manager e) eqn:Hs.
  - apply serving_inv in Hf as (_ & _ & r & el & c & -> & _ & _ & _ & _ & Hcan & Hrun & Hstop); [|done].
    split_and!; [by cbn; rewrite Hcan|done|]. cbn. apply Hrun; [done|]. intros ->.
    destruct (Hstop eq_refl). congruence.
  - apply goroutine_frame in Hf as (-> & _ & -> & Hcr); [auto|done].
Qed.

(** Without the lease the boost manager does not run. *)
Lemma standby_stable e p p' :
  mo_LeaderElection (su_options su) = true → e ≠ ElectedEvent →
  pr_elected p = false ∧ pr_managerRunning p = false → fire su e p = Some p' →
  pr_elected p' = false ∧ pr_managerRunning p' = false.
Proof.
  intros Hle He [Hel Hr] Hf.
  destruct (of_manager e) eqn:Hs.
  - apply serving_inv in Hf as (_ & _ & r & el & c & -> & _ & _ & Hrun & Hne & _); [|done].
    cbn. rewrite Hne by done. split; [done|]. destruct r; [|done].
    destruct (Hrun eq_refl) as [|(_ & Hl & _)]; [congruence|]. unfold leads in Hl. by rewrite Hle, Hel in Hl.
  - apply goroutine_frame in Hf as (-> & -> & _); done.
Qed.

(** A boost manager that has stopped is not started again. *)
Lemma stopped_stable e p p' :
  pr_cancelled p = true ∧ pr_managerRunning p = false → fire su e p = Some p' →
  pr_cancelled p' = true ∧ pr_managerRunning p' = false.
Proof.
  intros [Hc Hr] Hf.
  destruct (of_manager e) eqn:Hs.
  - apply serving_inv in Hf as (_ & _ & r & el & c & -> & _ & Hcan & Hrun & _); [|done].
    cbn. rewrite Hcan by done. split; [done|]. destruct r; [|done].
    destruct (Hrun eq_refl) as [|(_ & _ & ?)]; congruence.
  - apply goroutine_frame in Hf as (-> & _ & -> & _); done.
Qed.
End lemmas.

(** ** Properties *)

(** C36: an operator that reports ready is completely set up, as the
    environment configured it, under every interleaving of [main] and
    [setupControllers].  Both validating webhooks and the pod webhook are
    registered, the latter with the configured removal of limits; the boost
    manager runs and knows its reconciler, and if leader election is enabled
    the process is the leader; both controllers are set up, with
    the revert mode for the version of the server.  If the features are to be
    validated and could be read, in-place resizing is enabled and pod level
    resources are respected exactly if the cluster has them enabled. *)
Theorem ready_operator_configured `{MetricsEndpoint} `{VersionLib} σ env su p :
  main_setup σ env = inr su → reachable su p → readyz p = None →
  let cfg := env_config (se_LookupEnv env) in
  su_cfg su = cfg ∧ se_ServerVersion env = inr (su_serverVersion su) ∧
  pr_webhooks p = ["StartupCPUBoost"; "GlobalStartupCPUBoost"] ∧ pr_reconcilerSet p = true ∧ pr_globalCtrl p = true ∧
  pr_managerRunning p = true ∧ (cfg_LeaderElection cfg = true → pr_elected p = true) ∧ pr_certsReady p = true ∧
  pr_boostCtrl p = Some (shouldUseLegacyRevertMode (su_serverVersion su)) ∧
  pr_podHandler p = Some {| removeLimits := cfg_RemoveLimits cfg;
                            podLevelResourcesEnabled := su_podLevelResourcesEnabled su |} ∧
  match GetFeatureGates σ with
  | inr f => if cfg_ValidateFeatureEnabled cfg
             then IsEnabledAnyStage σ f InPlacePodVerticalScalingFeatureGateName = true ∧
                  su_podLevelResourcesEnabled su = IsEnabledAnyStage σ f PodLevelResourcesFeatureGateName
             else su_podLevelResourcesEnabled su = false
  | inl _ => su_podLevelResourcesEnabled su = false
  end.
Proof.
  intros Hsu Hp Hready cfg.
  assert (su_cfg su = cfg ∧ se_ServerVersion env = inr (su_serverVersion su) ∧
    check_features σ cfg = inr (su_podLevelResourcesEnabled su) ∧
    mo_LeaderElection (su_options su) = cfg_LeaderElection cfg) as (Hcfg & Hver & Hfeat & Hle).
  { unfold main_setup in Hsu. rewrite LoadConfig_eq in Hsu. fold cfg in Hsu.
    destruct (foldl _ _ _); [|done]. unfold GetClusterVersion in Hsu. cbn [ci_clusterVersion NewClusterInfo] in Hsu.
    destruct (se_GetConfig env), (se_NewClusterInfo env), (se_ServerVersion env); try done.
    destruct (check_features σ cfg) eqn:Hc; [done|].
    destruct (se_NewManager env _); [done|]. destruct (ManageCerts _ _); [done|].
    by injection Hsu as <-. }
  unfold readyz in Hready. destruct (pr_controllersReady p) eqn:Hr; [|done].
  destruct (pr_managerRunning p) eqn:Hrun; [|done].
  destruct (process_inv su p Hp) as [Hce Hwe Hha Hre Hbo Hgl Hrd Hru]. specialize (Hrd Hr).
  destruct (Hru Hrun) as (_ & _ & Hl). unfold leads in Hl. rewrite Hle in Hl.
  rewrite Hrd in *. cbn in Hce, Hwe, Hha, Hre, Hbo, Hgl. rewrite <-Hcfg.
  split_and!; auto with lia; [by rewrite Hcfg; intros Hc; rewrite Hc in Hl|].
  rewrite Hcfg. revert Hfeat. unfold check_features, validateRequiredFeatureGates.
  destruct (cfg_ValidateFeatureEnabled cfg), (GetFeatureGates σ) as [e|f]; try by intros [= <-].
  destruct (IsEnabledAnyStage σ f InPlacePodVerticalScalingFeatureGateName); [|done]. by intros [= <-].
Qed.

(** C37: when the operator is ready.  If no call fails and no signal arrives,
    then under every interleaving of [main], [setupControllers], the
    certificates, the leader election (won at some time if it is enabled) and
    the controller manager, a state is reached in which the readiness check
    succeeds, and from then on it succeeds whatever happens, until a signal
    cancels the context or the process exits.  With leader election enabled,
    an operator that has not won it is never ready.  And an operator whose
    boost manager has stopped is never ready again. *)
Theorem operator_becomes_ready `{VersionLib} su :
  eventually (progress_step su)
    (λ p, readyz p = None ∧
       ∀ p', rtc (λ p p', ∃ e, e ≠ CancelEvent ∧ fire su e p = Some p') p p' → readyz p' = None)
    start_process ∧
  (mo_LeaderElection (su_options su) = true →
     ∀ p, rtc (λ p p', ∃ e, e ≠ ElectedEvent ∧ fire su e p = Some p') start_process p → readyz p ≠ None) ∧
  (∀ p p1 p2, fire su StopManagerEvent p = Some p1 → rtc (λ p p', ∃ e, fire su e p = Some p') p1 p2 →
     readyz p2 ≠ None).
Proof.
  split_and!.
  - apply (eventually_acc _ healthy).
    + apply progress_acc.
    + split; cbn; [done|done|lia|done].
    + intros p p'. apply progress_healthy.
    + intros p Hp. pose proof (he_context p Hp) as Hc.
      apply (healthy_progress su) in Hp as [Hr|]; [left; split; [done|]|by right].
      intros p' Hp'. apply (rtc_ind_r (λ p, pr_cancelled p = false ∧ readyz p = None)) in Hp'; [apply Hp'|done|].
      intros p1 p2 _ (e & He & Hf) [Hc1 Hr1]. by eapply ready_stable.
  - intros Hle p Hp. rewrite readyz_None.
    apply (rtc_ind_r (λ p, pr_elected p = false ∧ pr_managerRunning p = false)) in Hp as [_ Hr]; [|done|].
    + intros [_ ?]. congruence.
    + intros p1 p2 _ (e & He & Hf) Hp1. by eapply standby_stable.
  - intros p p1 p2 Hf Hp. rewrite readyz_None.
    assert (pr_cancelled p1 = true ∧ pr_managerRunning p1 = false) as Hp1.
    { apply serving_inv in Hf as (_ & _ & r & el & c & -> & _ & _ & _ & _ & Hcan & _ & Hstop); [|done].
      destruct (Hstop eq_refl) as [Hc ->]. split; [|done]. cbn. by rewrite Hcan. }
    apply (rtc_ind_r (λ p, pr_cancelled p = true ∧ pr_managerRunning p = false)) in Hp as [_ Hr]; [|done|].
    + intros [_ ?]. congruence.
    + intros p3 p4 _ (e & Hf') Hp3. by eapply stopped_stable.
Qed.

(** ** Witnesses *)

Module witness.
#[local] Instance endpoint : MetricsEndpoint := FeatureGates.witness.server.
(** Any comparison of versions will do. *)
#[local] Instance versions : VersionLib := {| CompareKubeAwareVersionStrings := λ _ _, 1 |}.

Definition env : StartupEnv := {|
  se_LookupEnv := λ var, if (var =? RemoveLimitsEnvVar)%string then Some "false"
                         else if (var =? LeaderElectionEnvVar)%string then Some "true" else None;
  se_GetConfig := None; se_NewClusterInfo := None; se_ServerVersion := inr "v1.33.1";
  se_NewManager := λ _, None; se_AddRotator := λ _, None |}.

Definition cfg : Config := set_LeaderElection (set_RemoveLimits (LoadDefaults zero_Config) false) true.

Definition su : Setup := {|
  su_cfg := cfg;
  su_podLevelResourcesEnabled := false; su_serverVersion := "v1.33.1";
  su_options := manager_options cfg; su_logger := Logger false 0 |}.

Fixpoint run (es : list Event) (p : Process) : option Process :=
  match es with
  | [] => Some p
  | e :: es => fire su e p ≫= run es
  end.

Lemma run_reachable es p p' : reachable su p → run es p = Some p' → reachable su p'.
Proof.
  revert p. induction es as [|e es IH]; intros p Hp; cbn; [by intros [= <-]|].
  destruct (fire su e p) as [q|] eqn:Hf; [|done]. apply IH. by eapply reach_step.
Qed.

(** The two goroutines interleave, and the process wins the election. *)
Definition trace : list Event :=
  [MainEvent None; CertsEvent; SetupEvent None; MainEvent None; SetupEvent None; MainEvent None;
   SetupEvent None; SetupEvent None; SetupEvent None; MainEvent None; ElectedEvent; RunManagerEvent;
   SetupEvent None; SetupEvent None].

Example ready_operator_configured_witness :
  ∃ p, run trace start_process = Some p ∧ readyz p = None ∧
    pr_podHandler p = Some {| removeLimits := false; podLevelResourcesEnabled := false |}.
Proof.
  destruct (run trace start_process) as [p|] eqn:Hrun; [|by vm_compute in Hrun].
  assert (readyz p = None) as Hready by (vm_compute in Hrun; injection Hrun as <-; reflexivity).
  exists p. split; [done|]. split; [exact Hready|].
  destruct (ready_operator_configured order_fwd env su p) as (_ & _ & _ & _ & _ & _ & _ & _ & _ & Hh & _).
  - vm_compute; reflexivity.
  - exact (run_reachable trace _ p (reach_start su) Hrun).
  - exact Hready.
  - exact Hh.
Defined.
End witness.
